(** * convert-onnx: the ONNX to Wasnn model converter

    A shallow embedding of [tools/convert-onnx.py] and the properties of its
    graph builder, attribute reader, constant normalizer and serializer.

    Python objects that the converter mutates in place (the lists of input
    indexes, the sets of handled attribute names) live in a store and are
    referred to by location; everything else is a value.  Exceptions and the
    mutable state are threaded by a state-and-exception monad [M]. *)

From Stdlib Require Import ZArith String Ascii List Lia Bool.
From Stdlib Require Import DecimalString DecimalZ.
From Stdlib Require Import Floats.PrimFloat Floats.SpecFloat Floats.FloatOps.
From stdpp Require Import gmap strings list fin_maps.

Set Warnings "-inexact-float,-register-all,-clear-no-such-hyp".
Open Scope Z_scope.

(** ** Python strings *)

(** The double quote character, which f-strings of the source embed. *)
Definition dq : string := String (ascii_of_nat 34) EmptyString.

(** [str(n)] for a Python or numpy integer. *)
Definition str_of_Z (z : Z) : string := NilZero.string_of_int (Z.to_int z).

Definition str_of_nat (n : nat) : string := str_of_Z (Z.of_nat n).

(** [sep.join(l)] *)
Fixpoint join (sep : string) (l : list string) : string :=
  match l with
  | [] => EmptyString
  | [x] => x
  | x :: rest => x +:+ sep +:+ join sep rest
  end.

(** [str(l)] for a list of integers: [[1, 2, 3]]. *)
Definition str_of_ints (l : list Z) : string :=
  "[" +:+ join ", " (map str_of_Z l) +:+ "]".

(** [s.split("_")]: the accumulator holds the current word, reversed. *)
Fixpoint split_aux (acc : string) (s : string) : list string :=
  match s with
  | EmptyString => [String.rev acc]
  | String c rest =>
      if Ascii.eqb c "_"%char then String.rev acc :: split_aux EmptyString rest
      else split_aux (String c acc) rest
  end.

Definition split_underscore (s : string) : list string := split_aux EmptyString s.

(** ** Unicode

    A Python [str] is held as its UTF-8 encoding, and [bytes] as they are,
    both in a [string], whose characters are bytes. *)

Definition byte_of (c : ascii) : Z := Z.of_nat (nat_of_ascii c).
Definition char_of (z : Z) : ascii := ascii_of_nat (Z.to_nat z).

(** Well-formed UTF-8, which is what [bytes.decode()] accepts: no overlong
    form, no surrogate, nothing beyond U+10FFFF.  [pending] continuation
    bytes are still due, the next of them within [lo..hi]. *)
Fixpoint utf8_valid_from (pending : nat) (lo hi : Z) (s : string) : bool :=
  match s with
  | EmptyString => match pending with O => true | S _ => false end
  | String c rest =>
      let b := byte_of c in
      match pending with
      | O =>
          if b <? 128 then utf8_valid_from 0 128 191 rest
          else if (194 <=? b) && (b <=? 223) then utf8_valid_from 1 128 191 rest
          else if b =? 224 then utf8_valid_from 2 160 191 rest
          else if (225 <=? b) && (b <=? 236) then utf8_valid_from 2 128 191 rest
          else if b =? 237 then utf8_valid_from 2 128 159 rest
          else if (238 <=? b) && (b <=? 239) then utf8_valid_from 2 128 191 rest
          else if b =? 240 then utf8_valid_from 3 144 191 rest
          else if (241 <=? b) && (b <=? 243) then utf8_valid_from 3 128 191 rest
          else if b =? 244 then utf8_valid_from 3 128 143 rest
          else false
      | S n =>
          if (lo <=? b) && (b <=? hi) then utf8_valid_from n 128 191 rest
          else false
      end
  end.

Definition utf8_valid (s : string) : bool := utf8_valid_from 0 128 191 s.

(** The first code point of a [str] and what follows it: [s[0]], [s[1:]]. *)
Definition utf8_head (s : string) : option (Z * string) :=
  match s with
  | EmptyString => None
  | String c0 rest0 =>
      let b0 := byte_of c0 in
      if b0 <? 192 then Some (b0, rest0)
      else if b0 <? 224 then
        match rest0 with
        | String c1 rest1 => Some ((b0 - 192) * 64 + (byte_of c1 - 128), rest1)
        | _ => Some (b0, rest0)
        end
      else if b0 <? 240 then
        match rest0 with
        | String c1 (String c2 rest2) =>
            Some (((b0 - 224) * 64 + (byte_of c1 - 128)) * 64
                  + (byte_of c2 - 128), rest2)
        | _ => Some (b0, rest0)
        end
      else
        match rest0 with
        | String c1 (String c2 (String c3 rest3)) =>
            Some ((((b0 - 240) * 64 + (byte_of c1 - 128)) * 64
                   + (byte_of c2 - 128)) * 64 + (byte_of c3 - 128), rest3)
        | _ => Some (b0, rest0)
        end
  end.

Fixpoint code_points_from (fuel : nat) (s : string) : list Z :=
  match fuel with
  | O => []
  | S fuel =>
      match utf8_head s with
      | None => []
      | Some (cp, rest) => cp :: code_points_from fuel rest
      end
  end.

(** The code points of a [str]. *)
Definition code_points (s : string) : list Z :=
  code_points_from (String.length s) s.

(** The UTF-8 encoding of a code point. *)
Definition utf8_encode (cp : Z) : string :=
  if cp <? 128 then String (char_of cp) EmptyString
  else if cp <? 2048 then
    String (char_of (192 + cp / 64))
      (String (char_of (128 + cp mod 64)) EmptyString)
  else if cp <? 65536 then
    String (char_of (224 + cp / 4096))
      (String (char_of (128 + (cp / 64) mod 64))
         (String (char_of (128 + cp mod 64)) EmptyString))
  else
    String (char_of (240 + cp / 262144))
      (String (char_of (128 + (cp / 4096) mod 64))
         (String (char_of (128 + (cp / 64) mod 64))
            (String (char_of (128 + cp mod 64)) EmptyString))).

Fixpoint utf8_encode_all (cps : list Z) : string :=
  match cps with
  | [] => EmptyString
  | cp :: rest => utf8_encode cp +:+ utf8_encode_all rest
  end.

(** [c.upper()] on one ASCII character. *)
Definition upper_ascii (c : ascii) : ascii :=
  let n := nat_of_ascii c in
  if (97 <=? n)%nat && (n <=? 122)%nat then ascii_of_nat (n - 32) else c.

(** The code points beyond ASCII that [str.upper()] changes, each with the
    code points it becomes (Unicode 14.0.0, full case mapping: some become
    two or three). *)
Definition upper_table : list (Z * list Z) :=
    [(181, [924]); (223, [83; 83]); (224, [192]); (225, [193]); (226, [194]);
     (227, [195]); (228, [196]); (229, [197]); (230, [198]); (231, [199]);
     (232, [200]); (233, [201]); (234, [202]); (235, [203]); (236, [204]);
     (237, [205]); (238, [206]); (239, [207]); (240, [208]); (241, [209]);
     (242, [210]); (243, [211]); (244, [212]); (245, [213]); (246, [214]);
     (248, [216]); (249, [217]); (250, [218]); (251, [219]); (252, [220]);
     (253, [221]); (254, [222]); (255, [376]); (257, [256]); (259, [258]);
     (261, [260]); (263, [262]); (265, [264]); (267, [266]); (269, [268]);
     (271, [270]); (273, [272]); (275, [274]); (277, [276]); (279, [278]);
     (281, [280]); (283, [282]); (285, [284]); (287, [286]); (289, [288]);
     (291, [290]); (293, [292]); (295, [294]); (297, [296]); (299, [298]);
     (301, [300]); (303, [302]); (305, [73]); (307, [306]); (309, [308])]
    ++
    [(311, [310]); (314, [313]); (316, [315]); (318, [317]); (320, [319]);
     (322, [321]); (324, [323]); (326, [325]); (328, [327]); (329, [700; 78]);
     (331, [330]); (333, [332]); (335, [334]); (337, [336]); (339, [338]);
     (341, [340]); (343, [342]); (345, [344]); (347, [346]); (349, [348]);
     (351, [350]); (353, [352]); (355, [354]); (357, [356]); (359, [358]);
     (361, [360]); (363, [362]); (365, [364]); (367, [366]); (369, [368]);
     (371, [370]); (373, [372]); (375, [374]); (378, [377]); (380, [379]);
     (382, [381]); (383, [83]); (384, [579]); (387, [386]); (389, [388]);
     (392, [391]); (396, [395]); (402, [401]); (405, [502]); (409, [408]);
     (410, [573]); (414, [544]); (417, [416]); (419, [418]); (421, [420]);
     (424, [423]); (429, [428]); (432, [431]); (436, [435]); (438, [437]);
     (441, [440]); (445, [444]); (447, [503]); (453, [452]); (454, [452])]
    ++
    [(456, [455]); (457, [455]); (459, [458]); (460, [458]); (462, [461]);
     (464, [463]); (466, [465]); (468, [467]); (470, [469]); (472, [471]);
     (474, [473]); (476, [475]); (477, [398]); (479, [478]); (481, [480]);
     (483, [482]); (485, [484]); (487, [486]); (489, [488]); (491, [490]);
     (493, [492]); (495, [494]); (496, [74; 780]); (498, [497]); (499, [497]);
     (501, [500]); (505, [504]); (507, [506]); (509, [508]); (511, [510]);
     (513, [512]); (515, [514]); (517, [516]); (519, [518]); (521, [520]);
     (523, [522]); (525, [524]); (527, [526]); (529, [528]); (531, [530]);
     (533, [532]); (535, [534]); (537, [536]); (539, [538]); (541, [540]);
     (543, [542]); (547, [546]); (549, [548]); (551, [550]); (553, [552]);
     (555, [554]); (557, [556]); (559, [558]); (561, [560]); (563, [562]);
     (572, [571]); (575, [11390]); (576, [11391]); (578, [577]); (583, [582])]
    ++
    [(585, [584]); (587, [586]); (589, [588]); (591, [590]); (592, [11375]);
     (593, [11373]); (594, [11376]); (595, [385]); (596, [390]); (598, [393]);
     (599, [394]); (601, [399]); (603, [400]); (604, [42923]); (608, [403]);
     (609, [42924]); (611, [404]); (613, [42893]); (614, [42922]);
     (616, [407]); (617, [406]); (618, [42926]); (619, [11362]);
     (620, [42925]); (623, [412]); (625, [11374]); (626, [413]); (629, [415]);
     (637, [11364]); (640, [422]); (642, [42949]); (643, [425]);
     (647, [42929]); (648, [430]); (649, [580]); (650, [433]); (651, [434]);
     (652, [581]); (658, [439]); (669, [42930]); (670, [42928]); (837, [921]);
     (881, [880]); (883, [882]); (887, [886]); (891, [1021]); (892, [1022]);
     (893, [1023]); (912, [921; 776; 769]); (940, [902]); (941, [904]);
     (942, [905]); (943, [906]); (944, [933; 776; 769]); (945, [913]);
     (946, [914]); (947, [915]); (948, [916]); (949, [917]); (950, [918])]
    ++
    [(951, [919]); (952, [920]); (953, [921]); (954, [922]); (955, [923]);
     (956, [924]); (957, [925]); (958, [926]); (959, [927]); (960, [928]);
     (961, [929]); (962, [931]); (963, [931]); (964, [932]); (965, [933]);
     (966, [934]); (967, [935]); (968, [936]); (969, [937]); (970, [938]);
     (971, [939]); (972, [908]); (973, [910]); (974, [911]); (976, [914]);
     (977, [920]); (981, [934]); (982, [928]); (983, [975]); (985, [984]);
     (987, [986]); (989, [988]); (991, [990]); (993, [992]); (995, [994]);
     (997, [996]); (999, [998]); (1001, [1000]); (1003, [1002]);
     (1005, [1004]); (1007, [1006]); (1008, [922]); (1009, [929]);
     (1010, [1017]); (1011, [895]); (1013, [917]); (1016, [1015]);
     (1019, [1018]); (1072, [1040]); (1073, [1041]); (1074, [1042]);
     (1075, [1043]); (1076, [1044]); (1077, [1045]); (1078, [1046]);
     (1079, [1047]); (1080, [1048]); (1081, [1049]); (1082, [1050]);
     (1083, [1051])]
    ++
    [(1084, [1052]); (1085, [1053]); (1086, [1054]); (1087, [1055]);
     (1088, [1056]); (1089, [1057]); (1090, [1058]); (1091, [1059]);
     (1092, [1060]); (1093, [1061]); (1094, [1062]); (1095, [1063]);
     (1096, [1064]); (1097, [1065]); (1098, [1066]); (1099, [1067]);
     (1100, [1068]); (1101, [1069]); (1102, [1070]); (1103, [1071]);
     (1104, [1024]); (1105, [1025]); (1106, [1026]); (1107, [1027]);
     (1108, [1028]); (1109, [1029]); (1110, [1030]); (1111, [1031]);
     (1112, [1032]); (1113, [1033]); (1114, [1034]); (1115, [1035]);
     (1116, [1036]); (1117, [1037]); (1118, [1038]); (1119, [1039]);
     (1121, [1120]); (1123, [1122]); (1125, [1124]); (1127, [1126]);
     (1129, [1128]); (1131, [1130]); (1133, [1132]); (1135, [1134]);
     (1137, [1136]); (1139, [1138]); (1141, [1140]); (1143, [1142]);
     (1145, [1144]); (1147, [1146]); (1149, [1148]); (1151, [1150]);
     (1153, [1152]); (1163, [1162]); (1165, [1164]); (1167, [1166]);
     (1169, [1168]); (1171, [1170]); (1173, [1172]); (1175, [1174])]
    ++
    [(1177, [1176]); (1179, [1178]); (1181, [1180]); (1183, [1182]);
     (1185, [1184]); (1187, [1186]); (1189, [1188]); (1191, [1190]);
     (1193, [1192]); (1195, [1194]); (1197, [1196]); (1199, [1198]);
     (1201, [1200]); (1203, [1202]); (1205, [1204]); (1207, [1206]);
     (1209, [1208]); (1211, [1210]); (1213, [1212]); (1215, [1214]);
     (1218, [1217]); (1220, [1219]); (1222, [1221]); (1224, [1223]);
     (1226, [1225]); (1228, [1227]); (1230, [1229]); (1231, [1216]);
     (1233, [1232]); (1235, [1234]); (1237, [1236]); (1239, [1238]);
     (1241, [1240]); (1243, [1242]); (1245, [1244]); (1247, [1246]);
     (1249, [1248]); (1251, [1250]); (1253, [1252]); (1255, [1254]);
     (1257, [1256]); (1259, [1258]); (1261, [1260]); (1263, [1262]);
     (1265, [1264]); (1267, [1266]); (1269, [1268]); (1271, [1270]);
     (1273, [1272]); (1275, [1274]); (1277, [1276]); (1279, [1278]);
     (1281, [1280]); (1283, [1282]); (1285, [1284]); (1287, [1286]);
     (1289, [1288]); (1291, [1290]); (1293, [1292]); (1295, [1294])]
    ++
    [(1297, [1296]); (1299, [1298]); (1301, [1300]); (1303, [1302]);
     (1305, [1304]); (1307, [1306]); (1309, [1308]); (1311, [1310]);
     (1313, [1312]); (1315, [1314]); (1317, [1316]); (1319, [1318]);
     (1321, [1320]); (1323, [1322]); (1325, [1324]); (1327, [1326]);
     (1377, [1329]); (1378, [1330]); (1379, [1331]); (1380, [1332]);
     (1381, [1333]); (1382, [1334]); (1383, [1335]); (1384, [1336]);
     (1385, [1337]); (1386, [1338]); (1387, [1339]); (1388, [1340]);
     (1389, [1341]); (1390, [1342]); (1391, [1343]); (1392, [1344]);
     (1393, [1345]); (1394, [1346]); (1395, [1347]); (1396, [1348]);
     (1397, [1349]); (1398, [1350]); (1399, [1351]); (1400, [1352]);
     (1401, [1353]); (1402, [1354]); (1403, [1355]); (1404, [1356]);
     (1405, [1357]); (1406, [1358]); (1407, [1359]); (1408, [1360]);
     (1409, [1361]); (1410, [1362]); (1411, [1363]); (1412, [1364]);
     (1413, [1365]); (1414, [1366]); (1415, [1333; 1362]); (4304, [7312]);
     (4305, [7313]); (4306, [7314]); (4307, [7315]); (4308, [7316])]
    ++
    [(4309, [7317]); (4310, [7318]); (4311, [7319]); (4312, [7320]);
     (4313, [7321]); (4314, [7322]); (4315, [7323]); (4316, [7324]);
     (4317, [7325]); (4318, [7326]); (4319, [7327]); (4320, [7328]);
     (4321, [7329]); (4322, [7330]); (4323, [7331]); (4324, [7332]);
     (4325, [7333]); (4326, [7334]); (4327, [7335]); (4328, [7336]);
     (4329, [7337]); (4330, [7338]); (4331, [7339]); (4332, [7340]);
     (4333, [7341]); (4334, [7342]); (4335, [7343]); (4336, [7344]);
     (4337, [7345]); (4338, [7346]); (4339, [7347]); (4340, [7348]);
     (4341, [7349]); (4342, [7350]); (4343, [7351]); (4344, [7352]);
     (4345, [7353]); (4346, [7354]); (4349, [7357]); (4350, [7358]);
     (4351, [7359]); (5112, [5104]); (5113, [5105]); (5114, [5106]);
     (5115, [5107]); (5116, [5108]); (5117, [5109]); (7296, [1042]);
     (7297, [1044]); (7298, [1054]); (7299, [1057]); (7300, [1058]);
     (7301, [1058]); (7302, [1066]); (7303, [1122]); (7304, [42570]);
     (7545, [42877]); (7549, [11363]); (7566, [42950]); (7681, [7680])]
    ++
    [(7683, [7682]); (7685, [7684]); (7687, [7686]); (7689, [7688]);
     (7691, [7690]); (7693, [7692]); (7695, [7694]); (7697, [7696]);
     (7699, [7698]); (7701, [7700]); (7703, [7702]); (7705, [7704]);
     (7707, [7706]); (7709, [7708]); (7711, [7710]); (7713, [7712]);
     (7715, [7714]); (7717, [7716]); (7719, [7718]); (7721, [7720]);
     (7723, [7722]); (7725, [7724]); (7727, [7726]); (7729, [7728]);
     (7731, [7730]); (7733, [7732]); (7735, [7734]); (7737, [7736]);
     (7739, [7738]); (7741, [7740]); (7743, [7742]); (7745, [7744]);
     (7747, [7746]); (7749, [7748]); (7751, [7750]); (7753, [7752]);
     (7755, [7754]); (7757, [7756]); (7759, [7758]); (7761, [7760]);
     (7763, [7762]); (7765, [7764]); (7767, [7766]); (7769, [7768]);
     (7771, [7770]); (7773, [7772]); (7775, [7774]); (7777, [7776]);
     (7779, [7778]); (7781, [7780]); (7783, [7782]); (7785, [7784]);
     (7787, [7786]); (7789, [7788]); (7791, [7790]); (7793, [7792]);
     (7795, [7794]); (7797, [7796]); (7799, [7798]); (7801, [7800])]
    ++
    [(7803, [7802]); (7805, [7804]); (7807, [7806]); (7809, [7808]);
     (7811, [7810]); (7813, [7812]); (7815, [7814]); (7817, [7816]);
     (7819, [7818]); (7821, [7820]); (7823, [7822]); (7825, [7824]);
     (7827, [7826]); (7829, [7828]); (7830, [72; 817]); (7831, [84; 776]);
     (7832, [87; 778]); (7833, [89; 778]); (7834, [65; 702]); (7835, [7776]);
     (7841, [7840]); (7843, [7842]); (7845, [7844]); (7847, [7846]);
     (7849, [7848]); (7851, [7850]); (7853, [7852]); (7855, [7854]);
     (7857, [7856]); (7859, [7858]); (7861, [7860]); (7863, [7862]);
     (7865, [7864]); (7867, [7866]); (7869, [7868]); (7871, [7870]);
     (7873, [7872]); (7875, [7874]); (7877, [7876]); (7879, [7878]);
     (7881, [7880]); (7883, [7882]); (7885, [7884]); (7887, [7886]);
     (7889, [7888]); (7891, [7890]); (7893, [7892]); (7895, [7894]);
     (7897, [7896]); (7899, [7898]); (7901, [7900]); (7903, [7902]);
     (7905, [7904]); (7907, [7906]); (7909, [7908]); (7911, [7910]);
     (7913, [7912]); (7915, [7914]); (7917, [7916]); (7919, [7918])]
    ++
    [(7921, [7920]); (7923, [7922]); (7925, [7924]); (7927, [7926]);
     (7929, [7928]); (7931, [7930]); (7933, [7932]); (7935, [7934]);
     (7936, [7944]); (7937, [7945]); (7938, [7946]); (7939, [7947]);
     (7940, [7948]); (7941, [7949]); (7942, [7950]); (7943, [7951]);
     (7952, [7960]); (7953, [7961]); (7954, [7962]); (7955, [7963]);
     (7956, [7964]); (7957, [7965]); (7968, [7976]); (7969, [7977]);
     (7970, [7978]); (7971, [7979]); (7972, [7980]); (7973, [7981]);
     (7974, [7982]); (7975, [7983]); (7984, [7992]); (7985, [7993]);
     (7986, [7994]); (7987, [7995]); (7988, [7996]); (7989, [7997]);
     (7990, [7998]); (7991, [7999]); (8000, [8008]); (8001, [8009]);
     (8002, [8010]); (8003, [8011]); (8004, [8012]); (8005, [8013]);
     (8016, [933; 787]); (8017, [8025]); (8018, [933; 787; 768]);
     (8019, [8027]); (8020, [933; 787; 769]); (8021, [8029]);
     (8022, [933; 787; 834]); (8023, [8031]); (8032, [8040]); (8033, [8041]);
     (8034, [8042]); (8035, [8043]); (8036, [8044]); (8037, [8045]);
     (8038, [8046]); (8039, [8047])]
    ++
    [(8048, [8122]); (8049, [8123]); (8050, [8136]); (8051, [8137]);
     (8052, [8138]); (8053, [8139]); (8054, [8154]); (8055, [8155]);
     (8056, [8184]); (8057, [8185]); (8058, [8170]); (8059, [8171]);
     (8060, [8186]); (8061, [8187]); (8064, [7944; 921]); (8065, [7945; 921]);
     (8066, [7946; 921]); (8067, [7947; 921]); (8068, [7948; 921]);
     (8069, [7949; 921]); (8070, [7950; 921]); (8071, [7951; 921]);
     (8072, [7944; 921]); (8073, [7945; 921]); (8074, [7946; 921]);
     (8075, [7947; 921]); (8076, [7948; 921]); (8077, [7949; 921]);
     (8078, [7950; 921]); (8079, [7951; 921]); (8080, [7976; 921]);
     (8081, [7977; 921]); (8082, [7978; 921]); (8083, [7979; 921]);
     (8084, [7980; 921]); (8085, [7981; 921]); (8086, [7982; 921]);
     (8087, [7983; 921]); (8088, [7976; 921]); (8089, [7977; 921]);
     (8090, [7978; 921]); (8091, [7979; 921]); (8092, [7980; 921]);
     (8093, [7981; 921]); (8094, [7982; 921]); (8095, [7983; 921]);
     (8096, [8040; 921]); (8097, [8041; 921]); (8098, [8042; 921]);
     (8099, [8043; 921]); (8100, [8044; 921]); (8101, [8045; 921]);
     (8102, [8046; 921]); (8103, [8047; 921]); (8104, [8040; 921]);
     (8105, [8041; 921]); (8106, [8042; 921]); (8107, [8043; 921]);
     (8108, [8044; 921]); (8109, [8045; 921])]
    ++
    [(8110, [8046; 921]); (8111, [8047; 921]); (8112, [8120]); (8113, [8121]);
     (8114, [8122; 921]); (8115, [913; 921]); (8116, [902; 921]);
     (8118, [913; 834]); (8119, [913; 834; 921]); (8124, [913; 921]);
     (8126, [921]); (8130, [8138; 921]); (8131, [919; 921]);
     (8132, [905; 921]); (8134, [919; 834]); (8135, [919; 834; 921]);
     (8140, [919; 921]); (8144, [8152]); (8145, [8153]);
     (8146, [921; 776; 768]); (8147, [921; 776; 769]); (8150, [921; 834]);
     (8151, [921; 776; 834]); (8160, [8168]); (8161, [8169]);
     (8162, [933; 776; 768]); (8163, [933; 776; 769]); (8164, [929; 787]);
     (8165, [8172]); (8166, [933; 834]); (8167, [933; 776; 834]);
     (8178, [8186; 921]); (8179, [937; 921]); (8180, [911; 921]);
     (8182, [937; 834]); (8183, [937; 834; 921]); (8188, [937; 921]);
     (8526, [8498]); (8560, [8544]); (8561, [8545]); (8562, [8546]);
     (8563, [8547]); (8564, [8548]); (8565, [8549]); (8566, [8550]);
     (8567, [8551]); (8568, [8552]); (8569, [8553]); (8570, [8554]);
     (8571, [8555]); (8572, [8556]); (8573, [8557]); (8574, [8558]);
     (8575, [8559]); (8580, [8579]); (9424, [9398]); (9425, [9399]);
     (9426, [9400]); (9427, [9401]); (9428, [9402])]
    ++
    [(9429, [9403]); (9430, [9404]); (9431, [9405]); (9432, [9406]);
     (9433, [9407]); (9434, [9408]); (9435, [9409]); (9436, [9410]);
     (9437, [9411]); (9438, [9412]); (9439, [9413]); (9440, [9414]);
     (9441, [9415]); (9442, [9416]); (9443, [9417]); (9444, [9418]);
     (9445, [9419]); (9446, [9420]); (9447, [9421]); (9448, [9422]);
     (9449, [9423]); (11312, [11264]); (11313, [11265]); (11314, [11266]);
     (11315, [11267]); (11316, [11268]); (11317, [11269]); (11318, [11270]);
     (11319, [11271]); (11320, [11272]); (11321, [11273]); (11322, [11274]);
     (11323, [11275]); (11324, [11276]); (11325, [11277]); (11326, [11278]);
     (11327, [11279]); (11328, [11280]); (11329, [11281]); (11330, [11282]);
     (11331, [11283]); (11332, [11284]); (11333, [11285]); (11334, [11286]);
     (11335, [11287]); (11336, [11288]); (11337, [11289]); (11338, [11290]);
     (11339, [11291]); (11340, [11292]); (11341, [11293]); (11342, [11294]);
     (11343, [11295]); (11344, [11296]); (11345, [11297]); (11346, [11298]);
     (11347, [11299]); (11348, [11300]); (11349, [11301]); (11350, [11302])]
    ++
    [(11351, [11303]); (11352, [11304]); (11353, [11305]); (11354, [11306]);
     (11355, [11307]); (11356, [11308]); (11357, [11309]); (11358, [11310]);
     (11359, [11311]); (11361, [11360]); (11365, [570]); (11366, [574]);
     (11368, [11367]); (11370, [11369]); (11372, [11371]); (11379, [11378]);
     (11382, [11381]); (11393, [11392]); (11395, [11394]); (11397, [11396]);
     (11399, [11398]); (11401, [11400]); (11403, [11402]); (11405, [11404]);
     (11407, [11406]); (11409, [11408]); (11411, [11410]); (11413, [11412]);
     (11415, [11414]); (11417, [11416]); (11419, [11418]); (11421, [11420]);
     (11423, [11422]); (11425, [11424]); (11427, [11426]); (11429, [11428]);
     (11431, [11430]); (11433, [11432]); (11435, [11434]); (11437, [11436]);
     (11439, [11438]); (11441, [11440]); (11443, [11442]); (11445, [11444]);
     (11447, [11446]); (11449, [11448]); (11451, [11450]); (11453, [11452]);
     (11455, [11454]); (11457, [11456]); (11459, [11458]); (11461, [11460]);
     (11463, [11462]); (11465, [11464]); (11467, [11466]); (11469, [11468]);
     (11471, [11470]); (11473, [11472]); (11475, [11474]); (11477, [11476])]
    ++
    [(11479, [11478]); (11481, [11480]); (11483, [11482]); (11485, [11484]);
     (11487, [11486]); (11489, [11488]); (11491, [11490]); (11500, [11499]);
     (11502, [11501]); (11507, [11506]); (11520, [4256]); (11521, [4257]);
     (11522, [4258]); (11523, [4259]); (11524, [4260]); (11525, [4261]);
     (11526, [4262]); (11527, [4263]); (11528, [4264]); (11529, [4265]);
     (11530, [4266]); (11531, [4267]); (11532, [4268]); (11533, [4269]);
     (11534, [4270]); (11535, [4271]); (11536, [4272]); (11537, [4273]);
     (11538, [4274]); (11539, [4275]); (11540, [4276]); (11541, [4277]);
     (11542, [4278]); (11543, [4279]); (11544, [4280]); (11545, [4281]);
     (11546, [4282]); (11547, [4283]); (11548, [4284]); (11549, [4285]);
     (11550, [4286]); (11551, [4287]); (11552, [4288]); (11553, [4289]);
     (11554, [4290]); (11555, [4291]); (11556, [4292]); (11557, [4293]);
     (11559, [4295]); (11565, [4301]); (42561, [42560]); (42563, [42562]);
     (42565, [42564]); (42567, [42566]); (42569, [42568]); (42571, [42570]);
     (42573, [42572]); (42575, [42574]); (42577, [42576]); (42579, [42578])]
    ++
    [(42581, [42580]); (42583, [42582]); (42585, [42584]); (42587, [42586]);
     (42589, [42588]); (42591, [42590]); (42593, [42592]); (42595, [42594]);
     (42597, [42596]); (42599, [42598]); (42601, [42600]); (42603, [42602]);
     (42605, [42604]); (42625, [42624]); (42627, [42626]); (42629, [42628]);
     (42631, [42630]); (42633, [42632]); (42635, [42634]); (42637, [42636]);
     (42639, [42638]); (42641, [42640]); (42643, [42642]); (42645, [42644]);
     (42647, [42646]); (42649, [42648]); (42651, [42650]); (42787, [42786]);
     (42789, [42788]); (42791, [42790]); (42793, [42792]); (42795, [42794]);
     (42797, [42796]); (42799, [42798]); (42803, [42802]); (42805, [42804]);
     (42807, [42806]); (42809, [42808]); (42811, [42810]); (42813, [42812]);
     (42815, [42814]); (42817, [42816]); (42819, [42818]); (42821, [42820]);
     (42823, [42822]); (42825, [42824]); (42827, [42826]); (42829, [42828]);
     (42831, [42830]); (42833, [42832]); (42835, [42834]); (42837, [42836]);
     (42839, [42838]); (42841, [42840]); (42843, [42842]); (42845, [42844]);
     (42847, [42846]); (42849, [42848]); (42851, [42850]); (42853, [42852])]
    ++
    [(42855, [42854]); (42857, [42856]); (42859, [42858]); (42861, [42860]);
     (42863, [42862]); (42874, [42873]); (42876, [42875]); (42879, [42878]);
     (42881, [42880]); (42883, [42882]); (42885, [42884]); (42887, [42886]);
     (42892, [42891]); (42897, [42896]); (42899, [42898]); (42900, [42948]);
     (42903, [42902]); (42905, [42904]); (42907, [42906]); (42909, [42908]);
     (42911, [42910]); (42913, [42912]); (42915, [42914]); (42917, [42916]);
     (42919, [42918]); (42921, [42920]); (42933, [42932]); (42935, [42934]);
     (42937, [42936]); (42939, [42938]); (42941, [42940]); (42943, [42942]);
     (42945, [42944]); (42947, [42946]); (42952, [42951]); (42954, [42953]);
     (42961, [42960]); (42967, [42966]); (42969, [42968]); (42998, [42997]);
     (43859, [42931]); (43888, [5024]); (43889, [5025]); (43890, [5026]);
     (43891, [5027]); (43892, [5028]); (43893, [5029]); (43894, [5030]);
     (43895, [5031]); (43896, [5032]); (43897, [5033]); (43898, [5034]);
     (43899, [5035]); (43900, [5036]); (43901, [5037]); (43902, [5038]);
     (43903, [5039]); (43904, [5040]); (43905, [5041]); (43906, [5042])]
    ++
    [(43907, [5043]); (43908, [5044]); (43909, [5045]); (43910, [5046]);
     (43911, [5047]); (43912, [5048]); (43913, [5049]); (43914, [5050]);
     (43915, [5051]); (43916, [5052]); (43917, [5053]); (43918, [5054]);
     (43919, [5055]); (43920, [5056]); (43921, [5057]); (43922, [5058]);
     (43923, [5059]); (43924, [5060]); (43925, [5061]); (43926, [5062]);
     (43927, [5063]); (43928, [5064]); (43929, [5065]); (43930, [5066]);
     (43931, [5067]); (43932, [5068]); (43933, [5069]); (43934, [5070]);
     (43935, [5071]); (43936, [5072]); (43937, [5073]); (43938, [5074]);
     (43939, [5075]); (43940, [5076]); (43941, [5077]); (43942, [5078]);
     (43943, [5079]); (43944, [5080]); (43945, [5081]); (43946, [5082]);
     (43947, [5083]); (43948, [5084]); (43949, [5085]); (43950, [5086]);
     (43951, [5087]); (43952, [5088]); (43953, [5089]); (43954, [5090]);
     (43955, [5091]); (43956, [5092]); (43957, [5093]); (43958, [5094]);
     (43959, [5095]); (43960, [5096]); (43961, [5097]); (43962, [5098]);
     (43963, [5099]); (43964, [5100]); (43965, [5101]); (43966, [5102])]
    ++
    [(43967, [5103]); (64256, [70; 70]); (64257, [70; 73]); (64258, [70; 76]);
     (64259, [70; 70; 73]); (64260, [70; 70; 76]); (64261, [83; 84]);
     (64262, [83; 84]); (64275, [1348; 1350]); (64276, [1348; 1333]);
     (64277, [1348; 1339]); (64278, [1358; 1350]); (64279, [1348; 1341]);
     (65345, [65313]); (65346, [65314]); (65347, [65315]); (65348, [65316]);
     (65349, [65317]); (65350, [65318]); (65351, [65319]); (65352, [65320]);
     (65353, [65321]); (65354, [65322]); (65355, [65323]); (65356, [65324]);
     (65357, [65325]); (65358, [65326]); (65359, [65327]); (65360, [65328]);
     (65361, [65329]); (65362, [65330]); (65363, [65331]); (65364, [65332]);
     (65365, [65333]); (65366, [65334]); (65367, [65335]); (65368, [65336]);
     (65369, [65337]); (65370, [65338]); (66600, [66560]); (66601, [66561]);
     (66602, [66562]); (66603, [66563]); (66604, [66564]); (66605, [66565]);
     (66606, [66566]); (66607, [66567]); (66608, [66568]); (66609, [66569]);
     (66610, [66570]); (66611, [66571]); (66612, [66572]); (66613, [66573]);
     (66614, [66574]); (66615, [66575]); (66616, [66576]); (66617, [66577]);
     (66618, [66578]); (66619, [66579]); (66620, [66580])]
    ++
    [(66621, [66581]); (66622, [66582]); (66623, [66583]); (66624, [66584]);
     (66625, [66585]); (66626, [66586]); (66627, [66587]); (66628, [66588]);
     (66629, [66589]); (66630, [66590]); (66631, [66591]); (66632, [66592]);
     (66633, [66593]); (66634, [66594]); (66635, [66595]); (66636, [66596]);
     (66637, [66597]); (66638, [66598]); (66639, [66599]); (66776, [66736]);
     (66777, [66737]); (66778, [66738]); (66779, [66739]); (66780, [66740]);
     (66781, [66741]); (66782, [66742]); (66783, [66743]); (66784, [66744]);
     (66785, [66745]); (66786, [66746]); (66787, [66747]); (66788, [66748]);
     (66789, [66749]); (66790, [66750]); (66791, [66751]); (66792, [66752]);
     (66793, [66753]); (66794, [66754]); (66795, [66755]); (66796, [66756]);
     (66797, [66757]); (66798, [66758]); (66799, [66759]); (66800, [66760]);
     (66801, [66761]); (66802, [66762]); (66803, [66763]); (66804, [66764]);
     (66805, [66765]); (66806, [66766]); (66807, [66767]); (66808, [66768]);
     (66809, [66769]); (66810, [66770]); (66811, [66771]); (66967, [66928]);
     (66968, [66929]); (66969, [66930]); (66970, [66931]); (66971, [66932])]
    ++
    [(66972, [66933]); (66973, [66934]); (66974, [66935]); (66975, [66936]);
     (66976, [66937]); (66977, [66938]); (66979, [66940]); (66980, [66941]);
     (66981, [66942]); (66982, [66943]); (66983, [66944]); (66984, [66945]);
     (66985, [66946]); (66986, [66947]); (66987, [66948]); (66988, [66949]);
     (66989, [66950]); (66990, [66951]); (66991, [66952]); (66992, [66953]);
     (66993, [66954]); (66995, [66956]); (66996, [66957]); (66997, [66958]);
     (66998, [66959]); (66999, [66960]); (67000, [66961]); (67001, [66962]);
     (67003, [66964]); (67004, [66965]); (68800, [68736]); (68801, [68737]);
     (68802, [68738]); (68803, [68739]); (68804, [68740]); (68805, [68741]);
     (68806, [68742]); (68807, [68743]); (68808, [68744]); (68809, [68745]);
     (68810, [68746]); (68811, [68747]); (68812, [68748]); (68813, [68749]);
     (68814, [68750]); (68815, [68751]); (68816, [68752]); (68817, [68753]);
     (68818, [68754]); (68819, [68755]); (68820, [68756]); (68821, [68757]);
     (68822, [68758]); (68823, [68759]); (68824, [68760]); (68825, [68761]);
     (68826, [68762]); (68827, [68763]); (68828, [68764]); (68829, [68765])]
    ++
    [(68830, [68766]); (68831, [68767]); (68832, [68768]); (68833, [68769]);
     (68834, [68770]); (68835, [68771]); (68836, [68772]); (68837, [68773]);
     (68838, [68774]); (68839, [68775]); (68840, [68776]); (68841, [68777]);
     (68842, [68778]); (68843, [68779]); (68844, [68780]); (68845, [68781]);
     (68846, [68782]); (68847, [68783]); (68848, [68784]); (68849, [68785]);
     (68850, [68786]); (71872, [71840]); (71873, [71841]); (71874, [71842]);
     (71875, [71843]); (71876, [71844]); (71877, [71845]); (71878, [71846]);
     (71879, [71847]); (71880, [71848]); (71881, [71849]); (71882, [71850]);
     (71883, [71851]); (71884, [71852]); (71885, [71853]); (71886, [71854]);
     (71887, [71855]); (71888, [71856]); (71889, [71857]); (71890, [71858]);
     (71891, [71859]); (71892, [71860]); (71893, [71861]); (71894, [71862]);
     (71895, [71863]); (71896, [71864]); (71897, [71865]); (71898, [71866]);
     (71899, [71867]); (71900, [71868]); (71901, [71869]); (71902, [71870]);
     (71903, [71871]); (93792, [93760]); (93793, [93761]); (93794, [93762]);
     (93795, [93763]); (93796, [93764]); (93797, [93765]); (93798, [93766])]
    ++
    [(93799, [93767]); (93800, [93768]); (93801, [93769]); (93802, [93770]);
     (93803, [93771]); (93804, [93772]); (93805, [93773]); (93806, [93774]);
     (93807, [93775]); (93808, [93776]); (93809, [93777]); (93810, [93778]);
     (93811, [93779]); (93812, [93780]); (93813, [93781]); (93814, [93782]);
     (93815, [93783]); (93816, [93784]); (93817, [93785]); (93818, [93786]);
     (93819, [93787]); (93820, [93788]); (93821, [93789]); (93822, [93790]);
     (93823, [93791]); (125218, [125184]); (125219, [125185]);
     (125220, [125186]); (125221, [125187]); (125222, [125188]);
     (125223, [125189]); (125224, [125190]); (125225, [125191]);
     (125226, [125192]); (125227, [125193]); (125228, [125194]);
     (125229, [125195]); (125230, [125196]); (125231, [125197]);
     (125232, [125198]); (125233, [125199]); (125234, [125200]);
     (125235, [125201]); (125236, [125202]); (125237, [125203]);
     (125238, [125204]); (125239, [125205]); (125240, [125206]);
     (125241, [125207]); (125242, [125208]); (125243, [125209]);
     (125244, [125210]); (125245, [125211]); (125246, [125212]);
     (125247, [125213]); (125248, [125214]); (125249, [125215]);
     (125250, [125216]); (125251, [125217])].

Fixpoint upper_lookup (table : list (Z * list Z)) (cp : Z) : option (list Z) :=
  match table with
  | [] => None
  | (k, v) :: rest => if k =? cp then Some v else upper_lookup rest cp
  end.

(** [c.upper()] on one character of a [str]. *)
Definition upper_code_point (cp : Z) : list Z :=
  if cp <? 128 then [byte_of (upper_ascii (char_of cp))]
  else match upper_lookup upper_table cp with
       | Some cps => cps
       | None => [cp]
       end.

(** ** numpy arrays *)

Inductive dtype :=
| float32 | int32 | bool_ | int8 | int16 | int64
| float16 | float64 | uint8 | uint16 | uint32 | uint64.

Definition dtype_name (d : dtype) : string :=
  match d with
  | float32 => "float32" | int32 => "int32" | bool_ => "bool"
  | int8 => "int8" | int16 => "int16" | int64 => "int64"
  | float16 => "float16" | float64 => "float64" | uint8 => "uint8"
  | uint16 => "uint16" | uint32 => "uint32" | uint64 => "uint64"
  end.

(** The flat element buffer of an array, in row-major order. *)
Inductive buffer :=
| FloatData (l : list float)
| IntData (l : list Z).

Record ndarray := mk_ndarray {
  arr_dtype : dtype;
  arr_shape : list Z;
  arr_data : buffer
}.

Definition buffer_length (b : buffer) : nat :=
  match b with
  | FloatData l => length l
  | IntData l => length l
  end.

(** [a.size]: the number of elements. *)
Definition size (a : ndarray) : nat := buffer_length (arr_data a).

(** Wrap-around of a fixed-width signed integer. *)
Definition wrap (bits : Z) (z : Z) : Z :=
  (z + 2 ^ (bits - 1)) mod 2 ^ bits - 2 ^ (bits - 1).

Definition INT32_MIN : Z := - 2 ^ 31.
Definition INT32_MAX : Z := 2 ^ 31 - 1.

(** [np.prod(shape)] over a Python list of integers: numpy multiplies in
    int64, and the product of the empty list is [1.0]. *)
Definition np_prod (shape : list Z) : Z :=
  fold_left (fun acc d => wrap 64 (acc * d)) shape 1.

(** The exact product, for comparison. *)
Definition product (shape : list Z) : Z := fold_right Z.mul 1 shape.

(** Rounding of a Python float (binary64) to binary32, as
    [astype(np.float32)] does. *)
Definition to_float32 (f : float) : float :=
  match Prim2SF f with
  | S754_finite s m e => SF2Prim (binary_round 24 128 s m e)
  | _ => f
  end.

(** [a.astype(np.int32)]: integer elements wrap around. *)
Definition astype_int32 (a : ndarray) : ndarray :=
  {| arr_dtype := int32;
     arr_shape := arr_shape a;
     arr_data := match arr_data a with
                 | IntData l => IntData (map (wrap 32) l)
                 | FloatData l => FloatData l
                 end |}.

(** [a.clip(lo, hi)] on an integer array. *)
Definition clip_Z (lo hi v : Z) : Z := Z.min (Z.max v lo) hi.

Definition clip (lo hi : Z) (a : ndarray) : ndarray :=
  {| arr_dtype := arr_dtype a;
     arr_shape := arr_shape a;
     arr_data := match arr_data a with
                 | IntData l => IntData (map (clip_Z lo hi) l)
                 | FloatData l => FloatData l
                 end |}.

(** The mathematical clamp the specification speaks of. *)
Definition clamp (lo hi v : Z) : Z :=
  if v <? lo then lo else if hi <? v then hi else v.

(** ** The ONNX model, as the [onnx] package presents it *)

Record TensorProto := {
  tensor_name : string;
  tensor_dims : list Z;
  tensor_dtype : dtype;   (* the numpy type [numpy_helper.to_array] yields *)
  tensor_data : buffer
}.

Inductive AttributeType :=
| UNDEFINED | FLOAT | INT | STRING | TENSOR | GRAPH | FLOATS | INTS
| STRINGS | TENSORS | GRAPHS | SPARSE_TENSOR | SPARSE_TENSORS
| TYPE_PROTO | TYPE_PROTOS.

Definition AttributeType_eqb (a b : AttributeType) : bool :=
  match a, b with
  | UNDEFINED, UNDEFINED | FLOAT, FLOAT | INT, INT | STRING, STRING
  | TENSOR, TENSOR | GRAPH, GRAPH | FLOATS, FLOATS | INTS, INTS
  | STRINGS, STRINGS | TENSORS, TENSORS | GRAPHS, GRAPHS
  | SPARSE_TENSOR, SPARSE_TENSOR | SPARSE_TENSORS, SPARSE_TENSORS
  | TYPE_PROTO, TYPE_PROTO | TYPE_PROTOS, TYPE_PROTOS => true
  | _, _ => false
  end.

(** A protobuf attribute: every value field exists and holds its default
    unless set; [attr_type] says which one is meant. *)
Record AttributeProto := {
  attr_name : string;
  attr_type : AttributeType;
  attr_f : float;
  attr_i : Z;
  attr_ints : list Z;
  attr_s : string;
  attr_t : TensorProto
}.

Record OperatorProto := {
  proto_name : string;
  proto_op_type : string;
  proto_input : list string;
  proto_output : list string;
  proto_attribute : list AttributeProto
}.

Record Dimension := {
  dim_param : string;
  dim_value : Z
}.

Record ValueInfoProto := {
  value_name : string;
  value_dim : list Dimension   (* [value.type.tensor_type.shape.dim] *)
}.

Record GraphProto := {
  g_initializer : list TensorProto;
  g_node : list OperatorProto;
  g_input : list ValueInfoProto;
  g_output : list ValueInfoProto
}.

(** ** Python values *)

(** What an attribute read may return, and what attribute objects hold. *)
Inductive PyVal :=
| PyNone
| PyBool (b : bool)
| PyInt (z : Z)
| PyFloat (f : float)
| PyStr (s : string)
| PyBytes (s : string)
| PyInts (l : list Z)
| PyTensor (t : TensorProto)
| PyTuple (l : list PyVal)
| PySg (enum variant : string)                        (* [sg.enum.variant] *)
| PyObject (cls : string) (fields : list (string * PyVal)).

(** [f == z] for a float and an integer: Python compares the exact
    values, so the float must be finite and integral. *)
Definition float_eq_Z (f : float) (z : Z) : bool :=
  match Prim2SF f with
  | S754_zero _ => z =? 0
  | S754_finite sign m e =>
      let v := if sign then Z.neg m else Z.pos m in
      if 0 <=? e then z =? v * 2 ^ e
      else (Z.pos m mod 2 ^ (- e) =? 0) && (z * 2 ^ (- e) =? v)
  | _ => false
  end.

Definition Z_of_bool (b : bool) : Z := if b then 1 else 0.

(** [a == b] on the values [check_attr] compares, an attribute value and a
    default: numbers compare by value whatever their types ([0 == 0.0],
    [1 == True]), strings and lists of integers with their own kind. *)
Definition py_eq (a b : PyVal) : bool :=
  match a, b with
  | PyNone, PyNone => true
  | PyBool x, PyBool y => Bool.eqb x y
  | PyInt x, PyInt y => x =? y
  | PyFloat x, PyFloat y => PrimFloat.eqb x y
  | PyBool x, PyInt y | PyInt y, PyBool x => Z_of_bool x =? y
  | PyFloat x, PyInt y | PyInt y, PyFloat x => float_eq_Z x y
  | PyFloat x, PyBool y | PyBool y, PyFloat x => float_eq_Z x (Z_of_bool y)
  | PyStr x, PyStr y => String.eqb x y
  | PyBytes x, PyBytes y => String.eqb x y
  | PyInts x, PyInts y => bool_decide (x = y)
  | _, _ => false
  end.

(** [obj.field = v] on a generated attributes object. *)
Definition setattr (obj : PyVal) (field : string) (v : PyVal) : PyVal :=
  match obj with
  | PyObject cls fields => PyObject cls (fields ++ [(field, v)])
  | _ => obj
  end.

(** ** Graph nodes *)

(** Location of a mutable Python object in the store. *)
Abbreviation loc := nat.

Record ConstantNode := {
  cn_name : string;
  cn_shape : list Z;
  cn_data : ndarray
}.

Record OperatorNode := {
  on_name : string;
  on_op_type : string;
  on_attrs : PyVal;
  on_inputs : loc;                  (* a [list[int | None]] object *)
  on_outputs : list (option nat)
}.

Inductive Dim :=
| DimName (s : string)
| DimSize (n : Z).

Record ValueNode := {
  vn_name : string;
  vn_shape : option (list Dim)
}.

Inductive Node :=
| NConstant (c : ConstantNode)
| NOperator (o : OperatorNode)
| NValue (v : ValueNode).

Definition node_name (n : Node) : string :=
  match n with
  | NConstant c => cn_name c
  | NOperator o => on_name o
  | NValue v => vn_name v
  end.

Record Graph := {
  graph_nodes : list Node;
  graph_inputs : list nat;
  graph_outputs : list nat
}.

(** ** Exceptions *)

(** One constructor per [raise] of the source, named after the error it
    reports, and the built-in exceptions Python itself raises. *)
Inductive Exception :=
| ShapeMismatch (name : string) (shape : list Z) (numel : Z) (len : nat)
| UnsupportedConstantType (name : string) (d : dtype)
| AttributeTypeMismatch (name expected_type : string)
| UnsupportedEnumValue (val name : string)
| MissingRequiredAttribute (name : string)
| ConflictingAttributeAndInput (attr_name : string) (input_index : nat)
| UnsupportedPromotion (attr_name attr_type : string)
| UnsupportedAttributeValue (val : PyVal) (name : string) (default : PyVal)
| InvalidAttributeLength (msg : string)
| UnsupportedTensorType (d : dtype) (op_name : option string)
| NotImplemented
| NoOutputs (op_name : string)
| UnsupportedPadMode (other : PyVal)
| UnknownReference (kind name op_name : string)
| UnsupportedCastTarget (to : PyVal)
| InvalidScalarShape
| UnsupportedScalarType (d : dtype)
| UnsupportedOperator (op_type : string)
| DuplicateNodeName (name : string)
| ConversionFailed (count : nat) (what : string)
| AttributeError (name : string)
| KeyError (key : string)
| IndexError (msg : string)
| TypeError (msg : string)
| ValueError (msg : string)
| UnicodeDecodeError (object : string).

(** [str(v)] inside a message; floats and objects print as a placeholder. *)
Definition str_of_PyVal (v : PyVal) : string :=
  match v with
  | PyNone => "None"
  | PyBool true => "True"
  | PyBool false => "False"
  | PyInt z => str_of_Z z
  | PyStr s => s
  | PyInts l => str_of_ints l
  | _ => "<value>"
  end.

(** [str(ex)] *)
Definition str_of_Exception (ex : Exception) : string :=
  match ex with
  | ShapeMismatch name shape numel len =>
      "Shape " +:+ str_of_ints shape +:+ " product "
      +:+ (match shape with [] => "1.0" | _ => str_of_Z numel end)
      +:+ " does not match data length " +:+ str_of_nat len
      +:+ " in node " +:+ dq +:+ name +:+ dq
  | UnsupportedConstantType name d =>
      "Tried to construct ConstantNode " +:+ dq +:+ name +:+ dq
      +:+ " with unsupported data type " +:+ dtype_name d
  | AttributeTypeMismatch name ty =>
      "Attribute " +:+ name +:+ " type does not match " +:+ ty
  | UnsupportedEnumValue val name =>
      "Unsupported value " +:+ val +:+ " for " +:+ name +:+ " attr"
  | MissingRequiredAttribute name => "Missing required attribute " +:+ name
  | ConflictingAttributeAndInput attr_name i =>
      "Operator has both an attribute " +:+ dq +:+ attr_name +:+ dq
      +:+ " and corresponding input at index " +:+ str_of_nat i
  | UnsupportedPromotion attr_name attr_type =>
      "Unable to generate input from " +:+ dq +:+ attr_name +:+ dq
      +:+ " attribute of type " +:+ dq +:+ attr_type +:+ dq
  | UnsupportedAttributeValue val name default =>
      "Unsupported value " +:+ str_of_PyVal val +:+ " for attribute " +:+ name
      +:+ ". Default is " +:+ str_of_PyVal default
  | InvalidAttributeLength msg => msg
  | UnsupportedTensorType d op_name =>
      "Unsupported tensor data type " +:+ dtype_name d +:+ " for operator "
      +:+ (match op_name with Some n => n | None => "None" end)
  | NotImplemented => "Not implemented"
  | NoOutputs op_name => "Operator " +:+ dq +:+ op_name +:+ dq +:+ " has no outputs"
  | UnsupportedPadMode other => "Unsupported auto_pad value " +:+ str_of_PyVal other
  | UnknownReference kind name op_name =>
      "Unable to find " +:+ kind +:+ " " +:+ dq +:+ name +:+ dq
      +:+ " for operator " +:+ op_name
  | UnsupportedCastTarget to => "Unsupported target type for cast " +:+ str_of_PyVal to
  | InvalidScalarShape => "Expected ConstantOfShape value to be a 1-element tensor"
  | UnsupportedScalarType d =>
      "Unsupported value type " +:+ dtype_name d +:+ " for ConstantOfShape"
  | UnsupportedOperator op_type => "Unsupported operator " +:+ op_type
  | DuplicateNodeName name =>
      "Node name " +:+ dq +:+ name +:+ dq +:+ " conflicts with another node"
  | ConversionFailed count what =>
      "Errors occurred when converting " +:+ str_of_nat count +:+ " " +:+ what
  | AttributeError name => "type object has no attribute '" +:+ name +:+ "'"
  | KeyError key => key
  | IndexError msg => msg
  | TypeError msg => msg
  | ValueError msg => msg
  | UnicodeDecodeError _ => "'utf-8' codec can't decode bytes"
  end.

(** A pure computation that may raise. *)
Definition result (A : Type) : Type := Exception + A.

#[global] Instance result_ret : MRet result := fun A a => inr a.
#[global] Instance result_bind : MBind result :=
  fun A B k m => match m with inr a => k a | inl e => inl e end.

(** ** Loading a tensor *)

(** The most dimensions an array can have, and the largest index. *)
Definition NPY_MAXDIMS : nat := 32.
Definition NPY_MAX_INTP : Z := 2 ^ 63 - 1.

(** The shape as numpy prints it in its messages: negative dimensions at
    the front are left out, later ones are printed as [newaxis]. *)
Fixpoint skip_newaxis (shape : list Z) : list Z :=
  match shape with
  | d :: rest => if d <? 0 then skip_newaxis rest else shape
  | [] => []
  end.

Definition str_of_shape (shape : list Z) : string :=
  match skip_newaxis shape with
  | [] => "()"
  | d :: rest =>
      "(" +:+ str_of_Z d
      +:+ String.concat EmptyString
            (map (fun v => if v <? 0 then ",newaxis" else "," +:+ str_of_Z v) rest)
      +:+ (match shape with [_] => "," | _ => EmptyString end) +:+ ")"
  end.

Definition reshape_mismatch (n : nat) (shape : list Z) : Exception :=
  ValueError ("cannot reshape array of size " +:+ str_of_nat n
              +:+ " into shape " +:+ str_of_shape shape).

(** The pass of [reshape] over the new shape: the product of the known
    dimensions, which must not exceed the largest index, and the position
    of the one dimension that may be negative, to be inferred. *)
Fixpoint known_size (shape : list Z) (i : nat) (s_known : Z)
  (unknown : option nat) (mismatch : Exception) : result (Z * option nat) :=
  match shape with
  | [] => inr (s_known, unknown)
  | d :: rest =>
      if d <? 0 then
        match unknown with
        | Some _ => inl (ValueError "can only specify one unknown dimension")
        | None => known_size rest (S i) s_known (Some i) mismatch
        end
      else if NPY_MAX_INTP <? s_known * d then inl mismatch
      else known_size rest (S i) (s_known * d) unknown mismatch
  end.

(** [a.reshape(shape)] for a flat array of [n] elements: the shape it
    gets. *)
Definition reshape (shape : list Z) (n : nat) : result (list Z) :=
  if (NPY_MAXDIMS <? length shape)%nat
  then inl (ValueError ("maximum supported dimension for an ndarray is "
                        +:+ str_of_nat NPY_MAXDIMS +:+ ", found "
                        +:+ str_of_nat (length shape)))
  else
    '(s_known, unknown) ← known_size shape 0 1 None (reshape_mismatch n shape);
    match unknown with
    | Some i =>
        if (s_known =? 0) || negb (Z.of_nat n mod s_known =? 0)
        then inl (reshape_mismatch n shape)
        else inr (<[i := Z.of_nat n / s_known]> shape)
    | None =>
        if Z.of_nat n =? s_known then inr shape
        else inl (reshape_mismatch n shape)
    end.

(** [numpy_helper.to_array(tensor)]: the elements, reshaped to [dims];
    dimensions that do not fit the number of elements raise. *)
Definition to_array (t : TensorProto) : result ndarray :=
  shape ← reshape (tensor_dims t) (buffer_length (tensor_data t));
  inr {| arr_dtype := tensor_dtype t;
         arr_shape := shape;
         arr_data := tensor_data t |}.

(** ** The state-and-exception monad *)

(** A computation over a mutable state [S] that returns or raises; the
    state survives a raise, as it does in Python. *)
Definition SE (S A : Type) : Type := S → result A * S.

Section Monad.

Context {S : Type}.

Definition ret {A} (a : A) : SE S A := fun s => (inr a, s).

Definition bind {A B} (m : SE S A) (k : A → SE S B) : SE S B :=
  fun s => match m s with
           | (inr a, s') => k a s'
           | (inl e, s') => (inl e, s')
           end.

Definition raise {A} (e : Exception) : SE S A := fun s => (inl e, s).

(** [try: m except Exception as ex: h ex] *)
Definition try_except {A} (m : SE S A) (h : Exception → SE S A) : SE S A :=
  fun s => match m s with
           | (inr a, s') => (inr a, s')
           | (inl e, s') => h e s'
           end.

Definition gets {A} (f : S → A) : SE S A := fun s => (inr (f s), s).

Definition modify (f : S → S) : SE S unit := fun s => (inr tt, f s).

Definition lift {A} (r : result A) : SE S A := fun s => (r, s).

End Monad.

#[global] Instance SE_ret {S} : MRet (SE S) := @ret S.
#[global] Instance SE_bind {S} : MBind (SE S) := fun A B k m => bind m k.

(** [for x in xs: body x] *)
Fixpoint for_each {S A} (xs : list A) (body : A → SE S unit) : SE S unit :=
  match xs with
  | [] => mret tt
  | x :: rest => body x ;; for_each rest body
  end.

(** A loop that carries a local variable. *)
Fixpoint for_fold {S A B} (xs : list A) (acc : B) (body : B → A → SE S B)
  : SE S B :=
  match xs with
  | [] => mret acc
  | x :: rest => acc' ← body acc x; for_fold rest acc' body
  end.

(** ** The mutable state of a conversion run *)

Record State := mk_State {
  EMITTED_WARNINGS : gset string;            (* the module-level set *)
  stderr : list string;                      (* lines printed, oldest first *)
  lists : list (list (option nat));          (* [list[int | None]] objects *)
  sets : list (gset string);                 (* [set[str]] objects *)
  nodes : list Node;                         (* locals of the graph builder *)
  tensor_map : gmap string nat;
  constant_map : gmap string ConstantNode
}.

Definition initial_state : State :=
  {| EMITTED_WARNINGS := ∅; stderr := []; lists := []; sets := [];
     nodes := []; tensor_map := ∅; constant_map := ∅ |}.

Abbreviation M := (SE State).

(** ** Primitive effects *)

(** [warn_once(msg)] *)
Definition warn_once (msg : string) : M unit :=
  fun s =>
    if bool_decide (msg ∈ EMITTED_WARNINGS s) then (inr tt, s)
    else (inr tt,
          {| EMITTED_WARNINGS := {[msg]} ∪ EMITTED_WARNINGS s;
             stderr := stderr s ++ [msg];
             lists := lists s; sets := sets s; nodes := nodes s;
             tensor_map := tensor_map s; constant_map := constant_map s |}).

(** [print(msg, file=sys.stderr)] *)
Definition print_stderr (msg : string) : M unit :=
  modify (fun s =>
    {| EMITTED_WARNINGS := EMITTED_WARNINGS s;
       stderr := stderr s ++ [msg];
       lists := lists s; sets := sets s; nodes := nodes s;
       tensor_map := tensor_map s; constant_map := constant_map s |}).

Definition set_lists (f : list (list (option nat)) → list (list (option nat)))
  (s : State) : State :=
  {| EMITTED_WARNINGS := EMITTED_WARNINGS s; stderr := stderr s;
     lists := f (lists s); sets := sets s; nodes := nodes s;
     tensor_map := tensor_map s; constant_map := constant_map s |}.

Definition set_sets (f : list (gset string) → list (gset string))
  (s : State) : State :=
  {| EMITTED_WARNINGS := EMITTED_WARNINGS s; stderr := stderr s;
     lists := lists s; sets := f (sets s); nodes := nodes s;
     tensor_map := tensor_map s; constant_map := constant_map s |}.

(** A new list object holding [l]: [[]], or [other.copy()]. *)
Definition new_list (l : list (option nat)) : M loc :=
  fun s => (inr (length (lists s)), set_lists (fun h => h ++ [l]) s).

(** A new, empty set object: [set()]. *)
Definition new_set : M loc :=
  fun s => (inr (length (sets s)), set_sets (fun h => h ++ [∅]) s).

(** The current contents of a list object. *)
Definition read_list (l : loc) : M (list (option nat)) :=
  gets (fun s => default [] (lists s !! l)).

Definition read_set (l : loc) : M (gset string) :=
  gets (fun s => default ∅ (sets s !! l)).

(** [l.append(x)] *)
Definition list_append (l : loc) (x : option nat) : M unit :=
  modify (set_lists (fun h => alter (fun v => v ++ [x]) l h)).

(** [l[i] = x]; an index out of range raises [IndexError]. *)
Definition list_setitem (l : loc) (i : nat) (x : option nat) : M unit :=
  v ← read_list l;
  if (i <? length v)%nat
  then modify (set_lists (fun h => alter (fun v => <[i := x]> v) l h))
  else raise (IndexError "list assignment index out of range").

(** [st.add(x)] *)
Definition set_add (l : loc) (x : string) : M unit :=
  modify (set_sets (fun h => alter (fun v => {[x]} ∪ v) l h)).

(** ** Nodes *)

(** [ConstantNode(name, shape, data)] *)
Definition ConstantNode__init__ (name : string) (shape : list Z) (data : ndarray)
  : result ConstantNode :=
  let shape_numel := np_prod shape in
  if negb (shape_numel =? Z.of_nat (size data))
  then inl (ShapeMismatch name shape shape_numel (size data))
  else match arr_dtype data with
       | float32 | int32 =>
           inr {| cn_name := name; cn_shape := shape; cn_data := data |}
       | d => inl (UnsupportedConstantType name d)
       end.

(** [const_node.name = name] *)
Definition set_cn_name (c : ConstantNode) (name : string) : ConstantNode :=
  {| cn_name := name; cn_shape := cn_shape c; cn_data := cn_data c |}.

(** ** Attribute reader *)

(** A Python class used as a namespace of integer constants, as flatc
    generates for an enum: [getattr(cls, name)]. *)
Definition PyClass := list (string * Z).

Fixpoint getattr (cls : PyClass) (name : string) : option Z :=
  match cls with
  | [] => None
  | (n, v) :: rest => if String.eqb n name then Some v else getattr rest name
  end.

(** What every class answers to besides its own members: the attributes
    it has from [object] and from [type] (CPython 3.11). *)
Definition class_attributes : list string :=
  ["__annotations__"; "__base__"; "__bases__"; "__basicsize__"; "__call__";
   "__class__"; "__delattr__"; "__dict__"; "__dictoffset__"; "__dir__";
   "__doc__"; "__eq__"; "__flags__"; "__format__"; "__ge__";
   "__getattribute__"; "__getstate__"; "__gt__"; "__hash__"; "__init__";
   "__init_subclass__"; "__instancecheck__"; "__itemsize__"; "__le__";
   "__lt__"; "__module__"; "__mro__"; "__name__"; "__ne__"; "__new__";
   "__or__"; "__prepare__"; "__qualname__"; "__reduce__"; "__reduce_ex__";
   "__repr__"; "__ror__"; "__setattr__"; "__sizeof__"; "__str__";
   "__subclasscheck__"; "__subclasses__"; "__subclasshook__";
   "__text_signature__"; "__weakref__"; "__weakrefoffset__"; "mro"].

(** [hasattr(cls, name)] *)
Definition hasattr (cls : PyClass) (name : string) : bool :=
  match getattr cls name with
  | Some _ => true
  | None => bool_decide (name ∈ class_attributes)
  end.

(** [s.upper()] *)
Definition upper (s : string) : string :=
  utf8_encode_all (concat (map upper_code_point (code_points s))).

(** [getattr(onnx.AttributeProto, name)] for the names of attribute types. *)
Definition AttributeProto_getattr (name : string) : result AttributeType :=
  if String.eqb name "UNDEFINED" then inr UNDEFINED
  else if String.eqb name "FLOAT" then inr FLOAT
  else if String.eqb name "INT" then inr INT
  else if String.eqb name "STRING" then inr STRING
  else if String.eqb name "TENSOR" then inr TENSOR
  else if String.eqb name "GRAPH" then inr GRAPH
  else if String.eqb name "FLOATS" then inr FLOATS
  else if String.eqb name "INTS" then inr INTS
  else if String.eqb name "STRINGS" then inr STRINGS
  else if String.eqb name "TENSORS" then inr TENSORS
  else if String.eqb name "GRAPHS" then inr GRAPHS
  else if String.eqb name "SPARSE_TENSOR" then inr SPARSE_TENSOR
  else if String.eqb name "SPARSE_TENSORS" then inr SPARSE_TENSORS
  else if String.eqb name "TYPE_PROTO" then inr TYPE_PROTO
  else if String.eqb name "TYPE_PROTOS" then inr TYPE_PROTOS
  else inl (AttributeError name).

Definition AttributeType_code (ty : AttributeType) : Z :=
  match ty with
  | UNDEFINED => 0 | FLOAT => 1 | INT => 2 | STRING => 3 | TENSOR => 4
  | GRAPH => 5 | FLOATS => 6 | INTS => 7 | STRINGS => 8 | TENSORS => 9
  | GRAPHS => 10 | SPARSE_TENSOR => 11 | SPARSE_TENSORS => 12
  | TYPE_PROTO => 13 | TYPE_PROTOS => 14
  end.

(** [getattr(attr, value_fields[type_code])]; the table has five entries. *)
Definition value_fields (type_code : AttributeType) (attr : AttributeProto)
  : result PyVal :=
  match type_code with
  | FLOAT => inr (PyFloat (attr_f attr))
  | INT => inr (PyInt (attr_i attr))
  | INTS => inr (PyInts (attr_ints attr))
  | STRING => inr (PyBytes (attr_s attr))
  | TENSOR => inr (PyTensor (attr_t attr))
  | _ => inl (KeyError (str_of_Z (AttributeType_code type_code)))
  end.

(** [val.decode()]: the bytes must be well-formed UTF-8. *)
Definition decode (v : PyVal) : result PyVal :=
  match v with
  | PyBytes s => if utf8_valid s then inr (PyStr s)
                 else inl (UnicodeDecodeError s)
  | _ => inl (AttributeError "decode")
  end.

(** The loop of [get_attr] over [onnx_op.attribute]. *)
Fixpoint lookup_attr (attrs : list AttributeProto) (name expected_type : string)
  (type_code : AttributeType) (default : PyVal) : result PyVal :=
  match attrs with
  | [] => inr default
  | attr :: rest =>
      if String.eqb (attr_name attr) name then
        if negb (AttributeType_eqb (attr_type attr) type_code)
        then inl (AttributeTypeMismatch name expected_type)
        else
          val ← value_fields type_code attr;
          if String.eqb expected_type "string" then decode val else inr val
      else lookup_attr rest name expected_type type_code default
  end.

Record ONNXOperatorReader := {
  onnx_op : OperatorProto;
  reader_add_node : Node → M nat;
  input_indexes : loc;
  _handled_attrs : loc
}.

(** [ONNXOperatorReader(onnx_op, input_indexes, add_node)] *)
Definition ONNXOperatorReader__init__ (op : OperatorProto) (indexes : loc)
  (add_node : Node → M nat) : M ONNXOperatorReader :=
  l ← read_list indexes;
  copy ← new_list l;
  handled ← new_set;
  mret {| onnx_op := op; reader_add_node := add_node;
          input_indexes := copy; _handled_attrs := handled |}.

Definition get_attr (self : ONNXOperatorReader) (name expected_type : string)
  (default : PyVal) : M PyVal :=
  set_add (_handled_attrs self) name;;
  type_code ← lift (AttributeProto_getattr (upper expected_type));
  lift (lookup_attr (proto_attribute (onnx_op self)) name expected_type
          type_code default).

(** [word[0].upper() + word[1:]] *)
Definition capitalize (word : string) : result string :=
  match utf8_head word with
  | None => inl (IndexError "string index out of range")
  | Some (cp, rest) => inr (utf8_encode_all (upper_code_point cp) +:+ rest)
  end.

Fixpoint capitalize_all (words : list string) : result (list string) :=
  match words with
  | [] => inr []
  | w :: rest =>
      w' ← capitalize w;
      rest' ← capitalize_all rest;
      inr (w' :: rest')
  end.

Definition snake_case_to_pascal_case (s : string) : result string :=
  words ← capitalize_all (split_underscore s);
  inr (join EmptyString words).

Definition get_enum_attr (self : ONNXOperatorReader) (name : string)
  (enum : PyClass) (default : string) : M PyVal :=
  val ← get_attr self name "string" (PyStr default);
  match val with
  | PyStr v =>
      pascal_case ← lift (snake_case_to_pascal_case v);
      let escaped_pascal_case := pascal_case +:+ "_" in
      match getattr enum pascal_case with
      | Some x => mret (PyInt x)
      | None =>
          match getattr enum escaped_pascal_case with
          | Some x => mret (PyInt x)
          | None => raise (UnsupportedEnumValue v name)
          end
      end
  | _ => raise (AttributeError "split")
  end.

Definition ignore_attr (self : ONNXOperatorReader) (name : string) : M unit :=
  set_add (_handled_attrs self) name.

Definition require_attr (self : ONNXOperatorReader) (name expected_type : string)
  : M PyVal :=
  val ← get_attr self name expected_type PyNone;
  match val with
  | PyNone => raise (MissingRequiredAttribute name)
  | _ => mret val
  end.

(** [np.array(attr_val).astype(...)] and the shape, by [attr_type]. *)
Definition generated_input (attr_name attr_type : string) (attr_val : PyVal)
  : result (list Z * ndarray) :=
  if String.eqb attr_type "int" then
    match attr_val with
    | PyInt z => inr ([], astype_int32 (mk_ndarray int64 [] (IntData [z])))
    | _ => inl (TypeError "int() argument")
    end
  else if String.eqb attr_type "float" then
    match attr_val with
    | PyFloat f => inr ([], mk_ndarray float32 [] (FloatData [to_float32 f]))
    | _ => inl (TypeError "float() argument")
    end
  else if String.eqb attr_type "ints" then
    match attr_val with
    | PyInts l =>
        inr ([Z.of_nat (length l)],
             astype_int32 (mk_ndarray int64 [1; Z.of_nat (length l)] (IntData l)))
    | _ => inl (TypeError "object has no len()")
    end
  else inl (UnsupportedPromotion attr_name attr_type).

Definition generate_input_from_attr (self : ONNXOperatorReader)
  (input_index : nat) (attr_name attr_type : string) : M unit :=
  attr_val ← get_attr self attr_name attr_type PyNone;
  match attr_val with
  | PyNone => mret tt
  | _ =>
      cur ← read_list (input_indexes self);
      if (input_index <? length cur)%nat
      then raise (ConflictingAttributeAndInput attr_name input_index)
      else
        '(shape, data) ← lift (generated_input attr_name attr_type attr_val);
        let generated_name := proto_name (onnx_op self) +:+ ":wasnn-" +:+ attr_name in
        const_node ← lift (ConstantNode__init__ generated_name shape data);
        input_id ← reader_add_node self (NConstant const_node);
        (* while len(self.input_indexes) < input_index + 1: append(None) *)
        cur ← read_list (input_indexes self);
        for_each (replicate (input_index + 1 - length cur) tt)
          (fun _ => list_append (input_indexes self) None);;
        list_setitem (input_indexes self) input_index (Some input_id)
  end.

Definition check_attr (self : ONNXOperatorReader) (name expected_type : string)
  (default : PyVal) : M unit :=
  val ← get_attr self name expected_type PyNone;
  match val with
  | PyNone => mret tt
  | _ =>
      let allowed := match default with PyTuple l => l | d => [d] end in
      if existsb (py_eq val) allowed then mret tt
      else raise (UnsupportedAttributeValue val name default)
  end.

Definition unhandled_attrs (self : ONNXOperatorReader) : M (list AttributeProto) :=
  handled ← read_set (_handled_attrs self);
  mret (filter (fun attr => attr_name attr ∉ handled)
          (proto_attribute (onnx_op self))).

(** [len(v)] *)
Definition py_len (v : PyVal) : result nat :=
  match v with
  | PyInts l => inr (length l)
  | PyStr s => inr (length (code_points s))
  | PyTuple l => inr (length l)
  | _ => inl (TypeError "object has no len()")
  end.

Definition check_ints_length (name : string) (ints : PyVal) (allowed_length : nat)
  : result unit :=
  n ← py_len ints;
  if negb (n =? allowed_length)%nat
  then inl (InvalidAttributeLength
              ("Attribute " +:+ dq +:+ name +:+ dq +:+ " must have "
               +:+ str_of_nat allowed_length +:+ " values"))
  else inr tt.

(** ** Constant normalizer *)

Definition out_of_range (v : Z) : bool := (INT32_MAX <? v) || (v <? INT32_MIN).

(** [data[out_of_range_mask]] *)
Definition out_of_range_values (data : ndarray) : list Z :=
  match arr_data data with
  | IntData l => filter (fun v => out_of_range v = true) l
  | FloatData _ => []
  end.

Definition clamp_warning (val : Z) : string :=
  "Clamping out-of-range tensor value " +:+ str_of_Z val +:+ " to ["
  +:+ str_of_Z INT32_MIN +:+ ", " +:+ str_of_Z INT32_MAX +:+ "]".

Definition constant_node_from_onnx_initializer (tensor : TensorProto)
  (op_name : option string) : M ConstantNode :=
  let dims := tensor_dims tensor in
  data ← lift (to_array tensor);
  data ← match arr_dtype data with
         | float32 | int32 => mret data
         | bool_ | int8 | int16 => mret (astype_int32 data)
         | int64 =>
             for_each (out_of_range_values data)
               (fun val => warn_once (clamp_warning val));;
             mret (astype_int32 (clip INT32_MIN INT32_MAX data))
         | d => raise (UnsupportedTensorType d op_name)
         end;
  lift (ConstantNode__init__ (tensor_name tensor) dims data).

Definition noop_add_node (node : Node) : M nat := raise NotImplemented.

Definition constant_node_from_onnx_constant_op (op : OperatorProto)
  : M ConstantNode :=
  match proto_output op with
  | [] => raise (NoOutputs (proto_name op))
  | output_name :: _ =>
      empty ← new_list [];
      reader ← ONNXOperatorReader__init__ op empty noop_add_node;
      tensor ← require_attr reader "value" "tensor";
      match tensor with
      | PyTensor t =>
          const_node ← constant_node_from_onnx_initializer t (Some output_name);
          mret (set_cn_name const_node output_name)
      | _ => raise (AttributeError "dims")
      end
  end.

Definition value_node_from_onnx_value (value : ValueInfoProto) : ValueNode :=
  let dims :=
    match value_dim value with
    | [] => None
    | ds => Some (map (fun d => if String.eqb (dim_param d) EmptyString
                                then DimSize (dim_value d)
                                else DimName (dim_param d)) ds)
    end in
  {| vn_name := value_name value; vn_shape := dims |}.

(** ** Operator translator *)

(** [bool(v)] *)
Definition truthy (v : PyVal) : bool :=
  match v with
  | PyNone => false
  | PyBool b => b
  | PyInt z => negb (z =? 0)
  | PyFloat f => negb (PrimFloat.eqb f 0%float)
  | PyStr s | PyBytes s => negb (String.eqb s EmptyString)
  | PyInts l => negb (bool_decide (l = []))
  | PyTuple l => match l with [] => false | _ => true end
  | _ => true
  end.

Definition py_bool (v : PyVal) : PyVal := PyBool (truthy v).

Definition str_is (v : PyVal) (s : string) : bool :=
  match v with PyStr x => String.eqb x s | _ => false end.

Definition read_pads (op_reader : ONNXOperatorReader) : M (string * PyVal) :=
  auto_pad ← get_attr op_reader "auto_pad" "string" (PyStr "NOTSET");
  if str_is auto_pad "SAME_UPPER" || str_is auto_pad "SAME_LOWER" then
    mret ("same", PyInts [])
  else if str_is auto_pad "NOTSET" then
    pads ← get_attr op_reader "pads" "ints" (PyInts [0; 0; 0; 0]);
    n ← lift (py_len pads);
    if negb ((n =? 2)%nat || (n =? 4)%nat)
    then raise (InvalidAttributeLength
                  (dq +:+ "padding" +:+ dq +:+ " attribute must have 2 or 4 values"))
    else mret ("fixed", pads)
  else raise (UnsupportedPadMode auto_pad).

Definition read_strides (op_reader : ONNXOperatorReader) : M PyVal :=
  strides ← get_attr op_reader "strides" "ints" (PyInts [1; 1]);
  n ← lift (py_len strides);
  if negb ((n =? 1)%nat || (n =? 2)%nat)
  then raise (InvalidAttributeLength
                (dq +:+ "strides" +:+ dq +:+ " attribute must have 1 or 2 values"))
  else mret strides.

Definition read_dilations (op_reader : ONNXOperatorReader) : M PyVal :=
  dilations ← get_attr op_reader "dilations" "ints" (PyInts [1; 1]);
  n ← lift (py_len dilations);
  if negb ((n =? 1)%nat || (n =? 2)%nat)
  then raise (InvalidAttributeLength
                (dq +:+ "dilations" +:+ dq +:+ " attribute must have 1 or 2 values"))
  else mret dilations.

(** [len(a)] of an array: its first dimension; a 0-d array has none. *)
Definition ndarray_len (a : ndarray) : result Z :=
  match arr_shape a with
  | [] => inl (TypeError "len() of unsized object")
  | d :: _ => inr d
  end.

(** [a.item()] *)
Definition item (a : ndarray) : result PyVal :=
  match arr_data a with
  | FloatData [f] => inr (PyFloat f)
  | IntData [z] => inr (PyInt z)
  | _ => inl (ValueError "can only convert an array of size 1 to a Python scalar")
  end.

(** The schema module generated by flatc, [schema_generated]: the classes
    that the converter looks names up in at run time. *)
Record Schema := {
  OperatorType : PyClass;
  OperatorAttrs : PyClass;
  RNNDirection : PyClass;
  ResizeMode : PyClass;
  CoordTransformMode : PyClass;
  NearestMode : PyClass;
  ScatterReduction : PyClass
}.

(** [TensorProto.DataType] *)
Definition DataType_FLOAT : Z := 1.
Definition DataType_INT32 : Z := 6.
Definition DataType_INT64 : Z := 7.
Definition DataType_BOOL : Z := 9.

Section Translator.

Variable sg : Schema.

Definition pad_mode_value (pad_mode : string) : PyVal :=
  if String.eqb pad_mode "same" then PySg "PadMode" "Same"
  else PySg "PadMode" "Fixed".

(** The [match op_type] of [op_node_from_onnx_operator]: reads the
    attributes and returns the attributes object, or [None]. *)
Definition translate_attrs (onnx_op : OperatorProto)
  (op_reader : ONNXOperatorReader) (op_type : string) : M PyVal :=
  let op_is := String.eqb op_type in
  if op_is "ArgMax" || op_is "ArgMin" then
    let attrs := PyObject "ArgMaxAttrsT" [] in
    axis ← get_attr op_reader "axis" "int" PyNone;
    let attrs := setattr attrs "axes" axis in
    keepdims ← get_attr op_reader "keepdims" "int" (PyInt 1);
    let attrs := setattr attrs "keepDims" (py_bool keepdims) in
    check_attr op_reader "select_last_index" "int" (PyInt 0);;
    mret attrs
  else if op_is "AveragePool" then
    kernel_shape ← require_attr op_reader "kernel_shape" "ints";
    lift (check_ints_length "kernel_shape" kernel_shape 2);;
    '(pad_mode, pads) ← read_pads op_reader;
    check_attr op_reader "ceil_mode" "int" (PyInt 0);;
    check_attr op_reader "count_include_pad" "int" (PyInt 0);;
    let attrs := PyObject "AveragePoolAttrsT" [] in
    let attrs := setattr attrs "kernelSize" kernel_shape in
    let attrs := if truthy pads then setattr attrs "pads" pads else attrs in
    let attrs := setattr attrs "padMode" (pad_mode_value pad_mode) in
    strides ← read_strides op_reader;
    mret (setattr attrs "strides" strides)
  else if op_is "BatchNormalization" || op_is "InstanceNormalization" then
    let attrs := PyObject "BatchNormalizationAttrsT" [] in
    epsilon ← get_attr op_reader "epsilon" "float" (PyFloat 1e-5);
    mret (setattr attrs "epsilon" epsilon)
  else if op_is "Cast" then
    let attrs := PyObject "CastAttrsT" [] in
    to_ ← get_attr op_reader "to" "int" (PyInt DataType_FLOAT);
    if py_eq to_ (PyInt DataType_FLOAT) then
      mret (setattr attrs "to" (PySg "DataType" "Float"))
    else if py_eq to_ (PyInt DataType_BOOL) || py_eq to_ (PyInt DataType_INT32)
            || py_eq to_ (PyInt DataType_INT64) then
      mret (setattr attrs "to" (PySg "DataType" "Int32"))
    else raise (UnsupportedCastTarget to_)
  else if op_is "Clip" then
    generate_input_from_attr op_reader 1 "min" "float";;
    generate_input_from_attr op_reader 2 "max" "float";;
    mret PyNone
  else if op_is "Concat" then
    let attrs := PyObject "ConcatAttrsT" [] in
    axis ← require_attr op_reader "axis" "int";
    mret (setattr attrs "axis" axis)
  else if op_is "ConstantOfShape" then
    tensor ← require_attr op_reader "value" "tensor";
    match tensor with
    | PyTensor t =>
        const_node ← constant_node_from_onnx_initializer t (Some (proto_name onnx_op));
        n ← lift (ndarray_len (cn_data const_node));
        if negb (n =? 1) then raise InvalidScalarShape
        else
          '(scalar_type, scalar) ←
            match arr_dtype (cn_data const_node) with
            | float32 =>
                value ← lift (item (cn_data const_node));
                mret (PySg "Scalar" "FloatScalar",
                      setattr (PyObject "FloatScalarT" []) "value" value)
            | int32 =>
                value ← lift (item (cn_data const_node));
                mret (PySg "Scalar" "IntScalar",
                      setattr (PyObject "IntScalarT" []) "value" value)
            | d => raise (UnsupportedScalarType d)
            end;
          let attrs := PyObject "ConstantOfShapeAttrsT" [] in
          let attrs := setattr attrs "valueType" scalar_type in
          mret (setattr attrs "value" scalar)
    | _ => raise (AttributeError "dims")
    end
  else if op_is "Conv" then
    let attrs := PyObject "ConvAttrsT" [] in
    dilations ← read_dilations op_reader;
    let attrs := setattr attrs "dilations" dilations in
    group ← get_attr op_reader "group" "int" (PyInt 1);
    let attrs := setattr attrs "groups" group in
    '(pad_mode, pads) ← read_pads op_reader;
    let attrs :=
      if String.eqb pad_mode "same"
      then setattr attrs "padMode" (PySg "PadMode" "Same")
      else setattr (setattr attrs "padMode" (PySg "PadMode" "Fixed")) "pads" pads in
    strides ← read_strides op_reader;
    let attrs := setattr attrs "strides" strides in
    ignore_attr op_reader "kernel_shape";;
    mret attrs
  else if op_is "ConvTranspose" then
    let attrs := PyObject "ConvTransposeAttrsT" [] in
    strides ← read_strides op_reader;
    let attrs := setattr attrs "strides" strides in
    check_attr op_reader "auto_pad" "string" (PyStr "NOTSET");;
    check_attr op_reader "dilations" "ints" (PyTuple [PyInts [1]; PyInts [1; 1]]);;
    check_attr op_reader "group" "int" (PyInt 1);;
    ignore_attr op_reader "kernel_shape";;
    check_attr op_reader "output_padding" "ints" (PyInts [0; 0; 0; 0]);;
    check_attr op_reader "pads" "ints" (PyInts [0; 0; 0; 0]);;
    mret attrs
  else if op_is "CumSum" then
    check_attr op_reader "exclusive" "int" (PyInt 0);;
    check_attr op_reader "reverse" "int" (PyInt 0);;
    mret PyNone
  else if op_is "Flatten" then
    let attrs := PyObject "FlattenAttrsT" [] in
    axis ← get_attr op_reader "axis" "int" (PyInt 1);
    mret (setattr attrs "axis" axis)
  else if op_is "Gather" then
    let attrs := PyObject "GatherAttrsT" [] in
    axis ← get_attr op_reader "axis" "int" (PyInt 0);
    mret (setattr attrs "axis" axis)
  else if op_is "Gemm" then
    let attrs := PyObject "GemmAttrsT" [] in
    alpha ← get_attr op_reader "alpha" "float" (PyFloat 1.0);
    let attrs := setattr attrs "alpha" alpha in
    beta ← get_attr op_reader "beta" "float" (PyFloat 1.0);
    let attrs := setattr attrs "beta" beta in
    transA ← get_attr op_reader "transA" "int" (PyInt 0);
    let attrs := setattr attrs "transposeA" (py_bool transA) in
    transB ← get_attr op_reader "transB" "int" (PyInt 0);
    mret (setattr attrs "transposeB" (py_bool transB))
  else if op_is "GRU" then
    let attrs := PyObject "GRUAttrsT" [] in
    direction ← get_enum_attr op_reader "direction" (RNNDirection sg) "forward";
    let attrs := setattr attrs "direction" direction in
    hidden_size ← require_attr op_reader "hidden_size" "int";
    let attrs := setattr attrs "hiddenSize" hidden_size in
    lbr ← get_attr op_reader "linear_before_reset" "int" (PyInt 0);
    mret (setattr attrs "linearBeforeReset" (py_bool lbr))
  else if op_is "HardSigmoid" then
    let attrs := PyObject "HardSigmoidAttrsT" [] in
    alpha ← get_attr op_reader "alpha" "float" (PyFloat 0.2);
    let attrs := setattr attrs "alpha" alpha in
    beta ← get_attr op_reader "beta" "float" (PyFloat 0.5);
    mret (setattr attrs "beta" beta)
  else if op_is "LeakyRelu" then
    let attrs := PyObject "LeakyReluAttrsT" [] in
    alpha ← get_attr op_reader "alpha" "float" (PyFloat 0.01);
    mret (setattr attrs "alpha" alpha)
  else if op_is "LogSoftmax" then
    let attrs := PyObject "SoftmaxAttrsT" [] in
    axis ← get_attr op_reader "axis" "int" (PyInt 0);
    mret (setattr attrs "axis" axis)
  else if op_is "LSTM" then
    let attrs := PyObject "LSTMAttrsT" [] in
    direction ← get_enum_attr op_reader "direction" (RNNDirection sg) "forward";
    let attrs := setattr attrs "direction" direction in
    hidden_size ← require_attr op_reader "hidden_size" "int";
    let attrs := setattr attrs "hiddenSize" hidden_size in
    check_attr op_reader "activation_alpha" "floats" (PyInts []);;
    check_attr op_reader "activation_beta" "floats" (PyInts []);;
    check_attr op_reader "activations" "strings" (PyInts []);;
    check_attr op_reader "clip" "float" (PyFloat 0.0);;
    check_attr op_reader "input_forget" "int" (PyInt 0);;
    check_attr op_reader "layout" "int" (PyInt 0);;
    mret attrs
  else if op_is "MaxPool" then
    let attrs := PyObject "MaxPoolAttrsT" [] in
    kernel_shape ← require_attr op_reader "kernel_shape" "ints";
    lift (check_ints_length "kernel_shape" kernel_shape 2);;
    let attrs := setattr attrs "kernelSize" kernel_shape in
    '(pad_mode, pads) ← read_pads op_reader;
    let attrs :=
      if String.eqb pad_mode "same"
      then setattr attrs "padMode" (PySg "PadMode" "Same")
      else setattr (setattr attrs "padMode" (PySg "PadMode" "Fixed")) "pads" pads in
    strides ← read_strides op_reader;
    let attrs := setattr attrs "strides" strides in
    check_attr op_reader "ceil_mode" "int" (PyInt 0);;
    check_attr op_reader "dilations" "ints" (PyTuple [PyInts [1]; PyInts [1; 1]]);;
    check_attr op_reader "storage_order" "int" (PyInt 0);;
    mret attrs
  else if op_is "Mod" then
    let attrs := PyObject "ModAttrsT" [] in
    fmod ← get_attr op_reader "fmod" "int" (PyInt 0);
    mret (setattr attrs "fmod" (py_bool fmod))
  else if op_is "OneHot" then
    let attrs := PyObject "OneHotAttrsT" [] in
    axis ← get_attr op_reader "axis" "int" (PyInt (-1));
    mret (setattr attrs "axis" axis)
  else if op_is "ReduceL2" || op_is "ReduceMax" || op_is "ReduceMean" || op_is "ReduceMin"
          || op_is "ReduceProd" || op_is "ReduceSum" then
    let attrs := PyObject "ReduceMeanAttrsT" [] in
    axes ← get_attr op_reader "axes" "ints" PyNone;
    let attrs := setattr attrs "axes" axes in
    keepdims ← get_attr op_reader "keepdims" "int" (PyInt 1);
    let attrs := setattr attrs "keepDims" (py_bool keepdims) in
    check_attr op_reader "noop_with_empty_axes" "int" (PyInt 0);;
    mret attrs
  else if op_is "Reshape" then
    let attrs := PyObject "ReshapeAttrsT" [] in
    allowzero ← get_attr op_reader "allowzero" "int" (PyInt 0);
    mret (setattr attrs "allowZero" (py_bool allowzero))
  else if op_is "Resize" then
    let attrs := PyObject "ResizeAttrsT" [] in
    mode ← get_enum_attr op_reader "mode" (ResizeMode sg) "nearest";
    let attrs := setattr attrs "mode" mode in
    check_attr op_reader "antialias" "int" (PyInt 0);;
    check_attr op_reader "axes" "ints" (PyInts [2; 3]);;
    coord_mode ← get_enum_attr op_reader "coordinate_transformation_mode"
                   (CoordTransformMode sg) "half_pixel";
    let attrs := setattr attrs "coordMode" coord_mode in
    check_attr op_reader "cubic_coeff_a" "float" (PyFloat (-0.75));;
    check_attr op_reader "exclude_outside" "int" (PyInt 0);;
    check_attr op_reader "extrapolation_value" "float" (PyFloat 0.0);;
    check_attr op_reader "keep_aspect_ratio_policy" "string" (PyStr "stretch");;
    nearest_mode ← get_enum_attr op_reader "nearest_mode" (NearestMode sg)
                     "round_prefer_floor";
    mret (setattr attrs "nearestMode" nearest_mode)
  else if op_is "Pad" then
    check_attr op_reader "mode" "string" (PyStr "constant");;
    mret PyNone
  else if op_is "ScatterElements" then
    let attrs := PyObject "ScatterElementsAttrsT" [] in
    axis ← get_attr op_reader "axis" "int" (PyInt 0);
    let attrs := setattr attrs "axis" axis in
    reduction ← get_enum_attr op_reader "reduction" (ScatterReduction sg) "none";
    mret (setattr attrs "reduction" reduction)
  else if op_is "ScatterND" then
    let attrs := PyObject "ScatterNDAttrsT" [] in
    reduction ← get_enum_attr op_reader "reduction" (ScatterReduction sg) "none";
    mret (setattr attrs "reduction" reduction)
  else if op_is "Shape" then
    check_attr op_reader "end" "int" (PyInt 0);;
    check_attr op_reader "start" "int" (PyInt 0);;
    mret PyNone
  else if op_is "Softmax" then
    let attrs := PyObject "SoftmaxAttrsT" [] in
    axis ← get_attr op_reader "axis" "int" (PyInt 0);
    mret (setattr attrs "axis" axis)
  else if op_is "Split" then
    let attrs := PyObject "SplitAttrsT" [] in
    axis ← get_attr op_reader "axis" "int" (PyInt 0);
    let attrs := setattr attrs "axis" axis in
    check_attr op_reader "num_outputs" "int" (PyInt 0);;
    generate_input_from_attr op_reader 1 "split" "ints";;
    mret attrs
  else if op_is "Squeeze" then
    generate_input_from_attr op_reader 1 "axes" "ints";;
    mret PyNone
  else if op_is "TopK" then
    let attrs := PyObject "TopKAttrsT" [] in
    axis ← get_attr op_reader "axis" "int" (PyInt (-1));
    let attrs := setattr attrs "axis" axis in
    largest ← get_attr op_reader "largest" "int" (PyInt 1);
    let attrs := setattr attrs "largest" (py_bool largest) in
    sorted ← get_attr op_reader "sorted" "int" (PyInt 1);
    mret (setattr attrs "sorted" (py_bool sorted))
  else if op_is "Transpose" then
    let attrs := PyObject "TransposeAttrsT" [] in
    perm ← get_attr op_reader "perm" "ints" (PyInts []);
    mret (setattr attrs "perm" perm)
  else if op_is "Trilu" then
    let attrs := PyObject "TriluAttrsT" [] in
    upper ← get_attr op_reader "upper" "int" (PyInt 1);
    mret (setattr attrs "upper" (py_bool upper))
  else if op_is "Unsqueeze" then
    generate_input_from_attr op_reader 1 "axes" "ints";;
    mret PyNone
  else mret PyNone.

Definition unsupported_attribute_warning (attr : AttributeProto)
  (onnx_op : OperatorProto) : string :=
  "WARNING: Unsupported attribute " +:+ attr_name attr +:+ " for operator "
  +:+ proto_op_type onnx_op.

(** [node_index_from_name.get(name)], failing when the name is unknown. *)
Definition resolve (kind name op_name : string) : M (option nat) :=
  tm ← gets tensor_map;
  match tm !! name with
  | None => raise (UnknownReference kind name op_name)
  | Some index => mret (Some index)
  end.

(** [node_index_from_name] is the builder's own [tensor_map], read where
    the source reads it; [constant_nodes] is not used by the source. *)
Definition op_node_from_onnx_operator (onnx_op : OperatorProto)
  (add_node : Node → M nat) : M OperatorNode :=
  indexes ← new_list [];
  for_each (proto_input onnx_op) (fun input_name =>
    index ← (if negb (String.eqb input_name EmptyString)
             then resolve "input" input_name (proto_name onnx_op)
             else mret None);
    list_append indexes index);;
  output_indexes ←
    for_fold (proto_output onnx_op) [] (fun acc output_name =>
      index ← resolve "output" output_name (proto_name onnx_op);
      mret (acc ++ [index]));
  let op_type := proto_op_type onnx_op in
  op_reader ← ONNXOperatorReader__init__ onnx_op indexes add_node;
  attrs ← translate_attrs onnx_op op_reader op_type;
  (if negb (hasattr (OperatorType sg) op_type)
   then raise (UnsupportedOperator op_type) else mret tt);;
  unhandled ← unhandled_attrs op_reader;
  for_each unhandled (fun attr =>
    warn_once (unsupported_attribute_warning attr onnx_op));;
  mret {| on_name := proto_name onnx_op;
          on_op_type := op_type;
          on_attrs := attrs;
          on_inputs := input_indexes op_reader;
          on_outputs := output_indexes |}.

(** ** Graph builder *)

(** The locals [nodes], [tensor_map] and [constant_map] start empty. *)
Definition reset_graph (s : State) : State :=
  {| EMITTED_WARNINGS := EMITTED_WARNINGS s; stderr := stderr s;
     lists := lists s; sets := sets s;
     nodes := []; tensor_map := ∅; constant_map := ∅ |}.

Definition register (node : Node) (s : State) : State :=
  {| EMITTED_WARNINGS := EMITTED_WARNINGS s; stderr := stderr s;
     lists := lists s; sets := sets s;
     nodes := nodes s ++ [node];
     tensor_map := <[node_name node := length (nodes s)]> (tensor_map s);
     constant_map := match node with
                     | NConstant c => <[cn_name c := c]> (constant_map s)
                     | _ => constant_map s
                     end |}.

(** The closure [add_node] of [graph_from_onnx_graph]. *)
Definition add_node (node : Node) : M nat :=
  fun s =>
    match tensor_map s !! node_name node with
    | Some _ => (inl (DuplicateNodeName (node_name node)), s)
    | None => (inr (length (nodes s)), register node s)
    end.

Definition initializer_error (ex : Exception) : string :=
  "Error converting initializer: " +:+ str_of_Exception ex.

Definition constant_op_error (ex : Exception) : string :=
  "Error converting " +:+ dq +:+ "Constant" +:+ dq +:+ " operator: "
  +:+ str_of_Exception ex.

Definition operator_error (operator : OperatorProto) (ex : Exception) : string :=
  "Error converting " +:+ proto_op_type operator +:+ " operator "
  +:+ proto_name operator +:+ ": " +:+ str_of_Exception ex.

(** First loop: the initializers. *)
Definition convert_initializers (tensors : list TensorProto)
  (conversion_errors : nat) : M nat :=
  for_fold tensors conversion_errors (fun conversion_errors tensor =>
    try_except
      (const_node ← constant_node_from_onnx_initializer tensor None;
       add_node (NConstant const_node);;
       mret conversion_errors)
      (fun ex =>
         warn_once (initializer_error ex);;
         mret (S conversion_errors))).

(** Second loop: the [Constant] operators. *)
Definition convert_constant_ops (operators : list OperatorProto)
  (conversion_errors : nat) : M nat :=
  for_fold operators conversion_errors (fun conversion_errors operator =>
    if negb (String.eqb (proto_op_type operator) "Constant")
    then mret conversion_errors
    else
      try_except
        (const_node ← constant_node_from_onnx_constant_op operator;
         add_node (NConstant const_node);;
         mret conversion_errors)
        (fun ex =>
           warn_once (constant_op_error ex);;
           mret (S conversion_errors))).

(** Third loop: the graph inputs. *)
Definition register_inputs (values : list ValueInfoProto) : M unit :=
  for_each values (fun value =>
    tm ← gets tensor_map;
    match tm !! value_name value with
    | Some _ => mret tt
    | None =>
        add_node (NValue (value_node_from_onnx_value value));;
        mret tt
    end).

(** Fourth loop: the other operators. *)
Definition convert_operators (operators : list OperatorProto)
  (conversion_errors : nat) : M nat :=
  for_fold operators conversion_errors (fun conversion_errors operator =>
    if String.eqb (proto_op_type operator) "Constant"
    then mret conversion_errors
    else
      for_each (proto_output operator) (fun output_name =>
        add_node (NValue {| vn_name := output_name; vn_shape := None |});;
        mret tt);;
      try_except
        (op_node ← op_node_from_onnx_operator operator add_node;
         add_node (NOperator op_node);;
         mret conversion_errors)
        (fun ex =>
           print_stderr (operator_error operator ex);;
           mret (S conversion_errors))).

(** [[tensor_map[info.name] for info in infos]] *)
Definition lookup_all (infos : list ValueInfoProto) : M (list nat) :=
  for_fold infos [] (fun acc info =>
    tm ← gets tensor_map;
    match tm !! value_name info with
    | Some index => mret (acc ++ [index])
    | None => raise (KeyError (value_name info))
    end).

Definition graph_from_onnx_graph (onnx_graph : GraphProto) : M Graph :=
  modify reset_graph;;
  let conversion_errors := 0%nat in
  conversion_errors ← convert_initializers (g_initializer onnx_graph) conversion_errors;
  conversion_errors ← convert_constant_ops (g_node onnx_graph) conversion_errors;
  (if (0 <? conversion_errors)%nat
   then raise (ConversionFailed conversion_errors "constants") else mret tt);;
  register_inputs (g_input onnx_graph);;
  conversion_errors ← convert_operators (g_node onnx_graph) conversion_errors;
  (if (0 <? conversion_errors)%nat
   then raise (ConversionFailed conversion_errors "operators") else mret tt);;
  inputs ← lookup_all (g_input onnx_graph);
  outputs ← lookup_all (g_output onnx_graph);
  nodes ← gets nodes;
  mret {| graph_nodes := nodes; graph_inputs := inputs; graph_outputs := outputs |}.

End Translator.

(** ** Serializer *)

(** Modelled from the spec: the FlatBuffers builder and the writer functions
    that flatc generates ([schema_generated], which is not part of the
    sources).  The buffer is a sequence of finished objects; the offset of an
    object is the size of the buffer once it is written, so no object has
    offset zero.  A vector is built back to front by prepending its items; a
    table collects the fields added between its start and its end. *)
Inductive FbValue :=
| FbScalar (z : Z)
| FbEnum (enum variant : string)                      (* [sg.enum.variant] *)
| FbOffset (o : nat).

Inductive FbObject :=
| FbString (s : string)
| FbNumpyVector (data : buffer)
| FbVector (items : list Z)
| FbAttrs (attrs : PyVal)
| FbTable (table : string) (fields : list (string * FbValue)).

Record Builder := {
  objects : list FbObject;
  current_vector : list Z;
  current_table : list (string * FbValue)
}.

Abbreviation B := (SE Builder).

Definition empty_builder : Builder :=
  {| objects := []; current_vector := []; current_table := [] |}.

Definition finish_object (o : FbObject) : B nat :=
  fun b => (inr (S (length (objects b))),
            {| objects := objects b ++ [o]; current_vector := [];
               current_table := [] |}).

(** [builder.CreateString(s)] *)
Definition CreateString (s : string) : B nat := finish_object (FbString s).

(** [builder.CreateNumpyVector(a.flatten())] *)
Definition CreateNumpyVector (a : ndarray) : B nat :=
  finish_object (FbNumpyVector (arr_data a)).

(** [sg.XStartYVector(builder, n)] *)
Definition StartVector (n : nat) : B unit :=
  modify (fun b => {| objects := objects b; current_vector := [];
                      current_table := current_table b |}).

Definition prepend (item : Z) : B unit :=
  modify (fun b => {| objects := objects b;
                      current_vector := item :: current_vector b;
                      current_table := current_table b |}).

(** [builder.PrependUint32(item)]: the builder refuses a number that does
    not fit. *)
Definition PrependUint32 (item : Z) : B unit :=
  if (0 <=? item) && (item <? 2 ^ 32) then prepend item
  else raise (TypeError "bad number for type uint32").

Definition PrependInt32 (item : Z) : B unit :=
  if (- 2 ^ 31 <=? item) && (item <? 2 ^ 31) then prepend item
  else raise (TypeError "bad number for type int32").

(** [builder.PrependUOffsetTRelative(item)]: an offset must lie in the
    buffer written so far. *)
Definition PrependUOffsetTRelative (item : Z) : B unit :=
  n ← gets (fun b => length (objects b));
  if (0 <=? item) && (item <=? Z.of_nat n) then prepend item
  else raise (ValueError "offset arithmetic error").

(** [builder.EndVector()] *)
Definition EndVector : B nat :=
  items ← gets current_vector;
  finish_object (FbVector items).

(** [sg.XStart(builder)], [sg.XAddField(builder, v)], [sg.XEnd(builder)] *)
Definition StartTable : B unit :=
  modify (fun b => {| objects := objects b; current_vector := current_vector b;
                      current_table := [] |}).

Definition AddField (field : string) (v : FbValue) : B unit :=
  modify (fun b => {| objects := objects b; current_vector := current_vector b;
                      current_table := current_table b ++ [(field, v)] |}).

Definition EndTable (table : string) : B nat :=
  fields ← gets current_table;
  finish_object (FbTable table fields).

Definition write_vec (data : list Z) (dtype : string) : B nat :=
  StartVector (length data);;
  for_each (rev data) (fun item =>
    if String.eqb dtype "u32" then PrependUint32 item
    else if String.eqb dtype "i32" then PrependInt32 item
    else if String.eqb dtype "offset" then PrependUOffsetTRelative item
    else raise (ValueError "Unsupported data type"));;
  EndVector.

Definition build_constant_node (constant : ConstantNode) : B nat :=
  shape_vec ← write_vec (cn_shape constant) "u32";
  data_vec ← CreateNumpyVector (cn_data constant);
  '(const_data, const_data_type) ←
    match arr_dtype (cn_data constant) with
    | float32 =>
        StartTable;;
        AddField "data" (FbOffset data_vec);;
        const_data ← EndTable "FloatData";
        mret (const_data, "FloatData")
    | int32 =>
        StartTable;;
        AddField "data" (FbOffset data_vec);;
        const_data ← EndTable "IntData";
        mret (const_data, "IntData")
    | d => raise (ValueError ("Unsupported data array type " +:+ dtype_name d))
    end;
  StartTable;;
  AddField "shape" (FbOffset shape_vec);;
  AddField "data_type" (FbEnum "ConstantData" const_data_type);;
  AddField "data" (FbOffset const_data);;
  EndTable "ConstantNode".

Definition node_id (maybe_id : option nat) : Z :=
  match maybe_id with
  | None => -1
  | Some id => Z.of_nat id
  end.

(** [s[:-1]] *)
Fixpoint strip_last (s : string) : string :=
  match s with
  | EmptyString => EmptyString
  | String c EmptyString => EmptyString
  | String c rest => String c (strip_last rest)
  end.

Section Serializer.

Variable sg : Schema.

(** The list objects of the store, which [operator.inputs] refers to. *)
Variable store : list (list (option nat)).

(** Modelled from the spec: [operator_table.Pack(builder)] of the generated
    [OperatorNodeT], which is not part of the sources.  It writes the
    attributes object, the two index vectors as signed 32-bit vectors, then
    the table. *)
Definition Pack (type : Z) (attrs_type : FbValue) (attrs : PyVal)
  (inputs outputs : list Z) : B nat :=
  attrs_offset ← match attrs with
                 | PyNone => mret None
                 | _ => o ← finish_object (FbAttrs attrs); mret (Some o)
                 end;
  inputs_vec ← write_vec inputs "i32";
  outputs_vec ← write_vec outputs "i32";
  StartTable;;
  AddField "type" (FbScalar type);;
  AddField "attrs_type" attrs_type;;
  match attrs_offset with
  | Some o => AddField "attrs" (FbOffset o)
  | None => mret tt
  end;;
  AddField "inputs" (FbOffset inputs_vec);;
  AddField "outputs" (FbOffset outputs_vec);;
  EndTable "OperatorNode".

Definition build_operator_node (operator : OperatorNode) : B nat :=
  attrs_type ←
    (if truthy (on_attrs operator) then
       match on_attrs operator with
       | PyObject cls _ =>
           let attrs_const_name := strip_last cls in
           match getattr (OperatorAttrs sg) attrs_const_name with
           | Some code => mret (FbScalar code)
           | None => raise (AttributeError attrs_const_name)
           end
       | _ => raise (AttributeError "Pack")
       end
     else mret (FbEnum "OperatorAttrs" "NONE"));
  type ← match getattr (OperatorType sg) (on_op_type operator) with
         | Some code => mret code
         | None => raise (AttributeError (on_op_type operator))
         end;
  let inputs := map node_id (default [] (store !! on_inputs operator)) in
  let outputs := map node_id (on_outputs operator) in
  Pack type attrs_type (on_attrs operator) inputs outputs.

Definition write_dim (dim : Dim) : B nat :=
  match dim with
  | DimName s =>
      name ← CreateString s;
      StartTable;;
      AddField "name" (FbOffset name);;
      EndTable "Dim"
  | DimSize n =>
      StartTable;;
      AddField "value" (FbScalar n);;
      EndTable "Dim"
  end.

Definition build_value_node (value : ValueNode) : B nat :=
  shape_vec ← match vn_shape value with
              | Some shape =>
                  dims ← for_fold shape [] (fun acc dim =>
                           o ← write_dim dim; mret (acc ++ [Z.of_nat o]));
                  v ← write_vec dims "offset";
                  mret (Some v)
              | None => mret None
              end;
  StartTable;;
  match shape_vec with
  | Some v => if negb (v =? 0)%nat then AddField "shape" (FbOffset v) else mret tt
  | None => mret tt
  end;;
  EndTable "ValueNode".

(** [write_graph], up to [builder.Finish(model)]: returns the offset of the
    root table; the builder then holds the buffer that is written out. *)
Definition write_graph (graph : Graph) : B nat :=
  node_offsets ←
    for_fold (graph_nodes graph) [] (fun node_offsets node =>
      '(data_type, data) ←
        match node with
        | NConstant c => d ← build_constant_node c; mret ("ConstantNode", d)
        | NOperator o => d ← build_operator_node o; mret ("OperatorNode", d)
        | NValue v => d ← build_value_node v; mret ("ValueNode", d)
        end;
      name_str ← CreateString (node_name node);
      StartTable;;
      AddField "name" (FbOffset name_str);;
      AddField "data_type" (FbEnum "NodeKind" data_type);;
      AddField "data" (FbOffset data);;
      node_offset ← EndTable "Node";
      mret (node_offsets ++ [Z.of_nat node_offset]));
  graph_nodes ← write_vec node_offsets "offset";
  inputs ← write_vec (map Z.of_nat (graph_inputs graph)) "u32";
  outputs ← write_vec (map Z.of_nat (graph_outputs graph)) "u32";
  StartTable;;
  AddField "nodes" (FbOffset graph_nodes);;
  AddField "inputs" (FbOffset inputs);;
  AddField "outputs" (FbOffset outputs);;
  graph ← EndTable "Graph";
  StartTable;;
  AddField "schema_version" (FbScalar 1);;
  AddField "graph" (FbOffset graph);;
  EndTable "Model".

End Serializer.

(** ** Reading a buffer back *)

(** What a reader of the buffer sees: the logical content of the tables,
    following offsets. *)
Inductive Payload :=
| ConstantPayload (shape : list Z) (data_type : string) (data : buffer)
| OperatorPayload (type : Z) (attrs_type : FbValue) (attrs : PyVal)
    (inputs outputs : list Z)
| ValuePayload (shape : option (list Dim)).

Record SerializedNode := {
  sn_name : string;
  sn_kind : string;
  sn_payload : Payload
}.

Record SerializedGraph := {
  ser_schema_version : Z;
  ser_nodes : list SerializedNode;
  ser_inputs : list Z;
  ser_outputs : list Z
}.

Definition get_object (b : Builder) (o : nat) : option FbObject :=
  match o with
  | O => None
  | S i => objects b !! i
  end.

Fixpoint get_field (fields : list (string * FbValue)) (name : string)
  : option FbValue :=
  match fields with
  | [] => None
  | (n, v) :: rest => if String.eqb n name then Some v else get_field rest name
  end.

Definition read_string (b : Builder) (o : nat) : option string :=
  match get_object b o with
  | Some (FbString s) => Some s
  | _ => None
  end.

Definition read_vector (b : Builder) (o : nat) : option (list Z) :=
  match get_object b o with
  | Some (FbVector items) => Some items
  | _ => None
  end.

Definition read_table (b : Builder) (o : nat) (table : string)
  : option (list (string * FbValue)) :=
  match get_object b o with
  | Some (FbTable t fields) => if String.eqb t table then Some fields else None
  | _ => None
  end.

Definition offset_field (fields : list (string * FbValue)) (name : string)
  : option nat :=
  match get_field fields name with
  | Some (FbOffset o) => Some o
  | _ => None
  end.

Definition read_dim (b : Builder) (o : Z) : option Dim :=
  fields ← read_table b (Z.to_nat o) "Dim";
  match get_field fields "name" with
  | Some (FbOffset n) => DimName <$> read_string b n
  | Some _ => None
  | None =>
      match get_field fields "value" with
      | Some (FbScalar v) => Some (DimSize v)
      | _ => None
      end
  end.

Definition read_value_node (b : Builder) (o : nat) : option Payload :=
  fields ← read_table b o "ValueNode";
  match get_field fields "shape" with
  | None => Some (ValuePayload None)
  | Some (FbOffset v) =>
      items ← read_vector b v;
      dims ← mapM (read_dim b) items;
      Some (ValuePayload (Some dims))
  | Some _ => None
  end.

Definition read_constant_node (b : Builder) (o : nat) : option Payload :=
  fields ← read_table b o "ConstantNode";
  shape_vec ← offset_field fields "shape";
  shape ← read_vector b shape_vec;
  data_off ← offset_field fields "data";
  match get_field fields "data_type" with
  | Some (FbEnum enum data_type) =>
      if String.eqb enum "ConstantData" then
        data_fields ← read_table b data_off data_type;
        data_vec ← offset_field data_fields "data";
        match get_object b data_vec with
        | Some (FbNumpyVector data) => Some (ConstantPayload shape data_type data)
        | _ => None
        end
      else None
  | _ => None
  end.

Definition read_operator_node (b : Builder) (o : nat) : option Payload :=
  fields ← read_table b o "OperatorNode";
  attrs_type ← get_field fields "attrs_type";
  inputs_vec ← offset_field fields "inputs";
  inputs ← read_vector b inputs_vec;
  outputs_vec ← offset_field fields "outputs";
  outputs ← read_vector b outputs_vec;
  attrs ← match get_field fields "attrs" with
          | None => Some PyNone
          | Some (FbOffset a) =>
              match get_object b a with
              | Some (FbAttrs v) => Some v
              | _ => None
              end
          | Some _ => None
          end;
  match get_field fields "type" with
  | Some (FbScalar type) =>
      Some (OperatorPayload type attrs_type attrs inputs outputs)
  | _ => None
  end.

Definition read_node (b : Builder) (o : Z) : option SerializedNode :=
  fields ← read_table b (Z.to_nat o) "Node";
  name_off ← offset_field fields "name";
  name ← read_string b name_off;
  data ← offset_field fields "data";
  match get_field fields "data_type" with
  | Some (FbEnum enum kind) =>
      if String.eqb enum "NodeKind" then
        payload ←
          (if String.eqb kind "ConstantNode" then read_constant_node b data
           else if String.eqb kind "OperatorNode" then read_operator_node b data
           else if String.eqb kind "ValueNode" then read_value_node b data
           else None);
        Some {| sn_name := name; sn_kind := kind; sn_payload := payload |}
      else None
  | _ => None
  end.

Definition read_graph (b : Builder) (root : nat) : option SerializedGraph :=
  model ← read_table b root "Model";
  graph_off ← offset_field model "graph";
  graph ← read_table b graph_off "Graph";
  nodes_vec ← offset_field graph "nodes";
  node_offsets ← read_vector b nodes_vec;
  nodes ← mapM (read_node b) node_offsets;
  inputs_vec ← offset_field graph "inputs";
  inputs ← read_vector b inputs_vec;
  outputs_vec ← offset_field graph "outputs";
  outputs ← read_vector b outputs_vec;
  match get_field model "schema_version" with
  | Some (FbScalar version) =>
      Some {| ser_schema_version := version; ser_nodes := nodes;
              ser_inputs := inputs; ser_outputs := outputs |}
  | _ => None
  end.

(** ** Sample models

    A schema with the operator types the translator has cases for and the
    enum variants of the Wasnn schema, and small ONNX records to run the
    converter on. *)

Definition sample_schema : Schema := {|
  OperatorType :=
    imap (fun i name => (name, Z.of_nat i))
      ["Add"; "ArgMax"; "ArgMin"; "AveragePool"; "BatchNormalization"; "Cast";
       "Clip"; "Concat"; "ConstantOfShape"; "Conv"; "ConvTranspose"; "CumSum";
       "Flatten"; "Gather"; "Gemm"; "GRU"; "HardSigmoid";
       "InstanceNormalization"; "LeakyRelu"; "LogSoftmax"; "LSTM"; "MatMul";
       "MaxPool"; "Mod"; "Mul"; "OneHot"; "Pad"; "ReduceL2"; "ReduceMax";
       "ReduceMean"; "ReduceMin"; "ReduceProd"; "ReduceSum"; "Relu"; "Reshape";
       "Resize"; "ScatterElements"; "ScatterND"; "Shape"; "Sigmoid"; "Softmax";
       "Split"; "Squeeze"; "TopK"; "Transpose"; "Trilu"; "Unsqueeze"];
  OperatorAttrs :=
    imap (fun i name => (name, Z.of_nat (S i)))
      ["ArgMaxAttrs"; "AveragePoolAttrs"; "BatchNormalizationAttrs";
       "CastAttrs"; "ConcatAttrs"; "ConstantOfShapeAttrs"; "ConvAttrs";
       "ConvTransposeAttrs"; "FlattenAttrs"; "GatherAttrs"; "GemmAttrs";
       "GRUAttrs"; "HardSigmoidAttrs"; "LeakyReluAttrs"; "LSTMAttrs";
       "MaxPoolAttrs"; "ModAttrs"; "OneHotAttrs"; "ReduceMeanAttrs";
       "ReshapeAttrs"; "ResizeAttrs"; "ScatterElementsAttrs"; "ScatterNDAttrs";
       "SoftmaxAttrs"; "SplitAttrs"; "TopKAttrs"; "TransposeAttrs";
       "TriluAttrs"];
  RNNDirection := [("Forward", 0); ("Reverse", 1); ("Bidirectional", 2)];
  ResizeMode := [("Nearest", 0); ("Linear", 1)];
  CoordTransformMode := [("HalfPixel", 0); ("Asymmetric", 1); ("AlignCorners", 2)];
  NearestMode := [("Floor", 0); ("Ceil", 1); ("RoundPreferFloor", 2);
                  ("RoundPreferCeil", 3)];
  ScatterReduction := [("None_", 0); ("Add", 1); ("Mul", 2); ("Min", 3); ("Max", 4)]
|}.

Definition mk_tensor (name : string) (dims : list Z) (d : dtype) (data : buffer) : TensorProto :=
  {| tensor_name := name; tensor_dims := dims; tensor_dtype := d; tensor_data := data |}.

Definition empty_tensor : TensorProto := mk_tensor EmptyString [] float32 (FloatData []).

Definition float_attr (name : string) (f : float) : AttributeProto :=
  {| attr_name := name; attr_type := FLOAT; attr_f := f; attr_i := 0;
     attr_ints := []; attr_s := EmptyString; attr_t := empty_tensor |}.
Definition int_attr (name : string) (i : Z) : AttributeProto :=
  {| attr_name := name; attr_type := INT; attr_f := 0%float; attr_i := i;
     attr_ints := []; attr_s := EmptyString; attr_t := empty_tensor |}.
Definition string_attr (name : string) (v : string) : AttributeProto :=
  {| attr_name := name; attr_type := STRING; attr_f := 0%float; attr_i := 0;
     attr_ints := []; attr_s := v; attr_t := empty_tensor |}.
(** Two bytes that are not UTF-8: 0xFF 0xFE. *)
Definition not_utf8 : string :=
  String (ascii_of_nat 255) (String (ascii_of_nat 254) EmptyString).
(** The letters "ſum", the first of them U+017F, whose upper case is S. *)
Definition long_s_um : string :=
  String (ascii_of_nat 197) (String (ascii_of_nat 191) "um").
Definition tensor_attr (name : string) (t : TensorProto) : AttributeProto :=
  {| attr_name := name; attr_type := TENSOR; attr_f := 0%float; attr_i := 0;
     attr_ints := []; attr_s := EmptyString; attr_t := t |}.

Definition mk_op (name op_type : string) (ins outs : list string) (attrs : list AttributeProto) :=
  {| proto_name := name; proto_op_type := op_type; proto_input := ins;
     proto_output := outs; proto_attribute := attrs |}.
Definition mk_value (name : string) : ValueInfoProto := {| value_name := name; value_dim := [] |}.

(** One initializer of an unsupported type and one [Constant] operator
    without outputs. *)
Definition bad_constants : GraphProto :=
  {| g_initializer := [mk_tensor "w" [1] float64 (FloatData [1.5%float])];
     g_node := [mk_op "k" "Constant" [] [] []];
     g_input := []; g_output := [] |}.


(** An int64 initializer whose dimensions do not fit its three values. *)
Definition misshaped_model : GraphProto :=
  {| g_initializer := [mk_tensor "w" [2; 2] int64 (IntData [1; -9999999999; 2])];
     g_node := []; g_input := []; g_output := [] |}.

(** The model of the specification's first scenario. *)
Definition clamp_model : GraphProto :=
  {| g_initializer := [mk_tensor "w" [2; 2] int64 (IntData [1; -9999999999; 2; 3])];
     g_node := []; g_input := []; g_output := [] |}.


Definition floats_attr (name : string) : AttributeProto :=
  {| attr_name := name; attr_type := FLOATS; attr_f := 0%float; attr_i := 0;
     attr_ints := []; attr_s := EmptyString; attr_t := empty_tensor |}.
Definition ints_attr (name : string) (l : list Z) : AttributeProto :=
  {| attr_name := name; attr_type := INTS; attr_f := 0%float; attr_i := 0;
     attr_ints := l; attr_s := EmptyString; attr_t := empty_tensor |}.

(** A reader over [op] whose list of input indexes is the list object 0 and
    whose set of handled attributes is the set object 0. *)
Definition reader_of (op : OperatorProto) : ONNXOperatorReader :=
  {| onnx_op := op; reader_add_node := add_node;
     input_indexes := 0%nat; _handled_attrs := 0%nat |}.

(** A state in which that list holds [indexes]. *)
Definition state_with_inputs (indexes : list (option nat)) : State :=
  {| EMITTED_WARNINGS := ∅; stderr := []; lists := [indexes]; sets := [∅];
     nodes := []; tensor_map := ∅; constant_map := ∅ |}.

(** A state in which the names [names] are registered as value nodes. *)
Definition state_with_values (names : list string) : State :=
  (for_each names (fun name =>
     add_node (NValue {| vn_name := name; vn_shape := None |});; mret tt)
     initial_state).2.

(** [Resize] operators whose [mode] attribute is the given string. *)
Definition resize_with_mode (mode : string) : OperatorProto :=
  mk_op "r" "Resize" ["x"] ["y"] [string_attr "mode" mode].

(** [ConstantOfShape] operators with the given value tensor. *)
Definition constant_of_shape (dims : list Z) (d : dtype) (data : buffer)
  : OperatorProto :=
  mk_op "k" "ConstantOfShape" ["x"] ["y"]
    [tensor_attr "value" (mk_tensor "v" dims d data)].

(** An initializer and an operator output that share the name [x]. *)
Definition duplicate_model : GraphProto :=
  {| g_initializer := [mk_tensor "x" [1] float32 (FloatData [1.5%float])];
     g_node := [mk_op "relu" "Relu" ["a"] ["x"] []];
     g_input := [mk_value "a"]; g_output := [mk_value "x"] |}.

(** The same, with a second initializer, of a type that is not converted. *)
Definition duplicate_model_float64 : GraphProto :=
  {| g_initializer := [mk_tensor "x" [1] float32 (FloatData [1.5%float]);
                       mk_tensor "w" [1] float64 (FloatData [2.5%float])];
     g_node := [mk_op "relu" "Relu" ["a"] ["x"] []];
     g_input := [mk_value "a"]; g_output := [mk_value "x"] |}.

(** An initializer and the output of a [Constant] operator that share the
    name [x]. *)
Definition duplicate_model_constant : GraphProto :=
  {| g_initializer := [mk_tensor "x" [1] float32 (FloatData [1.5%float])];
     g_node := [mk_op "k" "Constant" [] ["x"]
                  [tensor_attr "value"
                     (mk_tensor "v" [1] float32 (FloatData [2.5%float]))]];
     g_input := []; g_output := [mk_value "x"] |}.

(** A [Clip] operator of an old opset, with its bounds as attributes. *)
Definition clip_min (name : string) (inputs : list string) (output : string)
  : OperatorProto :=
  mk_op name "Clip" inputs [output] [float_attr "min" 0.5].

(** Two unnamed [Clip] operators in a row. *)
Definition two_clips : GraphProto :=
  {| g_initializer := [];
     g_node := [clip_min EmptyString ["x"] "y"; clip_min EmptyString ["y"] "z"];
     g_input := [mk_value "x"]; g_output := [mk_value "z"] |}.

(** The state of a run over [two_clips] when the second operator is about
    to be translated: the first one is converted and the output of the
    second is registered. *)
Definition second_clip_state : State :=
  ((register_inputs [mk_value "x"];;
    convert_operators sample_schema [clip_min EmptyString ["x"] "y"] 0;;
    add_node (NValue {| vn_name := "z"; vn_shape := None |});;
    mret tt) initial_state).2.

(** A graph with a value node without a shape, one with an empty shape, a
    scalar constant, and a [Clip] operator whose second input is absent. *)
Definition sample_store : list (list (option nat)) :=
  [[Some 0%nat; None; Some 2%nat]].

Definition sample_graph : Graph :=
  {| graph_nodes :=
       [NValue {| vn_name := "x"; vn_shape := None |};
        NValue {| vn_name := "y"; vn_shape := Some [] |};
        NConstant {| cn_name := "hi"; cn_shape := [];
                     cn_data := mk_ndarray float32 [] (FloatData [6%float]) |};
        NOperator {| on_name := "clip"; on_op_type := "Clip"; on_attrs := PyNone;
                     on_inputs := 0%nat; on_outputs := [Some 1%nat] |}];
     graph_inputs := [0%nat];
     graph_outputs := [1%nat] |}.

(** A model whose initializer is also listed as a graph input, with one
    operator. *)
Definition small_model : GraphProto :=
  {| g_initializer := [mk_tensor "w" [2] float32 (FloatData [1%float; 2%float])];
     g_node := [mk_op "add" "Add" ["x"; "w"] ["y"] []];
     g_input := [mk_value "x"; mk_value "w"];
     g_output := [mk_value "y"] |}.

(** A model with one operator, whose attribute is promoted to an input. *)
Definition clip_model : GraphProto :=
  {| g_initializer := [];
     g_node := [clip_min "c" ["x"] "y"];
     g_input := [mk_value "x"]; g_output := [mk_value "y"] |}.

(** A model whose one operator has a type that is no member of
    [OperatorType] but an attribute of every class. *)
Definition doc_model : GraphProto :=
  {| g_initializer := [];
     g_node := [mk_op "d" "__doc__" ["x"] ["y"] []];
     g_input := [mk_value "x"]; g_output := [mk_value "y"] |}.

(** * Properties *)

(** ** Running a computation *)

Lemma run_bind {S A B} (m : SE S A) (k : A → SE S B) (s : S) :
  (m ≫= k) s = match m s with
               | (inr a, s') => k a s'
               | (inl e, s') => (inl e, s')
               end.
Proof. reflexivity. Qed.

Lemma run_bind_inr {S A B} (m : SE S A) (k : A → SE S B) s a s' :
  m s = (inr a, s') → (m ≫= k) s = k a s'.
Proof. intros H. rewrite run_bind, H. reflexivity. Qed.

Lemma run_bind_inl {S A B} (m : SE S A) (k : A → SE S B) s e s' :
  m s = (inl e, s') → (m ≫= k) s = (inl e, s').
Proof. intros H. rewrite run_bind, H. reflexivity. Qed.

Lemma run_lift {S A} (r : result A) (s : S) : lift r s = (r, s).
Proof. reflexivity. Qed.

(** ** A program logic for the conversion monad

    [spec R m Q]: from any state, [m] ends in a state related to the start
    by [R], and a returned value satisfies [Q].  [R] is a preorder, so the
    rule for sequencing is transitivity. *)

Definition spec (R : State → State → Prop) {A} (m : M A) (Q : A → Prop) : Prop :=
  ∀ s, R s (m s).2 ∧ ∀ a, (m s).1 = inr a → Q a.

Definition steps (R : State → State → Prop) {A} (m : M A) : Prop :=
  spec R m (fun _ => True).

(** What the effects of the converter do to [R].  [W l]: the list object
    [l] may be written.  [P n]: the node [n] may be registered. *)
Record effects (R : State → State → Prop) (W : loc → Prop) (P : Node → Prop)
  : Prop := {
  eff_warn_once : ∀ msg, steps R (warn_once msg);
  eff_print_error : ∀ operator ex,
    steps R (print_stderr (operator_error operator ex));
  eff_set_add : ∀ l x, steps R (set_add l x);
  eff_new_list : ∀ l, steps R (new_list l);
  eff_new_set : steps R new_set;
  eff_list_append : ∀ l x, W l → steps R (list_append l x);
  eff_list_setitem : ∀ l i x, W l → steps R (list_setitem l i x);
  eff_add_node : ∀ n, P n → steps R (add_node n);
  eff_constant : ∀ name shape data c,
    ConstantNode__init__ name shape data = inr c → P (NConstant c);
  eff_rename : ∀ c name, P (NConstant c) → P (NConstant (set_cn_name c name));
  eff_value : ∀ v, P (NValue v);
  eff_operator : ∀ o, P (NOperator o)
}.

Arguments eff_warn_once {R W P}.
Arguments eff_print_error {R W P}.
Arguments eff_set_add {R W P}.
Arguments eff_new_list {R W P}.
Arguments eff_new_set {R W P}.
Arguments eff_list_append {R W P}.
Arguments eff_list_setitem {R W P}.
Arguments eff_add_node {R W P}.
Arguments eff_constant {R W P}.
Arguments eff_rename {R W P}.
Arguments eff_value {R W P}.
Arguments eff_operator {R W P}.

Section Logic.

Variable R : State → State → Prop.
Context `{!PreOrder R}.
Variable W : loc → Prop.
Variable P : Node → Prop.
Hypothesis E : effects R W P.

Lemma spec_weaken {A} (m : M A) (Q Q' : A → Prop) :
  spec R m Q → (∀ a, Q a → Q' a) → spec R m Q'.
Proof. intros H HQ s. destruct (H s) as [? ?]. split; eauto. Qed.

Lemma spec_steps {A} (m : M A) (Q : A → Prop) : spec R m Q → steps R m.
Proof. intros H. eapply spec_weaken; eauto. Qed.

Lemma spec_ret {A} (a : A) (Q : A → Prop) : Q a → spec R (mret a) Q.
Proof. intros H s. split; [reflexivity |]. cbn. intros ? [= <-]. done. Qed.

Lemma spec_raise {A} (e : Exception) (Q : A → Prop) : spec R (raise e) Q.
Proof. intros s. split; [reflexivity |]. cbn. discriminate. Qed.

Lemma spec_lift {A} (r : result A) (Q : A → Prop) :
  (∀ a, r = inr a → Q a) → spec R (lift r) Q.
Proof. intros H s. split; [reflexivity |]. cbn. auto. Qed.

Lemma spec_gets {A} (f : State → A) : steps R (gets f).
Proof. intros s. split; [reflexivity | done]. Qed.

Lemma spec_bind {A B} (m : M A) (k : A → M B) (Q : A → Prop) (Q' : B → Prop) :
  spec R m Q → (∀ a, Q a → spec R (k a) Q') → spec R (m ≫= k) Q'.
Proof.
  intros Hm Hk s. rewrite run_bind.
  destruct (Hm s) as [HR HQ]. destruct (m s) as [[e | a] s1]; cbn in *.
  - split; [done | discriminate].
  - destruct (Hk a (HQ a eq_refl) s1) as [HR' HQ'].
    split; [etrans; eauto | done].
Qed.

Lemma steps_bind {A B} (m : M A) (k : A → M B) (Q' : B → Prop) :
  steps R m → (∀ a, spec R (k a) Q') → spec R (m ≫= k) Q'.
Proof. intros Hm Hk. eapply spec_bind; [exact Hm | auto]. Qed.

Lemma spec_try_except {A} (m : M A) (h : Exception → M A) (Q : A → Prop) :
  spec R m Q → (∀ e, spec R (h e) Q) → spec R (try_except m h) Q.
Proof.
  intros Hm Hh s. unfold try_except.
  destruct (Hm s) as [HR HQ]. destruct (m s) as [[e | a] s1]; cbn in *.
  - destruct (Hh e s1) as [HR' HQ']. split; [etrans; eauto | done].
  - split; done.
Qed.

Lemma steps_for_each {A} (xs : list A) (body : A → M unit) :
  (∀ x, steps R (body x)) → steps R (for_each xs body).
Proof.
  intros H. induction xs as [| x xs IH]; cbn.
  - by apply spec_ret.
  - apply steps_bind; auto.
Qed.

Lemma steps_for_fold {A B} (xs : list A) (acc : B) (body : B → A → M B) :
  (∀ acc x, steps R (body acc x)) → steps R (for_fold xs acc body).
Proof.
  intros H. revert acc. induction xs as [| x xs IH]; intros acc; cbn.
  - by apply spec_ret.
  - apply steps_bind; auto.
Qed.

Lemma steps_get_attr self name expected_type default :
  steps R (get_attr self name expected_type default).
Proof.
  unfold get_attr. apply steps_bind; [apply (eff_set_add E) |]. intros _.
  apply steps_bind; [by apply spec_lift |]. intros ?. by apply spec_lift.
Qed.

Lemma steps_require_attr self name expected_type :
  steps R (require_attr self name expected_type).
Proof.
  unfold require_attr. apply steps_bind; [apply steps_get_attr |].
  intros []; first [apply spec_raise | by apply spec_ret].
Qed.

Lemma steps_check_attr self name expected_type default :
  steps R (check_attr self name expected_type default).
Proof.
  unfold check_attr. apply steps_bind; [apply steps_get_attr |].
  intros v. destruct v; try (by apply spec_ret);
    (destruct (existsb _ _); [by apply spec_ret | apply spec_raise]).
Qed.

Lemma steps_ignore_attr self name : steps R (ignore_attr self name).
Proof. apply (eff_set_add E). Qed.

Lemma steps_get_enum_attr self name enum default :
  steps R (get_enum_attr self name enum default).
Proof.
  unfold get_enum_attr. apply steps_bind; [apply steps_get_attr |].
  intros v. destruct v; try apply spec_raise.
  apply steps_bind; [by apply spec_lift |]. intros ?.
  repeat (destruct (getattr _ _); [by apply spec_ret |]). apply spec_raise.
Qed.

Lemma steps_unhandled_attrs self : steps R (unhandled_attrs self).
Proof.
  unfold unhandled_attrs. apply steps_bind; [apply spec_gets |].
  intros ?. by apply spec_ret.
Qed.

Lemma steps_generate_input_from_attr self input_index attr_name attr_type :
  (∀ n, P n → steps R (reader_add_node self n)) →
  W (input_indexes self) →
  steps R (generate_input_from_attr self input_index attr_name attr_type).
Proof.
  intros Hadd HW. unfold generate_input_from_attr.
  apply steps_bind; [apply steps_get_attr |]. intros v.
  assert (Hbody : steps R (
    cur ← read_list (input_indexes self);
    if (input_index <? length cur)%nat
    then raise (ConflictingAttributeAndInput attr_name input_index)
    else
      '(shape, data) ← lift (generated_input attr_name attr_type v);
      let generated_name := proto_name (onnx_op self) +:+ ":wasnn-" +:+ attr_name in
      const_node ← lift (ConstantNode__init__ generated_name shape data);
      input_id ← reader_add_node self (NConstant const_node);
      cur ← read_list (input_indexes self);
      for_each (replicate (input_index + 1 - length cur) tt)
        (fun _ => list_append (input_indexes self) None);;
      list_setitem (input_indexes self) input_index (Some input_id))).
  { apply steps_bind; [apply spec_gets |]. intros cur.
    destruct (_ <? _)%nat; [apply spec_raise |].
    apply steps_bind; [by apply spec_lift |]. intros [shape data].
    eapply spec_bind; [apply spec_lift; intros c Hc; exact Hc |].
    intros c Hc. cbn beta in Hc.
    apply steps_bind; [eapply Hadd, (eff_constant E), Hc |]. intros id.
    apply steps_bind; [apply spec_gets |]. intros cur'.
    apply steps_bind; [apply steps_for_each; intros; by apply (eff_list_append E) |].
    intros _. by apply (eff_list_setitem E). }
  destruct v; first [by apply spec_ret | exact Hbody].
Qed.

Lemma steps_read_pads self : steps R (read_pads self).
Proof.
  unfold read_pads. apply steps_bind; [apply steps_get_attr |]. intros v.
  destruct (_ || _); [by apply spec_ret |].
  destruct (str_is _ _); [| apply spec_raise].
  apply steps_bind; [apply steps_get_attr |]. intros pads.
  apply steps_bind; [by apply spec_lift |]. intros n.
  destruct (negb _); [apply spec_raise | by apply spec_ret].
Qed.

Lemma steps_read_strides self : steps R (read_strides self).
Proof.
  unfold read_strides. apply steps_bind; [apply steps_get_attr |]. intros v.
  apply steps_bind; [by apply spec_lift |]. intros n.
  destruct (negb _); [apply spec_raise | by apply spec_ret].
Qed.

Lemma steps_read_dilations self : steps R (read_dilations self).
Proof.
  unfold read_dilations. apply steps_bind; [apply steps_get_attr |]. intros v.
  apply steps_bind; [by apply spec_lift |]. intros n.
  destruct (negb _); [apply spec_raise | by apply spec_ret].
Qed.

Lemma spec_constant_node_from_onnx_initializer tensor op_name :
  spec R (constant_node_from_onnx_initializer tensor op_name)
    (fun c => P (NConstant c)
              ∧ ∃ data, ConstantNode__init__ (tensor_name tensor)
                          (tensor_dims tensor) data = inr c).
Proof.
  unfold constant_node_from_onnx_initializer.
  apply steps_bind; [by apply spec_lift |]. intros a.
  apply steps_bind.
  - destruct (arr_dtype _); try apply spec_raise; try (by apply spec_ret).
    apply steps_bind; [| intros; by apply spec_ret].
    apply steps_for_each. intros. apply (eff_warn_once E).
  - intros data. apply spec_lift. intros c Hc. split; [by eapply (eff_constant E) |].
    by exists data.
Qed.

(** One syntax-directed step through the translator's cases. *)
Ltac translate_step Hadd HW :=
  unfold steps;
  lazymatch goal with
  | |- spec R (if ?b then _ else _) _ => destruct b
  | |- spec R (match ?x with _ => _ end) _ => destruct x
  | |- spec R (mret _) _ => apply spec_ret; exact I
  | |- spec R (raise _) _ => apply spec_raise
  | |- spec R (lift _) _ => apply spec_lift; intros; exact I
  | |- spec R (get_attr _ _ _ _) _ => apply steps_get_attr
  | |- spec R (require_attr _ _ _) _ => apply steps_require_attr
  | |- spec R (check_attr _ _ _ _) _ => apply steps_check_attr
  | |- spec R (ignore_attr _ _) _ => apply steps_ignore_attr
  | |- spec R (get_enum_attr _ _ _ _) _ => apply steps_get_enum_attr
  | |- spec R (read_pads _) _ => apply steps_read_pads
  | |- spec R (read_strides _) _ => apply steps_read_strides
  | |- spec R (read_dilations _) _ => apply steps_read_dilations
  | |- spec R (generate_input_from_attr _ _ _ _) _ =>
      apply steps_generate_input_from_attr; [exact Hadd | exact HW]
  | |- spec R (constant_node_from_onnx_initializer _ _) _ =>
      eapply spec_steps, spec_constant_node_from_onnx_initializer
  | |- spec R (_ ≫= _) _ => apply steps_bind; [| intros ?]
  end.

Lemma steps_translate_attrs sg onnx_op self op_type :
  (∀ n, P n → steps R (reader_add_node self n)) →
  W (input_indexes self) →
  steps R (translate_attrs sg onnx_op self op_type).
Proof.
  intros Hadd HW. unfold translate_attrs. cbv zeta.
  repeat translate_step Hadd HW.
Qed.

(** *** The graph builder, which allocates and registers on its own *)

Hypothesis W_all : ∀ l, W l.

Lemma spec_ONNXOperatorReader__init__ op indexes add :
  spec R (ONNXOperatorReader__init__ op indexes add)
    (fun r => reader_add_node r = add ∧ onnx_op r = op).
Proof.
  unfold ONNXOperatorReader__init__.
  apply steps_bind; [apply spec_gets |]. intros l.
  apply steps_bind; [apply (eff_new_list E) |]. intros copy.
  apply steps_bind; [apply (eff_new_set E) |]. intros handled.
  by apply spec_ret.
Qed.

Lemma steps_resolve kind name op_name : steps R (resolve kind name op_name).
Proof.
  unfold resolve. apply steps_bind; [apply spec_gets |]. intros tm.
  destruct (tm !! name); [by apply spec_ret | apply spec_raise].
Qed.

Lemma steps_op_node_from_onnx_operator sg onnx_op add :
  (∀ n, P n → steps R (add n)) →
  steps R (op_node_from_onnx_operator sg onnx_op add).
Proof.
  intros Hadd. unfold op_node_from_onnx_operator.
  apply steps_bind; [apply (eff_new_list E) |]. intros indexes.
  apply steps_bind.
  { apply steps_for_each. intros name.
    apply steps_bind; [| intros; by apply (eff_list_append E)].
    destruct (negb _); [apply steps_resolve | by apply spec_ret]. }
  intros _. apply steps_bind.
  { apply steps_for_fold. intros acc name.
    apply steps_bind; [apply steps_resolve | intros; by apply spec_ret]. }
  intros output_indexes. cbv zeta.
  eapply spec_bind; [apply spec_ONNXOperatorReader__init__ |].
  intros r [Hr _]. cbn beta in Hr.
  apply steps_bind.
  { apply steps_translate_attrs; [rewrite Hr; exact Hadd | apply W_all]. }
  intros attrs. apply steps_bind.
  { destruct (negb _); [apply spec_raise | by apply spec_ret]. }
  intros _. apply steps_bind; [apply steps_unhandled_attrs |]. intros un.
  apply steps_bind; [apply steps_for_each; intros; apply (eff_warn_once E) |].
  intros _. by apply spec_ret.
Qed.

Lemma spec_constant_node_from_onnx_constant_op op :
  spec R (constant_node_from_onnx_constant_op op) (fun c => P (NConstant c)).
Proof.
  unfold constant_node_from_onnx_constant_op.
  destruct (proto_output op) as [| output_name ?]; [apply spec_raise |].
  apply steps_bind; [apply (eff_new_list E) |]. intros empty.
  apply steps_bind; [eapply spec_steps, spec_ONNXOperatorReader__init__ |].
  intros r. apply steps_bind; [apply steps_require_attr |].
  intros v. destruct v; try apply spec_raise.
  eapply spec_bind; [apply spec_constant_node_from_onnx_initializer |].
  intros c [Hc _]. apply spec_ret. by apply (eff_rename E).
Qed.

Lemma steps_convert_initializers tensors errors :
  steps R (convert_initializers tensors errors).
Proof.
  apply steps_for_fold. intros acc tensor. apply spec_try_except.
  - eapply spec_bind; [apply spec_constant_node_from_onnx_initializer |].
    intros c [Hc _]. apply steps_bind; [by apply (eff_add_node E) |].
    intros; by apply spec_ret.
  - intros e. apply steps_bind; [apply (eff_warn_once E) | intros; by apply spec_ret].
Qed.

Lemma steps_convert_constant_ops operators errors :
  steps R (convert_constant_ops operators errors).
Proof.
  apply steps_for_fold. intros acc operator.
  destruct (negb _); [by apply spec_ret |]. apply spec_try_except.
  - eapply spec_bind; [apply spec_constant_node_from_onnx_constant_op |].
    intros c Hc. apply steps_bind; [by apply (eff_add_node E) |].
    intros; by apply spec_ret.
  - intros e. apply steps_bind; [apply (eff_warn_once E) | intros; by apply spec_ret].
Qed.

Lemma steps_register_inputs values : steps R (register_inputs values).
Proof.
  apply steps_for_each. intros value.
  apply steps_bind; [apply spec_gets |]. intros tm.
  destruct (tm !! _); [by apply spec_ret |].
  apply steps_bind; [apply (eff_add_node E), (eff_value E) | intros; by apply spec_ret].
Qed.

Lemma steps_convert_operators sg operators errors :
  steps R (convert_operators sg operators errors).
Proof.
  apply steps_for_fold. intros acc operator.
  destruct (String.eqb _ _); [by apply spec_ret |].
  apply steps_bind.
  { apply steps_for_each. intros name.
    apply steps_bind; [apply (eff_add_node E), (eff_value E) | intros; by apply spec_ret]. }
  intros _. apply spec_try_except.
  - apply steps_bind; [apply steps_op_node_from_onnx_operator, (eff_add_node E) |].
    intros o. apply steps_bind; [apply (eff_add_node E), (eff_operator E) |].
    intros; by apply spec_ret.
  - intros e. apply steps_bind; [apply (eff_print_error E) | intros; by apply spec_ret].
Qed.

Lemma steps_lookup_all infos : steps R (lookup_all infos).
Proof.
  apply steps_for_fold. intros acc info.
  apply steps_bind; [apply spec_gets |]. intros tm.
  destruct (tm !! _); [by apply spec_ret | apply spec_raise].
Qed.

Lemma steps_graph_from_onnx_graph sg onnx_graph :
  steps R (modify reset_graph) →
  steps R (graph_from_onnx_graph sg onnx_graph).
Proof.
  intros Hreset. unfold graph_from_onnx_graph. cbv zeta.
  apply steps_bind; [exact Hreset |]. intros _.
  apply steps_bind; [apply steps_convert_initializers |]. intros e1.
  apply steps_bind; [apply steps_convert_constant_ops |]. intros e2.
  apply steps_bind.
  { destruct (_ <? _)%nat; [apply spec_raise | by apply spec_ret]. }
  intros _. apply steps_bind; [apply steps_register_inputs |]. intros _.
  apply steps_bind; [apply steps_convert_operators |]. intros e3.
  apply steps_bind.
  { destruct (_ <? _)%nat; [apply spec_raise | by apply spec_ret]. }
  intros _. apply steps_bind; [apply steps_lookup_all |]. intros ins.
  apply steps_bind; [apply steps_lookup_all |]. intros outs.
  apply steps_bind; [apply spec_gets |]. intros ns. by apply spec_ret.
Qed.

End Logic.

(** ** Loops that count their errors *)

Definition total {S A} (m : SE S A) : Prop := ∀ s, ∃ a s', m s = (inr a, s').

Lemma total_bind {S A B} (m : SE S A) (k : A → SE S B) :
  total m → (∀ a, total (k a)) → total (m ≫= k).
Proof.
  intros Hm Hk s. destruct (Hm s) as (a & s1 & E). rewrite (run_bind_inr _ _ _ _ _ E). apply Hk.
Qed.

Lemma total_ret {S A} (a : A) : total (mret a : SE S A).
Proof. intros s. by exists a, s. Qed.

Lemma total_warn_once msg : total (warn_once msg).
Proof. intros s. unfold warn_once. case_bool_decide; eauto. Qed.

Lemma total_try_except {S A} (m : SE S A) h : (∀ e, total (h e)) → total (try_except m h).
Proof.
  intros Hh s. unfold try_except. destruct (m s) as [[e|a] s1]; [apply Hh | eauto].
Qed.

Lemma for_fold_counter {S A} (xs : list A) (body : nat → A → SE S nat) e s :
  (∀ e x s, ∃ e' s', body e x s = (inr e', s') ∧ (e ≤ e')%nat) →
  ∃ e' s', for_fold xs e body s = (inr e', s') ∧ (e ≤ e')%nat.
Proof.
  intros Hb. revert e s. induction xs as [|x xs IH]; intros e s; cbn.
  - exists e, s. done.
  - destruct (Hb e x s) as (e1 & s1 & E & Hle). rewrite (run_bind_inr _ _ _ _ _ E).
    destruct (IH e1 s1) as (e2 & s2 & E2 & Hle2). exists e2, s2. split; [done | lia].
Qed.

Lemma counted_try {A} (m : M A) (msg : Exception → string) e s :
  ∃ e' s', try_except (m ;; mret e) (fun ex => warn_once (msg ex);; mret (S e)) s = (inr e', s') ∧ (e ≤ e')%nat.
Proof.
  unfold try_except. rewrite run_bind. destruct (m s) as [[ex|a] s1].
  - destruct (total_warn_once (msg ex) s1) as ([] & s2 & E). rewrite (run_bind_inr _ _ _ _ _ E).
    exists (S e), s2. split; [done | lia].
  - exists e, s1. done.
Qed.

Lemma try_counter (m : M nat) (msg : Exception → string) e s :
  (∀ s a s', m s = (inr a, s') → a = e) →
  ∃ e' s', try_except m (fun ex => warn_once (msg ex);; mret (S e)) s = (inr e', s') ∧ (e ≤ e')%nat.
Proof.
  intros Hm. unfold try_except. destruct (m s) as [[ex|a] s1] eqn:E.
  - destruct (total_warn_once (msg ex) s1) as ([] & s2 & E2). rewrite (run_bind_inr _ _ _ _ _ E2).
    exists (S e), s2. split; [done | lia].
  - exists a, s1. rewrite (Hm _ _ _ E). done.
Qed.

Lemma bind_returns {S A B} (m : SE S A) (k : A → SE S B) s b s' :
  (m ≫= k) s = (inr b, s') → ∃ a s1, m s = (inr a, s1) ∧ k a s1 = (inr b, s').
Proof.
  rewrite run_bind. destruct (m s) as [[e|a] s1]; [discriminate |]. eauto.
Qed.

Lemma convert_initializers_total tensors e s :
  ∃ e' s', convert_initializers tensors e s = (inr e', s') ∧ (e ≤ e')%nat.
Proof.
  apply for_fold_counter. clear. intros e tensor s. apply try_counter.
  intros s0 a s' H.
  apply bind_returns in H as (c & s1 & _ & H).
  apply bind_returns in H as (i & s2 & _ & H). by injection H.
Qed.

Lemma convert_constant_ops_total operators e s :
  ∃ e' s', convert_constant_ops operators e s = (inr e', s') ∧ (e ≤ e')%nat.
Proof.
  apply for_fold_counter. clear. intros e op s.
  destruct (negb _); [by exists e, s |]. apply try_counter.
  intros s0 a s' H.
  apply bind_returns in H as (c & s1 & _ & H).
  apply bind_returns in H as (i & s2 & _ & H). by injection H.
Qed.

Lemma register_inputs_total values : total (register_inputs values).
Proof.
  unfold register_inputs. induction values as [|v vs IH]; [apply total_ret |].
  cbn [for_each]. apply total_bind; [| intros; exact IH].
  intros s. rewrite run_bind. cbn [gets].
  destruct (tensor_map s !! value_name v) eqn:E.
  - by exists tt, s.
  - rewrite run_bind. unfold add_node.
    change (node_name (NValue (value_node_from_onnx_value v))) with (value_name v).
    rewrite E. by eexists _, _.
Qed.

(** C1, as amended.  The error count is checked at two points only.  The
    initializer loop and the Constant-operator loop share one count, which
    is checked after both have run: when it is positive the conversion
    aborts with ConversionFailed carrying that count, in the state the
    Constant-operator loop left, so nothing later runs.  Otherwise the graph
    inputs are registered, which counts no errors and cannot fail, and the
    count of the operator loop is checked when that loop returns: when it is
    positive the conversion aborts with ConversionFailed carrying it, in the
    state the loop left. *)
Theorem C1_error_checkpoints sg g s :
  ∃ e1 s1 e2 s2,
    convert_initializers (g_initializer g) 0 (reset_graph s) = (inr e1, s1)
    ∧ convert_constant_ops (g_node g) e1 s1 = (inr e2, s2)
    ∧ (e1 ≤ e2)%nat
    ∧ ((0 < e2)%nat →
       graph_from_onnx_graph sg g s = (inl (ConversionFailed e2 "constants"), s2))
    ∧ (e2 = 0%nat →
       ∃ s3, register_inputs (g_input g) s2 = (inr tt, s3)
             ∧ ∀ e4 s4, convert_operators sg (g_node g) 0 s3 = (inr e4, s4) →
                 (0 < e4)%nat →
                 graph_from_onnx_graph sg g s
                 = (inl (ConversionFailed e4 "operators"), s4)).
Proof.
  destruct (convert_initializers_total (g_initializer g) 0 (reset_graph s))
    as (e1 & s1 & E1 & _).
  destruct (convert_constant_ops_total (g_node g) e1 s1) as (e2 & s2 & E2 & Hle).
  exists e1, s1, e2, s2. split_and!; try done.
  - intros Hpos. unfold graph_from_onnx_graph. cbv zeta.
    rewrite run_bind. cbn [modify]. rewrite (run_bind_inr _ _ _ _ _ E1).
    rewrite (run_bind_inr _ _ _ _ _ E2).
    apply Nat.ltb_lt in Hpos. rewrite Hpos. reflexivity.
  - intros ->. destruct (register_inputs_total (g_input g) s2) as ([] & s3 & E3).
    exists s3. split; [done |]. intros e4 s4 E4 Hpos.
    unfold graph_from_onnx_graph. cbv zeta.
    rewrite run_bind. cbn [modify]. rewrite (run_bind_inr _ _ _ _ _ E1).
    rewrite (run_bind_inr _ _ _ _ _ E2).
    change (0 <? 0)%nat with false. cbv iota.
    rewrite (run_bind_inr _ _ _ _ _ (eq_refl : (mret tt : M unit) s2 = (inr tt, s2))).
    rewrite (run_bind_inr _ _ _ _ _ E3). rewrite (run_bind_inr _ _ _ _ _ E4).
    apply Nat.ltb_lt in Hpos. rewrite Hpos. reflexivity.
Qed.

(** C1, as stated, fails: the initializer loop ends with one error, yet the
    Constant-operator loop still runs, reports its own error, and the
    conversion aborts with a count of two. *)
Lemma C1_counterexample :
  (convert_initializers (g_initializer bad_constants) 0 (reset_graph initial_state)).1
  = inr 1%nat
  ∧ (graph_from_onnx_graph sample_schema bad_constants initial_state).1
    = inl (ConversionFailed 2 "constants")
  ∧ last (stderr (graph_from_onnx_graph sample_schema bad_constants initial_state).2)
    = Some (constant_op_error (NoOutputs "k")).
Proof. vm_compute. done. Qed.

(** ** Fixed-width arithmetic *)

Lemma wrap_small bits z :
  0 < bits → - 2 ^ (bits - 1) ≤ z < 2 ^ (bits - 1) → wrap bits z = z.
Proof.
  intros Hb Hz. unfold wrap.
  replace (2 ^ bits) with (2 * 2 ^ (bits - 1)).
  - rewrite Z.mod_small; lia.
  - rewrite <- Z.pow_succ_r by lia. f_equal. lia.
Qed.

Lemma wrap64_mul_l a d : wrap 64 (wrap 64 a * d) = wrap 64 (a * d).
Proof.
  unfold wrap. f_equal.
  replace (((a + 2 ^ (64 - 1)) mod 2 ^ 64 - 2 ^ (64 - 1)) * d + 2 ^ (64 - 1))
    with ((a + 2 ^ (64 - 1)) mod 2 ^ 64 * d + (2 ^ (64 - 1) - 2 ^ (64 - 1) * d)) by ring.
  replace (a * d + 2 ^ (64 - 1))
    with ((a + 2 ^ (64 - 1)) * d + (2 ^ (64 - 1) - 2 ^ (64 - 1) * d)) by ring.
  rewrite <- Z.add_mod_idemp_l by (compute; discriminate).
  rewrite Z.mul_mod_idemp_l by (compute; discriminate).
  rewrite Z.add_mod_idemp_l by (compute; discriminate). reflexivity.
Qed.

Lemma np_prod_from shape a :
  fold_left (fun acc d => wrap 64 (acc * d)) shape (wrap 64 a)
  = wrap 64 (a * product shape).
Proof.
  revert a. induction shape as [| d shape IH]; intros a; cbn [fold_left product fold_right].
  - by rewrite Z.mul_1_r.
  - rewrite wrap64_mul_l, IH. f_equal. unfold product. ring.
Qed.

(** numpy's product is the exact product reduced to 64 bits. *)
Lemma np_prod_wrap shape : np_prod shape = wrap 64 (product shape).
Proof.
  unfold np_prod. change 1 with (wrap 64 1) at 1.
  rewrite np_prod_from. f_equal. lia.
Qed.

Lemma np_prod_product shape :
  - 2 ^ 63 ≤ product shape < 2 ^ 63 → np_prod shape = product shape.
Proof. intros H. rewrite np_prod_wrap. apply wrap_small; [lia | exact H]. Qed.

(** ** Loading a tensor *)

(** Dimensions that fit [n] elements: no more of them than an array can
    have, all positive, with product [n], which is a size an array can
    have. *)
Definition well_shaped (dims : list Z) (n : nat) : Prop :=
  (length dims ≤ NPY_MAXDIMS)%nat
  ∧ Forall (fun d => 0 < d) dims
  ∧ product dims = Z.of_nat n
  ∧ Z.of_nat n ≤ NPY_MAX_INTP.

Lemma product_positive shape : Forall (fun d => 0 < d) shape → 0 < product shape.
Proof.
  induction 1 as [| d shape Hd _ IH]; cbn [product fold_right]; [lia |].
  unfold product in IH. nia.
Qed.

Lemma product_nonnegative shape :
  Forall (fun d => 0 ≤ d) shape → 0 ≤ product shape.
Proof.
  induction 1 as [| d shape Hd _ IH]; cbn [product fold_right]; [lia |].
  unfold product in IH. nia.
Qed.

Lemma known_size_positive shape i acc mismatch :
  Forall (fun d => 0 < d) shape → 0 < acc →
  acc * product shape ≤ NPY_MAX_INTP →
  known_size shape i acc None mismatch = inr (acc * product shape, None).
Proof.
  revert i acc. induction shape as [| d shape IH]; intros i acc Hpos Hacc Hle;
    cbn [known_size product fold_right].
  - by rewrite Z.mul_1_r.
  - apply Forall_cons in Hpos as [Hd Hpos].
    pose proof (product_positive shape Hpos) as Hp.
    cbn [product fold_right] in Hle. fold (product shape) in Hle |- *.
    rewrite (proj2 (Z.ltb_ge d 0)) by lia.
    rewrite (proj2 (Z.ltb_ge NPY_MAX_INTP (acc * d))) by nia.
    rewrite IH; [| done | nia | by rewrite <- Z.mul_assoc].
    by rewrite Z.mul_assoc.
Qed.

Lemma known_size_nonnegative shape i acc mismatch :
  Forall (fun d => 0 ≤ d) shape → 0 ≤ acc →
  known_size shape i acc None mismatch = inl mismatch
  ∨ known_size shape i acc None mismatch = inr (acc * product shape, None).
Proof.
  revert i acc. induction shape as [| d shape IH]; intros i acc Hpos Hacc;
    cbn [known_size product fold_right].
  - right. by rewrite Z.mul_1_r.
  - apply Forall_cons in Hpos as [Hd Hpos]. fold (product shape).
    rewrite (proj2 (Z.ltb_ge d 0)) by lia.
    destruct (NPY_MAX_INTP <? acc * d); [by left |].
    destruct (IH (S i) (acc * d) Hpos) as [-> | ->]; [nia | by left |].
    right. by rewrite Z.mul_assoc.
Qed.

(** A tensor whose dimensions fit its data loads with them. *)
Lemma reshape_well_shaped dims n : well_shaped dims n → reshape dims n = inr dims.
Proof.
  intros (Hlen & Hpos & Hprod & Hmax). unfold reshape.
  rewrite (proj2 (Nat.ltb_ge _ _)) by done.
  rewrite known_size_positive by (rewrite ?Z.mul_1_l; done || lia).
  cbn. rewrite Z.mul_1_l, Hprod. by rewrite Z.eqb_refl.
Qed.

(** Dimensions without a negative one whose product is not the number of
    elements are refused. *)
Lemma reshape_mismatched dims n :
  Forall (fun d => 0 ≤ d) dims → product dims ≠ Z.of_nat n →
  ∃ msg, reshape dims n = inl (ValueError msg).
Proof.
  intros Hpos Hne. unfold reshape.
  destruct (NPY_MAXDIMS <? length dims)%nat; [by eexists |].
  destruct (known_size_nonnegative dims 0 1 (reshape_mismatch n dims) Hpos)
    as [-> | ->]; [lia | by eexists |].
  cbn. rewrite Z.mul_1_l.
  destruct (Z.eqb_spec (Z.of_nat n) (product dims)); [congruence | by eexists].
Qed.



(** What a loaded array has of its tensor. *)
Lemma to_array_returns t a :
  to_array t = inr a →
  arr_dtype a = tensor_dtype t ∧ arr_data a = tensor_data t
  ∧ size a = buffer_length (tensor_data t)
  ∧ length (arr_shape a) = length (tensor_dims t).
Proof.
  unfold to_array. destruct (reshape _ _) as [e | shape] eqn:Hr; [discriminate |].
  cbn. intros [= <-]. split_and!; try done. cbn.
  unfold reshape in Hr. destruct (_ <? _)%nat; [discriminate |].
  destruct (known_size _ _ _ _ _) as [e | [s_known unknown]]; [discriminate |].
  cbn in Hr. destruct unknown as [i |].
  - destruct (_ || _); [discriminate |]. injection Hr as <-.
    by rewrite length_insert.
  - destruct (_ =? _); [| discriminate]. by injection Hr as <-.
Qed.

Lemma to_array_well_shaped t :
  well_shaped (tensor_dims t) (buffer_length (tensor_data t)) →
  to_array t = inr {| arr_dtype := tensor_dtype t;
                      arr_shape := tensor_dims t;
                      arr_data := tensor_data t |}.
Proof. intros H. unfold to_array. by rewrite reshape_well_shaped. Qed.

Lemma np_prod_well_shaped dims n : well_shaped dims n → np_prod dims = Z.of_nat n.
Proof.
  intros (_ & _ & Hprod & Hmax). rewrite np_prod_product; [done |].
  rewrite Hprod. unfold NPY_MAX_INTP in Hmax. lia.
Qed.

(** ** ConstantNode *)

Definition supported_dtype (d : dtype) : Prop := d = float32 ∨ d = int32.

(** The invariant of a constant node. *)
Definition constant_ok (n : Node) : Prop :=
  match n with
  | NConstant c =>
      np_prod (cn_shape c) = Z.of_nat (size (cn_data c))
      ∧ supported_dtype (arr_dtype (cn_data c))
  | _ => True
  end.

Lemma ConstantNode__init__cases name shape data :
  (np_prod shape = Z.of_nat (size data) ∧ supported_dtype (arr_dtype data)
   ∧ ConstantNode__init__ name shape data
     = inr {| cn_name := name; cn_shape := shape; cn_data := data |})
  ∨ (np_prod shape ≠ Z.of_nat (size data)
     ∧ ConstantNode__init__ name shape data
       = inl (ShapeMismatch name shape (np_prod shape) (size data)))
  ∨ (np_prod shape = Z.of_nat (size data) ∧ ¬ supported_dtype (arr_dtype data)
     ∧ ConstantNode__init__ name shape data
       = inl (UnsupportedConstantType name (arr_dtype data))).
Proof.
  unfold ConstantNode__init__, supported_dtype.
  destruct (Z.eqb_spec (np_prod shape) (Z.of_nat (size data))) as [E | E]; cbn [negb].
  - destruct (arr_dtype data); first
      [ left; split_and!; [done | by auto | done]
      | right; right; split_and!; [done | by intros [? | ?] | done] ].
  - right; left. done.
Qed.

Lemma ConstantNode__init__ok name shape data c :
  ConstantNode__init__ name shape data = inr c →
  c = {| cn_name := name; cn_shape := shape; cn_data := data |}
  ∧ constant_ok (NConstant c).
Proof.
  intros H.
  destruct (ConstantNode__init__cases name shape data)
    as [(E & Hd & Hc) | [(E & Hc) | (E & Hd & Hc)]]; rewrite Hc in H; try discriminate.
  injection H as <-. done.
Qed.

Lemma graph_from_onnx_graph_reset sg g s :
  graph_from_onnx_graph sg g s = graph_from_onnx_graph sg g (reset_graph s).
Proof. unfold graph_from_onnx_graph. rewrite !run_bind. reflexivity. Qed.

Lemma graph_from_onnx_graph_nodes sg g s graph s' :
  graph_from_onnx_graph sg g s = (inr graph, s') → graph_nodes graph = nodes s'.
Proof.
  unfold graph_from_onnx_graph. cbv zeta. intros H.
  do 9 (apply bind_returns in H as (? & ? & _ & H)).
  apply bind_returns in H as (ns & s1 & Hn & H).
  cbn in H, Hn. injection H as <- <-. by injection Hn as <- <-.
Qed.

Section ConstantInvariant.

Definition keeps_constants (s s' : State) : Prop :=
  Forall constant_ok (nodes s) → Forall constant_ok (nodes s').

#[local] Instance keeps_constants_preorder : PreOrder keeps_constants.
Proof.
  split.
  - intros s H. exact H.
  - intros s1 s2 s3 H1 H2 H. apply H2, H1, H.
Qed.

Lemma keeps_constants_same_nodes {A} (m : M A) :
  (∀ s, nodes (m s).2 = nodes s) → steps keeps_constants m.
Proof. intros H s. split; [| done]. unfold keeps_constants. by rewrite H. Qed.

Lemma keeps_constants_effects :
  effects keeps_constants (fun _ => True) constant_ok.
Proof.
  split; try done; try (intros; by apply keeps_constants_same_nodes).
  - intros msg. apply keeps_constants_same_nodes. intros s0.
    unfold warn_once. by case_bool_decide.
  - intros l i x _. apply keeps_constants_same_nodes. intros s0.
    unfold list_setitem. rewrite run_bind. cbn [read_list gets].
    by destruct (Nat.ltb _ _).
  - intros n Hn s0. split; [| done]. unfold add_node, keeps_constants.
    destruct (tensor_map s0 !! node_name n); cbn; [done |].
    intros H. apply Forall_app. split; [done | by constructor].
  - intros name shape data c Hc. by apply ConstantNode__init__ok in Hc as [_ ?].
Qed.

Lemma nodes_graph_from_onnx_graph sg g s :
  Forall constant_ok (nodes (graph_from_onnx_graph sg g s).2).
Proof.
  assert (Hs : steps keeps_constants (graph_from_onnx_graph sg g)).
  { apply (steps_graph_from_onnx_graph _ _ _ keeps_constants_effects); [done |].
    intros s0. split; [| done]. intros _. cbn. constructor. }
  rewrite graph_from_onnx_graph_reset.
  destruct (Hs (reset_graph s)) as [H _]. apply H. constructor.
Qed.

End ConstantInvariant.

(** C2, as amended.  Construction of a constant node checks the shape
    first and the element type second.  For a shape whose product fits in
    64 bits, where numpy's product is the exact one: it succeeds exactly
    when the product of the shape equals the number of elements and the
    elements are float32 or int32, fails with ShapeMismatch when the product
    differs, and fails with the unsupported-type error when the product
    matches but the element type is another one.  Every constant node of the
    graph under construction, and so of every graph the builder returns,
    satisfies the invariant, which for such a shape says that its product
    is the length of the data. *)
Theorem C2_constant_node_shape_invariant :
  (∀ name shape data,
     (np_prod shape = Z.of_nat (size data) ∧ supported_dtype (arr_dtype data)
      ∧ ConstantNode__init__ name shape data
        = inr {| cn_name := name; cn_shape := shape; cn_data := data |})
     ∨ (np_prod shape ≠ Z.of_nat (size data)
        ∧ ConstantNode__init__ name shape data
          = inl (ShapeMismatch name shape (np_prod shape) (size data)))
     ∨ (np_prod shape = Z.of_nat (size data) ∧ ¬ supported_dtype (arr_dtype data)
        ∧ ConstantNode__init__ name shape data
          = inl (UnsupportedConstantType name (arr_dtype data))))
  ∧ (∀ shape, - 2 ^ 63 ≤ product shape < 2 ^ 63 → np_prod shape = product shape)
  ∧ (∀ name shape data,
       - 2 ^ 63 ≤ product shape < 2 ^ 63 →
       (product shape = Z.of_nat (size data) ∧ supported_dtype (arr_dtype data)
        ∧ ConstantNode__init__ name shape data
          = inr {| cn_name := name; cn_shape := shape; cn_data := data |})
       ∨ (product shape ≠ Z.of_nat (size data)
          ∧ ConstantNode__init__ name shape data
            = inl (ShapeMismatch name shape (product shape) (size data)))
       ∨ (product shape = Z.of_nat (size data)
          ∧ ¬ supported_dtype (arr_dtype data)
          ∧ ConstantNode__init__ name shape data
            = inl (UnsupportedConstantType name (arr_dtype data))))
  ∧ (∀ sg g s,
       Forall constant_ok (nodes (graph_from_onnx_graph sg g s).2)
       ∧ ∀ graph, (graph_from_onnx_graph sg g s).1 = inr graph →
                  Forall constant_ok (graph_nodes graph))
  ∧ (∀ c, constant_ok (NConstant c) →
          - 2 ^ 63 ≤ product (cn_shape c) < 2 ^ 63 →
          product (cn_shape c) = Z.of_nat (size (cn_data c))).
Proof.
  split_and!.
  - apply ConstantNode__init__cases.
  - apply np_prod_product.
  - intros name shape data Hfits. rewrite <- (np_prod_product shape Hfits).
    apply ConstantNode__init__cases.
  - intros sg g s. split; [apply nodes_graph_from_onnx_graph |].
    intros graph H.
    destruct (graph_from_onnx_graph sg g s) as [r s'] eqn:E. cbn in H. subst r.
    rewrite (graph_from_onnx_graph_nodes _ _ _ _ _ E).
    pose proof (nodes_graph_from_onnx_graph sg g s) as Hn. by rewrite E in Hn.
  - intros c [H _] Hfits. by rewrite <- (np_prod_product _ Hfits).
Qed.

(** C2, as stated, fails: an int64 array whose length matches the shape is
    refused, and not with ShapeMismatch. *)
Lemma C2_counterexample :
  np_prod [2] = Z.of_nat (size (mk_ndarray int64 [2] (IntData [1; 2])))
  ∧ ConstantNode__init__ "c" [2] (mk_ndarray int64 [2] (IntData [1; 2]))
    = inl (UnsupportedConstantType "c" int64).
Proof. split; reflexivity. Qed.


(** ** Clamping and the warnings about it *)

Lemma clip_astype_clamp v :
  wrap 32 (clip_Z INT32_MIN INT32_MAX v) = clamp INT32_MIN INT32_MAX v.
Proof.
  unfold clip_Z, clamp, INT32_MIN, INT32_MAX.
  rewrite wrap_small by lia.
  destruct (Z.ltb_spec v (- 2 ^ 31)), (Z.ltb_spec (2 ^ 31 - 1) v); lia.
Qed.

Lemma str_of_Z_inj v w : str_of_Z v = str_of_Z w → v = w.
Proof.
  unfold str_of_Z. intros H. apply DecimalZ.to_int_inj.
  assert (Hnil : ∀ z, Z.to_int z ≠ Decimal.Pos Decimal.Nil
                      ∧ Z.to_int z ≠ Decimal.Neg Decimal.Nil).
  { intros [| p | p]; cbn; split; try discriminate;
      intros [= E]; by apply DecimalPos.Unsigned.to_uint_nonnil in E. }
  destruct (Hnil v) as [? ?], (Hnil w) as [? ?].
  apply (f_equal NilZero.int_of_string) in H.
  rewrite !NilZero.isi in H by done. by injection H.
Qed.

Lemma string_length_app (a b : string) :
  String.length (a +:+ b) = (String.length a + String.length b)%nat.
Proof. induction a as [| c a IH]; simpl; [done | by f_equal]. Qed.

Lemma string_app_inv_tail (a b suffix : string) :
  a +:+ suffix = b +:+ suffix → a = b.
Proof.
  revert b. induction a as [| c a IH]; intros [| c' b] H.
  - done.
  - apply (f_equal String.length) in H.
    rewrite (string_length_app (String c' b)), string_length_app in H.
    simpl in H. lia.
  - apply (f_equal String.length) in H.
    rewrite (string_length_app (String c a)), string_length_app in H.
    simpl in H. lia.
  - simpl in H. injection H as -> H. f_equal. by apply IH.
Qed.

Lemma clamp_warning_inj v w : clamp_warning v = clamp_warning w → v = w.
Proof.
  unfold clamp_warning. intros H. apply String.app_inj in H.
  apply string_app_inv_tail in H. by apply str_of_Z_inj.
Qed.

(** How often a line was printed. *)
Definition occurrences (msg : string) (log : list string) : nat :=
  length (filter (fun line => line = msg) log).

Lemma occurrences_app msg log1 log2 :
  occurrences msg (log1 ++ log2) = (occurrences msg log1 + occurrences msg log2)%nat.
Proof. unfold occurrences. by rewrite filter_app, length_app. Qed.

Lemma occurrences_one msg line :
  occurrences msg [line] = if bool_decide (line = msg) then 1%nat else 0%nat.
Proof.
  unfold occurrences. cbn. unfold filter. cbn.
  destruct (decide (line = msg)); case_bool_decide; done.
Qed.

(** Every clamp warning was printed once if it is in the set of emitted
    warnings, and never otherwise. *)
Definition deduplicated (s : State) : Prop :=
  ∀ v, occurrences (clamp_warning v) (stderr s)
       = if bool_decide (clamp_warning v ∈ EMITTED_WARNINGS s) then 1%nat else 0%nat.

Definition diagnostics_grow (s s' : State) : Prop :=
  (deduplicated s → deduplicated s')
  ∧ EMITTED_WARNINGS s ⊆ EMITTED_WARNINGS s'.

#[local] Instance diagnostics_grow_preorder : PreOrder diagnostics_grow.
Proof.
  split.
  - intros s. split; [done | set_solver].
  - intros s1 s2 s3 [H1 E1] [H2 E2]. split; [auto | set_solver].
Qed.

Lemma diagnostics_same {A} (m : M A) :
  (∀ s, stderr (m s).2 = stderr s ∧ EMITTED_WARNINGS (m s).2 = EMITTED_WARNINGS s) →
  steps diagnostics_grow m.
Proof.
  intros H s. destruct (H s) as [H1 H2]. split; [| done]. split.
  - unfold deduplicated. by rewrite H1, H2.
  - by rewrite H2.
Qed.

Lemma diagnostics_warn_once msg : steps diagnostics_grow (warn_once msg).
Proof.
  intros s. split; [| done]. unfold warn_once.
  case_bool_decide as Hin; cbn [snd]; [reflexivity |].
  split; cbn [stderr EMITTED_WARNINGS]; [| set_solver].
  intros Hd v. cbn [stderr EMITTED_WARNINGS]. rewrite occurrences_app, occurrences_one, (Hd v).
  destruct (decide (msg = clamp_warning v)) as [-> | Hne].
  - rewrite (bool_decide_eq_false_2 _ Hin).
    rewrite (bool_decide_eq_true_2 (clamp_warning v = _)) by done.
    rewrite bool_decide_eq_true_2 by set_solver. done.
  - rewrite (bool_decide_eq_false_2 (msg = _)) by done.
    rewrite Nat.add_0_r.
    erewrite bool_decide_ext; [reflexivity | set_solver].
Qed.

Lemma operator_error_not_clamp_warning operator ex v :
  operator_error operator ex ≠ clamp_warning v.
Proof. unfold operator_error, clamp_warning. cbn. discriminate. Qed.

Lemma diagnostics_print_error operator ex :
  steps diagnostics_grow (print_stderr (operator_error operator ex)).
Proof.
  intros s. split; [| done]. cbn [snd print_stderr modify].
  split; cbn [stderr EMITTED_WARNINGS]; [| done].
  intros Hd v. cbn [stderr EMITTED_WARNINGS]. rewrite occurrences_app, occurrences_one, (Hd v).
  rewrite (bool_decide_eq_false_2 (operator_error _ _ = _))
    by apply operator_error_not_clamp_warning.
  lia.
Qed.

Lemma diagnostics_effects :
  effects diagnostics_grow (fun _ => True) (fun _ => True).
Proof.
  split; try done;
    try (intros; apply diagnostics_same; intros ?;
         unfold set_add, list_append, list_setitem, new_list, new_set, add_node,
           modify, read_list, gets;
         rewrite ?run_bind; cbn; repeat case_match; done).
  - exact diagnostics_warn_once.
  - exact diagnostics_print_error.
Qed.

Lemma diagnostics_graph_from_onnx_graph sg g :
  steps diagnostics_grow (graph_from_onnx_graph sg g).
Proof.
  apply (steps_graph_from_onnx_graph _ _ _ diagnostics_effects); [done |].
  by apply diagnostics_same.
Qed.

(** After the warning loop, every value it went over is in the set. *)
Lemma for_each_warn_once (f : Z → string) (values : list Z) s :
  ∃ s', for_each values (fun v => warn_once (f v)) s = (inr tt, s')
        ∧ ∀ v, v ∈ values → f v ∈ EMITTED_WARNINGS s'.
Proof.
  revert s. induction values as [| v values IH]; intros s; cbn [for_each].
  - exists s. split; [done |]. intros v Hv. by apply elem_of_nil in Hv.
  - destruct (total_warn_once (f v) s) as ([] & s1 & E1).
    rewrite (run_bind_inr _ _ _ _ _ E1).
    destruct (IH s1) as (s2 & E2 & Hin). exists s2. split; [done |].
    intros w [-> | Hw]%elem_of_cons; [| by apply Hin].
    assert (Hs1 : f v ∈ EMITTED_WARNINGS s1).
    { unfold warn_once in E1. case_bool_decide; injection E1 as <-; [done |].
      cbn. set_solver. }
    assert (Hg : steps diagnostics_grow (for_each values (fun v => warn_once (f v)))).
    { apply steps_for_each; [exact _ |]. intros. apply diagnostics_warn_once. }
    destruct (Hg s1) as [[_ Hsub] _]. rewrite E2 in Hsub. cbn in Hsub. set_solver.
Qed.

Lemma normalize_int64 name dims l op_name s :
  well_shaped dims (length l) →
  ∃ s', constant_node_from_onnx_initializer
          {| tensor_name := name; tensor_dims := dims; tensor_dtype := int64;
             tensor_data := IntData l |} op_name s
        = (inr {| cn_name := name; cn_shape := dims;
                  cn_data := mk_ndarray int32 dims
                               (IntData (map (clamp INT32_MIN INT32_MAX) l)) |},
           s')
        ∧ ∀ v, v ∈ l → out_of_range v = true →
               clamp_warning v ∈ EMITTED_WARNINGS s'.
Proof.
  intros Hshape. unfold constant_node_from_onnx_initializer.
  cbn [tensor_dims tensor_name].
  rewrite run_bind, run_lift, to_array_well_shaped by done.
  cbn [tensor_dtype tensor_dims tensor_data arr_dtype].
  destruct (for_each_warn_once clamp_warning
              (out_of_range_values (mk_ndarray int64 dims (IntData l))) s)
    as (s' & E & Hin).
  exists s'. split.
  - rewrite run_bind. rewrite (run_bind_inr _ _ _ _ _ E). cbn [mret SE_ret ret].
    rewrite run_lift. f_equal. unfold ConstantNode__init__.
    replace (size (astype_int32 (clip INT32_MIN INT32_MAX
                                  (mk_ndarray int64 dims (IntData l)))))
      with (length l) by (unfold size; cbn; by rewrite !length_map).
    rewrite (np_prod_well_shaped _ _ Hshape), Z.eqb_refl. cbn.
    do 2 f_equal. unfold astype_int32, clip. cbn. do 2 f_equal.
    rewrite map_map. apply map_ext. intros v. apply clip_astype_clamp.
  - intros v Hv Hr. apply Hin. unfold out_of_range_values. cbn.
    apply list_elem_of_filter. done.
Qed.

Lemma emitted_grows {A} (m : M A) s :
  steps diagnostics_grow m → EMITTED_WARNINGS s ⊆ EMITTED_WARNINGS (m s).2.
Proof. intros H. by destruct (H s) as [[_ ?] _]. Qed.

Lemma diagnostics_convert_initializers tensors errors :
  steps diagnostics_grow (convert_initializers tensors errors).
Proof. apply (steps_convert_initializers _ _ _ diagnostics_effects). Qed.

Lemma convert_initializers_warned tensors errors s tensor l v :
  tensor ∈ tensors → tensor_dtype tensor = int64 → tensor_data tensor = IntData l →
  well_shaped (tensor_dims tensor) (length l) →
  v ∈ l → out_of_range v = true →
  clamp_warning v ∈ EMITTED_WARNINGS (convert_initializers tensors errors s).2.
Proof.
  intros Hin Hd Hl Hshape Hv Hr. revert errors s.
  induction Hin as [tensor tensors | tensor t' tensors Hin IH]; intros errors s.
  - unfold convert_initializers. cbn [for_fold]. rewrite run_bind.
    match goal with |- context [try_except ?m ?h s] =>
      assert (Hb : clamp_warning v ∈ EMITTED_WARNINGS (try_except m h s).2) end.
    { unfold try_except. rewrite run_bind.
      destruct tensor as [name dims d data]. cbn in Hd, Hl, Hshape. subst d data.
      destruct (normalize_int64 name dims l None s Hshape) as (s1 & -> & Hw).
      specialize (Hw v Hv Hr).
      assert (Hh : ∀ ex s0, clamp_warning v ∈ EMITTED_WARNINGS s0 →
        clamp_warning v ∈ EMITTED_WARNINGS
          ((warn_once (initializer_error ex);; mret (S errors) : M nat) s0).2).
      { intros ex s0 H0. eapply elem_of_weaken; [exact H0 |].
        apply emitted_grows. apply steps_bind; [exact _ | apply diagnostics_warn_once |].
        intros. by apply spec_ret; [exact _ |]. }
      rewrite run_bind. unfold add_node at 1.
      destruct (tensor_map s1 !! _); [by apply Hh | exact Hw]. }
    destruct (try_except _ _ s) as [[ex | e'] s1]; [exact Hb |].
    eapply elem_of_weaken; [exact Hb |]. apply emitted_grows.
    apply diagnostics_convert_initializers.
  - unfold convert_initializers. cbn [for_fold]. rewrite run_bind.
    edestruct (try_counter
      (const_node ← constant_node_from_onnx_initializer t' None;
       add_node (NConstant const_node);; mret errors) initializer_error errors s)
      as (e' & s1 & E & _); [| rewrite E; by apply IH].
    intros s0 a s' H. apply bind_returns in H as (c & s2 & _ & H).
    apply bind_returns in H as (i & s3 & _ & H). by injection H.
Qed.

(** A tensor that does not load is refused before anything else is done
    with it. *)
Lemma normalizer_load_fails tensor op_name s ex :
  to_array tensor = inl ex →
  constant_node_from_onnx_initializer tensor op_name s = (inl ex, s).
Proof.
  intros H. unfold constant_node_from_onnx_initializer.
  by rewrite run_bind, run_lift, H.
Qed.

(** C3, as amended.  For an int64 tensor whose dimensions fit its data, so
    that it loads: normalizing it yields the constant with the tensor's name
    and dimensions whose int32 elements are the clamped originals; distinct
    values have distinct clamp warnings; from a state whose clamp warnings
    are deduplicated, the normalization leaves them deduplicated and every
    out-of-range value of the tensor has its warning printed exactly once;
    and over a whole conversion run the warnings stay deduplicated, the
    warning of every out-of-range value of such an initializer being printed
    exactly once however often the value occurs.  A tensor whose dimensions,
    none of them negative, have another product than the number of elements
    is refused by the load with a ValueError, before any clamping or
    warning: the state stays as it is. *)
Theorem C3_int64_clamped_and_warned_once :
  (∀ name dims l op_name s,
     well_shaped dims (length l) →
     (constant_node_from_onnx_initializer
        {| tensor_name := name; tensor_dims := dims; tensor_dtype := int64;
           tensor_data := IntData l |} op_name s).1
     = inr {| cn_name := name; cn_shape := dims;
              cn_data := mk_ndarray int32 dims
                           (IntData (map (clamp INT32_MIN INT32_MAX) l)) |})
  ∧ (∀ v w, clamp_warning v = clamp_warning w → v = w)
  ∧ (∀ name dims l op_name s,
       well_shaped dims (length l) →
       deduplicated s →
       let s' := (constant_node_from_onnx_initializer
                    {| tensor_name := name; tensor_dims := dims;
                       tensor_dtype := int64; tensor_data := IntData l |}
                    op_name s).2 in
       deduplicated s'
       ∧ ∀ v, v ∈ l → out_of_range v = true →
              occurrences (clamp_warning v) (stderr s') = 1%nat)
  ∧ (∀ sg g s,
       deduplicated s →
       let s' := (graph_from_onnx_graph sg g s).2 in
       deduplicated s'
       ∧ ∀ tensor l v,
           tensor ∈ g_initializer g → tensor_dtype tensor = int64 →
           tensor_data tensor = IntData l →
           well_shaped (tensor_dims tensor) (length l) →
           v ∈ l → out_of_range v = true →
           occurrences (clamp_warning v) (stderr s') = 1%nat)
  ∧ (∀ name dims l op_name s,
       Forall (fun d => 0 ≤ d) dims →
       product dims ≠ Z.of_nat (length l) →
       ∃ msg,
         constant_node_from_onnx_initializer
           {| tensor_name := name; tensor_dims := dims; tensor_dtype := int64;
              tensor_data := IntData l |} op_name s
         = (inl (ValueError msg), s)).
Proof.
  split_and!.
  - intros name dims l op_name s Hshape.
    by destruct (normalize_int64 name dims l op_name s Hshape) as (s' & -> & _).
  - apply clamp_warning_inj.
  - intros name dims l op_name s Hshape Hd s'.
    assert (Hd' : deduplicated s').
    { pose proof (spec_constant_node_from_onnx_initializer _ _ _ diagnostics_effects
                    {| tensor_name := name; tensor_dims := dims;
                       tensor_dtype := int64; tensor_data := IntData l |}
                    op_name s) as [[H _] _].
      by apply H. }
    split; [exact Hd' |]. intros v Hv Hr. rewrite (Hd' v).
    rewrite bool_decide_eq_true_2; [done |]. subst s'.
    destruct (normalize_int64 name dims l op_name s Hshape) as (s1 & -> & Hw).
    by apply Hw.
  - intros sg g s Hd s'.
    assert (Hd' : deduplicated s').
    { destruct (diagnostics_graph_from_onnx_graph sg g s) as [[H _] _]. by apply H. }
    split; [exact Hd' |]. intros tensor l v Hin Hdt Hl Hshape Hv Hr. rewrite (Hd' v).
    rewrite bool_decide_eq_true_2; [done |]. subst s'.
    unfold graph_from_onnx_graph. cbv zeta. rewrite run_bind. cbn [modify].
    pose proof (convert_initializers_warned (g_initializer g) 0 (reset_graph s)
                  tensor l v Hin Hdt Hl Hshape Hv Hr) as Hw.
    destruct (convert_initializers_total (g_initializer g) 0 (reset_graph s))
      as (e1 & s1 & E1 & _).
    rewrite E1 in Hw. rewrite (run_bind_inr _ _ _ _ _ E1).
    eapply elem_of_weaken; [exact Hw |]. apply emitted_grows.
    pose proof diagnostics_effects as HE.
    apply steps_bind; [exact _ | by apply (steps_convert_constant_ops _ _ _ HE) |].
    intros e2. apply steps_bind; [exact _ | |].
    { destruct (_ <? _)%nat; [apply spec_raise; exact _ | by apply spec_ret; [exact _ |]]. }
    intros _. apply steps_bind; [exact _ | by apply (steps_register_inputs _ _ _ HE) |].
    intros _. apply steps_bind; [exact _ | by apply (steps_convert_operators _ _ _ HE) |].
    intros e3. apply steps_bind; [exact _ | |].
    { destruct (_ <? _)%nat; [apply spec_raise; exact _ | by apply spec_ret; [exact _ |]]. }
    intros _. apply steps_bind; [exact _ | apply steps_lookup_all; exact _ |].
    intros ins. apply steps_bind; [exact _ | apply steps_lookup_all; exact _ |].
    intros outs. apply steps_bind; [exact _ | apply spec_gets; exact _ |].
    intros ns. by apply spec_ret; [exact _ |].
  - intros name dims l op_name s Hpos Hne.
    destruct (reshape_mismatched dims (length l) Hpos Hne) as (msg & Hr).
    exists msg. apply normalizer_load_fails. unfold to_array. cbn.
    by rewrite Hr.
Qed.

Lemma C3_witness :
  deduplicated initial_state
  ∧ occurrences (clamp_warning (-9999999999))
      (stderr (graph_from_onnx_graph sample_schema clamp_model initial_state).2)
    = 1%nat.
Proof.
  assert (H : deduplicated initial_state) by (intros v; reflexivity).
  split; [exact H |].
  apply (proj2 (proj1 (proj2 (proj2 (proj2 C3_int64_clamped_and_warned_once)))
                  sample_schema clamp_model initial_state H)
           (mk_tensor "w" [2; 2] int64 (IntData [1; -9999999999; 2; 3]))
           [1; -9999999999; 2; 3] (-9999999999)).
  - apply list_elem_of_here.
  - reflexivity.
  - reflexivity.
  - unfold well_shaped, NPY_MAXDIMS, NPY_MAX_INTP. cbn.
    split_and!; [lia | repeat (constructor; [lia |]); constructor | reflexivity | lia].
  - apply list_elem_of_further, list_elem_of_here.
  - reflexivity.
Defined.

(** C3, as stated, fails for an int64 tensor whose dimensions do not fit
    its data: [2, 2] for three values, one of them out of range.  The load
    raises, so the normalizer yields no element and prints no warning, and
    a run over a model with this initializer ends with one conversion error
    and without the warning. *)
Lemma C3_counterexample :
  constant_node_from_onnx_initializer
    (mk_tensor "w" [2; 2] int64 (IntData [1; -9999999999; 2])) None initial_state
  = (inl (ValueError "cannot reshape array of size 3 into shape (2,2)"),
     initial_state)
  ∧ (graph_from_onnx_graph sample_schema misshaped_model initial_state).1
    = inl (ConversionFailed 1 "constants")
  ∧ occurrences (clamp_warning (-9999999999))
      (stderr (graph_from_onnx_graph sample_schema misshaped_model
                 initial_state).2)
    = 0%nat.
Proof. split_and!; vm_compute; reflexivity. Qed.

(** ** Attribute reader *)

(** The first attribute of the operator with the given name. *)
Definition find_attr (attrs : list AttributeProto) (name : string)
  : option AttributeProto :=
  List.find (fun attr => String.eqb (attr_name attr) name) attrs.

Lemma string_type_code expected_type code :
  AttributeProto_getattr (upper expected_type) = inr code →
  expected_type = "string" → code = STRING.
Proof. intros H ->. vm_compute in H. by injection H. Qed.

Lemma lookup_attr_found attrs name expected_type code default attr v :
  find_attr attrs name = Some attr →
  AttributeProto_getattr (upper expected_type) = inr code →
  attr_type attr = code →
  value_fields code attr = inr v →
  (expected_type = "string" → utf8_valid (attr_s attr) = true) →
  ∃ val, lookup_attr attrs name expected_type code default = inr val
         ∧ val ≠ PyNone.
Proof.
  intros Hfind Hcode Hty Hv Hutf.
  induction attrs as [| a attrs IH]; [discriminate |].
  cbn in Hfind |- *. destruct (String.eqb (attr_name a) name).
  - injection Hfind as ->. rewrite Hty.
    replace (AttributeType_eqb code code) with true by (by destruct code).
    cbn [negb]. rewrite Hv. cbn.
    destruct (String.eqb_spec expected_type "string") as [Hs | Hs].
    + pose proof (string_type_code _ _ Hcode Hs) as ->. cbn in Hv.
      injection Hv as <-. cbn. rewrite (Hutf Hs). by eexists.
    + exists v. split; [done |]. destruct code; cbn in Hv; try discriminate;
        by injection Hv as <-.
  - by apply IH.
Qed.

Lemma lookup_attr_absent attrs name expected_type code default :
  find_attr attrs name = None →
  lookup_attr attrs name expected_type code default = inr default.
Proof.
  induction attrs as [| a attrs IH]; [done |]. cbn.
  destruct (String.eqb (attr_name a) name); [discriminate | exact IH].
Qed.

Definition mark_handled (self : ONNXOperatorReader) (name : string) (s : State)
  : State :=
  set_sets (alter (fun handled => {[name]} ∪ handled) (_handled_attrs self)) s.

Lemma run_get_attr self name expected_type default s code :
  AttributeProto_getattr (upper expected_type) = inr code →
  get_attr self name expected_type default s
  = (lookup_attr (proto_attribute (onnx_op self)) name expected_type code default,
     mark_handled self name s).
Proof.
  intros Hcode. unfold get_attr. rewrite run_bind. cbn [set_add modify].
  rewrite run_bind. unfold lift. by rewrite Hcode.
Qed.

(** C5, as amended.  When the attribute is present with the expected type,
    a type the reader has a value field for, its bytes being well-formed
    UTF-8 when a string is asked for, and the target index is below the
    length of the input list, promotion fails with
    ConflictingAttributeAndInput; nothing but the set of handled attributes
    has changed. *)
Theorem C5_promotion_conflict self input_index name expected_type s
    code attr v cur :
  AttributeProto_getattr (upper expected_type) = inr code →
  find_attr (proto_attribute (onnx_op self)) name = Some attr →
  attr_type attr = code →
  value_fields code attr = inr v →
  (expected_type = "string" → utf8_valid (attr_s attr) = true) →
  lists s !! input_indexes self = Some cur →
  (input_index < length cur)%nat →
  generate_input_from_attr self input_index name expected_type s
  = (inl (ConflictingAttributeAndInput name input_index), mark_handled self name s).
Proof.
  intros Hcode Hfind Hty Hv Hutf Hcur Hlt.
  destruct (lookup_attr_found _ _ _ _ PyNone _ _ Hfind Hcode Hty Hv Hutf)
    as (val & Hval & Hnone).
  unfold generate_input_from_attr.
  rewrite run_bind, (run_get_attr _ _ _ _ _ _ Hcode), Hval.
  assert (Hread : read_list (input_indexes self) (mark_handled self name s)
                  = (inr cur, mark_handled self name s)).
  { unfold read_list, gets. cbn. by rewrite Hcur. }
  apply Nat.ltb_lt in Hlt.
  destruct val; try done; rewrite run_bind, Hread, Hlt; reflexivity.
Qed.

Lemma C5_witness :
  generate_input_from_attr
    (reader_of (mk_op "c" "Clip" ["x"; "lo"] ["y"] [float_attr "min" 0.5]))
    1 "min" "float" (state_with_inputs [Some 0%nat; Some 1%nat])
  = (inl (ConflictingAttributeAndInput "min" 1),
     mark_handled
       (reader_of (mk_op "c" "Clip" ["x"; "lo"] ["y"] [float_attr "min" 0.5]))
       "min" (state_with_inputs [Some 0%nat; Some 1%nat])).
Proof.
  apply (C5_promotion_conflict _ 1%nat "min" "float" _ FLOAT
           (float_attr "min" 0.5) (PyFloat 0.5) [Some 0%nat; Some 1%nat]);
    try reflexivity.
  cbn. lia.
Defined.

(** C5, as stated, fails: the attribute is present and the second input is
    occupied, but the attribute has another type than the one asked for, and
    the promotion fails with AttributeTypeMismatch; or it has the type asked
    for, a list of floats, for which the reader has no value field, and the
    promotion fails with KeyError; or it is a string whose bytes are not
    UTF-8, and the promotion fails with UnicodeDecodeError. *)
Lemma C5_counterexample :
  find_attr [int_attr "min" 0] "min" = Some (int_attr "min" 0)
  ∧ lists (state_with_inputs [Some 0%nat; Some 1%nat]) !! 0%nat
    = Some [Some 0%nat; Some 1%nat]
  ∧ (generate_input_from_attr
       (reader_of (mk_op "c" "Clip" ["x"; "lo"] ["y"] [int_attr "min" 0]))
       1 "min" "float" (state_with_inputs [Some 0%nat; Some 1%nat])).1
    = inl (AttributeTypeMismatch "min" "float")
  ∧ (generate_input_from_attr
       (reader_of (mk_op "c" "Clip" ["x"; "lo"] ["y"] [floats_attr "min"]))
       1 "min" "floats" (state_with_inputs [Some 0%nat; Some 1%nat])).1
    = inl (KeyError "6")
  ∧ (generate_input_from_attr
       (reader_of (mk_op "c" "Clip" ["x"; "lo"] ["y"]
                     [string_attr "min" not_utf8]))
       1 "min" "string" (state_with_inputs [Some 0%nat; Some 1%nat])).1
    = inl (UnicodeDecodeError not_utf8).
Proof. split_and!; reflexivity. Qed.

(** ** Enum attributes *)

Lemma utf8_head_nonempty word :
  word ≠ EmptyString → ∃ cp rest, utf8_head word = Some (cp, rest).
Proof.
  destruct word as [| c0 rest0]; [done |]. intros _. unfold utf8_head.
  repeat (destruct (_ <? _); [| try destruct rest0 as [| c1 [| c2 [| c3 rest3]]]]);
    by eexists _, _.
Qed.

Lemma capitalize_nonempty word :
  word ≠ EmptyString → ∃ capitalized, capitalize word = inr capitalized.
Proof.
  intros H. unfold capitalize.
  destruct (utf8_head_nonempty word H) as (cp & rest & ->). by eexists.
Qed.

Lemma capitalize_all_empty_word words :
  EmptyString ∈ words →
  capitalize_all words = inl (IndexError "string index out of range").
Proof.
  induction words as [| w words IH]; intros H; [by apply elem_of_nil in H |].
  cbn [capitalize_all].
  destruct (decide (w = EmptyString)) as [-> | Hw]; [done |].
  destruct (capitalize_nonempty w Hw) as (r & ->).
  apply elem_of_cons in H as [H | H]; [done |]. by rewrite IH.
Qed.

(** A string with an empty word between, before or after its underscores is
    not transformed: indexing the word's first character raises. *)
Lemma snake_case_to_pascal_case_empty_word s :
  EmptyString ∈ split_underscore s →
  snake_case_to_pascal_case s = inl (IndexError "string index out of range").
Proof.
  intros H. unfold snake_case_to_pascal_case.
  by rewrite capitalize_all_empty_word.
Qed.

(** What the read of an enum attribute does with a string that the
    transform accepts: the Pascal-cased name is looked up, then the name
    with a trailing underscore, and no match under either is
    UnsupportedEnumValue. *)
Lemma get_enum_attr_lookup self name enum default s v pascal_case :
  lookup_attr (proto_attribute (onnx_op self)) name "string" STRING (PyStr default)
  = inr (PyStr v) →
  snake_case_to_pascal_case v = inr pascal_case →
  get_enum_attr self name enum default s
  = (match getattr enum pascal_case with
     | Some x => inr (PyInt x)
     | None =>
         match getattr enum (pascal_case +:+ "_") with
         | Some x => inr (PyInt x)
         | None => inl (UnsupportedEnumValue v name)
         end
     end, mark_handled self name s).
Proof.
  intros Hv Hp. unfold get_enum_attr.
  rewrite run_bind, (run_get_attr _ _ _ _ _ STRING) by reflexivity.
  rewrite Hv, run_bind. unfold lift. rewrite Hp.
  by repeat destruct (getattr _ _).
Qed.

(** C7: the code at the failing inputs.  A [mode] that is the empty string,
    or that ends in an underscore, makes the translation of a Resize
    operator fail with Python's IndexError, raised by the transform before
    any lookup; a [mode] that is merely unknown fails with
    UnsupportedEnumValue, as the claim says. *)
Theorem C7_empty_word_raises_index_error :
  (op_node_from_onnx_operator sample_schema (resize_with_mode EmptyString)
     add_node (state_with_values ["x"; "y"])).1
  = inl (IndexError "string index out of range")
  ∧ (op_node_from_onnx_operator sample_schema (resize_with_mode "nearest_")
       add_node (state_with_values ["x"; "y"])).1
    = inl (IndexError "string index out of range")
  ∧ (op_node_from_onnx_operator sample_schema (resize_with_mode "bogus")
       add_node (state_with_values ["x"; "y"])).1
    = inl (UnsupportedEnumValue "bogus" "mode").
Proof. split_and!; vm_compute; reflexivity. Qed.

(** ** ConstantOfShape *)

(** C8: the code at the failing inputs.  The operator's element-count check
    is [len(const_node.data) != 1], the length of the first dimension.  A
    value tensor with one element and no dimension (a scalar) makes the
    translation fail with Python's TypeError; a tensor of shape [1, 2], with
    two elements, passes the check and fails later, in [item()], with
    ValueError rather than InvalidScalarShape.  With shape [1] the scalar
    record is produced, and with shape [2] the translation fails with
    InvalidScalarShape, as the claim says. *)
Theorem C8_scalar_value_raises_type_error :
  (op_node_from_onnx_operator sample_schema
     (constant_of_shape [] float32 (FloatData [1.5%float]))
     add_node (state_with_values ["x"; "y"])).1
  = inl (TypeError "len() of unsized object")
  ∧ (op_node_from_onnx_operator sample_schema
       (constant_of_shape [1; 2] float32 (FloatData [1.5%float; 2%float]))
       add_node (state_with_values ["x"; "y"])).1
    = inl (ValueError "can only convert an array of size 1 to a Python scalar")
  ∧ (op_node_from_onnx_operator sample_schema
       (constant_of_shape [1] float32 (FloatData [1.5%float]))
       add_node (state_with_values ["x"; "y"])).1
    = inr {| on_name := "k"; on_op_type := "ConstantOfShape";
             on_attrs :=
               PyObject "ConstantOfShapeAttrsT"
                 [("valueType", PySg "Scalar" "FloatScalar");
                  ("value", PyObject "FloatScalarT" [("value", PyFloat 1.5)])];
             on_inputs := 1%nat; on_outputs := [Some 1%nat] |}
  ∧ (op_node_from_onnx_operator sample_schema
       (constant_of_shape [2] float32 (FloatData [1.5%float; 2%float]))
       add_node (state_with_values ["x"; "y"])).1
    = inl InvalidScalarShape.
Proof. split_and!; vm_compute; reflexivity. Qed.

(** ** The graph under construction only grows *)

Definition graph_grows (s s' : State) : Prop :=
  nodes s `prefix_of` nodes s' ∧ tensor_map s ⊆ tensor_map s'.

#[global] Instance graph_grows_preorder : PreOrder graph_grows.
Proof.
  split.
  - intros s. split; reflexivity.
  - intros s1 s2 s3 [H1 H1'] [H2 H2']. split; etrans; eauto.
Qed.

Lemma graph_grows_same {A} (m : M A) :
  (∀ s, nodes (m s).2 = nodes s ∧ tensor_map (m s).2 = tensor_map s) →
  steps graph_grows m.
Proof.
  intros H s. destruct (H s) as [H1 H2]. split; [| done].
  unfold graph_grows. by rewrite H1, H2.
Qed.

Lemma add_node_duplicate node s :
  is_Some (tensor_map s !! node_name node) →
  add_node node s = (inl (DuplicateNodeName (node_name node)), s).
Proof. intros [i Hi]. unfold add_node. by rewrite Hi. Qed.

Lemma add_node_fresh node s :
  tensor_map s !! node_name node = None →
  add_node node s = (inr (length (nodes s)), register node s).
Proof. intros H. unfold add_node. by rewrite H. Qed.

Lemma add_node_cases node s :
  (is_Some (tensor_map s !! node_name node)
   ∧ add_node node s = (inl (DuplicateNodeName (node_name node)), s))
  ∨ (tensor_map s !! node_name node = None
     ∧ add_node node s = (inr (length (nodes s)), register node s)).
Proof.
  destruct (tensor_map s !! node_name node) as [i |] eqn:E.
  - left. split; [by eexists |]. apply add_node_duplicate. by eexists.
  - right. split; [done |]. by apply add_node_fresh.
Qed.

Lemma graph_grows_register node s :
  tensor_map s !! node_name node = None → graph_grows s (register node s).
Proof.
  intros H. split; cbn.
  - by apply prefix_app_r.
  - by apply insert_subseteq.
Qed.

Lemma graph_grows_effects :
  effects graph_grows (fun _ => True) (fun _ => True).
Proof.
  split; try done;
    try (intros; apply graph_grows_same; intros ?;
         unfold warn_once, print_stderr, set_add, list_append, list_setitem,
           new_list, new_set, modify, read_list, gets;
         rewrite ?run_bind; cbn; repeat case_match; done).
  intros n _ s. split; [| done].
  destruct (add_node_cases n s) as [[_ ->] | [H ->]]; cbn; [reflexivity |].
  by apply graph_grows_register.
Qed.

Lemma registered_grows s s' name :
  graph_grows s s' → is_Some (tensor_map s !! name) → is_Some (tensor_map s' !! name).
Proof.
  intros [_ H] [i Hi]. exists i. eapply lookup_weaken; eauto.
Qed.

(** ** Duplicate names *)

(** A pass of the initializer loop that counts no error has registered its
    tensor. *)
Lemma convert_initializers_registered tensors errors s s' tensor :
  convert_initializers tensors errors s = (inr errors, s') →
  tensor ∈ tensors →
  is_Some (tensor_map s' !! tensor_name tensor).
Proof.
  revert errors s. induction tensors as [| t tensors IH]; intros errors s Hrun Hin.
  { by apply elem_of_nil in Hin. }
  unfold convert_initializers in Hrun. cbn [for_fold] in Hrun.
  apply bind_returns in Hrun as (e1 & s1 & Hbody & Hrest).
  fold (convert_initializers tensors e1) in Hrest.
  destruct (convert_initializers_total tensors e1 s1) as (e2 & s2 & E2 & Hle).
  rewrite E2 in Hrest. injection Hrest as -> ->.
  (* the body returned, so it counted no error or one *)
  unfold try_except in Hbody. rewrite run_bind in Hbody.
  pose proof (spec_constant_node_from_onnx_initializer graph_grows _ _
                graph_grows_effects t None s) as [_ Hc].
  destruct (constant_node_from_onnx_initializer t None s) as [[ex | c] s0].
  - destruct (total_warn_once (initializer_error ex) s0) as ([] & s3 & E3).
    rewrite (run_bind_inr _ _ _ _ _ E3) in Hbody. injection Hbody as <- <-. lia.
  - destruct (Hc c eq_refl) as (_ & data & Hinit).
    apply ConstantNode__init__ok in Hinit as [Hname _].
    rewrite run_bind in Hbody.
    destruct (add_node_cases (NConstant c) s0) as [[_ Ha] | [Hfresh Ha]];
      rewrite Ha in Hbody.
    + destruct (total_warn_once (initializer_error
                  (DuplicateNodeName (node_name (NConstant c)))) s0)
        as ([] & s3 & E3).
      rewrite (run_bind_inr _ _ _ _ _ E3) in Hbody. injection Hbody as <- <-. lia.
    + injection Hbody as <- <-.
      apply elem_of_cons in Hin as [-> | Hin]; [| by eapply IH].
      eapply registered_grows.
      * pose proof (steps_convert_initializers graph_grows _ _ graph_grows_effects
                      tensors errors (register (NConstant c) s0)) as [Hg _].
        rewrite E2 in Hg. exact Hg.
      * exists (length (nodes s0)). cbn. subst c. cbn. apply lookup_insert_eq.
Qed.

(** The loop that registers the outputs of an operator either registers
    them all or stops at a name that is taken; it stops when one is. *)
Lemma register_outputs_cases outputs s :
  (∃ s', for_each outputs (fun output_name =>
            add_node (NValue {| vn_name := output_name; vn_shape := None |});;
            mret tt) s = (inr tt, s')
         ∧ graph_grows s s'
         ∧ ∀ name, name ∈ outputs → tensor_map s !! name = None)
  ∨ (∃ name s', for_each outputs (fun output_name =>
            add_node (NValue {| vn_name := output_name; vn_shape := None |});;
            mret tt) s = (inl (DuplicateNodeName name), s')).
Proof.
  revert s. induction outputs as [| o outputs IH]; intros s; cbn [for_each].
  - left. exists s. split_and!; [done | reflexivity |].
    intros name H. by apply elem_of_nil in H.
  - rewrite run_bind, run_bind.
    destruct (add_node_cases (NValue {| vn_name := o; vn_shape := None |}) s)
      as [[_ ->] | [Hfresh ->]]; [right; by eexists _, _ |].
    cbn [mret SE_ret ret]. cbn in Hfresh.
    destruct (IH (register (NValue {| vn_name := o; vn_shape := None |}) s))
      as [(s' & -> & Hg & Hnone) | (name & s' & ->)]; [| right; by eexists _, _].
    left. exists s'. split_and!; [done | |].
    + etrans; [| exact Hg]. by apply graph_grows_register.
    + intros name [-> | Hin]%elem_of_cons; [done |].
      specialize (Hnone name Hin). cbn in Hnone.
      destruct (decide (o = name)) as [-> | Hne]; [done |].
      by rewrite lookup_insert_ne in Hnone.
Qed.

Lemma total_print_stderr msg : total (print_stderr msg).
Proof. intros s. by eexists _, _. Qed.

(** An operator whose output name is taken stops the operator loop with
    DuplicateNodeName: its outputs are registered outside the [try]. *)
Lemma convert_operators_duplicate sg operators errors s operator name :
  operator ∈ operators →
  proto_op_type operator ≠ "Constant" →
  name ∈ proto_output operator →
  is_Some (tensor_map s !! name) →
  ∃ n s', convert_operators sg operators errors s = (inl (DuplicateNodeName n), s').
Proof.
  intros Hin Hty Hname. revert errors s.
  induction operators as [| op operators IH]; intros errors s Hreg.
  { by apply elem_of_nil in Hin. }
  unfold convert_operators. cbn [for_fold]. rewrite run_bind.
  destruct (String.eqb_spec (proto_op_type op) "Constant") as [Hc | Hc].
  - cbn [mret SE_ret ret]. apply elem_of_cons in Hin as [-> | Hin]; [done |].
    by apply IH.
  - rewrite run_bind.
    destruct (register_outputs_cases (proto_output op) s)
      as [(s1 & -> & Hg & Hnone) | (n & s1 & ->)]; [| by eexists _, _].
    apply elem_of_cons in Hin as [-> | Hin].
    { specialize (Hnone name Hname). destruct Hreg as [i Hi]. congruence. }
    assert (Htry : ∃ e2 s2,
      try_except
        (op_node ← op_node_from_onnx_operator sg op add_node;
         add_node (NOperator op_node);; mret errors)
        (fun ex => print_stderr (operator_error op ex);; mret (S errors)) s1
      = (inr e2, s2) ∧ graph_grows s1 s2).
    { match goal with |- context [try_except ?m ?h s1] =>
        assert (Hs : steps graph_grows (try_except m h)) end.
      { apply spec_try_except; [exact _ | |].
        - apply steps_bind; [exact _ | |].
          + apply (steps_op_node_from_onnx_operator _ _ _ graph_grows_effects);
              [done |]. intros. by apply (eff_add_node graph_grows_effects).
          + intros o. apply steps_bind; [exact _ | |].
            * by apply (eff_add_node graph_grows_effects).
            * intros. by apply spec_ret; [exact _ |].
        - intros ex. apply steps_bind; [exact _ | |].
          + apply (eff_print_error graph_grows_effects).
          + intros. by apply spec_ret; [exact _ |]. }
      destruct (Hs s1) as [Hg' _].
      edestruct (total_try_except (S:=State) (A:=nat)) as (e2 & s2 & E);
        [| rewrite E in Hg' |- *; by exists e2, s2].
      intros ex. apply total_bind; [apply total_print_stderr |].
      intros. apply total_ret. }
    destruct Htry as (e2 & s2 & -> & Hg2).
    apply IH; [done |]. eapply registered_grows; [| exact Hreg]. by etrans.
Qed.

(** The error count of the two constant loops, run on fresh locals. *)
Definition constant_errors (g : GraphProto) (s : State) : result nat :=
  ((conversion_errors ← convert_initializers (g_initializer g) 0;
    convert_constant_ops (g_node g) conversion_errors) (reset_graph s)).1.

(** C4, as amended.  Adding a node whose name is in the name-to-index map
    fails with DuplicateNodeName and changes nothing; and a model whose
    initializers and [Constant] operators all convert without error, in
    which an operator other than [Constant] declares an output with the
    name of an initializer, fails the run with DuplicateNodeName. *)
Theorem C4_duplicate_node_name :
  (∀ node s,
     is_Some (tensor_map s !! node_name node) →
     add_node node s = (inl (DuplicateNodeName (node_name node)), s))
  ∧ (∀ sg g s tensor operator,
       constant_errors g s = inr 0%nat →
       tensor ∈ g_initializer g →
       operator ∈ g_node g →
       proto_op_type operator ≠ "Constant" →
       tensor_name tensor ∈ proto_output operator →
       ∃ name, (graph_from_onnx_graph sg g s).1 = inl (DuplicateNodeName name)).
Proof.
  split; [apply add_node_duplicate |].
  intros sg g s tensor operator Herr Hin Hop Hty Hout.
  unfold constant_errors in Herr. rewrite run_bind in Herr.
  destruct (convert_initializers_total (g_initializer g) 0 (reset_graph s))
    as (e1 & s1 & E1 & _).
  destruct (convert_constant_ops_total (g_node g) e1 s1) as (e2 & s2 & E2 & Hle).
  rewrite E1, E2 in Herr. cbn in Herr. injection Herr as ->.
  assert (e1 = 0%nat) as -> by lia.
  pose proof (convert_initializers_registered _ _ _ _ _ E1 Hin) as Hreg1.
  assert (Hreg2 : is_Some (tensor_map s2 !! tensor_name tensor)).
  { eapply registered_grows; [| exact Hreg1].
    pose proof (steps_convert_constant_ops graph_grows _ _ graph_grows_effects
                  (g_node g) 0%nat s1) as [Hg _]. by rewrite E2 in Hg. }
  destruct (register_inputs_total (g_input g) s2) as ([] & s3 & E3).
  assert (Hreg3 : is_Some (tensor_map s3 !! tensor_name tensor)).
  { eapply registered_grows; [| exact Hreg2].
    pose proof (steps_register_inputs graph_grows _ _ graph_grows_effects
                  (g_input g) s2) as [Hg _]. by rewrite E3 in Hg. }
  destruct (convert_operators_duplicate sg (g_node g) 0%nat s3 operator
              (tensor_name tensor) Hop Hty Hout Hreg3) as (n & s4 & E4).
  exists n. unfold graph_from_onnx_graph. cbv zeta.
  rewrite run_bind. cbn [modify].
  rewrite (run_bind_inr _ _ _ _ _ E1), (run_bind_inr _ _ _ _ _ E2).
  change (0 <? 0)%nat with false. cbv iota.
  rewrite (run_bind_inr _ _ _ _ _ (eq_refl : (mret tt : M unit) s2 = (inr tt, s2))).
  rewrite (run_bind_inr _ _ _ _ _ E3), (run_bind_inl _ _ _ _ _ E4). reflexivity.
Qed.

Lemma C4_witness :
  constant_errors duplicate_model initial_state = inr 0%nat
  ∧ ∃ name, (graph_from_onnx_graph sample_schema duplicate_model initial_state).1
            = inl (DuplicateNodeName name).
Proof.
  split; [reflexivity |].
  apply (proj2 C4_duplicate_node_name sample_schema duplicate_model initial_state
           (mk_tensor "x" [1] float32 (FloatData [1.5%float]))
           (mk_op "relu" "Relu" ["a"] ["x"] [])).
  - reflexivity.
  - apply list_elem_of_here.
  - apply list_elem_of_here.
  - discriminate.
  - apply list_elem_of_here.
Defined.

(** C4, as stated, fails.  An initializer and the output of a Relu operator
    share the name [x], but a second initializer has a type that is not
    converted: the error is counted, and the run ends with ConversionFailed
    after the constants, before any operator output is registered.  And
    when the operator that shares the name is a [Constant], its constant is
    added inside the loop that counts errors: the DuplicateNodeName is
    caught and counted there, and the run ends with ConversionFailed. *)
Lemma C4_counterexample :
  (mk_tensor "x" [1] float32 (FloatData [1.5%float])
     ∈ g_initializer duplicate_model_float64
   ∧ mk_op "relu" "Relu" ["a"] ["x"] [] ∈ g_node duplicate_model_float64
   ∧ "x" ∈ proto_output (mk_op "relu" "Relu" ["a"] ["x"] [])
   ∧ (graph_from_onnx_graph sample_schema duplicate_model_float64
        initial_state).1
     = inl (ConversionFailed 1 "constants"))
  ∧ (g_initializer duplicate_model_constant
     = [mk_tensor "x" [1] float32 (FloatData [1.5%float])]
     ∧ map proto_output (g_node duplicate_model_constant) = [["x"]]
     ∧ (graph_from_onnx_graph sample_schema duplicate_model_constant
          initial_state).1
       = inl (ConversionFailed 1 "constants")
     ∧ stderr (graph_from_onnx_graph sample_schema duplicate_model_constant
                 initial_state).2
       = [constant_op_error (DuplicateNodeName "x")]).
Proof.
  split; split_and!; try apply list_elem_of_here; vm_compute; reflexivity.
Qed.

(** ** The lists of input indexes *)

(** The list object [l] exists and is left as it is. *)
Definition list_untouched (l : loc) (s s' : State) : Prop :=
  (l < length (lists s))%nat →
  (l < length (lists s'))%nat ∧ lists s' !! l = lists s !! l.

#[global] Instance list_untouched_preorder l : PreOrder (list_untouched l).
Proof.
  split.
  - intros s H. done.
  - intros s1 s2 s3 H1 H2 H. destruct (H1 H) as [H' E1].
    destruct (H2 H') as [H'' E2]. split; [done | congruence].
Qed.

Lemma list_untouched_same_lists {A} (m : M A) l :
  (∀ s, lists (m s).2 = lists s) → steps (list_untouched l) m.
Proof. intros H s. split; [| done]. unfold list_untouched. by rewrite H. Qed.

Lemma length_alter_list {A} (f : A → A) (i : nat) (l : list A) :
  length (alter f i l) = length l.
Proof. revert i. induction l; intros [| i]; cbn; auto. Qed.

(** Every effect of the converter leaves [l] as it is, as long as the list
    objects that are written are other ones. *)
Lemma list_untouched_effects l :
  effects (list_untouched l) (fun l' => l' ≠ l) (fun _ => True).
Proof.
  split; try done;
    try (intros; apply list_untouched_same_lists; intros ?;
         unfold warn_once, print_stderr, set_add, new_set, modify, add_node;
         cbn; repeat case_match; done).
  - intros l0 s. split; [| done]. intros H. cbn. rewrite length_app.
    split; [lia |]. by rewrite lookup_app_l.
  - intros l' x Hne s. split; [| done]. intros H. cbn.
    rewrite length_alter_list. split; [done |]. by apply list_lookup_alter_ne.
  - intros l' i x Hne s. split; [| done]. intros H.
    unfold list_setitem. rewrite run_bind. cbn [read_list gets].
    destruct (Nat.ltb _ _); cbn; [| done].
    rewrite length_alter_list. split; [done |]. by apply list_lookup_alter_ne.
Qed.

(** What the reader's constructor does: a new list object with the same
    contents, and a new, empty set object. *)
Lemma run_ONNXOperatorReader__init__ op indexes add s :
  ONNXOperatorReader__init__ op indexes add s
  = (inr {| onnx_op := op; reader_add_node := add;
            input_indexes := length (lists s);
            _handled_attrs := length (sets s) |},
     set_sets (fun h => h ++ [∅])
       (set_lists (fun h => h ++ [default [] (lists s !! indexes)]) s)).
Proof. reflexivity. Qed.

(** The value the input loop appends for a name. *)
Definition resolved_input (tm : gmap string nat) (input_name : string)
  : option nat :=
  if String.eqb input_name EmptyString then None else tm !! input_name.

(** The loop over the input names appends to the caller's list, and to
    nothing else. *)
Lemma resolve_inputs_run op_name c inputs s s' cur :
  for_each inputs (fun input_name =>
    index ← (if negb (String.eqb input_name EmptyString)
             then resolve "input" input_name op_name
             else mret None);
    list_append c index) s = (inr tt, s') →
  lists s !! c = Some cur →
  tensor_map s' = tensor_map s
  ∧ sets s' = sets s
  ∧ length (lists s') = length (lists s)
  ∧ lists s' !! c = Some (cur ++ map (resolved_input (tensor_map s)) inputs)
  ∧ ∀ l, l ≠ c → lists s' !! l = lists s !! l.
Proof.
  revert s cur. induction inputs as [| name inputs IH]; intros s cur Hrun Hcur.
  - injection Hrun as <-. rewrite app_nil_r. done.
  - cbn [for_each] in Hrun. apply bind_returns in Hrun as ([] & s1 & Hbody & Hrest).
    apply bind_returns in Hbody as (index & s0 & Hres & Happ).
    assert (s0 = s ∧ index = resolved_input (tensor_map s) name) as [-> ->].
    { unfold resolved_input. destruct (String.eqb name EmptyString); cbn in Hres.
      - by injection Hres as <- <-.
      - unfold resolve in Hres. rewrite run_bind in Hres. cbn [gets] in Hres.
        destruct (tensor_map s !! name); [| discriminate].
        by injection Hres as <- <-. }
    unfold list_append, modify in Happ. injection Happ as <-.
    destruct (IH _ (cur ++ [resolved_input (tensor_map s) name]) Hrest)
      as (Htm & Hsets & Hlen & Hc & Hother).
    { cbn [lists set_lists]. rewrite list_lookup_alter_eq, Hcur. done. }
    cbn [lists set_lists tensor_map sets] in *.
    rewrite length_alter_list in Hlen. split_and!; try done.
    + by rewrite Hc, <- app_assoc.
    + intros l Hl. rewrite (Hother l Hl). by apply list_lookup_alter_ne.
Qed.

(** The loop over the output names reads the map and changes nothing. *)
Lemma resolve_outputs_run op_name outputs acc s r s' :
  for_fold outputs acc (fun acc output_name =>
    index ← resolve "output" output_name op_name;
    mret (acc ++ [index])) s = (r, s') →
  s' = s.
Proof.
  revert acc. induction outputs as [| name outputs IH]; intros acc Hrun.
  - by injection Hrun as _ <-.
  - cbn [for_fold] in Hrun. rewrite run_bind, run_bind in Hrun.
    unfold resolve in Hrun. rewrite run_bind in Hrun. cbn [gets] in Hrun.
    destruct (tensor_map s !! name); cbn in Hrun.
    + by eapply IH.
    + by injection Hrun as _ <-.
Qed.

Lemma translate_attrs_untouched sg onnx_op self op_type s l :
  (∀ n s0, lists (reader_add_node self n s0).2 = lists s0) →
  l ≠ input_indexes self →
  (l < length (lists s))%nat →
  (l < length (lists (translate_attrs sg onnx_op self op_type s).2))%nat
  ∧ lists (translate_attrs sg onnx_op self op_type s).2 !! l = lists s !! l.
Proof.
  intros Hadd Hne Hl.
  pose proof (steps_translate_attrs (list_untouched l) _ _
                (list_untouched_effects l) sg onnx_op self op_type) as Hs.
  destruct (Hs (fun n _ => list_untouched_same_lists _ l (Hadd n))
              (not_eq_sym Hne) s) as [H _].
  by apply H.
Qed.

Lemma for_each_warn_once_lists {A} (xs : list A) (f : A → string) s :
  lists (for_each xs (fun x => warn_once (f x)) s).2 = lists s.
Proof.
  revert s. induction xs as [| x xs IH]; intros s; [done |].
  cbn [for_each]. rewrite run_bind.
  destruct (total_warn_once (f x) s) as ([] & s1 & E). rewrite E, IH.
  unfold warn_once in E. by case_bool_decide; injection E as <-.
Qed.

(** The whole translation of an operator, seen from the store: the list
    built from the input names is the object after the last one that
    existed, the reader's copy is the next one, and the node holds the
    copy. *)
Lemma op_node_from_onnx_operator_lists sg onnx_op add s node s' :
  (∀ n s0, lists (add n s0).2 = lists s0) →
  op_node_from_onnx_operator sg onnx_op add s = (inr node, s') →
  lists s' !! length (lists s)
  = Some (map (resolved_input (tensor_map s)) (proto_input onnx_op))
  ∧ on_inputs node = S (length (lists s))
  ∧ ∀ l, (l < length (lists s))%nat → lists s' !! l = lists s !! l.
Proof.
  intros Hadd Hrun. unfold op_node_from_onnx_operator in Hrun. cbv zeta in Hrun.
  apply bind_returns in Hrun as (c & s0 & Hnew & Hrun).
  injection Hnew as <- <-.
  apply bind_returns in Hrun as ([] & s1 & Hin & Hrun).
  eapply resolve_inputs_run in Hin as (Htm & _ & Hlen & Hc & Hother);
    [| cbn [lists set_lists]; by rewrite lookup_app_r, Nat.sub_diag by lia].
  cbn [lists set_lists tensor_map app] in Htm, Hlen, Hc, Hother.
  rewrite length_app in Hlen. cbn [length] in Hlen.
  apply bind_returns in Hrun as (outs & s1' & Hout & Hrun).
  apply resolve_outputs_run in Hout as ->.
  rewrite run_bind, run_ONNXOperatorReader__init__ in Hrun.
  set (reader := {| onnx_op := onnx_op; reader_add_node := add;
                    input_indexes := length (lists s1);
                    _handled_attrs := length (sets s1) |}) in Hrun.
  set (s2 := set_sets _ _) in Hrun.
  assert (Hlen2 : length (lists s2) = S (length (lists s1))).
  { subst s2. cbn [lists set_lists set_sets]. rewrite length_app. cbn. lia. }
  assert (Hs2 : ∀ l, (l < length (lists s1))%nat → lists s2 !! l = lists s1 !! l).
  { intros l Hl. subst s2. cbn [lists set_lists set_sets]. by rewrite lookup_app_l. }
  apply bind_returns in Hrun as (attrs & s3 & Htr & Hrun).
  assert (Hs3 : ∀ l, (l < length (lists s1))%nat → lists s3 !! l = lists s1 !! l).
  { intros l Hl.
    destruct (translate_attrs_untouched sg onnx_op reader
                (proto_op_type onnx_op) s2 l) as [_ H]; [done | | lia |].
    - cbn. lia.
    - rewrite Htr in H. cbn in H. rewrite H. by apply Hs2. }
  apply bind_returns in Hrun as ([] & s3a & Hcheck & Hrun).
  assert (s3a = s3) as ->.
  { destruct (negb _); [discriminate | by injection Hcheck as <-]. }
  apply bind_returns in Hrun as (un & s3b & Hun & Hrun).
  assert (s3b = s3) as ->.
  { unfold unhandled_attrs in Hun.
    apply bind_returns in Hun as (h & s3c & Hh & Hun).
    injection Hh as _ <-. by injection Hun as _ <-. }
  apply bind_returns in Hrun as ([] & s4 & Hwarn & Hrun).
  injection Hrun as <- <-.
  assert (Hs4 : lists s4 = lists s3).
  { pose proof (for_each_warn_once_lists un
       (fun attr => unsupported_attribute_warning attr onnx_op) s3) as H.
    cbv beta in H. by rewrite Hwarn in H. }
  rewrite Hs4. split_and!.
  - rewrite Hs3 by lia. rewrite Hc. done.
  - cbn. lia.
  - intros l Hl. rewrite Hs3 by lia. rewrite Hother by lia.
    by rewrite lookup_app_l.
Qed.

Lemma generate_input_from_attr_untouched self input_index name attr_type s l :
  (∀ n s0, lists (reader_add_node self n s0).2 = lists s0) →
  l ≠ input_indexes self →
  (l < length (lists s))%nat →
  lists (generate_input_from_attr self input_index name attr_type s).2 !! l
  = lists s !! l.
Proof.
  intros Hadd Hne Hl.
  pose proof (steps_generate_input_from_attr (list_untouched l) _ _
                (list_untouched_effects l) self input_index name attr_type) as Hs.
  destruct (Hs (fun n _ => list_untouched_same_lists _ l (Hadd n))
              (not_eq_sym Hne) s) as [H _].
  by apply H.
Qed.

Lemma add_node_lists n s : lists (add_node n s).2 = lists s.
Proof. unfold add_node. by destruct (tensor_map s !! node_name n). Qed.

(** C10.  The reader's constructor makes a new list object with the
    contents of the list it is given and leaves every existing list object
    as it is; promotion of an attribute, and the translation of the
    attributes of any operator as a whole, leave every list object other
    than the reader's copy as it is, whether they return or raise; and when
    the translation of an operator returns a node, the list that was built
    from the operator's input names still holds exactly the resolved
    references, and the node's inputs are the reader's copy, another
    object. *)
Theorem C10_caller_list_not_mutated :
  (∀ op indexes add s,
     ∃ reader s',
       ONNXOperatorReader__init__ op indexes add s = (inr reader, s')
       ∧ input_indexes reader = length (lists s)
       ∧ lists s' !! input_indexes reader = Some (default [] (lists s !! indexes))
       ∧ ∀ l, (l < length (lists s))%nat → lists s' !! l = lists s !! l)
  ∧ (∀ self input_index name attr_type s l,
       (∀ n s0, lists (reader_add_node self n s0).2 = lists s0) →
       l ≠ input_indexes self → (l < length (lists s))%nat →
       lists (generate_input_from_attr self input_index name attr_type s).2 !! l
       = lists s !! l)
  ∧ (∀ sg onnx_op self op_type s l,
       (∀ n s0, lists (reader_add_node self n s0).2 = lists s0) →
       l ≠ input_indexes self → (l < length (lists s))%nat →
       lists (translate_attrs sg onnx_op self op_type s).2 !! l = lists s !! l)
  ∧ (∀ sg onnx_op s node s',
       op_node_from_onnx_operator sg onnx_op add_node s = (inr node, s') →
       lists s' !! length (lists s)
       = Some (map (resolved_input (tensor_map s)) (proto_input onnx_op))
       ∧ on_inputs node = S (length (lists s))
       ∧ ∀ l, (l < length (lists s))%nat → lists s' !! l = lists s !! l).
Proof.
  split_and!.
  - intros op indexes add s. eexists _, _.
    split; [apply run_ONNXOperatorReader__init__ |].
    cbn [input_indexes lists set_lists set_sets]. split_and!; [done | |].
    + by rewrite lookup_app_r, Nat.sub_diag by lia.
    + intros l Hl. by rewrite lookup_app_l.
  - apply generate_input_from_attr_untouched.
  - intros sg onnx_op self op_type s l Hadd Hne Hl.
    by destruct (translate_attrs_untouched sg onnx_op self op_type s l).
  - intros sg onnx_op s node s'.
    apply op_node_from_onnx_operator_lists. apply add_node_lists.
Qed.

(** C10 on a Clip operator with a [min] attribute: the list built from the
    input names still holds the one resolved reference; the promoted
    constant is in the reader's copy, the next list object. *)
Lemma C10_witness :
  lists (op_node_from_onnx_operator sample_schema (clip_min "c" ["x"] "y")
           add_node (state_with_values ["x"; "y"])).2
    !! length (lists (state_with_values ["x"; "y"]))
  = Some [Some 0%nat]
  ∧ lists (op_node_from_onnx_operator sample_schema (clip_min "c" ["x"] "y")
             add_node (state_with_values ["x"; "y"])).2
      !! S (length (lists (state_with_values ["x"; "y"])))
    = Some [Some 0%nat; Some 2%nat].
Proof.
  split; [| vm_compute; reflexivity].
  destruct (op_node_from_onnx_operator sample_schema (clip_min "c" ["x"] "y")
              add_node (state_with_values ["x"; "y"])) as [[e | node] s'] eqn:Hrun.
  - vm_compute in Hrun. discriminate.
  - exact (proj1 (proj2 (proj2 (proj2 C10_caller_list_not_mutated))
                    sample_schema (clip_min "c" ["x"] "y")
                    (state_with_values ["x"; "y"]) node s' Hrun)).
Defined.

(** ** Promotion of an attribute to an input *)

(** The state with its list objects replaced. *)
Definition with_lists (h : list (list (option nat))) (s : State) : State :=
  set_lists (fun _ => h) s.

Lemma list_alter_insert {A} (f : A → A) (i : nat) (l : list A) x :
  l !! i = Some x → alter f i l = <[i := f x]> l.
Proof.
  revert i. induction l as [| y l IH]; intros [| i] H; cbn in *; try done.
  - by injection H as ->.
  - f_equal. by apply IH.
Qed.

(** The padding loop of [generate_input_from_attr]. *)
Lemma pad_run l k s cur :
  lists s !! l = Some cur →
  for_each (replicate k tt) (fun _ => list_append l None) s
  = (inr tt, with_lists (<[l := cur ++ replicate k None]> (lists s)) s).
Proof.
  revert s cur. induction k as [| k IH]; intros s cur Hcur.
  - cbn. rewrite app_nil_r, list_insert_id by done. by destruct s.
  - cbn [replicate for_each]. rewrite run_bind. cbn [list_append modify].
    rewrite (IH _ (cur ++ [None])).
    + cbn [lists set_lists]. f_equal. unfold with_lists, set_lists. cbn.
      rewrite (list_alter_insert _ _ _ _ Hcur), list_insert_insert_eq.
      by rewrite <- app_assoc.
    + cbn [lists set_lists]. by rewrite list_lookup_alter_eq, Hcur.
Qed.

Lemma run_read_list l (s : State) :
  read_list l s = (inr (default [] (lists s !! l)), s).
Proof. reflexivity. Qed.


Lemma get_attr_state self name expected_type default s :
  (get_attr self name expected_type default s).2 = mark_handled self name s.
Proof.
  unfold get_attr. rewrite run_bind. cbn [set_add modify]. rewrite run_bind.
  unfold lift. by destruct (AttributeProto_getattr _).
Qed.

(** What a promotion does, as a function of the attribute read, the
    reader's list [cur] and the name-to-index map: it marks the attribute
    handled; then either nothing more happens (the attribute is absent, or
    something fails before the node is registered), or one constant node is
    registered and its index is written at [input_index], past the end of
    the list as it was. *)
Definition promotion (self : ONNXOperatorReader) (input_index : nat)
  (name attr_type : string) (cur : list (option nat)) (s : State)
  : result unit * State :=
  let s0 := mark_handled self name s in
  let generated_name := proto_name (onnx_op self) +:+ ":wasnn-" +:+ name in
  match (get_attr self name attr_type PyNone s).1 with
  | inl e => (inl e, s0)
  | inr PyNone => (inr tt, s0)
  | inr attr_val =>
      if (input_index <? length cur)%nat
      then (inl (ConflictingAttributeAndInput name input_index), s0)
      else
        match generated_input name attr_type attr_val with
        | inl e => (inl e, s0)
        | inr (shape, data) =>
            match ConstantNode__init__ generated_name shape data with
            | inl e => (inl e, s0)
            | inr c =>
                match tensor_map s !! generated_name with
                | Some _ => (inl (DuplicateNodeName generated_name), s0)
                | None =>
                    (inr tt,
                     with_lists
                       (<[input_indexes self :=
                            cur ++ replicate (input_index - length cur) None
                                ++ [Some (length (nodes s))]]> (lists s))
                       (register (NConstant c) s0))
                end
            end
        end
  end.

Lemma generate_input_from_attr_run self input_index name attr_type s cur :
  reader_add_node self = add_node →
  lists s !! input_indexes self = Some cur →
  generate_input_from_attr self input_index name attr_type s
  = promotion self input_index name attr_type cur s.
Proof.
  intros Hadd Hcur. unfold generate_input_from_attr, promotion. cbv zeta.
  rewrite run_bind.
  pose proof (get_attr_state self name attr_type PyNone s) as Hst.
  destruct (get_attr self name attr_type PyNone s) as [[e | v] s1]; cbn in Hst;
    subst s1; cbn [fst]; [done |].
  set (s0 := mark_handled self name s).
  assert (Hbody :
    (cur ← read_list (input_indexes self);
     if (input_index <? length cur)%nat
     then raise (ConflictingAttributeAndInput name input_index)
     else
       '(shape, data) ← lift (generated_input name attr_type v);
       let generated_name := proto_name (onnx_op self) +:+ ":wasnn-" +:+ name in
       const_node ← lift (ConstantNode__init__ generated_name shape data);
       input_id ← reader_add_node self (NConstant const_node);
       cur ← read_list (input_indexes self);
       for_each (replicate (input_index + 1 - length cur) tt)
         (fun _ => list_append (input_indexes self) None);;
       list_setitem (input_indexes self) input_index (Some input_id)) s0
    = if (input_index <? length cur)%nat
      then (inl (ConflictingAttributeAndInput name input_index), s0)
      else
        match generated_input name attr_type v with
        | inl e => (inl e, s0)
        | inr (shape, data) =>
            match ConstantNode__init__
                    (proto_name (onnx_op self) +:+ ":wasnn-" +:+ name) shape data with
            | inl e => (inl e, s0)
            | inr c =>
                match tensor_map s !! (proto_name (onnx_op self) +:+ ":wasnn-" +:+ name) with
                | Some _ =>
                    (inl (DuplicateNodeName
                            (proto_name (onnx_op self) +:+ ":wasnn-" +:+ name)), s0)
                | None =>
                    (inr tt,
                     with_lists
                       (<[input_indexes self :=
                            cur ++ replicate (input_index - length cur) None
                                ++ [Some (length (nodes s))]]> (lists s))
                       (register (NConstant c) s0))
                end
            end
        end).
  { cbv zeta. rewrite run_bind, run_read_list.
    change (lists s0) with (lists s). rewrite Hcur. cbn [default from_option id].
    destruct (Nat.ltb_spec input_index (length cur)) as [Hlt | Hge]; [done |].
    rewrite run_bind, run_lift.
    destruct (generated_input name attr_type v) as [e | [shape data]]; [done |].
    rewrite run_bind, run_lift.
    destruct (ConstantNode__init__ _ shape data) as [e | c] eqn:Hc; [done |].
    apply ConstantNode__init__ok in Hc as [Hc _].
    rewrite run_bind, Hadd. unfold add_node at 1.
    replace (node_name (NConstant c))
      with (proto_name (onnx_op self) +:+ ":wasnn-" +:+ name) by (by subst c).
    change (tensor_map s0) with (tensor_map s).
    destruct (tensor_map s !! _) as [i |] eqn:Hfresh; [done |].
    rewrite run_bind, run_read_list.
    change (lists (register (NConstant c) s0)) with (lists s). rewrite Hcur.
    cbn [default from_option id]. rewrite run_bind.
    rewrite (pad_run _ _ _ cur) by exact Hcur.
    unfold list_setitem. rewrite run_bind, run_read_list.
    cbn [lists with_lists set_lists register].
    rewrite list_lookup_insert_eq by (by eapply lookup_lt_Some).
    cbn [default from_option id]. rewrite length_app, length_replicate.
    replace (input_index <? length cur + (input_index + 1 - length cur))%nat
      with true by (symmetry; apply Nat.ltb_lt; lia).
    unfold modify, with_lists, set_lists. cbn. do 2 f_equal.
    rewrite (list_alter_insert _ _ _ (cur ++ replicate (input_index + 1 - length cur) None))
      by (apply list_lookup_insert_eq; by eapply lookup_lt_Some).
    rewrite list_insert_insert_eq. f_equal.
    replace (input_index + 1 - length cur)%nat
      with (S (input_index - length cur)) by lia.
    rewrite replicate_S_end, app_assoc.
    rewrite insert_app_r_alt by (rewrite length_app, length_replicate; lia).
    rewrite length_app, length_replicate.
    replace (input_index - (length cur + (input_index - length cur)))%nat
      with 0%nat by lia.
    cbn. by rewrite <- app_assoc. }
  destruct v; first [done | exact Hbody].
Qed.

(** ** The [min] bound of a [Clip] operator *)

Lemma with_lists_same (s : State) : with_lists (lists s) s = s.
Proof. by destruct s. Qed.

(** The loop over the input names, when every name that is not empty is
    registered: it returns, and has appended the resolved references. *)
Lemma resolve_inputs_exact op_name c inputs s cur :
  lists s !! c = Some cur →
  Forall (fun name => name ≠ EmptyString → is_Some (tensor_map s !! name)) inputs →
  for_each inputs (fun input_name =>
    index ← (if negb (String.eqb input_name EmptyString)
             then resolve "input" input_name op_name
             else mret None);
    list_append c index) s
  = (inr tt,
     with_lists (<[c := cur ++ map (resolved_input (tensor_map s)) inputs]> (lists s)) s).
Proof.
  intros Hcur Hres. revert s cur Hcur Hres.
  induction inputs as [| name inputs IH]; intros s cur Hcur Hres.
  - cbn. rewrite app_nil_r, list_insert_id by done. by rewrite with_lists_same.
  - apply Forall_cons in Hres as [Hname Hres].
    cbn [for_each]. rewrite run_bind, run_bind.
    assert (Hindex :
      (if negb (String.eqb name EmptyString)
       then resolve "input" name op_name else mret None) s
      = (inr (resolved_input (tensor_map s) name), s)).
    { unfold resolved_input.
      destruct (String.eqb_spec name EmptyString) as [-> | Hne]; [done |].
      cbn [negb]. unfold resolve. rewrite run_bind. cbn [gets].
      by destruct (Hname Hne) as [i ->]. }
    rewrite Hindex. cbn [list_append modify].
    rewrite (IH _ (cur ++ [resolved_input (tensor_map s) name])).
    + cbn [lists set_lists tensor_map map]. unfold with_lists, set_lists. cbn.
      rewrite (list_alter_insert _ _ _ _ Hcur), list_insert_insert_eq.
      by rewrite <- app_assoc.
    + cbn [lists set_lists]. by rewrite list_lookup_alter_eq, Hcur.
    + done.
Qed.

(** The loop over the output names, when every name is registered. *)
Lemma resolve_outputs_exact op_name outputs acc (s : State) :
  Forall (fun name => is_Some (tensor_map s !! name)) outputs →
  for_fold outputs acc (fun acc output_name =>
    index ← resolve "output" output_name op_name;
    mret (acc ++ [index])) s
  = (inr (acc ++ map (fun name => tensor_map s !! name) outputs), s).
Proof.
  revert acc. induction outputs as [| name outputs IH]; intros acc Hres.
  - cbn. by rewrite app_nil_r.
  - apply Forall_cons in Hres as [[i Hi] Hres].
    cbn [for_fold]. rewrite run_bind, run_bind. unfold resolve at 1.
    rewrite run_bind. cbn [gets]. rewrite Hi. cbn.
    rewrite IH by done. by rewrite <- app_assoc, Hi.
Qed.

(** The translation of an operator whose names are registered, up to the
    point where its attributes are read: the reader holds a copy of the
    resolved references, in the list object after the one built from the
    input names. *)
Lemma op_node_from_onnx_operator_ready sg op add s :
  Forall (fun name => name ≠ EmptyString → is_Some (tensor_map s !! name))
    (proto_input op) →
  Forall (fun name => is_Some (tensor_map s !! name)) (proto_output op) →
  let inputs := map (resolved_input (tensor_map s)) (proto_input op) in
  let reader := {| onnx_op := op; reader_add_node := add;
                   input_indexes := S (length (lists s));
                   _handled_attrs := length (sets s) |} in
  op_node_from_onnx_operator sg op add s
  = (attrs ← translate_attrs sg op reader (proto_op_type op);
     (if negb (hasattr (OperatorType sg) (proto_op_type op))
      then raise (UnsupportedOperator (proto_op_type op)) else mret tt);;
     unhandled ← unhandled_attrs reader;
     for_each unhandled (fun attr =>
       warn_once (unsupported_attribute_warning attr op));;
     mret {| on_name := proto_name op;
             on_op_type := proto_op_type op;
             on_attrs := attrs;
             on_inputs := S (length (lists s));
             on_outputs := map (fun name => tensor_map s !! name) (proto_output op) |})
      (set_sets (fun h => h ++ [∅])
         (with_lists (lists s ++ [inputs; inputs]) s)).
Proof.
  intros Hin Hout inputs reader. unfold op_node_from_onnx_operator. cbv zeta.
  rewrite run_bind. cbn [new_list fst snd]. rewrite run_bind.
  rewrite (resolve_inputs_exact _ _ _ _ []).
  - cbn [app tensor_map set_lists lists]. fold inputs.
    rewrite run_bind, resolve_outputs_exact by done.
    cbn [app]. rewrite run_bind, run_ONNXOperatorReader__init__.
    cbn [lists sets with_lists set_lists tensor_map].
    rewrite length_insert, length_app. cbn [length].
    replace (length (lists s) + 1)%nat with (S (length (lists s))) by lia.
    rewrite list_lookup_insert_eq by (rewrite length_app; cbn; lia).
    cbn [default from_option id].
    rewrite insert_app_r_alt, Nat.sub_diag by lia. cbn [insert list_insert].
    subst reader. cbn [input_indexes]. do 2 f_equal.
    unfold with_lists, set_lists. cbn. by rewrite <- app_assoc.
  - cbn [lists set_lists]. by rewrite lookup_app_r, Nat.sub_diag by lia.
  - done.
Qed.

Lemma lookup_attr_float attrs name default a :
  find_attr attrs name = Some a →
  attr_type a = FLOAT →
  lookup_attr attrs name "float" FLOAT default = inr (PyFloat (attr_f a)).
Proof.
  intros Hfind Hty. induction attrs as [| a' attrs IH]; [discriminate |].
  cbn in Hfind |- *. destruct (String.eqb (attr_name a') name).
  - injection Hfind as ->. by rewrite Hty.
  - by apply IH.
Qed.

(** The constant node made from the [min] attribute [a] of the operator
    [op]: a float32 scalar. *)
Definition min_constant (op : OperatorProto) (a : AttributeProto) : ConstantNode :=
  {| cn_name := proto_name op +:+ ":wasnn-min";
     cn_shape := [];
     cn_data := mk_ndarray float32 [] (FloatData [to_float32 (attr_f a)]) |}.

Lemma promotion_min self a cur s :
  find_attr (proto_attribute (onnx_op self)) "min" = Some a →
  attr_type a = FLOAT →
  (length cur ≤ 1)%nat →
  promotion self 1 "min" "float" cur s
  = match tensor_map s !! (proto_name (onnx_op self) +:+ ":wasnn-min") with
    | Some _ =>
        (inl (DuplicateNodeName (proto_name (onnx_op self) +:+ ":wasnn-min")),
         mark_handled self "min" s)
    | None =>
        (inr tt,
         with_lists
           (<[input_indexes self :=
                cur ++ replicate (1 - length cur) None ++ [Some (length (nodes s))]]>
              (lists s))
           (register (NConstant (min_constant (onnx_op self) a))
              (mark_handled self "min" s)))
    end.
Proof.
  intros Hfind Hty Hlen. unfold promotion. cbv zeta.
  rewrite (run_get_attr _ _ _ _ _ FLOAT) by reflexivity. cbn [fst].
  rewrite (lookup_attr_float _ _ _ a) by done.
  replace (1 <? length cur)%nat with false by (symmetry; apply Nat.ltb_ge; lia).
  reflexivity.
Qed.

(** A promotion only adds: to the nodes, to the two maps under the
    generated name, and to the end of the reader's list. *)
Lemma promotion_grows self input_index name attr_type cur s :
  lists s !! input_indexes self = Some cur →
  let after := (promotion self input_index name attr_type cur s).2 in
  (∃ more, nodes after = nodes s ++ more)
  ∧ (∀ k, k ≠ proto_name (onnx_op self) +:+ ":wasnn-" +:+ name →
          tensor_map after !! k = tensor_map s !! k
          ∧ constant_map after !! k = constant_map s !! k)
  ∧ (∃ more, lists after !! input_indexes self = Some (cur ++ more)).
Proof.
  intros Hcur.
  assert (Hsame : let after := mark_handled self name s in
    (∃ more, nodes after = nodes s ++ more)
    ∧ (∀ k, k ≠ proto_name (onnx_op self) +:+ ":wasnn-" +:+ name →
            tensor_map after !! k = tensor_map s !! k
            ∧ constant_map after !! k = constant_map s !! k)
    ∧ (∃ more, lists after !! input_indexes self = Some (cur ++ more))).
  { cbn. split_and!; [exists []; by rewrite app_nil_r | done |].
    exists []. by rewrite app_nil_r. }
  unfold promotion. cbv zeta.
  destruct (get_attr self name attr_type PyNone s).1 as [e | v]; [done |].
  assert (Hbody : let after :=
    (if (input_index <? length cur)%nat
     then (inl (ConflictingAttributeAndInput name input_index),
           mark_handled self name s)
     else
       match generated_input name attr_type v with
       | inl e => (inl e, mark_handled self name s)
       | inr (shape, data) =>
           match ConstantNode__init__
                   (proto_name (onnx_op self) +:+ ":wasnn-" +:+ name) shape data with
           | inl e => (inl e, mark_handled self name s)
           | inr c =>
               match tensor_map s !! (proto_name (onnx_op self) +:+ ":wasnn-" +:+ name) with
               | Some _ =>
                   (inl (DuplicateNodeName
                           (proto_name (onnx_op self) +:+ ":wasnn-" +:+ name)),
                    mark_handled self name s)
               | None =>
                   (inr tt,
                    with_lists
                      (<[input_indexes self :=
                           cur ++ replicate (input_index - length cur) None
                               ++ [Some (length (nodes s))]]> (lists s))
                      (register (NConstant c) (mark_handled self name s)))
               end
           end
       end : result unit * State).2 in
    (∃ more, nodes after = nodes s ++ more)
    ∧ (∀ k, k ≠ proto_name (onnx_op self) +:+ ":wasnn-" +:+ name →
            tensor_map after !! k = tensor_map s !! k
            ∧ constant_map after !! k = constant_map s !! k)
    ∧ (∃ more, lists after !! input_indexes self = Some (cur ++ more))).
  { destruct (input_index <? length cur)%nat; [done |].
    destruct (generated_input name attr_type v) as [e | [shape data]]; [done |].
    destruct (ConstantNode__init__ _ shape data) as [e | c] eqn:Hc; [done |].
    apply ConstantNode__init__ok in Hc as [Hc _].
    destruct (tensor_map s !! _); [done |].
    cbn. split_and!.
    - by eexists.
    - intros k Hk. subst c. cbn. by rewrite !lookup_insert_ne.
    - eexists. by rewrite list_lookup_insert_eq by (by eapply lookup_lt_Some). }
  destruct v; first [done | exact Hbody].
Qed.

(** The end of the translation of an operator: the check of the operator
    type and the warnings for the attributes that were not read. *)
Lemma op_node_from_onnx_operator_end sg op reader (node : OperatorNode) s :
  let run :=
    (((if negb (hasattr (OperatorType sg) (proto_op_type op))
       then raise (UnsupportedOperator (proto_op_type op)) else mret tt);;
      unhandled ← unhandled_attrs reader;
      for_each unhandled (fun attr =>
        warn_once (unsupported_attribute_warning attr op));;
      mret node) : M OperatorNode) s in
  lists run.2 = lists s ∧ nodes run.2 = nodes s
  ∧ tensor_map run.2 = tensor_map s ∧ constant_map run.2 = constant_map s
  ∧ (∀ n, run.1 = inr n → n = node)
  ∧ (hasattr (OperatorType sg) (proto_op_type op) = true → run.1 = inr node).
Proof.
  cbv zeta. rewrite run_bind.
  destruct (hasattr (OperatorType sg) (proto_op_type op)); cbn [negb];
    [| by cbn].
  cbn [mret SE_ret ret]. rewrite run_bind. unfold unhandled_attrs.
  rewrite run_bind. cbn [read_set gets]. cbn [mret SE_ret ret]. rewrite run_bind.
  set (un := filter _ _).
  assert (H : ∀ s0 : State, ∃ s',
    for_each un (fun attr =>
      warn_once (unsupported_attribute_warning attr op)) s0 = (inr tt, s')
    ∧ lists s' = lists s0 ∧ nodes s' = nodes s0
    ∧ tensor_map s' = tensor_map s0 ∧ constant_map s' = constant_map s0).
  { induction un as [| x un IH]; intros s0; [by exists s0 |].
    cbn [for_each]. rewrite run_bind.
    assert (∃ s1, warn_once (unsupported_attribute_warning x op) s0 = (inr tt, s1)
                  ∧ lists s1 = lists s0 ∧ nodes s1 = nodes s0
                  ∧ tensor_map s1 = tensor_map s0
                  ∧ constant_map s1 = constant_map s0)
      as (s1 & -> & <- & <- & <- & <-).
    { unfold warn_once. case_bool_decide; by eexists. }
    apply IH. }
  destruct (H s) as (s' & -> & H2 & H3 & H4 & H5). cbn.
  split_and!; try done. by intros n [= <-].
Qed.

Lemma string_app_inv_head (prefix a b : string) :
  prefix +:+ a = prefix +:+ b → a = b.
Proof. induction prefix as [| c p IH]; simpl; [done |]. intros [= H]. auto. Qed.

Lemma promotion_absent self input_index name cur s code :
  AttributeProto_getattr (upper "float") = inr code →
  find_attr (proto_attribute (onnx_op self)) name = None →
  promotion self input_index name "float" cur s
  = (inr tt, mark_handled self name s).
Proof.
  intros Hcode Hfind. unfold promotion. cbv zeta.
  rewrite (run_get_attr _ _ _ _ _ code) by done. cbn [fst].
  by rewrite lookup_attr_absent.
Qed.

(** The attributes of a [Clip] operator, read by a reader whose list has
    at most one entry and whose operator has a float attribute [min]. *)
Lemma translate_attrs_clip_min sg self a cur s :
  reader_add_node self = add_node →
  find_attr (proto_attribute (onnx_op self)) "min" = Some a →
  attr_type a = FLOAT →
  lists s !! input_indexes self = Some cur →
  (length cur ≤ 1)%nat →
  let run := translate_attrs sg (onnx_op self) self "Clip" s in
  let generated_name := proto_name (onnx_op self) +:+ ":wasnn-min" in
  let input_id := length (nodes s) in
  let promoted := cur ++ replicate (1 - length cur) None ++ [Some input_id] in
  match tensor_map s !! generated_name with
  | Some _ =>
      run = (inl (DuplicateNodeName generated_name), mark_handled self "min" s)
  | None =>
      (∃ more, nodes run.2
               = nodes s ++ NConstant (min_constant (onnx_op self) a) :: more)
      ∧ tensor_map run.2 !! generated_name = Some input_id
      ∧ constant_map run.2 !! generated_name
        = Some (min_constant (onnx_op self) a)
      ∧ (∃ more, lists run.2 !! input_indexes self = Some (promoted ++ more))
      ∧ (∀ attrs, run.1 = inr attrs → attrs = PyNone)
      ∧ (find_attr (proto_attribute (onnx_op self)) "max" = None →
         run.1 = inr PyNone
         ∧ nodes run.2 = nodes s ++ [NConstant (min_constant (onnx_op self) a)]
         ∧ lists run.2 !! input_indexes self = Some promoted)
  end.
Proof.
  intros Hadd Hfind Hty Hcur Hlen. cbv zeta.
  change (translate_attrs sg (onnx_op self) self "Clip")
    with (generate_input_from_attr self 1 "min" "float";;
          generate_input_from_attr self 2 "max" "float";;
          (mret PyNone : M PyVal)).
  rewrite run_bind, (generate_input_from_attr_run _ _ _ _ _ cur) by done.
  rewrite (promotion_min _ a) by done.
  destruct (tensor_map s !! _) as [i |] eqn:Hfresh; [done |].
  set (c := min_constant (onnx_op self) a).
  set (promoted := cur ++ replicate (1 - length cur) None ++ [Some (length (nodes s))]).
  set (s1 := with_lists _ _).
  assert (Hcur1 : lists s1 !! input_indexes self = Some promoted).
  { subst s1. cbn. by rewrite list_lookup_insert_eq by (by eapply lookup_lt_Some). }
  rewrite run_bind, (generate_input_from_attr_run _ _ _ _ _ promoted) by done.
  pose proof (promotion_grows self 2 "max" "float" promoted s1 Hcur1)
    as ((more & Hnodes) & Hmaps & (more' & Hlists)).
  assert (Hne : proto_name (onnx_op self) +:+ ":wasnn-min"
                ≠ proto_name (onnx_op self) +:+ ":wasnn-" +:+ "max").
  { intros H. by apply string_app_inv_head in H. }
  destruct (Hmaps _ Hne) as [Htm Hcm].
  assert (Hmax : find_attr (proto_attribute (onnx_op self)) "max" = None →
                 promotion self 2 "max" "float" promoted s1
                 = (inr tt, mark_handled self "max" s1)).
  { intros H. by apply (promotion_absent _ _ _ _ _ FLOAT). }
  destruct (promotion self 2 "max" "float" promoted s1) as [[e | []] s2];
    cbn [fst snd mret SE_ret ret] in *.
  - split_and!.
    + exists more. rewrite Hnodes. subst s1. cbn. by rewrite <- app_assoc.
    + rewrite Htm. subst s1. cbn. by rewrite lookup_insert_eq.
    + rewrite Hcm. subst s1. cbn. by rewrite lookup_insert_eq.
    + by exists more'.
    + done.
    + intros H. by specialize (Hmax H).
  - split_and!.
    + exists more. rewrite Hnodes. subst s1. cbn. by rewrite <- app_assoc.
    + rewrite Htm. subst s1. cbn. by rewrite lookup_insert_eq.
    + rewrite Hcm. subst s1. cbn. by rewrite lookup_insert_eq.
    + by exists more'.
    + by intros attrs [= <-].
    + intros H. specialize (Hmax H). injection Hmax as ->. done.
Qed.

(** C6, as amended.  For every Clip operator carrying a [min] float
    attribute and having at most one input, whose input and output names are
    registered: when no node is registered under the operator name followed
    by ":wasnn-min", translation synthesizes a float32 scalar constant node
    of that name, registers it in the graph (it is the next node, and both
    maps hold it under its name), and places its reference at position 1 of
    the reader's copy of the inputs, after the resolved references and a
    padding of absent markers; a node that is returned has that copy as its
    inputs, and one is returned when the operator has no [max] attribute
    and the schema knows Clip.  When a node of that name is registered,
    translation fails with DuplicateNodeName and registers nothing. *)
Theorem C6_clip_min_promoted sg op a s :
  proto_op_type op = "Clip" →
  find_attr (proto_attribute op) "min" = Some a →
  attr_type a = FLOAT →
  (length (proto_input op) ≤ 1)%nat →
  Forall (fun name => name ≠ EmptyString → is_Some (tensor_map s !! name))
    (proto_input op) →
  Forall (fun name => is_Some (tensor_map s !! name)) (proto_output op) →
  let run := op_node_from_onnx_operator sg op add_node s in
  let generated_name := proto_name op +:+ ":wasnn-min" in
  let input_id := length (nodes s) in
  let copy := S (length (lists s)) in
  let inputs := map (resolved_input (tensor_map s)) (proto_input op) in
  let promoted := inputs ++ replicate (1 - length inputs) None ++ [Some input_id] in
  (tensor_map s !! generated_name = None →
     (∃ more, nodes run.2 = nodes s ++ NConstant (min_constant op a) :: more)
     ∧ tensor_map run.2 !! generated_name = Some input_id
     ∧ constant_map run.2 !! generated_name = Some (min_constant op a)
     ∧ (∃ more, lists run.2 !! copy = Some (promoted ++ more))
     ∧ (∀ node, run.1 = inr node → on_inputs node = copy)
     ∧ (find_attr (proto_attribute op) "max" = None →
        hasattr (OperatorType sg) "Clip" = true →
        run.1 = inr {| on_name := proto_name op;
                       on_op_type := "Clip";
                       on_attrs := PyNone;
                       on_inputs := copy;
                       on_outputs := map (fun name => tensor_map s !! name)
                                       (proto_output op) |}
        ∧ nodes run.2 = nodes s ++ [NConstant (min_constant op a)]
        ∧ lists run.2 !! copy = Some promoted))
  ∧ (is_Some (tensor_map s !! generated_name) →
     run.1 = inl (DuplicateNodeName generated_name)
     ∧ nodes run.2 = nodes s ∧ tensor_map run.2 = tensor_map s).
Proof.
  intros Hty Hfind Hfloat Hlen Hin Hout. cbv zeta.
  rewrite op_node_from_onnx_operator_ready by done.
  set (inputs := map (resolved_input (tensor_map s)) (proto_input op)).
  set (reader := {| onnx_op := op; reader_add_node := add_node;
                    input_indexes := S (length (lists s));
                    _handled_attrs := length (sets s) |}).
  set (s0 := set_sets _ _).
  assert (Hcur : lists s0 !! input_indexes reader = Some inputs).
  { subst s0 reader. cbn [input_indexes lists set_sets with_lists set_lists].
    rewrite lookup_app_r by lia.
    by replace (S (length (lists s)) - length (lists s))%nat with 1%nat by lia. }
  assert (Hlen' : (length inputs ≤ 1)%nat) by (subst inputs; by rewrite length_map).
  pose proof (translate_attrs_clip_min sg reader a inputs s0 eq_refl Hfind Hfloat
                Hcur Hlen') as Htr.
  cbv zeta in Htr. change (onnx_op reader) with op in Htr.
  change (tensor_map s0) with (tensor_map s) in Htr.
  change (nodes s0) with (nodes s) in Htr.
  change (input_indexes reader) with (S (length (lists s))) in Htr.
  rewrite <- Hty in Htr. rewrite run_bind. split.
  - intros Hfresh. rewrite Hfresh in Htr.
    destruct Htr as ((more & Hnodes) & Htm & Hcm & (more' & Hlists) & Hattrs & Hmax).
    destruct (translate_attrs sg op reader (proto_op_type op) s0) as [[e | attrs] s1];
      cbn [fst snd] in *.
    + split_and!; eauto; [done |]. intros H. by destruct (Hmax H).
    + pose proof (Hattrs _ eq_refl) as ->.
      destruct (op_node_from_onnx_operator_end sg op reader
                  {| on_name := proto_name op; on_op_type := proto_op_type op;
                     on_attrs := PyNone;
                     on_inputs := S (length (lists s));
                     on_outputs := map (fun name => tensor_map s !! name)
                                     (proto_output op) |} s1)
        as (E1 & E2 & E3 & E4 & Hnode & Hok).
      cbv zeta in *. rewrite E1, E2, E3, E4. split_and!; eauto.
      * intros node Hn. by rewrite (Hnode _ Hn).
      * intros H Hsg. destruct (Hmax H) as (_ & Hn & Hl).
        rewrite Hok by (by rewrite Hty). rewrite Hty. auto.
  - intros [i Hi]. rewrite Hi in Htr. rewrite Htr. done.
Qed.

Lemma C6_witness :
  (op_node_from_onnx_operator sample_schema (clip_min "c" ["x"] "y") add_node
     (state_with_values ["x"; "y"])).1
  = inr {| on_name := "c"; on_op_type := "Clip"; on_attrs := PyNone;
           on_inputs := 1%nat; on_outputs := [Some 1%nat] |}
  ∧ nodes (op_node_from_onnx_operator sample_schema (clip_min "c" ["x"] "y")
             add_node (state_with_values ["x"; "y"])).2
    = nodes (state_with_values ["x"; "y"])
      ++ [NConstant (min_constant (clip_min "c" ["x"] "y") (float_attr "min" 0.5))]
  ∧ lists (op_node_from_onnx_operator sample_schema (clip_min "c" ["x"] "y")
             add_node (state_with_values ["x"; "y"])).2 !! 1%nat
    = Some [Some 0%nat; Some 2%nat].
Proof.
  assert (Hin : Forall (fun name => name ≠ EmptyString
                  → is_Some (tensor_map (state_with_values ["x"; "y"]) !! name))
                  (proto_input (clip_min "c" ["x"] "y"))).
  { repeat constructor. intros _. by exists 0%nat. }
  assert (Hout : Forall (fun name =>
                   is_Some (tensor_map (state_with_values ["x"; "y"]) !! name))
                   (proto_output (clip_min "c" ["x"] "y"))).
  { repeat constructor. by exists 1%nat. }
  assert (Hlen : (length (proto_input (clip_min "c" ["x"] "y")) ≤ 1)%nat)
    by (simpl; lia).
  destruct (proj1 (C6_clip_min_promoted sample_schema (clip_min "c" ["x"] "y")
                     (float_attr "min" 0.5) (state_with_values ["x"; "y"])
                     eq_refl eq_refl eq_refl Hlen Hin Hout) eq_refl)
    as (_ & _ & _ & _ & _ & H).
  exact (H eq_refl eq_refl).
Defined.

(** C6, as stated, fails: the second of two unnamed Clip operators carries
    a [min] float attribute and has one input, but the name ":wasnn-min" is
    taken by the constant of the first; its translation fails with
    DuplicateNodeName, no node is registered for it, and a run over the
    model aborts.  And a Clip operator whose input is not registered fails
    before its attributes are read. *)
Lemma C6_counterexample :
  proto_op_type (clip_min EmptyString ["y"] "z") = "Clip"
  ∧ find_attr (proto_attribute (clip_min EmptyString ["y"] "z")) "min"
    = Some (float_attr "min" 0.5)
  ∧ length (proto_input (clip_min EmptyString ["y"] "z")) = 1%nat
  ∧ (op_node_from_onnx_operator sample_schema (clip_min EmptyString ["y"] "z")
       add_node second_clip_state).1
    = inl (DuplicateNodeName ":wasnn-min")
  ∧ nodes (op_node_from_onnx_operator sample_schema
             (clip_min EmptyString ["y"] "z") add_node second_clip_state).2
    = nodes second_clip_state
  ∧ lists (op_node_from_onnx_operator sample_schema
             (clip_min EmptyString ["y"] "z") add_node second_clip_state).2
      !! S (length (lists second_clip_state))
    = Some [Some 1%nat]
  ∧ (graph_from_onnx_graph sample_schema two_clips initial_state).1
    = inl (ConversionFailed 1 "operators")
  ∧ op_node_from_onnx_operator sample_schema (clip_min "c" ["w"] "y") add_node
      (state_with_values ["x"; "y"])
    = (inl (UnknownReference "input" "w" "c"),
       set_lists (fun h => h ++ [[]]) (state_with_values ["x"; "y"])).
Proof. vm_compute. done. Qed.

(** ** Serialization *)

(** The buffer only grows: an offset that was handed out keeps its object. *)
Definition extends (b b' : Builder) : Prop :=
  objects b `prefix_of` objects b'.

#[global] Instance extends_preorder : PreOrder extends.
Proof.
  split.
  - intros b. unfold extends. reflexivity.
  - intros b1 b2 b3 H1 H2. unfold extends in *. by etrans.
Qed.

Lemma extends_finish b b' o :
  objects b' = objects b ++ [o] → extends b b'.
Proof. intros H. unfold extends. rewrite H. by apply prefix_app_r. Qed.

(** [holds partial m b Q]: run from [b], the writer [m] returns a value and
    a builder that satisfy [Q]; with [partial], it may also raise. *)
Definition holds (partial : bool) {A} (m : B A) (b : Builder)
  (Q : A → Builder → Prop) : Prop :=
  match m b with
  | (inr a, b') => Q a b'
  | (inl _, _) => partial = true
  end.

Section Writers.

Variable partial : bool.

Lemma holds_ret {A} (a : A) b (Q : A → Builder → Prop) :
  Q a b → holds partial (mret a) b Q.
Proof. done. Qed.

Lemma holds_raise {A} e b (Q : A → Builder → Prop) :
  partial = true → holds partial (raise e) b Q.
Proof. done. Qed.

Lemma holds_bind {A C} (m : B A) (k : A → B C) b (Q : C → Builder → Prop) :
  holds partial m b (fun a b' => holds partial (k a) b' Q) →
  holds partial (m ≫= k) b Q.
Proof.
  unfold holds. rewrite run_bind. by destruct (m b) as [[e | a] b'].
Qed.

Lemma holds_weaken {A} (m : B A) b (Q Q' : A → Builder → Prop) :
  holds partial m b Q → (∀ a b', Q a b' → Q' a b') → holds partial m b Q'.
Proof. unfold holds. destruct (m b) as [[e | a] b']; auto. Qed.

Lemma holds_finish_object o b (Q : nat → Builder → Prop) :
  (∀ b', objects b' = objects b ++ [o] → Q (S (length (objects b))) b') →
  holds partial (finish_object o) b Q.
Proof. intros H. by apply H. Qed.

End Writers.

(** *** Reading is stable under growth *)

Lemma get_object_extends b b' o x :
  extends b b' → get_object b o = Some x → get_object b' o = Some x.
Proof.
  intros [more H] Hget. destruct o as [| i]; [done |]. cbn in *.
  rewrite H. by apply lookup_app_l_Some.
Qed.

Lemma get_object_last b b' x :
  objects b' = objects b ++ [x] →
  get_object b' (S (length (objects b))) = Some x.
Proof. intros H. cbn. rewrite H. by rewrite lookup_app_r, Nat.sub_diag by lia. Qed.

Lemma read_string_extends b b' o s :
  extends b b' → read_string b o = Some s → read_string b' o = Some s.
Proof.
  intros Hext. unfold read_string.
  destruct (get_object b o) as [x |] eqn:E; [| done].
  by rewrite (get_object_extends _ _ _ _ Hext E).
Qed.

Lemma read_vector_extends b b' o items :
  extends b b' → read_vector b o = Some items → read_vector b' o = Some items.
Proof.
  intros Hext. unfold read_vector.
  destruct (get_object b o) as [x |] eqn:E; [| done].
  by rewrite (get_object_extends _ _ _ _ Hext E).
Qed.

Lemma read_table_extends b b' o table fields :
  extends b b' → read_table b o table = Some fields →
  read_table b' o table = Some fields.
Proof.
  intros Hext. unfold read_table.
  destruct (get_object b o) as [x |] eqn:E; [| done].
  by rewrite (get_object_extends _ _ _ _ Hext E).
Qed.

Lemma mapM_extends {A C} (f : Builder → A → option C) b b' items rs :
  (∀ x r, f b x = Some r → f b' x = Some r) →
  mapM (f b) items = Some rs → mapM (f b') items = Some rs.
Proof.
  intros Hf. rewrite !mapM_Some. intros H.
  eapply Forall2_impl; [exact H | exact Hf].
Qed.

Lemma read_dim_extends b b' o dim :
  extends b b' → read_dim b o = Some dim → read_dim b' o = Some dim.
Proof.
  intros Hext. unfold read_dim.
  destruct (read_table b (Z.to_nat o) "Dim") as [fields |] eqn:E; [| done].
  rewrite (read_table_extends _ _ _ _ _ Hext E). cbn.
  destruct (get_field fields "name") as [[| | n] |]; try done.
  destruct (read_string b n) as [s |] eqn:Es; [| done].
  by rewrite (read_string_extends _ _ _ _ Hext Es).
Qed.

Lemma read_value_node_extends b b' o payload :
  extends b b' → read_value_node b o = Some payload →
  read_value_node b' o = Some payload.
Proof.
  intros Hext. unfold read_value_node.
  destruct (read_table b o "ValueNode") as [fields |] eqn:E; [| done].
  rewrite (read_table_extends _ _ _ _ _ Hext E). cbn.
  destruct (get_field fields "shape") as [[| | v] |]; try done.
  destruct (read_vector b v) as [items |] eqn:Ev; [| done].
  rewrite (read_vector_extends _ _ _ _ Hext Ev). cbn.
  destruct (mapM (read_dim b) items) as [dims |] eqn:Ed; [| done].
  rewrite (mapM_extends read_dim b b' items dims); [done | | done].
  intros x r. by apply read_dim_extends.
Qed.

Lemma read_constant_node_extends b b' o payload :
  extends b b' → read_constant_node b o = Some payload →
  read_constant_node b' o = Some payload.
Proof.
  intros Hext. unfold read_constant_node.
  destruct (read_table b o "ConstantNode") as [fields |] eqn:E; [| done].
  rewrite (read_table_extends _ _ _ _ _ Hext E). cbn.
  destruct (offset_field fields "shape") as [shape_vec |]; [| done]. cbn.
  destruct (read_vector b shape_vec) as [shape |] eqn:Ev; [| done].
  rewrite (read_vector_extends _ _ _ _ Hext Ev). cbn.
  destruct (offset_field fields "data") as [data_off |]; [| done]. cbn.
  destruct (get_field fields "data_type") as [[| enum data_type |] |]; try done.
  destruct (String.eqb enum "ConstantData"); [| done].
  destruct (read_table b data_off data_type) as [data_fields |] eqn:Et; [| done].
  rewrite (read_table_extends _ _ _ _ _ Hext Et). cbn.
  destruct (offset_field data_fields "data") as [data_vec |]; [| done]. cbn.
  destruct (get_object b data_vec) as [x |] eqn:Ex; [| done].
  by rewrite (get_object_extends _ _ _ _ Hext Ex).
Qed.

Lemma read_operator_node_extends b b' o payload :
  extends b b' → read_operator_node b o = Some payload →
  read_operator_node b' o = Some payload.
Proof.
  intros Hext. unfold read_operator_node.
  destruct (read_table b o "OperatorNode") as [fields |] eqn:E; [| done].
  rewrite (read_table_extends _ _ _ _ _ Hext E). cbn.
  destruct (get_field fields "attrs_type") as [attrs_type |]; [| done]. cbn.
  destruct (offset_field fields "inputs") as [inputs_vec |]; [| done]. cbn.
  destruct (read_vector b inputs_vec) as [inputs |] eqn:Ei; [| done].
  rewrite (read_vector_extends _ _ _ _ Hext Ei). cbn.
  destruct (offset_field fields "outputs") as [outputs_vec |]; [| done]. cbn.
  destruct (read_vector b outputs_vec) as [outputs |] eqn:Eo; [| done].
  rewrite (read_vector_extends _ _ _ _ Hext Eo). cbn.
  destruct (get_field fields "attrs") as [[| | a] |]; try done.
  destruct (get_object b a) as [x |] eqn:Ex; [| done].
  by rewrite (get_object_extends _ _ _ _ Hext Ex).
Qed.

Lemma read_node_extends b b' o node :
  extends b b' → read_node b o = Some node → read_node b' o = Some node.
Proof.
  intros Hext. unfold read_node.
  destruct (read_table b (Z.to_nat o) "Node") as [fields |] eqn:E; [| done].
  rewrite (read_table_extends _ _ _ _ _ Hext E). cbn.
  destruct (offset_field fields "name") as [name_off |]; [| done]. cbn.
  destruct (read_string b name_off) as [name |] eqn:En; [| done].
  rewrite (read_string_extends _ _ _ _ Hext En). cbn.
  destruct (offset_field fields "data") as [data |]; [| done]. cbn.
  destruct (get_field fields "data_type") as [[| enum kind |] |]; try done.
  destruct (String.eqb enum "NodeKind"); [| done].
  destruct (String.eqb kind "ConstantNode").
  { destruct (read_constant_node b data) as [p |] eqn:Ep; [| done].
    by rewrite (read_constant_node_extends _ _ _ _ Hext Ep). }
  destruct (String.eqb kind "OperatorNode").
  { destruct (read_operator_node b data) as [p |] eqn:Ep; [| done].
    by rewrite (read_operator_node_extends _ _ _ _ Hext Ep). }
  destruct (String.eqb kind "ValueNode"); [| done].
  destruct (read_value_node b data) as [p |] eqn:Ep; [| done].
  by rewrite (read_value_node_extends _ _ _ _ Hext Ep).
Qed.

(** An offset that reads as a table lies in the buffer. *)
Lemma read_table_offset b o table fields :
  read_table b (Z.to_nat o) table = Some fields →
  0 ≤ o ≤ Z.of_nat (length (objects b)).
Proof.
  unfold read_table, get_object. intros H.
  destruct (Z.to_nat o) as [| i] eqn:E; [done |].
  destruct (objects b !! i) as [x |] eqn:Ei; [| done].
  apply lookup_lt_Some in Ei. lia.
Qed.

(** *** The writers *)

(** What the builder accepts as an item of a vector. *)
Definition item_ok (dtype : string) (n : nat) (item : Z) : Prop :=
  if String.eqb dtype "u32" then 0 ≤ item < 2 ^ 32
  else if String.eqb dtype "i32" then - 2 ^ 31 ≤ item < 2 ^ 31
  else if String.eqb dtype "offset" then 0 ≤ item ≤ Z.of_nat n
  else False.

Definition prepended (items : list Z) (b : Builder) : Builder :=
  {| objects := objects b; current_vector := rev items ++ current_vector b;
     current_table := current_table b |}.

Definition with_table (fields : list (string * FbValue)) (b : Builder)
  : Builder :=
  {| objects := objects b; current_vector := current_vector b;
     current_table := fields |}.

Definition finished (o : FbObject) (b : Builder) : Builder :=
  {| objects := objects b ++ [o]; current_vector := []; current_table := [] |}.

Lemma extends_finished o b : extends b (finished o b).
Proof. by apply (extends_finish _ _ o). Qed.

Lemma get_object_finished o b :
  get_object (finished o b) (S (length (objects b))) = Some o.
Proof. by apply (get_object_last b). Qed.

Section Vectors.

Variable partial : bool.

Lemma holds_run {A} (m : B A) b a b' (Q : A → Builder → Prop) :
  m b = (inr a, b') → Q a b' → holds partial m b Q.
Proof. intros H HQ. unfold holds. by rewrite H. Qed.

Lemma holds_prepend_item dtype item b (Q : unit → Builder → Prop) :
  (partial = false → item_ok dtype (length (objects b)) item) →
  Q tt (prepended [item] b) →
  holds partial
    (if String.eqb dtype "u32" then PrependUint32 item
     else if String.eqb dtype "i32" then PrependInt32 item
     else if String.eqb dtype "offset" then PrependUOffsetTRelative item
     else raise (ValueError "Unsupported data type")) b Q.
Proof.
  unfold item_ok, holds. intros Hok HQ.
  destruct (String.eqb dtype "u32").
  { unfold PrependUint32.
    destruct ((0 <=? item) && (item <? 2 ^ 32)) eqn:E; [done |]. cbn.
    destruct partial; [done |]. specialize (Hok eq_refl).
    apply andb_false_iff in E as [E | E]; lia. }
  destruct (String.eqb dtype "i32").
  { unfold PrependInt32.
    destruct ((- 2 ^ 31 <=? item) && (item <? 2 ^ 31)) eqn:E; [done |]. cbn.
    destruct partial; [done |]. specialize (Hok eq_refl).
    apply andb_false_iff in E as [E | E]; lia. }
  destruct (String.eqb dtype "offset").
  { unfold PrependUOffsetTRelative. rewrite run_bind. cbn [gets].
    destruct ((0 <=? item) && (item <=? Z.of_nat (length (objects b)))) eqn:E;
      [done |]. cbn.
    destruct partial; [done |]. specialize (Hok eq_refl).
    apply andb_false_iff in E as [E | E]; lia. }
  cbn. destruct partial; [done |]. by specialize (Hok eq_refl).
Qed.

Lemma holds_prepend_loop dtype items b (Q : unit → Builder → Prop) :
  (partial = false → Forall (item_ok dtype (length (objects b))) items) →
  Q tt (prepended items b) →
  holds partial
    (for_each items (fun item =>
       if String.eqb dtype "u32" then PrependUint32 item
       else if String.eqb dtype "i32" then PrependInt32 item
       else if String.eqb dtype "offset" then PrependUOffsetTRelative item
       else raise (ValueError "Unsupported data type"))) b Q.
Proof.
  revert b. induction items as [| item items IH]; intros b Hok HQ.
  - cbn [for_each]. apply holds_ret. by destruct b.
  - cbn [for_each]. apply holds_bind, holds_prepend_item.
    + intros Hp. specialize (Hok Hp). by apply Forall_cons in Hok as [? _].
    + apply IH.
      * intros Hp. specialize (Hok Hp). by apply Forall_cons in Hok as [_ ?].
      * unfold prepended in *. cbn in *. by rewrite <- app_assoc in HQ.
Qed.

(** [write_vec] writes the items in the order of the list. *)
Lemma holds_write_vec data dtype b (Q : nat → Builder → Prop) :
  (partial = false → Forall (item_ok dtype (length (objects b))) data) →
  Q (S (length (objects b))) (finished (FbVector data) b) →
  holds partial (write_vec data dtype) b Q.
Proof.
  intros Hok HQ. unfold write_vec. apply holds_bind.
  eapply holds_run; [reflexivity |]. apply holds_bind, holds_prepend_loop.
  - intros Hp. cbn. apply Forall_rev. auto.
  - unfold EndVector. apply holds_bind. eapply holds_run; [reflexivity |].
    cbn. rewrite rev_involutive, app_nil_r. exact HQ.
Qed.

(** Tables: the fields added since the start, in the order of the calls. *)
Lemma holds_StartTable {A} (k : unit → B A) b (Q : A → Builder → Prop) :
  holds partial (k tt) (with_table [] b) Q → holds partial (StartTable ≫= k) b Q.
Proof. intros H. by apply holds_bind. Qed.

Lemma holds_AddField {A} field v (k : unit → B A) b (Q : A → Builder → Prop) :
  holds partial (k tt) (with_table (current_table b ++ [(field, v)]) b) Q →
  holds partial (AddField field v ≫= k) b Q.
Proof. intros H. by apply holds_bind. Qed.

Lemma holds_EndTable table b (Q : nat → Builder → Prop) :
  Q (S (length (objects b))) (finished (FbTable table (current_table b)) b) →
  holds partial (EndTable table) b Q.
Proof. done. Qed.

End Vectors.

Lemma current_table_with_table fields b :
  current_table (with_table fields b) = fields.
Proof. done. Qed.

Lemma objects_with_table fields b : objects (with_table fields b) = objects b.
Proof. done. Qed.

Lemma with_table_with_table fields fields' b :
  with_table fields (with_table fields' b) = with_table fields b.
Proof. done. Qed.

Lemma finished_with_table o fields b :
  finished o (with_table fields b) = finished o b.
Proof. done. Qed.

Lemma get_object_with_table fields b o :
  get_object (with_table fields b) o = get_object b o.
Proof. done. Qed.

Ltac table_step :=
  lazymatch goal with
  | |- holds _ (mret _ ≫= _) _ _ => apply holds_bind, holds_ret
  | |- holds _ (StartTable ≫= _) _ _ => apply holds_StartTable
  | |- holds _ (AddField _ _ ≫= _) _ _ => apply holds_AddField
  | |- holds _ (EndTable _ ≫= _) _ _ => apply holds_bind, holds_EndTable
  | |- holds _ (EndTable _) _ _ => apply holds_EndTable
  end;
  rewrite ?current_table_with_table, ?with_table_with_table,
    ?finished_with_table, ?objects_with_table;
  cbn [app].

(** *** What a reader is to find *)

Definition constant_data_type (d : dtype) : option string :=
  match d with
  | float32 => Some "FloatData"
  | int32 => Some "IntData"
  | _ => None
  end.

Definition operator_attrs_type (sg : Schema) (attrs : PyVal) : option FbValue :=
  if truthy attrs then
    match attrs with
    | PyObject cls _ => FbScalar <$> getattr (OperatorAttrs sg) (strip_last cls)
    | _ => None
    end
  else Some (FbEnum "OperatorAttrs" "NONE").

(** The serialized form of a node: its name, its kind and its payload, with
    the operator's references in the order of its lists and an absent one
    as [node_id None]. *)
Definition serialized_node (sg : Schema) (store : list (list (option nat)))
  (node : Node) : option SerializedNode :=
  match node with
  | NConstant c =>
      data_type ← constant_data_type (arr_dtype (cn_data c));
      Some {| sn_name := cn_name c; sn_kind := "ConstantNode";
              sn_payload := ConstantPayload (cn_shape c) data_type
                              (arr_data (cn_data c)) |}
  | NOperator o =>
      attrs_type ← operator_attrs_type sg (on_attrs o);
      type ← getattr (OperatorType sg) (on_op_type o);
      Some {| sn_name := on_name o; sn_kind := "OperatorNode";
              sn_payload :=
                OperatorPayload type attrs_type (on_attrs o)
                  (map node_id (default [] (store !! on_inputs o)))
                  (map node_id (on_outputs o)) |}
  | NValue v =>
      Some {| sn_name := vn_name v; sn_kind := "ValueNode";
              sn_payload := ValuePayload (vn_shape v) |}
  end.

(** What the builder needs to accept a node: numbers that fit their
    vectors, and types that the schema has. *)
Definition node_serializable (sg : Schema) (store : list (list (option nat)))
  (node : Node) : Prop :=
  match node with
  | NConstant c =>
      is_Some (constant_data_type (arr_dtype (cn_data c)))
      ∧ Forall (fun d => 0 ≤ d < 2 ^ 32) (cn_shape c)
  | NOperator o =>
      is_Some (operator_attrs_type sg (on_attrs o))
      ∧ is_Some (getattr (OperatorType sg) (on_op_type o))
      ∧ Forall (fun i => - 2 ^ 31 ≤ i < 2 ^ 31)
          (map node_id (default [] (store !! on_inputs o)))
      ∧ Forall (fun i => - 2 ^ 31 ≤ i < 2 ^ 31) (map node_id (on_outputs o))
  | NValue v => True
  end.

Definition graph_serializable (sg : Schema) (store : list (list (option nat)))
  (graph : Graph) : Prop :=
  Forall (node_serializable sg store) (graph_nodes graph)
  ∧ Forall (fun i => 0 ≤ i < 2 ^ 32) (map Z.of_nat (graph_inputs graph))
  ∧ Forall (fun i => 0 ≤ i < 2 ^ 32) (map Z.of_nat (graph_outputs graph)).

Section Nodes.

Variable partial : bool.
Variable sg : Schema.
Variable store : list (list (option nat)).

Lemma holds_build_constant_node c b (Q : nat → Builder → Prop) :
  (partial = false → node_serializable sg store (NConstant c)) →
  (∀ o b' data_type,
     extends b b' →
     constant_data_type (arr_dtype (cn_data c)) = Some data_type →
     read_constant_node b' o
     = Some (ConstantPayload (cn_shape c) data_type (arr_data (cn_data c))) →
     Q o b') →
  holds partial (build_constant_node c) b Q.
Proof.
  intros Hok HQ. unfold build_constant_node.
  apply holds_bind, holds_write_vec.
  { intros Hp. by destruct (Hok Hp) as [_ H]. }
  set (b1 := finished (FbVector (cn_shape c)) b).
  apply holds_bind. eapply holds_run; [reflexivity |].
  fold (finished (FbNumpyVector (arr_data (cn_data c))) b1).
  set (b2 := finished (FbNumpyVector (arr_data (cn_data c))) b1).
  assert (Htable : ∀ table,
    constant_data_type (arr_dtype (cn_data c)) = Some table →
    holds partial
      (StartTable;;
       AddField "data" (FbOffset (S (length (objects b1))));;
       const_data ← EndTable table;
       mret (const_data, table)) b2
      (fun '(const_data, const_data_type) b' =>
         holds partial
           (StartTable;;
            AddField "shape" (FbOffset (S (length (objects b))));;
            AddField "data_type" (FbEnum "ConstantData" const_data_type);;
            AddField "data" (FbOffset const_data);;
            EndTable "ConstantNode") b' Q)).
  { intros table Htable. do 3 table_step. apply holds_ret.
    set (b3 := finished (FbTable table _) b2).
    do 5 table_step.
    set (b4 := finished _ b3).
    assert (E1 : extends b b1) by apply extends_finished.
    assert (E2 : extends b1 b2) by apply extends_finished.
    assert (E3 : extends b2 b3) by apply extends_finished.
    assert (E4 : extends b3 b4) by apply extends_finished.
    apply (HQ _ _ table); [by repeat (etrans; [eassumption |]) | done |].
    pose proof (get_object_finished _ b3 : get_object b4 _ = _) as G4.
    pose proof (get_object_extends b3 b4 _ _ E4 (get_object_finished _ b2)) as G3.
    pose proof (get_object_extends b2 b4 _ _ ltac:(by etrans)
                  (get_object_finished _ b1)) as G2.
    pose proof (get_object_extends b1 b4 _ _ ltac:(by repeat (etrans; [eassumption |]))
                  (get_object_finished _ b)) as G1.
    unfold read_constant_node, read_table, read_vector. rewrite G4.
    cbn [mbind option_bind offset_field get_field String.eqb Ascii.eqb Bool.eqb].
    rewrite G1. cbn [mbind option_bind]. rewrite G3.
    rewrite String.eqb_refl.
    cbn [mbind option_bind offset_field get_field String.eqb Ascii.eqb Bool.eqb].
    by rewrite G2. }
  destruct (arr_dtype (cn_data c)) eqn:Hd;
    try (apply holds_bind, holds_raise; destruct partial; [done |];
         destruct (Hok eq_refl) as [[? H] _]; cbn in H; rewrite ?Hd in H; discriminate).
  - apply holds_bind. by apply Htable.
  - apply holds_bind. by apply Htable.
Qed.

Lemma holds_Pack_tables type attrs_type attrs attrs_offset inputs outputs b
    (Q : nat → Builder → Prop) :
  (partial = false →
   Forall (fun i => - 2 ^ 31 ≤ i < 2 ^ 31) inputs
   ∧ Forall (fun i => - 2 ^ 31 ≤ i < 2 ^ 31) outputs) →
  match attrs_offset with
  | None => attrs = PyNone
  | Some a => get_object b a = Some (FbAttrs attrs)
  end →
  (∀ o b',
     extends b b' →
     read_operator_node b' o
     = Some (OperatorPayload type attrs_type attrs inputs outputs) →
     Q o b') →
  holds partial
    (inputs_vec ← write_vec inputs "i32";
     outputs_vec ← write_vec outputs "i32";
     StartTable;;
     AddField "type" (FbScalar type);;
     AddField "attrs_type" attrs_type;;
     match attrs_offset with
     | Some o => AddField "attrs" (FbOffset o)
     | None => mret tt
     end;;
     AddField "inputs" (FbOffset inputs_vec);;
     AddField "outputs" (FbOffset outputs_vec);;
     EndTable "OperatorNode") b Q.
Proof.
  intros Hok Hattrs HQ.
  apply holds_bind, holds_write_vec; [intros Hp; by destruct (Hok Hp) |].
  set (b1 := finished (FbVector inputs) b).
  apply holds_bind, holds_write_vec; [intros Hp; by destruct (Hok Hp) |].
  set (b2 := finished (FbVector outputs) b1).
  assert (E1 : extends b b1) by apply extends_finished.
  assert (E2 : extends b1 b2) by apply extends_finished.
  do 3 table_step.
  destruct attrs_offset as [a |]; do 4 table_step.
  - set (b3 := finished _ b2).
    assert (E3 : extends b2 b3) by apply extends_finished.
    pose proof (get_object_finished _ b2 : get_object b3 _ = _) as G3.
    pose proof (get_object_extends b2 b3 _ _ E3 (get_object_finished _ b1)) as G2.
    pose proof (get_object_extends b1 b3 _ _ ltac:(by etrans)
                  (get_object_finished _ b)) as G1.
    pose proof (get_object_extends b b3 _ _ ltac:(by repeat (etrans; [eassumption |]))
                  Hattrs) as G0.
    apply HQ; [by repeat (etrans; [eassumption |]) |].
    unfold read_operator_node, read_table, read_vector. rewrite G3.
    cbn [mbind option_bind offset_field get_field String.eqb Ascii.eqb Bool.eqb].
    rewrite G1. cbn [mbind option_bind]. rewrite G2. cbn [mbind option_bind].
    by rewrite G0.
  - set (b3 := finished _ b2).
    assert (E3 : extends b2 b3) by apply extends_finished.
    pose proof (get_object_finished _ b2 : get_object b3 _ = _) as G3.
    pose proof (get_object_extends b2 b3 _ _ E3 (get_object_finished _ b1)) as G2.
    pose proof (get_object_extends b1 b3 _ _ ltac:(by etrans)
                  (get_object_finished _ b)) as G1.
    apply HQ; [by repeat (etrans; [eassumption |]) |].
    unfold read_operator_node, read_table, read_vector. rewrite G3.
    cbn [mbind option_bind offset_field get_field String.eqb Ascii.eqb Bool.eqb].
    rewrite G1. cbn [mbind option_bind]. rewrite G2. cbn [mbind option_bind].
    by rewrite Hattrs.
Qed.

Lemma holds_Pack type attrs_type attrs inputs outputs b
    (Q : nat → Builder → Prop) :
  (partial = false →
   Forall (fun i => - 2 ^ 31 ≤ i < 2 ^ 31) inputs
   ∧ Forall (fun i => - 2 ^ 31 ≤ i < 2 ^ 31) outputs) →
  (∀ o b',
     extends b b' →
     read_operator_node b' o
     = Some (OperatorPayload type attrs_type attrs inputs outputs) →
     Q o b') →
  holds partial (Pack type attrs_type attrs inputs outputs) b Q.
Proof.
  intros Hok HQ. unfold Pack. apply holds_bind.
  destruct attrs;
    [apply holds_ret; by apply (holds_Pack_tables _ _ PyNone None) | ..];
    (apply holds_bind; eapply holds_run; [reflexivity |]; apply holds_ret;
     match type of HQ with
     | context [OperatorPayload _ _ ?attrs _ _] =>
         apply (holds_Pack_tables _ _ attrs (Some (S (length (objects b)))));
           [done | apply (get_object_finished _ b) |];
           intros o b' Hext; apply HQ; etrans; [| exact Hext];
           apply (extends_finished _ b)
     end).
Qed.

Lemma holds_build_operator_node operator b (Q : nat → Builder → Prop) :
  (partial = false → node_serializable sg store (NOperator operator)) →
  (∀ o b' attrs_type type,
     extends b b' →
     operator_attrs_type sg (on_attrs operator) = Some attrs_type →
     getattr (OperatorType sg) (on_op_type operator) = Some type →
     read_operator_node b' o
     = Some (OperatorPayload type attrs_type (on_attrs operator)
               (map node_id (default [] (store !! on_inputs operator)))
               (map node_id (on_outputs operator))) →
     Q o b') →
  holds partial (build_operator_node sg store operator) b Q.
Proof.
  intros Hok HQ. unfold build_operator_node. apply holds_bind.
  assert (Hattrs : holds partial
    (if truthy (on_attrs operator) then
       match on_attrs operator with
       | PyObject cls _ =>
           let attrs_const_name := strip_last cls in
           match getattr (OperatorAttrs sg) attrs_const_name with
           | Some code => mret (FbScalar code)
           | None => raise (AttributeError attrs_const_name)
           end
       | _ => raise (AttributeError "Pack")
       end
     else mret (FbEnum "OperatorAttrs" "NONE")) b
    (fun attrs_type b' =>
       b' = b ∧ operator_attrs_type sg (on_attrs operator) = Some attrs_type)).
  { assert (Hraise : operator_attrs_type sg (on_attrs operator) = None →
                     partial = true).
    { intros Hnone. destruct partial; [done |].
      destruct (Hok eq_refl) as [[x Hx] _]. congruence. }
    unfold operator_attrs_type in *.
    destruct (truthy (on_attrs operator)); [| by apply holds_ret].
    destruct (on_attrs operator); try (apply holds_raise; by apply Hraise).
    cbv zeta. destruct (getattr (OperatorAttrs sg) _).
    - by apply holds_ret.
    - apply holds_raise. by apply Hraise. }
  eapply holds_weaken; [exact Hattrs |]. intros attrs_type b' [-> Hat]. cbv beta.
  apply holds_bind.
  destruct (getattr (OperatorType sg) (on_op_type operator)) as [type |] eqn:Hty.
  - apply holds_ret. cbv zeta. apply holds_Pack.
    + intros Hp. by destruct (Hok Hp) as (_ & _ & H1 & H2).
    + intros o b' Hext Hread. by apply (HQ o b' attrs_type type).
  - apply holds_raise. destruct partial; [done |].
    destruct (Hok eq_refl) as (_ & [x Hx] & _). congruence.
Qed.

Lemma holds_write_dim dim b (Q : nat → Builder → Prop) :
  (∀ o b', extends b b' → read_dim b' (Z.of_nat o) = Some dim → Q o b') →
  holds partial (write_dim dim) b Q.
Proof.
  intros HQ. destruct dim as [s | n]; unfold write_dim.
  - apply holds_bind. eapply holds_run; [reflexivity |].
    fold (finished (FbString s) b). set (b1 := finished (FbString s) b).
    do 3 table_step. set (b2 := finished _ b1).
    assert (E1 : extends b b1) by apply extends_finished.
    assert (E2 : extends b1 b2) by apply extends_finished.
    pose proof (get_object_finished _ b1 : get_object b2 _ = _) as G2.
    pose proof (get_object_extends b1 b2 _ _ E2 (get_object_finished _ b)) as G1.
    apply HQ; [by etrans |].
    unfold read_dim, read_table, read_string. rewrite Nat2Z.id, G2.
    cbn [mbind option_bind get_field String.eqb Ascii.eqb Bool.eqb].
    by rewrite G1.
  - do 3 table_step. set (b1 := finished _ b).
    pose proof (get_object_finished _ b : get_object b1 _ = _) as G1.
    apply HQ; [apply extends_finished |].
    unfold read_dim, read_table. rewrite Nat2Z.id, G1. done.
Qed.

Lemma mapM_snoc {A C} (f : A → option C) items rs x r :
  mapM f items = Some rs → f x = Some r →
  mapM f (items ++ [x]) = Some (rs ++ [r]).
Proof.
  rewrite !mapM_Some. intros H Hx. apply Forall2_app; [done |].
  by repeat constructor.
Qed.

Lemma holds_write_dims shape acc written b (Q : list Z → Builder → Prop) :
  mapM (read_dim b) acc = Some written →
  (∀ dims b',
     extends b b' → mapM (read_dim b') dims = Some (written ++ shape) →
     Q dims b') →
  holds partial
    (for_fold shape acc (fun acc dim =>
       o ← write_dim dim; mret (acc ++ [Z.of_nat o]))) b Q.
Proof.
  revert acc written b. induction shape as [| dim shape IH];
    intros acc written b Hacc HQ.
  - cbn [for_fold]. apply holds_ret. apply HQ; [done | by rewrite app_nil_r].
  - cbn [for_fold]. apply holds_bind, holds_bind, holds_write_dim.
    intros o b1 E1 Hdim. apply holds_ret.
    apply (IH _ (written ++ [dim])).
    + apply mapM_snoc; [| done].
      eapply (mapM_extends read_dim); [| exact Hacc].
      intros x r. by apply read_dim_extends.
    + intros dims b' E2 Hdims. apply HQ; [by etrans |].
      by rewrite <- app_assoc in Hdims.
Qed.

Lemma read_dims_offsets b dims shape :
  mapM (read_dim b) dims = Some shape →
  Forall (item_ok "offset" (length (objects b))) dims.
Proof.
  rewrite mapM_Some. induction 1 as [| o dim dims shape Hdim _ IH]; [done |].
  constructor; [| exact IH]. unfold read_dim in Hdim.
  destruct (read_table b (Z.to_nat o) "Dim") as [fields |] eqn:E; [| done].
  apply read_table_offset in E. exact E.
Qed.

Lemma holds_build_value_node value b (Q : nat → Builder → Prop) :
  (∀ o b',
     extends b b' →
     read_value_node b' o = Some (ValuePayload (vn_shape value)) →
     Q o b') →
  holds partial (build_value_node value) b Q.
Proof.
  intros HQ. unfold build_value_node. apply holds_bind.
  destruct (vn_shape value) as [shape |].
  - apply holds_bind, (holds_write_dims _ _ []); [done |].
    intros dims b1 E1 Hdims. cbn [app] in Hdims.
    apply holds_bind, holds_write_vec.
    { intros _. by eapply read_dims_offsets. }
    set (b2 := finished (FbVector dims) b1).
    assert (E2 : extends b1 b2) by apply extends_finished.
    apply holds_ret. table_step.
    change (negb (S (length (objects b1)) =? 0)%nat) with true. cbv iota.
    do 2 table_step. set (b3 := finished _ b2).
    assert (E3 : extends b2 b3) by apply extends_finished.
    pose proof (get_object_finished _ b2 : get_object b3 _ = _) as G3.
    pose proof (get_object_extends b2 b3 _ _ E3 (get_object_finished _ b1)) as G2.
    apply HQ; [by repeat (etrans; [eassumption |]) |].
    unfold read_value_node, read_table, read_vector. rewrite G3.
    cbn [mbind option_bind get_field String.eqb Ascii.eqb Bool.eqb].
    rewrite G2. cbn [mbind option_bind].
    rewrite (mapM_extends read_dim b1 b3 dims shape); [done | | done].
    intros x r. apply read_dim_extends. by etrans.
  - apply holds_ret. do 3 table_step. set (b1 := finished _ b).
    pose proof (get_object_finished _ b : get_object b1 _ = _) as G1.
    apply HQ; [apply extends_finished |].
    unfold read_value_node, read_table. by rewrite G1.
Qed.

(** One turn of the loop of [write_graph]. *)
Lemma holds_write_node node node_offsets b (Q : list Z → Builder → Prop) :
  (partial = false → node_serializable sg store node) →
  (∀ o b' serialized,
     extends b b' →
     serialized_node sg store node = Some serialized →
     read_node b' (Z.of_nat o) = Some serialized →
     Q (node_offsets ++ [Z.of_nat o]) b') →
  holds partial
    ('(data_type, data) ←
       match node with
       | NConstant c => d ← build_constant_node c; mret ("ConstantNode", d)
       | NOperator o => d ← build_operator_node sg store o; mret ("OperatorNode", d)
       | NValue v => d ← build_value_node v; mret ("ValueNode", d)
       end;
     name_str ← CreateString (node_name node);
     StartTable;;
     AddField "name" (FbOffset name_str);;
     AddField "data_type" (FbEnum "NodeKind" data_type);;
     AddField "data" (FbOffset data);;
     node_offset ← EndTable "Node";
     mret (node_offsets ++ [Z.of_nat node_offset])) b Q.
Proof.
  intros Hok HQ.
  assert (Hnode : ∀ kind data b1 payload,
    extends b b1 →
    (∀ b', extends b1 b' →
       (if String.eqb kind "ConstantNode" then read_constant_node b' data
        else if String.eqb kind "OperatorNode" then read_operator_node b' data
        else if String.eqb kind "ValueNode" then read_value_node b' data
        else None) = Some payload) →
    serialized_node sg store node
    = Some {| sn_name := node_name node; sn_kind := kind; sn_payload := payload |} →
    holds partial
      (name_str ← CreateString (node_name node);
       StartTable;;
       AddField "name" (FbOffset name_str);;
       AddField "data_type" (FbEnum "NodeKind" kind);;
       AddField "data" (FbOffset data);;
       node_offset ← EndTable "Node";
       mret (node_offsets ++ [Z.of_nat node_offset])) b1 Q).
  { intros kind data b1 payload E1 Hpayload Hser.
    apply holds_bind. eapply holds_run; [reflexivity |].
    fold (finished (FbString (node_name node)) b1).
    set (b2 := finished (FbString (node_name node)) b1).
    do 5 table_step. set (b3 := finished _ b2). apply holds_ret.
    assert (E2 : extends b1 b2) by apply extends_finished.
    assert (E3 : extends b2 b3) by apply extends_finished.
    pose proof (get_object_finished _ b2 : get_object b3 _ = _) as G3.
    pose proof (get_object_extends b2 b3 _ _ E3 (get_object_finished _ b1)) as G2.
    apply (HQ _ _ _ ltac:(by repeat (etrans; [eassumption |])) Hser).
    unfold read_node, read_table, read_string. rewrite Nat2Z.id, G3.
    cbn [mbind option_bind offset_field get_field String.eqb Ascii.eqb Bool.eqb].
    rewrite G2. cbn [mbind option_bind].
    by rewrite (Hpayload b3 ltac:(by etrans)). }
  apply holds_bind. destruct node as [c | o | v]; apply holds_bind.
  - apply holds_build_constant_node; [done |].
    intros data b1 data_type E1 Hdt Hread. apply holds_ret.
    eapply Hnode; [done | |].
    + intros b' E'. by apply (read_constant_node_extends b1).
    + cbn. by rewrite Hdt.
  - apply holds_build_operator_node; [done |].
    intros data b1 attrs_type type E1 Hat Hty Hread. apply holds_ret.
    eapply Hnode; [done | |].
    + intros b' E'. by apply (read_operator_node_extends b1).
    + cbn. by rewrite Hat, Hty.
  - apply holds_build_value_node.
    intros data b1 E1 Hread. apply holds_ret.
    eapply Hnode; [done | |].
    + intros b' E'. by apply (read_value_node_extends b1).
    + done.
Qed.

Lemma holds_write_nodes nodes node_offsets written b
    (Q : list Z → Builder → Prop) :
  mapM (read_node b) node_offsets = Some written →
  (partial = false → Forall (node_serializable sg store) nodes) →
  (∀ offsets b' serialized,
     extends b b' →
     mapM (serialized_node sg store) nodes = Some serialized →
     mapM (read_node b') offsets = Some (written ++ serialized) →
     Q offsets b') →
  holds partial
    (for_fold nodes node_offsets (fun node_offsets node =>
       '(data_type, data) ←
         match node with
         | NConstant c => d ← build_constant_node c; mret ("ConstantNode", d)
         | NOperator o => d ← build_operator_node sg store o; mret ("OperatorNode", d)
         | NValue v => d ← build_value_node v; mret ("ValueNode", d)
         end;
       name_str ← CreateString (node_name node);
       StartTable;;
       AddField "name" (FbOffset name_str);;
       AddField "data_type" (FbEnum "NodeKind" data_type);;
       AddField "data" (FbOffset data);;
       node_offset ← EndTable "Node";
       mret (node_offsets ++ [Z.of_nat node_offset]))) b Q.
Proof.
  revert node_offsets written b.
  induction nodes as [| node nodes IH]; intros node_offsets written b Hacc Hok HQ.
  - cbn [for_fold]. apply holds_ret.
    apply (HQ _ _ []); [done | done | by rewrite app_nil_r].
  - cbn [for_fold]. apply holds_bind, holds_write_node.
    { intros Hp. specialize (Hok Hp). by apply Forall_cons in Hok as [? _]. }
    intros o b1 sn E1 Hser Hread.
    apply (IH _ (written ++ [sn])).
    + apply mapM_snoc; [| done].
      eapply (mapM_extends read_node); [| exact Hacc].
      intros x r. by apply read_node_extends.
    + intros Hp. specialize (Hok Hp). by apply Forall_cons in Hok as [_ ?].
    + intros offsets b' serialized E2 Hsers Hreads.
      apply (HQ _ _ (sn :: serialized)); [by etrans | |].
      * rewrite mapM_Some in Hsers |- *. by constructor.
      * by rewrite <- app_assoc in Hreads.
Qed.

Lemma read_nodes_offsets b offsets serialized :
  mapM (read_node b) offsets = Some serialized →
  Forall (item_ok "offset" (length (objects b))) offsets.
Proof.
  rewrite mapM_Some. induction 1 as [| o sn offsets serialized Hsn _ IH]; [done |].
  constructor; [| exact IH]. unfold read_node in Hsn.
  destruct (read_table b (Z.to_nat o) "Node") as [fields |] eqn:E; [| done].
  apply read_table_offset in E. exact E.
Qed.

(** The whole writer: what it returns reads back as the graph, node by
    node in the order of the list, with the two lists of indexes as they
    are. *)
Lemma holds_write_graph graph b :
  (partial = false → graph_serializable sg store graph) →
  holds partial (write_graph sg store graph) b (fun root b' =>
    ∃ serialized,
      mapM (serialized_node sg store) (graph_nodes graph) = Some serialized
      ∧ read_graph b' root
        = Some {| ser_schema_version := 1;
                  ser_nodes := serialized;
                  ser_inputs := map Z.of_nat (graph_inputs graph);
                  ser_outputs := map Z.of_nat (graph_outputs graph) |}).
Proof.
  intros Hok. unfold write_graph.
  apply holds_bind, (holds_write_nodes _ _ []); [done | |].
  { intros Hp. by destruct (Hok Hp). }
  intros offsets b0 serialized E0 Hsers Hreads. cbn [app] in Hreads.
  apply holds_bind, holds_write_vec.
  { intros _. by eapply read_nodes_offsets. }
  set (b1 := finished (FbVector offsets) b0).
  apply holds_bind, holds_write_vec.
  { intros Hp. by destruct (Hok Hp) as (_ & H & _). }
  set (b2 := finished (FbVector (map Z.of_nat (graph_inputs graph))) b1).
  apply holds_bind, holds_write_vec.
  { intros Hp. by destruct (Hok Hp) as (_ & _ & H). }
  set (b3 := finished (FbVector (map Z.of_nat (graph_outputs graph))) b2).
  do 5 table_step. set (b4 := finished _ b3).
  do 4 table_step. set (b5 := finished _ b4).
  assert (E1 : extends b0 b1) by apply extends_finished.
  assert (E2 : extends b1 b2) by apply extends_finished.
  assert (E3 : extends b2 b3) by apply extends_finished.
  assert (E4 : extends b3 b4) by apply extends_finished.
  assert (E5 : extends b4 b5) by apply extends_finished.
  pose proof (get_object_finished _ b4 : get_object b5 _ = _) as G5.
  pose proof (get_object_extends b4 b5 _ _ E5 (get_object_finished _ b3)) as G4.
  pose proof (get_object_extends b3 b5 _ _ ltac:(by etrans)
                (get_object_finished _ b2)) as G3.
  pose proof (get_object_extends b2 b5 _ _
                ltac:(by repeat (etrans; [eassumption |]))
                (get_object_finished _ b1)) as G2.
  pose proof (get_object_extends b1 b5 _ _
                ltac:(by repeat (etrans; [eassumption |]))
                (get_object_finished _ b0)) as G1.
  exists serialized. split; [done |].
  unfold read_graph, read_table, read_vector. rewrite G5.
  cbn [mbind option_bind offset_field get_field String.eqb Ascii.eqb Bool.eqb].
  rewrite G4.
  cbn [mbind option_bind offset_field get_field String.eqb Ascii.eqb Bool.eqb].
  rewrite G1. cbn [mbind option_bind].
  rewrite (mapM_extends read_node b0 b5 offsets serialized); [| | done].
  - cbn [mbind option_bind]. rewrite G2. cbn [mbind option_bind]. by rewrite G3.
  - intros x r. apply read_node_extends. by repeat (etrans; [eassumption |]).
Qed.

End Nodes.

(** C9.  Whenever [write_graph] returns, the buffer reads back as the
    graph: schema version 1, the nodes in the order of the node list, one
    for one, each with its name, its kind and its payload, and the input
    and output index lists as they are; and it does return for every graph
    whose numbers fit their vectors and whose types the schema has.  The
    references of an operator are written in the order of its lists, an
    absent one as -1 and a present one as its index, which is not negative.
    A value node without a shape is written as a table without fields, one
    with an empty shape as a table whose shape field refers to an empty
    vector. *)
Theorem C9_serialization_preserves_order sg store graph :
  (∀ root b,
     write_graph sg store graph empty_builder = (inr root, b) →
     ∃ serialized,
       mapM (serialized_node sg store) (graph_nodes graph) = Some serialized
       ∧ read_graph b root
         = Some {| ser_schema_version := 1;
                   ser_nodes := serialized;
                   ser_inputs := map Z.of_nat (graph_inputs graph);
                   ser_outputs := map Z.of_nat (graph_outputs graph) |})
  ∧ (graph_serializable sg store graph →
     ∃ root b serialized,
       write_graph sg store graph empty_builder = (inr root, b)
       ∧ mapM (serialized_node sg store) (graph_nodes graph) = Some serialized
       ∧ read_graph b root
         = Some {| ser_schema_version := 1;
                   ser_nodes := serialized;
                   ser_inputs := map Z.of_nat (graph_inputs graph);
                   ser_outputs := map Z.of_nat (graph_outputs graph) |})
  ∧ (∀ serialized,
       mapM (serialized_node sg store) (graph_nodes graph) = Some serialized →
       length serialized = length (graph_nodes graph)
       ∧ map sn_name serialized = map node_name (graph_nodes graph)
       ∧ ∀ i node, graph_nodes graph !! i = Some node →
           ∃ sn, serialized !! i = Some sn
                 ∧ serialized_node sg store node = Some sn)
  ∧ (∀ operator sn,
       serialized_node sg store (NOperator operator) = Some sn →
       ∃ type attrs_type,
         sn_payload sn
         = OperatorPayload type attrs_type (on_attrs operator)
             (map node_id (default [] (store !! on_inputs operator)))
             (map node_id (on_outputs operator)))
  ∧ node_id None = -1
  ∧ (∀ id, node_id (Some id) = Z.of_nat id ∧ node_id (Some id) ≠ node_id None)
  ∧ (∀ name b,
       build_value_node {| vn_name := name; vn_shape := None |} b
       = (inr (S (length (objects b))), finished (FbTable "ValueNode" []) b))
  ∧ (∀ name b,
       build_value_node {| vn_name := name; vn_shape := Some [] |} b
       = (inr (S (length (objects (finished (FbVector []) b)))),
          finished (FbTable "ValueNode"
                      [("shape", FbOffset (S (length (objects b))))])
            (finished (FbVector []) b))).
Proof.
  split_and!.
  - intros root b Hrun.
    pose proof (holds_write_graph true sg store graph empty_builder
                  ltac:(discriminate)) as H.
    unfold holds in H. by rewrite Hrun in H.
  - intros Hok.
    pose proof (holds_write_graph false sg store graph empty_builder
                  (fun _ => Hok)) as H.
    unfold holds in H.
    destruct (write_graph sg store graph empty_builder) as [[e | root] b];
      [discriminate |].
    destruct H as (serialized & H1 & H2). by exists root, b, serialized.
  - intros serialized H. rewrite mapM_Some in H. split_and!.
    + symmetry. by eapply Forall2_length.
    + induction H as [| node sn nodes sns Hsn _ IH]; [done |]. cbn. f_equal.
      * destruct node as [c | o | v]; cbn in Hsn.
        -- destruct (constant_data_type _); [| done]. by injection Hsn as <-.
        -- destruct (operator_attrs_type _ _); [| done]. cbn in Hsn.
           destruct (getattr _ _); [| done]. by injection Hsn as <-.
        -- by injection Hsn as <-.
      * exact IH.
    + intros i node Hi.
      destruct (Forall2_lookup_l _ _ _ _ _ H Hi) as (sn & Hsn & Hser). eauto.
  - intros operator sn Hsn. cbn in Hsn.
    destruct (operator_attrs_type _ _) as [attrs_type |]; [| done]. cbn in Hsn.
    destruct (getattr _ _) as [type |]; [| done]. injection Hsn as <-. eauto.
  - done.
  - intros id. split; [done |]. cbn. lia.
  - done.
  - done.
Qed.

Lemma C9_witness :
  graph_serializable sample_schema sample_store sample_graph
  ∧ ∃ root b serialized,
      write_graph sample_schema sample_store sample_graph empty_builder
      = (inr root, b)
      ∧ mapM (serialized_node sample_schema sample_store)
          (graph_nodes sample_graph) = Some serialized
      ∧ read_graph b root
        = Some {| ser_schema_version := 1;
                  ser_nodes := serialized;
                  ser_inputs := map Z.of_nat (graph_inputs sample_graph);
                  ser_outputs := map Z.of_nat (graph_outputs sample_graph) |}.
Proof.
  assert (H : graph_serializable sample_schema sample_store sample_graph).
  { split_and!; repeat constructor; try (by eexists); try (cbn; lia). }
  split; [exact H |].
  exact (proj1 (proj2 (C9_serialization_preserves_order sample_schema
                         sample_store sample_graph)) H).
Defined.

(** The sample graph, written and read back: the four nodes in their
    order, the absent input of the operator as -1, and the two value
    nodes told apart by their shapes. *)
Example sample_graph_round_trip :
  ∃ root b,
    write_graph sample_schema sample_store sample_graph empty_builder
    = (inr root, b)
    ∧ read_graph b root
      = Some {| ser_schema_version := 1;
                ser_nodes :=
                  [{| sn_name := "x"; sn_kind := "ValueNode";
                      sn_payload := ValuePayload None |};
                   {| sn_name := "y"; sn_kind := "ValueNode";
                      sn_payload := ValuePayload (Some []) |};
                   {| sn_name := "hi"; sn_kind := "ConstantNode";
                      sn_payload := ConstantPayload [] "FloatData"
                                      (FloatData [6%float]) |};
                   {| sn_name := "clip"; sn_kind := "OperatorNode";
                      sn_payload :=
                        OperatorPayload 6 (FbEnum "OperatorAttrs" "NONE")
                          PyNone [0; -1; 2] [1] |}];
                ser_inputs := [0];
                ser_outputs := [1] |}.
Proof. vm_compute. eexists _, _. split; reflexivity. Qed.

(** * Further properties of the converter *)

(** ** The name-to-index map and the node list agree *)

(** [tensor_map] holds exactly the names of the nodes, each with the index
    of its node. *)
Definition indexed (s : State) : Prop :=
  ∀ name i,
    tensor_map s !! name = Some i
    ↔ ∃ n, nodes s !! i = Some n ∧ node_name n = name.

Definition keeps_indexed (s s' : State) : Prop := indexed s → indexed s'.

#[global] Instance keeps_indexed_preorder : PreOrder keeps_indexed.
Proof.
  split.
  - intros s H. exact H.
  - intros s1 s2 s3 H1 H2 H. apply H2, H1, H.
Qed.

Lemma indexed_reset s : indexed (reset_graph s).
Proof.
  intros name i. cbn. rewrite lookup_empty. split; [done |].
  intros (n & H & _). by rewrite lookup_nil in H.
Qed.

Lemma indexed_register node s :
  tensor_map s !! node_name node = None → indexed s → indexed (register node s).
Proof.
  intros Hfresh Hs name i. cbn. split.
  - intros H. destruct (decide (node_name node = name)) as [<- | Hne].
    + rewrite lookup_insert_eq in H. injection H as <-.
      exists node. split; [| done].
      by rewrite lookup_app_r, Nat.sub_diag by lia.
    + rewrite lookup_insert_ne in H by done.
      apply Hs in H as (n & Hn & Hname). exists n. split; [| done].
      by apply lookup_app_l_Some.
  - intros (n & Hn & Hname).
    destruct (decide (i < length (nodes s))%nat) as [Hlt | Hge].
    + rewrite lookup_app_l in Hn by done.
      assert (Hi : tensor_map s !! name = Some i) by (apply Hs; eauto).
      rewrite lookup_insert_ne; [done |]. intros E. congruence.
    + rewrite lookup_app_r in Hn by lia.
      destruct (i - length (nodes s))%nat as [| k] eqn:Ek; [| done].
      injection Hn as <-. rewrite Hname, lookup_insert_eq. f_equal. lia.
Qed.

Lemma keeps_indexed_same {A} (m : M A) :
  (∀ s, nodes (m s).2 = nodes s ∧ tensor_map (m s).2 = tensor_map s) →
  steps keeps_indexed m.
Proof.
  intros H s. destruct (H s) as [H1 H2]. split; [| done].
  unfold keeps_indexed, indexed. by rewrite H1, H2.
Qed.

Lemma keeps_indexed_effects :
  effects keeps_indexed (fun _ => True) (fun _ => True).
Proof.
  split; try done;
    try (intros; apply keeps_indexed_same; intros ?;
         unfold warn_once, print_stderr, set_add, list_append, list_setitem,
           new_list, new_set, modify, read_list, gets;
         rewrite ?run_bind; cbn; repeat case_match; done).
  intros n _ s. split; [| done].
  destruct (add_node_cases n s) as [[_ ->] | [H ->]]; cbn; [by intros ? |].
  intros Hs. by apply indexed_register.
Qed.

(** The builder keeps the agreement, whatever the model. *)
Lemma indexed_graph_from_onnx_graph sg g s :
  indexed (graph_from_onnx_graph sg g s).2.
Proof.
  assert (Hs : steps keeps_indexed (graph_from_onnx_graph sg g)).
  { apply (steps_graph_from_onnx_graph _ _ _ keeps_indexed_effects); [done |].
    intros s0. split; [| done]. intros _. apply indexed_reset. }
  rewrite graph_from_onnx_graph_reset.
  destruct (Hs (reset_graph s)) as [H _]. apply H, indexed_reset.
Qed.

Lemma indexed_NoDup s : indexed s → NoDup (map node_name (nodes s)).
Proof.
  intros Hs. apply NoDup_alt. intros i j name Hi Hj.
  rewrite list_lookup_fmap in Hi, Hj.
  destruct (nodes s !! i) as [n |] eqn:Ei; [| done].
  destruct (nodes s !! j) as [m |] eqn:Ej; [| done].
  cbn in Hi, Hj. injection Hi as Hi. injection Hj as Hj.
  assert (H1 : tensor_map s !! name = Some i) by (apply Hs; eauto).
  assert (H2 : tensor_map s !! name = Some j) by (apply Hs; eauto).
  congruence.
Qed.

(** [lookup_all] reads the map and changes nothing; it fails at the first
    name that is not registered. *)
Lemma lookup_all_from infos acc s :
  let run := for_fold infos acc (fun acc info =>
               tm ← gets tensor_map;
               match tm !! value_name info with
               | Some index => mret (acc ++ [index])
               | None => raise (KeyError (value_name info))
               end) s in
  run.2 = s
  ∧ match run.1 with
    | inr l =>
        ∃ found, l = acc ++ found
                 ∧ Forall2 (fun info i => tensor_map s !! value_name info = Some i)
                     infos found
    | inl ex =>
        ∃ info, info ∈ infos ∧ tensor_map s !! value_name info = None
                ∧ ex = KeyError (value_name info)
    end.
Proof.
  cbv zeta. revert acc. induction infos as [| info infos IH]; intros acc.
  - cbn. split; [done |]. exists []. by rewrite app_nil_r.
  - cbn [for_fold]. rewrite run_bind, run_bind. cbn [gets].
    destruct (tensor_map s !! value_name info) as [i |] eqn:Ei; cbn.
    + destruct (IH (acc ++ [i])) as [H1 H2]. split; [done |].
      destruct (for_fold infos (acc ++ [i]) _ s).1 as [ex | l].
      * destruct H2 as (info' & Hin & Hnone & ->). exists info'.
        split; [by apply list_elem_of_further | done].
      * destruct H2 as (found & -> & Hall). exists (i :: found).
        split; [by rewrite <- app_assoc | by constructor].
    + split; [done |]. exists info. split; [apply list_elem_of_here | done].
Qed.

Lemma lookup_all_run infos s :
  (lookup_all infos s).2 = s
  ∧ match (lookup_all infos s).1 with
    | inr l => Forall2 (fun info i => tensor_map s !! value_name info = Some i)
                 infos l
    | inl ex =>
        ∃ info, info ∈ infos ∧ tensor_map s !! value_name info = None
                ∧ ex = KeyError (value_name info)
    end.
Proof.
  destruct (lookup_all_from infos [] s) as [H1 H2]. split; [exact H1 |].
  unfold lookup_all. destruct (for_fold infos [] _ s).1 as [ex | l]; [done |].
  by destruct H2 as (found & -> & H).
Qed.

(** What a run that returns has looked up. *)
Lemma graph_from_onnx_graph_lookups sg g s graph s' :
  graph_from_onnx_graph sg g s = (inr graph, s') →
  graph_nodes graph = nodes s'
  ∧ Forall2 (fun info i => tensor_map s' !! value_name info = Some i)
      (g_input g) (graph_inputs graph)
  ∧ Forall2 (fun info i => tensor_map s' !! value_name info = Some i)
      (g_output g) (graph_outputs graph).
Proof.
  unfold graph_from_onnx_graph. cbv zeta. intros H.
  do 6 (apply bind_returns in H as (? & ? & _ & H)).
  apply bind_returns in H as (? & s0 & _ & H).
  apply bind_returns in H as (ins & s1 & Hins & H).
  apply bind_returns in H as (outs & s2 & Houts & H).
  apply bind_returns in H as (ns & s3 & Hn & H).
  cbn in H, Hn. injection H as <- <-. injection Hn as <- <-.
  destruct (lookup_all_run (g_input g) s0) as [E1 F1]. rewrite Hins in E1, F1.
  destruct (lookup_all_run (g_output g) s1) as [E2 F2]. rewrite Houts in E2, F2.
  cbn in E1, E2, F1, F2. subst. done.
Qed.

(** X1.  In every graph the builder returns the node names are pairwise
    distinct, and the entries of [inputs] and [outputs] are, in the order of
    the model, the indexes of the nodes with the names of the model's inputs
    and outputs. *)
Theorem graph_names_resolve sg g s graph s' :
  graph_from_onnx_graph sg g s = (inr graph, s') →
  NoDup (map node_name (graph_nodes graph))
  ∧ Forall2 (fun info i => ∃ n, graph_nodes graph !! i = Some n
                                ∧ node_name n = value_name info)
      (g_input g) (graph_inputs graph)
  ∧ Forall2 (fun info i => ∃ n, graph_nodes graph !! i = Some n
                                ∧ node_name n = value_name info)
      (g_output g) (graph_outputs graph).
Proof.
  intros Hrun.
  pose proof (indexed_graph_from_onnx_graph sg g s) as Hs. rewrite Hrun in Hs.
  cbn in Hs.
  destruct (graph_from_onnx_graph_lookups _ _ _ _ _ Hrun) as (-> & Hin & Hout).
  split_and!.
  - by apply indexed_NoDup.
  - eapply Forall2_impl; [exact Hin |]. intros info i H. by apply Hs.
  - eapply Forall2_impl; [exact Hout |]. intros info i H. by apply Hs.
Qed.

Lemma graph_names_resolve_witness :
  ∃ graph s',
    graph_from_onnx_graph sample_schema small_model initial_state = (inr graph, s')
    ∧ graph_inputs graph = [1%nat; 0%nat]
    ∧ NoDup (map node_name (graph_nodes graph)).
Proof.
  destruct (graph_from_onnx_graph sample_schema small_model initial_state)
    as [[e | graph] s'] eqn:Hrun; [vm_compute in Hrun; discriminate |].
  exists graph, s'. split; [done |]. split.
  - vm_compute in Hrun. by injection Hrun as <- _.
  - exact (proj1 (graph_names_resolve _ _ _ _ _ Hrun)).
Defined.

(** ** The order of the nodes *)

(** The normalizer registers nothing. *)
Lemma steps_constant_node_nodes tensor op_name s :
  nodes (constant_node_from_onnx_initializer tensor op_name s).2 = nodes s.
Proof.
  unfold constant_node_from_onnx_initializer. cbv zeta.
  rewrite run_bind, run_lift.
  destruct (to_array tensor) as [ex | a]; [done |]. rewrite run_bind.
  assert (H : ∀ (vals : list Z) s0,
    nodes (for_each vals (fun val => warn_once (clamp_warning val)) s0).2
    = nodes s0).
  { induction vals as [| v vals IH]; intros s0; [done |].
    cbn [for_each]. rewrite run_bind. unfold warn_once at 1.
    case_bool_decide; [apply IH |]. by rewrite IH. }
  destruct (arr_dtype a); cbn; try done.
  rewrite run_bind.
  specialize (H (out_of_range_values a) s).
  by destruct (for_each _ _ s) as [[e | []] s1].
Qed.

(** A pass of the initializer loop that counts no error has appended one
    constant node per tensor, in the order of the tensors. *)
Lemma convert_initializers_clean tensors errors s s' :
  convert_initializers tensors errors s = (inr errors, s') →
  ∃ constants,
    nodes s' = nodes s ++ map NConstant constants
    ∧ Forall2 (fun tensor c => cn_name c = tensor_name tensor
                               ∧ cn_shape c = tensor_dims tensor)
        tensors constants.
Proof.
  revert errors s. induction tensors as [| t tensors IH]; intros errors s Hrun.
  { injection Hrun as <-. exists []. by rewrite app_nil_r. }
  unfold convert_initializers in Hrun. cbn [for_fold] in Hrun.
  apply bind_returns in Hrun as (e1 & s1 & Hbody & Hrest).
  fold (convert_initializers tensors e1) in Hrest.
  destruct (convert_initializers_total tensors e1 s1) as (e2 & s2 & E2 & Hle).
  rewrite E2 in Hrest. injection Hrest as -> ->.
  unfold try_except in Hbody. rewrite run_bind in Hbody.
  pose proof (spec_constant_node_from_onnx_initializer graph_grows _ _
                graph_grows_effects t None s) as [_ Hc].
  destruct (constant_node_from_onnx_initializer t None s) as [[ex | c] s0] eqn:Ec.
  - destruct (total_warn_once (initializer_error ex) s0) as ([] & s3 & E3).
    rewrite (run_bind_inr _ _ _ _ _ E3) in Hbody. injection Hbody as <- <-. lia.
  - destruct (Hc c eq_refl) as (_ & data & Hinit).
    apply ConstantNode__init__ok in Hinit as [Hname _].
    assert (Hnodes : nodes s0 = nodes s).
    { pose proof (steps_constant_node_nodes t None s) as H.
      by rewrite Ec in H. }
    rewrite run_bind in Hbody.
    destruct (add_node_cases (NConstant c) s0) as [[_ Ha] | [Hfresh Ha]];
      rewrite Ha in Hbody.
    + destruct (total_warn_once (initializer_error
                  (DuplicateNodeName (node_name (NConstant c)))) s0)
        as ([] & s3 & E3).
      rewrite (run_bind_inr _ _ _ _ _ E3) in Hbody. injection Hbody as <- <-. lia.
    + injection Hbody as <- <-.
      destruct (IH _ _ E2) as (constants & Hn & Hall).
      exists (c :: constants). split.
      * rewrite Hn. cbn. rewrite Hnodes, <- app_assoc. done.
      * constructor; [by subst c | done].
Qed.

(** The phases of a run that returns: no loop has counted an error. *)
Lemma graph_from_onnx_graph_phases sg g s graph s' :
  graph_from_onnx_graph sg g s = (inr graph, s') →
  ∃ s1 s2 s3,
    convert_initializers (g_initializer g) 0 (reset_graph s) = (inr 0%nat, s1)
    ∧ convert_constant_ops (g_node g) 0 s1 = (inr 0%nat, s2)
    ∧ register_inputs (g_input g) s2 = (inr tt, s3)
    ∧ convert_operators sg (g_node g) 0 s3 = (inr 0%nat, s').
Proof.
  intros Hrun.
  destruct (graph_from_onnx_graph_lookups _ _ _ _ _ Hrun) as (Hnodes & _ & _).
  unfold graph_from_onnx_graph in Hrun. cbv zeta in Hrun.
  apply bind_returns in Hrun as ([] & s0 & Hreset & H).
  cbn in Hreset. injection Hreset as <-.
  apply bind_returns in H as (e1 & s1 & E1 & H).
  apply bind_returns in H as (e2 & s2 & E2 & H).
  apply bind_returns in H as ([] & s2' & Hcheck & H).
  destruct (0 <? e2)%nat eqn:He2; [discriminate |]. injection Hcheck as <-.
  apply Nat.ltb_ge in He2.
  destruct (convert_constant_ops_total (g_node g) e1 s1) as (e2' & s2' & E2' & Hle).
  rewrite E2 in E2'. injection E2' as <- <-.
  assert (e2 = 0%nat) as -> by lia. assert (e1 = 0%nat) as -> by lia.
  apply bind_returns in H as ([] & s3 & E3 & H).
  apply bind_returns in H as (e4 & s4 & E4 & H).
  apply bind_returns in H as ([] & s4' & Hcheck & H).
  destruct (0 <? e4)%nat eqn:He4; [discriminate |]. injection Hcheck as <-.
  apply Nat.ltb_ge in He4. assert (e4 = 0%nat) as -> by lia.
  apply bind_returns in H as (ins & s5 & Hins & H).
  apply bind_returns in H as (outs & s6 & Houts & H).
  apply bind_returns in H as (ns & s7 & Hn & H).
  cbn in H, Hn. injection H as <- <-. injection Hn as <- <-.
  pose proof (proj1 (lookup_all_run (g_input g) s4)) as F1. rewrite Hins in F1.
  pose proof (proj1 (lookup_all_run (g_output g) s5)) as F2. rewrite Houts in F2.
  cbn in F1, F2. subst. by exists s1, s2, s3.
Qed.

(** Each phase only appends nodes and adds names. *)
Lemma graph_from_onnx_graph_grows sg g s graph s' :
  graph_from_onnx_graph sg g s = (inr graph, s') →
  ∃ s1 s2 s3,
    convert_initializers (g_initializer g) 0 (reset_graph s) = (inr 0%nat, s1)
    ∧ convert_constant_ops (g_node g) 0 s1 = (inr 0%nat, s2)
    ∧ register_inputs (g_input g) s2 = (inr tt, s3)
    ∧ convert_operators sg (g_node g) 0 s3 = (inr 0%nat, s')
    ∧ graph_grows s1 s2 ∧ graph_grows s2 s3 ∧ graph_grows s3 s'.
Proof.
  intros Hrun.
  destruct (graph_from_onnx_graph_phases _ _ _ _ _ Hrun)
    as (s1 & s2 & s3 & E1 & E2 & E3 & E4).
  exists s1, s2, s3. split_and!; try done.
  - pose proof (steps_convert_constant_ops graph_grows _ _ graph_grows_effects
                  (g_node g) 0%nat s1) as [G _]. by rewrite E2 in G.
  - pose proof (steps_register_inputs graph_grows _ _ graph_grows_effects
                  (g_input g) s2) as [G _]. by rewrite E3 in G.
  - pose proof (steps_convert_operators graph_grows _ _ graph_grows_effects
                  (fun _ => I) sg (g_node g) 0%nat s3) as [G _]. by rewrite E4 in G.
Qed.

(** The constants of the initializers, at the head of the final node list. *)
Lemma initializers_registered sg g s graph s' :
  graph_from_onnx_graph sg g s = (inr graph, s') →
  ∃ constants rest,
    nodes s' = map NConstant constants ++ rest
    ∧ Forall2 (fun tensor c => cn_name c = tensor_name tensor
                               ∧ cn_shape c = tensor_dims tensor)
        (g_initializer g) constants.
Proof.
  intros Hrun.
  destruct (graph_from_onnx_graph_grows _ _ _ _ _ Hrun)
    as (s1 & s2 & s3 & E1 & _ & _ & _ & G2 & G3 & G4).
  destruct (convert_initializers_clean _ _ _ _ E1) as (constants & Hn & Hall).
  cbn in Hn.
  assert (Hgrows : graph_grows s1 s') by (by repeat (etrans; [eassumption |])).
  destruct Hgrows as [[rest Hrest] _].
  exists constants, rest. split; [| done]. by rewrite Hrest, Hn.
Qed.

(** X2.  An initializer shadows a graph input of its name: the entry of
    [inputs] for such an input is the index of the initializer's constant
    node, its position among the initializers. *)
Theorem initializer_shadows_input sg g s graph s' j tensor k info :
  graph_from_onnx_graph sg g s = (inr graph, s') →
  g_initializer g !! j = Some tensor →
  g_input g !! k = Some info →
  value_name info = tensor_name tensor →
  graph_inputs graph !! k = Some j
  ∧ ∃ c, graph_nodes graph !! j = Some (NConstant c)
         ∧ cn_name c = tensor_name tensor.
Proof.
  intros Hrun Hj Hk Hname.
  destruct (initializers_registered _ _ _ _ _ Hrun)
    as (constants & rest & Hnodes & Hall).
  destruct (graph_from_onnx_graph_lookups _ _ _ _ _ Hrun) as (-> & Hin & _).
  pose proof (indexed_graph_from_onnx_graph sg g s) as Hs'.
  rewrite Hrun in Hs'. cbn [snd] in Hs'.
  destruct (Forall2_lookup_l _ _ _ _ _ Hall Hj) as (c & Hc & Hcname & _).
  assert (Hnode : nodes s' !! j = Some (NConstant c)).
  { rewrite Hnodes. apply lookup_app_l_Some. by rewrite list_lookup_fmap, Hc. }
  destruct (Forall2_lookup_l _ _ _ _ _ Hin Hk) as (i & Hi & Htm).
  split; [| by exists c].
  rewrite Hi. f_equal.
  assert (Hj' : tensor_map s' !! value_name info = Some j).
  { apply Hs'. exists (NConstant c). split; [done |]. cbn. by rewrite Hcname. }
  congruence.
Qed.

Lemma initializer_shadows_input_witness :
  ∃ graph s',
    graph_from_onnx_graph sample_schema small_model initial_state = (inr graph, s')
    ∧ graph_inputs graph !! 1%nat = Some 0%nat.
Proof.
  destruct (graph_from_onnx_graph sample_schema small_model initial_state)
    as [[e | graph] s'] eqn:Hrun; [vm_compute in Hrun; discriminate |].
  exists graph, s'. split; [done |].
  exact (proj1 (initializer_shadows_input sample_schema small_model initial_state
                  graph s' 0%nat
                  (mk_tensor "w" [2] float32 (FloatData [1%float; 2%float]))
                  1%nat (mk_value "w") Hrun eq_refl eq_refl eq_refl)).
Defined.

(** ** How a run can fail *)

Lemma register_outputs_raises outputs s ex s' :
  for_each outputs (fun output_name =>
    add_node (NValue {| vn_name := output_name; vn_shape := None |});;
    mret tt) s = (inl ex, s') →
  ∃ name, name ∈ outputs ∧ ex = DuplicateNodeName name.
Proof.
  revert s. induction outputs as [| o outputs IH]; intros s H; [discriminate |].
  cbn [for_each] in H. rewrite run_bind, run_bind in H.
  destruct (add_node_cases (NValue {| vn_name := o; vn_shape := None |}) s)
    as [[_ Ha] | [_ Ha]]; rewrite Ha in H.
  - injection H as <- <-. exists o. split; [apply list_elem_of_here | done].
  - cbn in H. apply IH in H as (name & Hin & ->). exists name.
    split; [by apply list_elem_of_further | done].
Qed.

(** The operator loop raises only when an output name is taken: every
    failure of a translation is caught and counted. *)
Lemma convert_operators_raises sg operators errors s ex s' :
  convert_operators sg operators errors s = (inl ex, s') →
  ∃ operator name,
    operator ∈ operators ∧ proto_op_type operator ≠ "Constant"
    ∧ name ∈ proto_output operator ∧ ex = DuplicateNodeName name.
Proof.
  revert errors s. induction operators as [| op operators IH]; intros errors s H;
    [discriminate |].
  unfold convert_operators in H. cbn [for_fold] in H. rewrite run_bind in H.
  destruct (String.eqb_spec (proto_op_type op) "Constant") as [Hc | Hc].
  - cbn [mret SE_ret ret] in H. apply IH in H as (o & name & Hin & ?).
    exists o, name. split; [by apply list_elem_of_further | done].
  - rewrite run_bind in H.
    destruct (for_each (proto_output op) _ s) as [[ex0 | []] s0] eqn:Eout.
    + injection H as <- <-.
      apply register_outputs_raises in Eout as (name & Hin & ->).
      exists op, name. split; [apply list_elem_of_here | done].
    + unfold try_except in H.
      destruct ((op_node ← op_node_from_onnx_operator sg op add_node;
                 add_node (NOperator op_node);; mret errors) s0)
        as [[ex1 | e1] s1].
      * rewrite run_bind in H. cbn in H.
        apply IH in H as (o & name & Hin & ?).
        exists o, name. split; [by apply list_elem_of_further | done].
      * apply IH in H as (o & name & Hin & ?).
        exists o, name. split; [by apply list_elem_of_further | done].
Qed.

(** After the input loop every input name is registered. *)
Lemma register_inputs_registered values s s' value :
  register_inputs values s = (inr tt, s') →
  value ∈ values → is_Some (tensor_map s' !! value_name value).
Proof.
  revert s. induction values as [| v values IH]; intros s Hrun Hin.
  { by apply elem_of_nil in Hin. }
  unfold register_inputs in Hrun. cbn [for_each] in Hrun.
  apply bind_returns in Hrun as ([] & s1 & Hbody & Hrest).
  fold (register_inputs values) in Hrest.
  apply elem_of_cons in Hin as [-> | Hin]; [| by eapply IH].
  pose proof (steps_register_inputs graph_grows _ _ graph_grows_effects
                values s1) as [G _]. rewrite Hrest in G. cbn in G.
  eapply registered_grows; [exact G |].
  rewrite run_bind in Hbody. cbn [gets] in Hbody.
  destruct (tensor_map s !! value_name v) as [i |] eqn:Ei.
  - injection Hbody as <-. by exists i.
  - rewrite run_bind in Hbody. unfold add_node in Hbody.
    change (node_name (NValue (value_node_from_onnx_value v)))
      with (value_name v) in Hbody.
    rewrite Ei in Hbody. injection Hbody as <-. cbn.
    rewrite lookup_insert_eq. by eexists.
Qed.

(** X3.  A run of the builder that fails fails in one of four ways: the two
    constant loops have counted errors; an output name of an operator is
    already registered; the operator loop has counted errors; or a graph
    output names no node.  No other exception leaves the builder. *)
Theorem graph_from_onnx_graph_failures sg g s ex s' :
  graph_from_onnx_graph sg g s = (inl ex, s') →
  (∃ n, (0 < n)%nat ∧ ex = ConversionFailed n "constants")
  ∨ (∃ operator name,
       operator ∈ g_node g ∧ proto_op_type operator ≠ "Constant"
       ∧ name ∈ proto_output operator ∧ ex = DuplicateNodeName name)
  ∨ (∃ n, (0 < n)%nat ∧ ex = ConversionFailed n "operators")
  ∨ (∃ info, info ∈ g_output g ∧ ex = KeyError (value_name info)).
Proof.
  intros Hrun. unfold graph_from_onnx_graph in Hrun. cbv zeta in Hrun.
  rewrite run_bind in Hrun. cbn [modify] in Hrun.
  destruct (convert_initializers_total (g_initializer g) 0 (reset_graph s))
    as (e1 & s1 & E1 & _).
  rewrite (run_bind_inr _ _ _ _ _ E1) in Hrun.
  destruct (convert_constant_ops_total (g_node g) e1 s1) as (e2 & s2 & E2 & _).
  rewrite (run_bind_inr _ _ _ _ _ E2) in Hrun.
  rewrite run_bind in Hrun.
  destruct (Nat.ltb_spec 0 e2) as [Hpos | Hzero].
  { injection Hrun as <- <-. left. by exists e2. }
  cbn [mret SE_ret ret] in Hrun.
  destruct (register_inputs_total (g_input g) s2) as ([] & s3 & E3).
  rewrite (run_bind_inr _ _ _ _ _ E3) in Hrun. rewrite run_bind in Hrun.
  destruct (convert_operators sg (g_node g) e2 s3) as [[ex4 | e4] s4] eqn:E4.
  { injection Hrun as <- <-. right; left.
    by apply convert_operators_raises in E4. }
  rewrite run_bind in Hrun.
  destruct (Nat.ltb_spec 0 e4) as [Hpos | Hzero4].
  { injection Hrun as <- <-. right; right; left. by exists e4. }
  cbn [mret SE_ret ret] in Hrun. rewrite run_bind in Hrun.
  destruct (lookup_all_run (g_input g) s4) as [F1 F1'].
  destruct (lookup_all (g_input g) s4) as [[ex5 | ins] s5]; cbn in F1, F1'; subst s5.
  { exfalso. destruct F1' as (info & Hin & Hnone & _).
    assert (Hreg : is_Some (tensor_map s4 !! value_name info)).
    { eapply registered_grows; [| by eapply register_inputs_registered].
      pose proof (steps_convert_operators graph_grows _ _ graph_grows_effects
                    (fun _ => I) sg (g_node g) e2 s3) as [G _].
      by rewrite E4 in G. }
    destruct Hreg as [i Hi]. congruence. }
  rewrite run_bind in Hrun.
  destruct (lookup_all_run (g_output g) s4) as [F2 F2'].
  destruct (lookup_all (g_output g) s4) as [[ex6 | outs] s6]; cbn in F2, F2'; subst s6.
  { injection Hrun as <- <-. right; right; right.
    destruct F2' as (info & Hin & _ & ->). by exists info. }
  discriminate.
Qed.

Lemma graph_from_onnx_graph_failures_witness :
  (∃ n, (0 < n)%nat ∧ DuplicateNodeName "x" = ConversionFailed n "constants")
  ∨ (∃ operator name,
       operator ∈ g_node duplicate_model ∧ proto_op_type operator ≠ "Constant"
       ∧ name ∈ proto_output operator
       ∧ DuplicateNodeName "x" = DuplicateNodeName name)
  ∨ (∃ n, (0 < n)%nat ∧ DuplicateNodeName "x" = ConversionFailed n "operators")
  ∨ (∃ info, info ∈ g_output duplicate_model
             ∧ DuplicateNodeName "x" = KeyError (value_name info)).
Proof.
  apply (graph_from_onnx_graph_failures sample_schema duplicate_model
           initial_state (DuplicateNodeName "x")
           (graph_from_onnx_graph sample_schema duplicate_model initial_state).2).
  vm_compute. reflexivity.
Defined.

(** ** The attribute reader's contract *)

#[global] Instance AttributeType_eq_dec : EqDecision AttributeType.
Proof. solve_decision. Defined.

Lemma lookup_attr_mismatch attrs name expected_type code default attr :
  find_attr attrs name = Some attr →
  attr_type attr ≠ code →
  lookup_attr attrs name expected_type code default
  = inl (AttributeTypeMismatch name expected_type).
Proof.
  intros Hfind Hty. induction attrs as [| a attrs IH]; [discriminate |].
  cbn in Hfind |- *. destruct (String.eqb (attr_name a) name).
  - injection Hfind as ->.
    replace (AttributeType_eqb (attr_type attr) code) with false; [done |].
    symmetry. destruct (attr_type attr), code; done.
  - by apply IH.
Qed.

Lemma lookup_attr_value attrs name expected_type code default attr :
  find_attr attrs name = Some attr →
  attr_type attr = code →
  lookup_attr attrs name expected_type code default
  = (val ← value_fields code attr;
     if String.eqb expected_type "string" then decode val else inr val).
Proof.
  intros Hfind Hty. induction attrs as [| a attrs IH]; [discriminate |].
  cbn in Hfind |- *. destruct (String.eqb (attr_name a) name).
  - injection Hfind as ->. rewrite Hty.
    by replace (AttributeType_eqb code code) with true by (by destruct code).
  - by apply IH.
Qed.

(** X4.  [get_attr]: the first attribute of the name decides.  Without one
    the default is returned; one of another type than the expected one is a
    type mismatch; one of the expected type yields its value field, or the
    failure of the lookup of the field for a type without one.  When a
    string is expected the bytes are decoded: well-formed UTF-8 yields the
    string, anything else raises UnicodeDecodeError.  Whatever the outcome,
    the name is marked as handled and nothing else changes. *)
Theorem get_attr_contract self name expected_type default s code :
  AttributeProto_getattr (upper expected_type) = inr code →
  (get_attr self name expected_type default s).2 = mark_handled self name s
  ∧ (find_attr (proto_attribute (onnx_op self)) name = None →
     (get_attr self name expected_type default s).1 = inr default)
  ∧ (∀ attr,
       find_attr (proto_attribute (onnx_op self)) name = Some attr →
       attr_type attr ≠ code →
       (get_attr self name expected_type default s).1
       = inl (AttributeTypeMismatch name expected_type))
  ∧ (∀ attr,
       find_attr (proto_attribute (onnx_op self)) name = Some attr →
       attr_type attr = code →
       (get_attr self name expected_type default s).1
       = match code with
         | FLOAT => inr (PyFloat (attr_f attr))
         | INT => inr (PyInt (attr_i attr))
         | INTS => inr (PyInts (attr_ints attr))
         | STRING => if String.eqb expected_type "string"
                     then if utf8_valid (attr_s attr)
                          then inr (PyStr (attr_s attr))
                          else inl (UnicodeDecodeError (attr_s attr))
                     else inr (PyBytes (attr_s attr))
         | TENSOR => inr (PyTensor (attr_t attr))
         | _ => inl (KeyError (str_of_Z (AttributeType_code code)))
         end).
Proof.
  intros Hcode. rewrite (run_get_attr _ _ _ _ _ _ Hcode). cbn [fst snd].
  split_and!.
  - done.
  - apply lookup_attr_absent.
  - intros attr Hfind Hty. by apply (lookup_attr_mismatch _ _ _ _ _ attr).
  - intros attr Hfind Hty. rewrite (lookup_attr_value _ _ _ _ _ attr) by done.
    destruct (String.eqb_spec expected_type "string") as [Hs | Hne].
    + pose proof (string_type_code _ _ Hcode Hs) as ->. done.
    + by destruct code.
Qed.

Lemma get_attr_contract_witness :
  (get_attr (reader_of (mk_op "c" "Clip" ["x"] ["y"] [float_attr "min" 0.5]))
     "min" "float" PyNone (state_with_inputs [Some 0%nat])).1
  = inr (PyFloat 0.5)
  ∧ (get_attr (reader_of (mk_op "c" "Clip" ["x"] ["y"] [float_attr "min" 0.5]))
       "max" "float" PyNone (state_with_inputs [Some 0%nat])).1
    = inr PyNone
  ∧ (get_attr (reader_of (resize_with_mode not_utf8))
       "mode" "string" (PyStr "nearest") (state_with_inputs [Some 0%nat])).1
    = inl (UnicodeDecodeError not_utf8).
Proof.
  destruct (get_attr_contract
              (reader_of (mk_op "c" "Clip" ["x"] ["y"] [float_attr "min" 0.5]))
              "min" "float" PyNone (state_with_inputs [Some 0%nat]) FLOAT eq_refl)
    as (_ & _ & _ & H).
  split; [exact (H (float_attr "min" 0.5) eq_refl eq_refl) |].
  split.
  - by destruct (get_attr_contract
              (reader_of (mk_op "c" "Clip" ["x"] ["y"] [float_attr "min" 0.5]))
              "max" "float" PyNone (state_with_inputs [Some 0%nat]) FLOAT eq_refl)
      as (_ & H' & _).
  - destruct (get_attr_contract (reader_of (resize_with_mode not_utf8))
                "mode" "string" (PyStr "nearest")
                (state_with_inputs [Some 0%nat]) STRING eq_refl)
      as (_ & _ & _ & H').
    exact (H' (string_attr "mode" not_utf8) eq_refl eq_refl).
Defined.

Lemma existsb_py_eq_ints l allowed :
  existsb (py_eq (PyInts l)) (map PyInts allowed) = bool_decide (l ∈ allowed).
Proof.
  induction allowed as [| x allowed IH]; cbn [map existsb py_eq].
  - by rewrite bool_decide_eq_false_2 by apply not_elem_of_nil.
  - rewrite IH. apply eq_true_iff_eq.
    rewrite orb_true_iff, !bool_decide_eq_true, elem_of_cons. tauto.
Qed.

(** X5.  [require_attr] fails with MissingRequiredAttribute exactly when the
    operator has no attribute of the name, and returns what [get_attr]
    returns otherwise; [check_attr] accepts an absent attribute, and for a
    present one either accepts it or fails with UnsupportedAttributeValue,
    which carries the value read; a failure of [get_attr] passes through
    both.  Whatever the outcome, the only change is that the name is marked
    as handled.  Against an integer default, an integer attribute is
    accepted exactly when its value is the default; against a tuple of lists
    of integers, a list attribute is accepted exactly when it is one of
    them. *)
Theorem require_and_check_attr self name expected_type s code :
  AttributeProto_getattr (upper expected_type) = inr code →
  (find_attr (proto_attribute (onnx_op self)) name = None →
   require_attr self name expected_type s
   = (inl (MissingRequiredAttribute name), mark_handled self name s)
   ∧ ∀ default, check_attr self name expected_type default s
                = (inr tt, mark_handled self name s))
  ∧ (∀ attr val,
       find_attr (proto_attribute (onnx_op self)) name = Some attr →
       (get_attr self name expected_type PyNone s).1 = inr val →
       require_attr self name expected_type s
       = (inr val, mark_handled self name s)
       ∧ ∀ default,
           (check_attr self name expected_type default s).2
           = mark_handled self name s
           ∧ ((check_attr self name expected_type default s).1 = inr tt
              ∨ (check_attr self name expected_type default s).1
                = inl (UnsupportedAttributeValue val name default)))
  ∧ (∀ ex,
       (get_attr self name expected_type PyNone s).1 = inl ex →
       require_attr self name expected_type s = (inl ex, mark_handled self name s)
       ∧ ∀ default, check_attr self name expected_type default s
                    = (inl ex, mark_handled self name s))
  ∧ (∀ attr d,
       find_attr (proto_attribute (onnx_op self)) name = Some attr →
       code = INT → attr_type attr = INT →
       check_attr self name expected_type (PyInt d) s
       = (if attr_i attr =? d then inr tt
          else inl (UnsupportedAttributeValue (PyInt (attr_i attr)) name (PyInt d)),
          mark_handled self name s))
  ∧ (∀ attr allowed,
       find_attr (proto_attribute (onnx_op self)) name = Some attr →
       code = INTS → attr_type attr = INTS →
       check_attr self name expected_type (PyTuple (map PyInts allowed)) s
       = (if bool_decide (attr_ints attr ∈ allowed) then inr tt
          else inl (UnsupportedAttributeValue (PyInts (attr_ints attr)) name
                      (PyTuple (map PyInts allowed))),
          mark_handled self name s)).
Proof.
  intros Hcode.
  assert (Hget : get_attr self name expected_type PyNone s
                 = ((get_attr self name expected_type PyNone s).1,
                    mark_handled self name s)).
  { rewrite (run_get_attr _ _ _ _ _ _ Hcode). done. }
  assert (Hfield : ∀ attr,
    find_attr (proto_attribute (onnx_op self)) name = Some attr →
    attr_type attr = code → code ≠ STRING →
    (get_attr self name expected_type PyNone s).1 = value_fields code attr).
  { intros attr Hfind Hty Hne. rewrite (run_get_attr _ _ _ _ _ _ Hcode). cbn [fst].
    rewrite (lookup_attr_value _ _ _ _ _ attr) by done.
    destruct (String.eqb_spec expected_type "string") as [Hs | _].
    - by pose proof (string_type_code _ _ Hcode Hs).
    - by destruct (value_fields code attr). }
  split_and!.
  - intros Hfind.
    assert (H : (get_attr self name expected_type PyNone s).1 = inr PyNone).
    { rewrite (run_get_attr _ _ _ _ _ _ Hcode). by apply lookup_attr_absent. }
    unfold require_attr, check_attr.
    split; [| intros default]; by rewrite run_bind, Hget, H.
  - intros attr val Hfind Hval.
    assert (Hsome : val ≠ PyNone).
    { rewrite (run_get_attr _ _ _ _ _ _ Hcode) in Hval. cbn in Hval.
      destruct (decide (attr_type attr = code)) as [Hty | Hty].
      - rewrite (lookup_attr_value _ _ _ _ _ attr) in Hval by done.
        destruct code; cbn in Hval; try discriminate;
          (destruct (String.eqb expected_type "string"); cbn in Hval;
           try destruct (utf8_valid _);
           first [discriminate | by injection Hval as <-]).
      - by rewrite (lookup_attr_mismatch _ _ _ _ _ attr) in Hval. }
    unfold require_attr, check_attr.
    split; [| intros default]; rewrite run_bind, Hget, Hval.
    + by destruct val.
    + destruct val; try done; destruct (existsb _ _); cbn; auto.
  - intros ex Hex. unfold require_attr, check_attr.
    split; [| intros default]; by rewrite run_bind, Hget, Hex.
  - intros attr d Hfind -> Hty.
    unfold check_attr. rewrite run_bind, Hget, (Hfield attr) by done.
    cbn. by destruct (attr_i attr =? d).
  - intros attr allowed Hfind -> Hty.
    unfold check_attr. rewrite run_bind, Hget, (Hfield attr) by done.
    cbn [value_fields]. cbv beta iota.
    rewrite existsb_py_eq_ints. by case_bool_decide.
Qed.

Lemma require_and_check_attr_witness :
  require_attr (reader_of (mk_op "p" "MaxPool" ["x"] ["y"] [int_attr "ceil_mode" 1]))
    "kernel_shape" "ints" (state_with_inputs [Some 0%nat])
  = (inl (MissingRequiredAttribute "kernel_shape"),
     mark_handled (reader_of (mk_op "p" "MaxPool" ["x"] ["y"] [int_attr "ceil_mode" 1]))
       "kernel_shape" (state_with_inputs [Some 0%nat]))
  ∧ check_attr (reader_of (mk_op "p" "MaxPool" ["x"] ["y"] [int_attr "ceil_mode" 1]))
      "ceil_mode" "int" (PyInt 0) (state_with_inputs [Some 0%nat])
    = (inl (UnsupportedAttributeValue (PyInt 1) "ceil_mode" (PyInt 0)),
       mark_handled (reader_of (mk_op "p" "MaxPool" ["x"] ["y"] [int_attr "ceil_mode" 1]))
         "ceil_mode" (state_with_inputs [Some 0%nat])).
Proof.
  split.
  - exact (proj1 (proj1 (require_and_check_attr
             (reader_of (mk_op "p" "MaxPool" ["x"] ["y"] [int_attr "ceil_mode" 1]))
             "kernel_shape" "ints" (state_with_inputs [Some 0%nat]) INTS eq_refl)
             eq_refl)).
  - exact (proj1 (proj2 (proj2 (proj2 (require_and_check_attr
             (reader_of (mk_op "p" "MaxPool" ["x"] ["y"] [int_attr "ceil_mode" 1]))
             "ceil_mode" "int" (state_with_inputs [Some 0%nat]) INT eq_refl))))
             (int_attr "ceil_mode" 1) 0 eq_refl eq_refl eq_refl).
Defined.

(** ** Handled and unhandled attributes *)

(** The set object [l] exists and only grows. *)
Definition set_grows (l : loc) (s s' : State) : Prop :=
  (l < length (sets s))%nat →
  (l < length (sets s'))%nat
  ∧ default ∅ (sets s !! l) ⊆ default ∅ (sets s' !! l).

#[global] Instance set_grows_preorder l : PreOrder (set_grows l).
Proof.
  split.
  - intros s H. done.
  - intros s1 s2 s3 H1 H2 H. destruct (H1 H) as [H' E1].
    destruct (H2 H') as [H'' E2]. split; [done | set_solver].
Qed.

Lemma set_grows_same_sets {A} (m : M A) l :
  (∀ s, sets (m s).2 = sets s) → steps (set_grows l) m.
Proof. intros H s. split; [| done]. unfold set_grows. by rewrite H. Qed.

Lemma set_grows_effects l :
  effects (set_grows l) (fun _ => True) (fun _ => True).
Proof.
  split; try done;
    try (intros; apply set_grows_same_sets; intros ?;
         unfold warn_once, print_stderr, list_append, list_setitem, new_list,
           modify, add_node, read_list, gets;
         rewrite ?run_bind; cbn; repeat case_match; done).
  - intros l' x s. split; [| done]. intros H. cbn.
    rewrite length_alter_list. split; [done |].
    destruct (decide (l' = l)) as [-> | Hne].
    + rewrite list_lookup_alter_eq.
      destruct (sets s !! l); cbn; set_solver.
    + by rewrite list_lookup_alter_ne.
  - intros s. split; [| done]. intros H. cbn. rewrite length_app.
    split; [lia |]. by rewrite lookup_app_l.
Qed.

Lemma filter_filter_names (names : gset string) name (attrs : list AttributeProto) :
  filter (fun attr => attr_name attr ∉ {[name]} ∪ names) attrs
  = filter (fun attr => attr_name attr ≠ name)
      (filter (fun attr => attr_name attr ∉ names) attrs).
Proof.
  induction attrs as [| a attrs IH]; [done |].
  rewrite !filter_cons.
  destruct (decide (attr_name a ∉ names)) as [Hn | Hn].
  - rewrite filter_cons.
    destruct (decide (attr_name a ≠ name)) as [Hne | He].
    + rewrite decide_True by set_solver. by rewrite IH.
    + rewrite decide_False by set_solver. exact IH.
  - rewrite decide_False by set_solver. exact IH.
Qed.

Lemma filter_none_handled (names : gset string) (attrs : list AttributeProto) :
  names = ∅ → filter (fun attr => attr_name attr ∉ names) attrs = attrs.
Proof.
  intros ->. induction attrs as [| a attrs IH]; [done |].
  rewrite filter_cons, decide_True by set_solver. by rewrite IH.
Qed.

Lemma run_unhandled_attrs self s :
  unhandled_attrs self s
  = (inr (filter (fun attr =>
                    attr_name attr ∉ default ∅ (sets s !! _handled_attrs self))
            (proto_attribute (onnx_op self))), s).
Proof. reflexivity. Qed.

(** X6.  The reader reports as unhandled exactly the attributes whose names it
    has not been asked for.  A new reader reports every attribute of its
    operator; a read of a name, whatever its outcome, removes the attributes
    of that name from the report and no other; and neither a promotion nor
    the translation of the attributes of any operator puts an attribute
    back. *)
Theorem unhandled_attrs_report :
  (∀ op indexes add s,
     ∃ reader s',
       ONNXOperatorReader__init__ op indexes add s = (inr reader, s')
       ∧ unhandled_attrs reader s' = (inr (proto_attribute op), s'))
  ∧ (∀ self name expected_type default s,
       (_handled_attrs self < length (sets s))%nat →
       ∃ before,
         unhandled_attrs self s = (inr before, s)
         ∧ (unhandled_attrs self (get_attr self name expected_type default s).2).1
           = inr (filter (fun attr => attr_name attr ≠ name) before)
         ∧ (unhandled_attrs self (ignore_attr self name s).2).1
           = inr (filter (fun attr => attr_name attr ≠ name) before))
  ∧ (∀ self input_index name attr_type s attr,
       (∀ n s0, sets (reader_add_node self n s0).2 = sets s0) →
       (_handled_attrs self < length (sets s))%nat →
       (unhandled_attrs self
          (generate_input_from_attr self input_index name attr_type s).2).1
       = inr attr →
       ∀ a, a ∈ attr → ∃ before, (unhandled_attrs self s).1 = inr before
                                 ∧ a ∈ before)
  ∧ (∀ sg self op_type s after,
       (∀ n s0, sets (reader_add_node self n s0).2 = sets s0) →
       (_handled_attrs self < length (sets s))%nat →
       (unhandled_attrs self
          (translate_attrs sg (onnx_op self) self op_type s).2).1
       = inr after →
       ∀ a, a ∈ after → ∃ before, (unhandled_attrs self s).1 = inr before
                                  ∧ a ∈ before).
Proof.
  assert (Hmono : ∀ self s s' after,
    set_grows (_handled_attrs self) s s' →
    (_handled_attrs self < length (sets s))%nat →
    (unhandled_attrs self s').1 = inr after →
    ∀ a, a ∈ after → ∃ before, (unhandled_attrs self s).1 = inr before
                               ∧ a ∈ before).
  { intros self s s' after Hg Hl Hafter a Ha.
    destruct (Hg Hl) as [_ Hsub]. eexists. split; [reflexivity |].
    cbn in Hafter |- *. injection Hafter as <-.
    apply list_elem_of_filter in Ha as [Hn Hin].
    apply list_elem_of_filter. split; [| done]. set_solver. }
  split_and!.
  - intros op indexes add s. eexists _, _.
    split; [apply run_ONNXOperatorReader__init__ |].
    unfold unhandled_attrs. rewrite run_bind. cbn.
    rewrite lookup_app_r, Nat.sub_diag by lia. cbn.
    by rewrite (filter_none_handled ∅).
  - intros self name expected_type default s Hl.
    destruct (lookup_lt_is_Some_2 _ _ Hl) as [h Hh].
    assert (Hmark : sets (mark_handled self name s) !! _handled_attrs self
                    = Some ({[name]} ∪ h)).
    { unfold mark_handled. cbn [sets set_sets].
      by rewrite list_lookup_alter_eq, Hh. }
    eexists. split; [apply run_unhandled_attrs |].
    rewrite get_attr_state.
    change (ignore_attr self name s).2 with (mark_handled self name s).
    rewrite !run_unhandled_attrs. cbn [fst]. rewrite Hmark, Hh. cbn [from_option id].
    by rewrite filter_filter_names.
  - intros self input_index name attr_type s attr Hadd Hl. apply Hmono; [| done].
    pose proof (steps_generate_input_from_attr (set_grows (_handled_attrs self))
                  _ _ (set_grows_effects _) self input_index name attr_type) as Hs.
    destruct (Hs (fun n _ => set_grows_same_sets _ _ (Hadd n)) I s) as [H _].
    exact H.
  - intros sg self op_type s after Hadd Hl. apply Hmono; [| done].
    pose proof (steps_translate_attrs (set_grows (_handled_attrs self)) _ _
                  (set_grows_effects _) sg (onnx_op self) self op_type) as Hs.
    destruct (Hs (fun n _ => set_grows_same_sets _ _ (Hadd n)) I s) as [H _].
    exact H.
Qed.

(** ** Enum attributes *)

Lemma capitalize_all_words words :
  EmptyString ∉ words → ∃ capitalized, capitalize_all words = inr capitalized.
Proof.
  induction words as [| w words IH]; intros H; [by eexists |].
  apply not_elem_of_cons in H as [Hw Hws]. destruct (IH Hws) as (cs & Hcs).
  cbn [capitalize_all].
  destruct (capitalize_nonempty w) as (c & ->); [done |].
  rewrite Hcs. by eexists.
Qed.

(** The transform returns exactly on the strings that have no empty word
    between, before or after their underscores. *)
Lemma snake_case_to_pascal_case_returns v :
  EmptyString ∉ split_underscore v ↔ ∃ p, snake_case_to_pascal_case v = inr p.
Proof.
  split.
  - intros H. unfold snake_case_to_pascal_case.
    destruct (capitalize_all_words _ H) as (cs & ->). by eexists.
  - intros [p Hp] Hin.
    by rewrite (snake_case_to_pascal_case_empty_word _ Hin) in Hp.
Qed.

(** X7.  The read of an enum attribute takes the attribute's string, which
    must be well-formed UTF-8, or the default when the operator has no such
    attribute.  For a string without an empty word, every word has its
    first character put in upper case, as [str.upper] does it, and the
    joined name is looked up on the enum, then the name with a trailing
    underscore; a string that matches under neither spelling is refused with
    UnsupportedEnumValue.  The name is marked as handled and nothing else
    changes. *)
Theorem get_enum_attr_contract self name enum default s :
  let v := match find_attr (proto_attribute (onnx_op self)) name with
           | Some attr => attr_s attr
           | None => default
           end in
  (∀ attr, find_attr (proto_attribute (onnx_op self)) name = Some attr →
           attr_type attr = STRING ∧ utf8_valid (attr_s attr) = true) →
  EmptyString ∉ split_underscore v →
  ∃ pascal_case,
    snake_case_to_pascal_case v = inr pascal_case
    ∧ get_enum_attr self name enum default s
      = (match getattr enum pascal_case with
         | Some x => inr (PyInt x)
         | None =>
             match getattr enum (pascal_case +:+ "_") with
             | Some x => inr (PyInt x)
             | None => inl (UnsupportedEnumValue v name)
             end
         end, mark_handled self name s).
Proof.
  intros v Hty Hwords.
  destruct (proj1 (snake_case_to_pascal_case_returns v) Hwords) as (p & Hp).
  exists p. split; [done |].
  apply get_enum_attr_lookup; [| done]. subst v.
  destruct (find_attr (proto_attribute (onnx_op self)) name) as [attr |] eqn:Hfind.
  - destruct (Hty attr eq_refl) as [Hs Hutf].
    rewrite (lookup_attr_value _ _ _ _ _ attr) by auto. cbn. by rewrite Hutf.
  - by apply lookup_attr_absent.
Qed.

Lemma get_enum_attr_contract_witness :
  (get_enum_attr
     (reader_of (mk_op "s" "ScatterElements" ["x"; "i"; "u"] ["y"] []))
     "reduction" (ScatterReduction sample_schema) "none"
     (state_with_inputs [Some 0%nat])).1
  = inr (PyInt 0)
  ∧ (get_enum_attr
       (reader_of (mk_op "r" "Resize" ["x"] ["y"]
                     [string_attr "nearest_mode" "round_prefer_ceil"]))
       "nearest_mode" (NearestMode sample_schema) "round_prefer_floor"
       (state_with_inputs [Some 0%nat])).1
    = inr (PyInt 3)
  ∧ (get_enum_attr
       (reader_of (mk_op "r" "Resize" ["x"] ["y"] [string_attr "mode" long_s_um]))
       "mode" [("Sum", 7)] "nearest" (state_with_inputs [Some 0%nat])).1
    = inr (PyInt 7).
Proof.
  split_and!.
  - destruct (get_enum_attr_contract
                (reader_of (mk_op "s" "ScatterElements" ["x"; "i"; "u"] ["y"] []))
                "reduction" (ScatterReduction sample_schema) "none"
                (state_with_inputs [Some 0%nat]))
      as (p & Hp & ->).
    + discriminate.
    + vm_compute. intros H. repeat (apply elem_of_cons in H as [H | H]; [discriminate |]).
      by apply elem_of_nil in H.
    + vm_compute in Hp. by injection Hp as <-.
  - destruct (get_enum_attr_contract
                (reader_of (mk_op "r" "Resize" ["x"] ["y"]
                              [string_attr "nearest_mode" "round_prefer_ceil"]))
                "nearest_mode" (NearestMode sample_schema) "round_prefer_floor"
                (state_with_inputs [Some 0%nat]))
      as (p & Hp & ->).
    + intros attr [= <-]. split; reflexivity.
    + vm_compute. intros H. repeat (apply elem_of_cons in H as [H | H]; [discriminate |]).
      by apply elem_of_nil in H.
    + vm_compute in Hp. by injection Hp as <-.
  - destruct (get_enum_attr_contract
                (reader_of (mk_op "r" "Resize" ["x"] ["y"]
                              [string_attr "mode" long_s_um]))
                "mode" [("Sum", 7)] "nearest" (state_with_inputs [Some 0%nat]))
      as (p & Hp & ->).
    + intros attr [= <-]. split; reflexivity.
    + vm_compute. intros H. repeat (apply elem_of_cons in H as [H | H]; [discriminate |]).
      by apply elem_of_nil in H.
    + vm_compute in Hp. by injection Hp as <-.
Defined.

(** ** Padding, strides and dilations *)

Lemma get_attr_ints self name default s v :
  (get_attr self name "ints" (PyInts default) s).1 = inr v → ∃ l, v = PyInts l.
Proof.
  rewrite (run_get_attr _ _ _ _ _ INTS) by reflexivity. cbn [fst].
  destruct (find_attr (proto_attribute (onnx_op self)) name) as [attr |] eqn:Hfind.
  - destruct (decide (attr_type attr = INTS)) as [Hty | Hty].
    + rewrite (lookup_attr_value _ _ _ _ _ attr) by done. cbn.
      intros [= <-]. by eexists.
    + by rewrite (lookup_attr_mismatch _ _ _ _ _ attr).
  - rewrite lookup_attr_absent by done. intros [= <-]. by eexists.
Qed.

Lemma get_attr_string self name default s v :
  (get_attr self name "string" (PyStr default) s).1 = inr v → ∃ x, v = PyStr x.
Proof.
  rewrite (run_get_attr _ _ _ _ _ STRING) by reflexivity. cbn [fst].
  destruct (find_attr (proto_attribute (onnx_op self)) name) as [attr |] eqn:Hfind.
  - destruct (decide (attr_type attr = STRING)) as [Hty | Hty].
    + rewrite (lookup_attr_value _ _ _ _ _ attr) by done. cbn.
      destruct (utf8_valid (attr_s attr)); [| discriminate].
      intros [= <-]. by eexists.
    + by rewrite (lookup_attr_mismatch _ _ _ _ _ attr).
  - rewrite lookup_attr_absent by done. intros [= <-]. by eexists.
Qed.

(** X8.  What the three readers of an operator's geometry return.  [read_pads]
    returns the mode "same" with no pads, for an [auto_pad] of SAME_UPPER or
    SAME_LOWER, or the mode "fixed" with two or four pads, for NOTSET; any
    other [auto_pad], VALID among them, is refused.  [read_strides] and
    [read_dilations] return one or two values.  An operator with none of
    the attributes gets fixed pads of four zeros and strides and dilations
    of two ones. *)
Theorem geometry_readers self s :
  (∀ pad_mode pads,
     (read_pads self s).1 = inr (pad_mode, pads) →
     (pad_mode = "same" ∧ pads = PyInts [])
     ∨ (pad_mode = "fixed"
        ∧ ∃ l, pads = PyInts l ∧ (length l = 2 ∨ length l = 4)%nat))
  ∧ (∀ auto_pad,
       (get_attr self "auto_pad" "string" (PyStr "NOTSET") s).1
       = inr (PyStr auto_pad) →
       auto_pad ≠ "SAME_UPPER" → auto_pad ≠ "SAME_LOWER" → auto_pad ≠ "NOTSET" →
       (read_pads self s).1 = inl (UnsupportedPadMode (PyStr auto_pad)))
  ∧ (∀ strides, (read_strides self s).1 = inr strides →
                ∃ l, strides = PyInts l ∧ (length l = 1 ∨ length l = 2)%nat)
  ∧ (∀ dilations, (read_dilations self s).1 = inr dilations →
                  ∃ l, dilations = PyInts l ∧ (length l = 1 ∨ length l = 2)%nat)
  ∧ (proto_attribute (onnx_op self) = [] →
     (read_pads self s).1 = inr ("fixed", PyInts [0; 0; 0; 0])
     ∧ (read_strides self s).1 = inr (PyInts [1; 1])
     ∧ (read_dilations self s).1 = inr (PyInts [1; 1])).
Proof.
  assert (Hstate : ∀ name ty d s0,
    get_attr self name ty d s0
    = ((get_attr self name ty d s0).1, (get_attr self name ty d s0).2)).
  { intros. by destruct (get_attr _ _ _ _ _). }
  assert (Hlen : ∀ (A : Type) name d s0 (k : PyVal → M A) (msg : string)
                    (a b : nat) (r : A),
    ((v ← get_attr self name "ints" (PyInts d);
      n ← lift (py_len v);
      if negb ((n =? a)%nat || (n =? b)%nat)
      then raise (InvalidAttributeLength msg)
      else k v) s0).1 = inr r →
    ∃ l s1, (length l = a ∨ length l = b)%nat ∧ (k (PyInts l) s1).1 = inr r).
  { intros A name d s0 k msg a b r. rewrite run_bind, Hstate.
    destruct (get_attr self name "ints" (PyInts d) s0).1 as [e | v] eqn:Ev;
      [discriminate |].
    destruct (get_attr_ints _ _ _ _ _ Ev) as (l & ->).
    rewrite run_bind. cbn [lift py_len].
    destruct ((length l =? a)%nat || (length l =? b)%nat) eqn:El;
      cbn [negb]; [| discriminate].
    intros H. exists l. eexists. split; [| exact H].
    apply orb_true_iff in El as [El | El]; apply Nat.eqb_eq in El; auto. }
  split_and!.
  - intros pad_mode pads. unfold read_pads. rewrite run_bind, Hstate.
    destruct (get_attr self "auto_pad" "string" (PyStr "NOTSET") s).1
      as [e | v] eqn:Ev; [discriminate |].
    destruct (get_attr_string _ _ _ _ _ Ev) as (x & ->).
    destruct (str_is (PyStr x) "SAME_UPPER" || str_is (PyStr x) "SAME_LOWER").
    { intros [= <- <-]. by left. }
    destruct (str_is (PyStr x) "NOTSET"); [| discriminate].
    intros H. apply Hlen in H as (l & s1 & Hl & H). cbn in H.
    injection H as <- <-. right. split; [done |]. by exists l.
  - intros auto_pad Hv H1 H2 H3. unfold read_pads. rewrite run_bind, Hstate, Hv.
    cbn [str_is].
    rewrite (proj2 (String.eqb_neq _ _) H1), (proj2 (String.eqb_neq _ _) H2),
      (proj2 (String.eqb_neq _ _) H3). done.
  - intros strides H. apply Hlen in H as (l & s1 & Hl & H). cbn in H.
    injection H as <-. by exists l.
  - intros dilations H. apply Hlen in H as (l & s1 & Hl & H). cbn in H.
    injection H as <-. by exists l.
  - intros Hnil. unfold read_pads, read_strides, read_dilations. split_and!.
    + rewrite run_bind, (run_get_attr _ _ _ _ _ STRING) by reflexivity.
      rewrite lookup_attr_absent by (by rewrite Hnil). cbn.
      rewrite run_bind, (run_get_attr _ _ _ _ _ INTS) by reflexivity.
      by rewrite lookup_attr_absent by (by rewrite Hnil).
    + rewrite run_bind, (run_get_attr _ _ _ _ _ INTS) by reflexivity.
      by rewrite lookup_attr_absent by (by rewrite Hnil).
    + rewrite run_bind, (run_get_attr _ _ _ _ _ INTS) by reflexivity.
      by rewrite lookup_attr_absent by (by rewrite Hnil).
Qed.

(** ** The constant normalizer and the [Constant] operators *)

(** Only the diagnostics of the state change. *)
Definition only_warns (s s' : State) : Prop :=
  lists s' = lists s ∧ sets s' = sets s ∧ nodes s' = nodes s
  ∧ tensor_map s' = tensor_map s ∧ constant_map s' = constant_map s
  ∧ EMITTED_WARNINGS s ⊆ EMITTED_WARNINGS s'.

Lemma for_each_warn_once_only_warns {A} (xs : list A) (f : A → string) s :
  ∃ s', for_each xs (fun x => warn_once (f x)) s = (inr tt, s') ∧ only_warns s s'.
Proof.
  revert s. induction xs as [| x xs IH]; intros s; cbn [for_each].
  - by exists s.
  - destruct (total_warn_once (f x) s) as ([] & s1 & E1).
    rewrite (run_bind_inr _ _ _ _ _ E1).
    destruct (IH s1) as (s2 & E2 & H2). exists s2. split; [done |].
    assert (H1 : only_warns s s1).
    { unfold warn_once in E1. case_bool_decide; injection E1 as <-; [done |].
      unfold only_warns. cbn. split_and!; try done. set_solver. }
    destruct H1 as (? & ? & ? & ? & ? & ?), H2 as (? & ? & ? & ? & ? & ?).
    unfold only_warns. split_and!; try congruence. set_solver.
Qed.

(** The types the normalizer converts. *)
Definition convertible (d : dtype) : bool :=
  match d with
  | float32 | int32 | bool_ | int8 | int16 | int64 => true
  | _ => false
  end.

(** The array the normalizer hands to the constructor, from the loaded
    one. *)
Definition normalized (data : ndarray) : ndarray :=
  match arr_dtype data with
  | float32 | int32 => data
  | int64 => astype_int32 (clip INT32_MIN INT32_MAX data)
  | _ => astype_int32 data
  end.

Lemma normalized_array tensor op_name s data :
  to_array tensor = inr data →
  convertible (tensor_dtype tensor) = true →
  ∃ s',
    constant_node_from_onnx_initializer tensor op_name s
    = (ConstantNode__init__ (tensor_name tensor) (tensor_dims tensor)
         (normalized data), s')
    ∧ only_warns s s'
    ∧ (tensor_dtype tensor ≠ int64 → s' = s)
    ∧ arr_dtype (normalized data) = match tensor_dtype tensor with
                                    | float32 => float32
                                    | _ => int32
                                    end
    ∧ arr_shape (normalized data) = arr_shape data
    ∧ size (normalized data) = buffer_length (tensor_data tensor).
Proof.
  intros Hload Hd. unfold constant_node_from_onnx_initializer, normalized.
  rewrite run_bind, run_lift, Hload.
  destruct (to_array_returns _ _ Hload) as (Hty & Hdata & Hsize & _).
  destruct data as [d shape data]. cbn [arr_dtype arr_data arr_shape] in *.
  subst d data. unfold size. cbn [arr_data].
  destruct (tensor_dtype tensor); try discriminate Hd.
  1-5: exists s; rewrite run_bind; cbn; unfold lift;
       (split; [reflexivity |]); split_and!; try done;
       destruct (tensor_data tensor); cbn; by rewrite ?length_map.
  destruct (for_each_warn_once_only_warns
              (out_of_range_values (mk_ndarray int64 shape (tensor_data tensor)))
              clamp_warning s)
    as (s' & E & Hs').
  exists s'. rewrite run_bind, (run_bind_inr _ _ _ _ _ E). cbn. unfold lift.
  split; [reflexivity |]. split_and!; try done.
  destruct (tensor_data tensor); cbn; by rewrite ?length_map.
Qed.

Lemma normalizer_refuses tensor op_name s data :
  to_array tensor = inr data →
  convertible (tensor_dtype tensor) = false →
  constant_node_from_onnx_initializer tensor op_name s
  = (inl (UnsupportedTensorType (tensor_dtype tensor) op_name), s).
Proof.
  intros Hload Hd. unfold constant_node_from_onnx_initializer.
  rewrite run_bind, run_lift, Hload.
  destruct (to_array_returns _ _ Hload) as (Hty & _). rewrite Hty.
  by destruct (tensor_dtype tensor); try discriminate Hd.
Qed.

Lemma only_warns_refl s : only_warns s s.
Proof. unfold only_warns. by split_and!. Qed.

Lemma normalizer_only_warns tensor op_name s :
  only_warns s (constant_node_from_onnx_initializer tensor op_name s).2.
Proof.
  destruct (to_array tensor) as [ex | data] eqn:Hload.
  { rewrite (normalizer_load_fails _ _ _ _ Hload). apply only_warns_refl. }
  destruct (convertible (tensor_dtype tensor)) eqn:Hd.
  - by destruct (normalized_array tensor op_name s data Hload Hd) as (s' & -> & Hs' & _).
  - rewrite (normalizer_refuses _ _ _ _ Hload Hd). apply only_warns_refl.
Qed.



(** The result of the normalizer does not depend on the state. *)
Lemma normalizer_result tensor op_name s s' :
  (constant_node_from_onnx_initializer tensor op_name s).1
  = (constant_node_from_onnx_initializer tensor op_name s').1.
Proof.
  destruct (to_array tensor) as [ex | data] eqn:Hload.
  { by rewrite !(normalizer_load_fails _ _ _ _ Hload). }
  destruct (convertible (tensor_dtype tensor)) eqn:Hd.
  - destruct (normalized_array tensor op_name s data Hload Hd) as (? & -> & _).
    by destruct (normalized_array tensor op_name s' data Hload Hd) as (? & -> & _).
  - by rewrite !(normalizer_refuses _ _ _ _ Hload Hd).
Qed.

(** X10.  What the conversion of a [Constant] operator does.  An operator with
    no output is refused.  Otherwise its [value] attribute is required and
    must be a tensor; the tensor goes through the normalizer, with the first
    output as the operator name of its messages, and the constant takes the
    name of the first output in place of the name of the tensor.  The
    conversion itself registers no node. *)
Theorem constant_op_outcomes op s :
  let run := constant_node_from_onnx_constant_op op s in
  (proto_output op = [] → run = (inl (NoOutputs (proto_name op)), s))
  ∧ (∀ output_name rest,
       proto_output op = output_name :: rest →
       (find_attr (proto_attribute op) "value" = None →
        run.1 = inl (MissingRequiredAttribute "value"))
       ∧ (∀ attr,
            find_attr (proto_attribute op) "value" = Some attr →
            (attr_type attr ≠ TENSOR →
             run.1 = inl (AttributeTypeMismatch "value" "tensor"))
            ∧ (attr_type attr = TENSOR →
               run.1
               = (c ← (constant_node_from_onnx_initializer (attr_t attr)
                         (Some output_name) s).1;
                  inr (set_cn_name c output_name)))))
  ∧ nodes run.2 = nodes s ∧ tensor_map run.2 = tensor_map s
  ∧ constant_map run.2 = constant_map s
  ∧ (∀ l, (l < length (lists s))%nat → lists run.2 !! l = lists s !! l)
  ∧ (∀ c, run.1 = inr c → head (proto_output op) = Some (cn_name c)).
Proof.
  intros run. subst run. unfold constant_node_from_onnx_constant_op.
  destruct (proto_output op) as [| output_name rest] eqn:Hout.
  { split_and!; try done. }
  set (s1 := set_sets (fun h => h ++ [∅])
               (set_lists (fun h => h ++ [[]]) (set_lists (fun h => h ++ [[]]) s))).
  set (reader := {| onnx_op := op; reader_add_node := noop_add_node;
                    input_indexes := S (length (lists s));
                    _handled_attrs := length (sets s) |}).
  assert (Hrun : ∀ (k : PyVal → M ConstantNode),
    (empty ← new_list [];
     reader ← ONNXOperatorReader__init__ op empty noop_add_node;
     tensor ← require_attr reader "value" "tensor";
     k tensor) s
    = match lookup_attr (proto_attribute op) "value" "tensor" TENSOR PyNone with
      | inl e => (inl e, mark_handled reader "value" s1)
      | inr PyNone => (inl (MissingRequiredAttribute "value"),
                       mark_handled reader "value" s1)
      | inr v => k v (mark_handled reader "value" s1)
      end).
  { intros k. rewrite run_bind. cbn [new_list fst snd].
    rewrite run_bind, run_ONNXOperatorReader__init__. cbn [fst snd].
    unfold require_attr. rewrite !run_bind.
    rewrite (run_get_attr _ _ _ _ _ TENSOR) by reflexivity. cbn [fst snd].
    cbn [set_lists lists length]. rewrite length_app, Nat.add_1_r.
    replace (default [] ((lists s ++ [[]]) !! length (lists s))) with (@nil (option nat))
      by (by rewrite lookup_app_r, Nat.sub_diag by lia).
    fold reader.
    destruct (lookup_attr _ _ _ _ _) as [e | v]; [done |].
    by destruct v. }
  rewrite Hrun. clear Hrun.
  assert (Hs1 : nodes (mark_handled reader "value" s1) = nodes s
                ∧ tensor_map (mark_handled reader "value" s1) = tensor_map s
                ∧ constant_map (mark_handled reader "value" s1) = constant_map s
                ∧ ∀ l, (l < length (lists s))%nat →
                       lists (mark_handled reader "value" s1) !! l = lists s !! l).
  { split_and!; try done. intros l Hl. cbn.
    rewrite <- app_assoc. by rewrite lookup_app_l. }
  destruct Hs1 as (Hn & Htm & Hcm & Hl).
  assert (Hstate : ∀ t (k : ConstantNode → ConstantNode),
    let r := (const_node ← constant_node_from_onnx_initializer t (Some output_name);
              mret (k const_node)) (mark_handled reader "value" s1) in
    r.1 = (c ← (constant_node_from_onnx_initializer t (Some output_name) s).1;
           inr (k c))
    ∧ nodes r.2 = nodes s ∧ tensor_map r.2 = tensor_map s
    ∧ constant_map r.2 = constant_map s
    ∧ ∀ l, (l < length (lists s))%nat → lists r.2 !! l = lists s !! l).
  { intros t k. cbn zeta. rewrite run_bind.
    rewrite (normalizer_result t (Some output_name) s (mark_handled reader "value" s1)).
    destruct (normalizer_only_warns t (Some output_name)
                (mark_handled reader "value" s1))
      as (Hl' & _ & Hn' & Htm' & Hcm' & _).
    destruct (constant_node_from_onnx_initializer t (Some output_name)
                (mark_handled reader "value" s1)) as [[e | c] s2]; cbn in *;
      (split; [done |]); split_and!; try congruence;
      intros l ?; rewrite Hl'; by apply Hl. }
  destruct (find_attr (proto_attribute op) "value") as [attr |] eqn:Hfind.
  - destruct (decide (attr_type attr = TENSOR)) as [Hty | Hty].
    + assert (Hlk : lookup_attr (proto_attribute op) "value" "tensor" TENSOR PyNone
                    = inr (PyTensor (attr_t attr))).
      { by rewrite (lookup_attr_value _ _ _ _ _ attr). }
      rewrite Hlk. cbv beta iota.
      destruct (Hstate (attr_t attr) (fun c => set_cn_name c output_name))
        as (Hr & ? & ? & ? & ?).
      split_and!; try done.
      * intros ? ? [= <- <-]. split; [done |]. intros a [= <-]. split; [done |].
        intros _. exact Hr.
      * intros c Hc. rewrite Hr in Hc.
        destruct (constant_node_from_onnx_initializer _ _ s).1; [done |].
        by injection Hc as <-.
    + rewrite (lookup_attr_mismatch _ _ _ _ _ attr) by done.
      split_and!; try done.
      intros ? ? [= <- <-]. split; [done |]. intros a [= <-]. by split.
  - rewrite lookup_attr_absent by done.
    split_and!; try done.
    all: intros ? ? [= <- <-]; by split.
Qed.

(** ** What the translation of an operator changes

    The attribute translator reaches the graph and the input list of its
    reader through [generate_input_from_attr] only; everything else it
    does marks attributes as handled or warns. *)

Section Translation.

Variable R : State → State → Prop.
Context `{!PreOrder R}.
Variable G : ONNXOperatorReader → Prop.
Hypothesis quiet_set_add : ∀ l x, steps R (set_add l x).
Hypothesis quiet_warn_once : ∀ msg, steps R (warn_once msg).
Hypothesis promoted : ∀ self input_index name attr_type,
  G self → steps R (generate_input_from_attr self input_index name attr_type).

Lemma translation_get_attr self name expected_type default :
  steps R (get_attr self name expected_type default).
Proof.
  unfold get_attr. apply steps_bind; [exact _ | apply quiet_set_add |]. intros _.
  apply steps_bind; [exact _ | by apply spec_lift |]. intros ?. by apply spec_lift.
Qed.

Lemma translation_require_attr self name expected_type :
  steps R (require_attr self name expected_type).
Proof.
  unfold require_attr. apply steps_bind; [exact _ | apply translation_get_attr |].
  intros []; first [by apply spec_raise | by apply spec_ret].
Qed.

Lemma translation_check_attr self name expected_type default :
  steps R (check_attr self name expected_type default).
Proof.
  unfold check_attr. apply steps_bind; [exact _ | apply translation_get_attr |].
  intros v. destruct v; try (by apply spec_ret);
    (destruct (existsb _ _); [by apply spec_ret | by apply spec_raise]).
Qed.

Lemma translation_get_enum_attr self name enum default :
  steps R (get_enum_attr self name enum default).
Proof.
  unfold get_enum_attr. apply steps_bind; [exact _ | apply translation_get_attr |].
  intros v. destruct v; try (by apply spec_raise).
  apply steps_bind; [exact _ | by apply spec_lift |]. intros ?.
  repeat (destruct (getattr _ _); [by apply spec_ret |]). by apply spec_raise.
Qed.

Lemma translation_read_pads self : steps R (read_pads self).
Proof.
  unfold read_pads. apply steps_bind; [exact _ | apply translation_get_attr |].
  intros v. destruct (_ || _); [by apply spec_ret |].
  destruct (str_is _ _); [| by apply spec_raise].
  apply steps_bind; [exact _ | apply translation_get_attr |]. intros pads.
  apply steps_bind; [exact _ | by apply spec_lift |]. intros n.
  destruct (negb _); [by apply spec_raise | by apply spec_ret].
Qed.

Lemma translation_read_strides self : steps R (read_strides self).
Proof.
  unfold read_strides. apply steps_bind; [exact _ | apply translation_get_attr |].
  intros v. apply steps_bind; [exact _ | by apply spec_lift |]. intros n.
  destruct (negb _); [by apply spec_raise | by apply spec_ret].
Qed.

Lemma translation_read_dilations self : steps R (read_dilations self).
Proof.
  unfold read_dilations. apply steps_bind; [exact _ | apply translation_get_attr |].
  intros v. apply steps_bind; [exact _ | by apply spec_lift |]. intros n.
  destruct (negb _); [by apply spec_raise | by apply spec_ret].
Qed.

Lemma translation_normalizer tensor op_name :
  steps R (constant_node_from_onnx_initializer tensor op_name).
Proof.
  unfold constant_node_from_onnx_initializer.
  apply steps_bind; [exact _ | by apply spec_lift |]. intros data.
  apply steps_bind; [exact _ | | intros; by apply spec_lift].
  destruct (arr_dtype _); try (by apply spec_raise); try (by apply spec_ret).
  apply steps_bind; [exact _ | | intros; by apply spec_ret].
  apply steps_for_each; [exact _ |]. intros. apply quiet_warn_once.
Qed.

Ltac translation_step HG :=
  unfold steps;
  lazymatch goal with
  | |- spec R (if ?b then _ else _) _ => destruct b
  | |- spec R (match ?x with _ => _ end) _ => destruct x
  | |- spec R (mret _) _ => apply spec_ret; [exact _ | exact I]
  | |- spec R (raise _) _ => apply spec_raise; exact _
  | |- spec R (lift _) _ => apply spec_lift; [exact _ | intros; exact I]
  | |- spec R (get_attr _ _ _ _) _ => apply translation_get_attr
  | |- spec R (require_attr _ _ _) _ => apply translation_require_attr
  | |- spec R (check_attr _ _ _ _) _ => apply translation_check_attr
  | |- spec R (ignore_attr _ _) _ => apply quiet_set_add
  | |- spec R (get_enum_attr _ _ _ _) _ => apply translation_get_enum_attr
  | |- spec R (read_pads _) _ => apply translation_read_pads
  | |- spec R (read_strides _) _ => apply translation_read_strides
  | |- spec R (read_dilations _) _ => apply translation_read_dilations
  | |- spec R (generate_input_from_attr _ _ _ _) _ => apply promoted; exact HG
  | |- spec R (constant_node_from_onnx_initializer _ _) _ =>
      apply translation_normalizer
  | |- spec R (_ ≫= _) _ => apply steps_bind; [exact _ | | intros ?]
  end.

Lemma translation_translate_attrs sg onnx_op self op_type :
  G self → steps R (translate_attrs sg onnx_op self op_type).
Proof.
  intros HG. unfold translate_attrs. cbv zeta.
  repeat translation_step HG.
Qed.

End Translation.

(** [promotes op_name l]: the nodes that were added are constants named
    after the operator, the list [l] has been extended, by entries that
    point at those constants, and no other list has changed. *)
Definition promotes (op_name : string) (l : loc) (s s' : State) : Prop :=
  ∀ cur, lists s !! l = Some cur →
    ∃ constants more,
      nodes s' = nodes s ++ map NConstant constants
      ∧ Forall (fun c => ∃ attr, cn_name c = op_name +:+ ":wasnn-" +:+ attr)
          constants
      ∧ lists s' !! l = Some (cur ++ more)
      ∧ Forall (fun x => ∀ i, x = Some i →
                  (length (nodes s) ≤ i < length (nodes s'))%nat) more
      ∧ (∀ l', l' ≠ l → lists s' !! l' = lists s !! l')
      ∧ tensor_map s ⊆ tensor_map s'.

#[global] Instance promotes_preorder op_name l : PreOrder (promotes op_name l).
Proof.
  split.
  - intros s cur Hcur. exists [], []. rewrite !app_nil_r. by split_and!.
  - intros s1 s2 s3 H12 H23 cur Hcur.
    destruct (H12 cur Hcur) as (c1 & m1 & Hn1 & Hc1 & Hl1 & Hm1 & Ho1 & Ht1).
    destruct (H23 _ Hl1) as (c2 & m2 & Hn2 & Hc2 & Hl2 & Hm2 & Ho2 & Ht2).
    exists (c1 ++ c2), (m1 ++ m2). split_and!.
    + by rewrite Hn2, Hn1, map_app, app_assoc.
    + by apply Forall_app.
    + by rewrite Hl2, app_assoc.
    + apply Forall_app. split.
      * eapply Forall_impl; [exact Hm1 |]. intros x Hx i Hi.
        specialize (Hx i Hi). rewrite Hn2, length_app. lia.
      * eapply Forall_impl; [exact Hm2 |]. intros x Hx i Hi.
        specialize (Hx i Hi). rewrite Hn1, length_app in Hx. lia.
    + intros l' Hl'. by rewrite Ho2, Ho1.
    + by etrans.
Qed.

Lemma promotes_same {A} (m : M A) op_name l :
  (∀ s, lists (m s).2 = lists s ∧ nodes (m s).2 = nodes s
        ∧ tensor_map (m s).2 = tensor_map s) →
  steps (promotes op_name l) m.
Proof.
  intros H s. split; [| done]. destruct (H s) as (Hl & Hn & Ht).
  intros cur Hcur. exists [], []. rewrite Hl, Hn, Ht, !app_nil_r. by split_and!.
Qed.

Lemma promotes_generate_input_from_attr self input_index name attr_type :
  reader_add_node self = add_node →
  steps (promotes (proto_name (onnx_op self)) (input_indexes self))
    (generate_input_from_attr self input_index name attr_type).
Proof.
  intros Hadd s. split; [| done]. intros cur Hcur.
  rewrite (generate_input_from_attr_run _ _ _ _ _ cur Hadd Hcur).
  assert (Hsame : ∀ r,
    ∃ constants more,
      nodes (r, mark_handled self name s).2 = nodes s ++ map NConstant constants
      ∧ Forall (fun c => ∃ attr, cn_name c
                  = proto_name (onnx_op self) +:+ ":wasnn-" +:+ attr) constants
      ∧ lists (r : result unit, mark_handled self name s).2 !! input_indexes self
        = Some (cur ++ more)
      ∧ Forall (fun x => ∀ i, x = Some i →
                  (length (nodes s) ≤ i
                   < length (nodes (r, mark_handled self name s).2))%nat) more
      ∧ (∀ l', l' ≠ input_indexes self →
               lists (r, mark_handled self name s).2 !! l' = lists s !! l')
      ∧ tensor_map s ⊆ tensor_map (r, mark_handled self name s).2).
  { intros r. exists [], []. cbn. rewrite !app_nil_r. by split_and!. }
  unfold promotion.
  destruct (get_attr self name attr_type PyNone s).1 as [e | v]; [apply Hsame |].
  assert (Hbody :
    ∃ constants more,
      let after :=
        (if (input_index <? length cur)%nat
         then (inl (ConflictingAttributeAndInput name input_index),
               mark_handled self name s)
         else
           match generated_input name attr_type v with
           | inl e => (inl e, mark_handled self name s)
           | inr (shape, data) =>
               match ConstantNode__init__
                       (proto_name (onnx_op self) +:+ ":wasnn-" +:+ name)
                       shape data with
               | inl e => (inl e, mark_handled self name s)
               | inr c =>
                   match tensor_map s
                         !! (proto_name (onnx_op self) +:+ ":wasnn-" +:+ name) with
                   | Some _ =>
                       (inl (DuplicateNodeName
                               (proto_name (onnx_op self) +:+ ":wasnn-" +:+ name)),
                        mark_handled self name s)
                   | None =>
                       (inr tt,
                        with_lists
                          (<[input_indexes self :=
                               cur ++ replicate (input_index - length cur) None
                                   ++ [Some (length (nodes s))]]> (lists s))
                          (register (NConstant c) (mark_handled self name s)))
                   end
               end
           end : result unit * State).2 in
      nodes after = nodes s ++ map NConstant constants
      ∧ Forall (fun c => ∃ attr, cn_name c
                  = proto_name (onnx_op self) +:+ ":wasnn-" +:+ attr) constants
      ∧ lists after !! input_indexes self = Some (cur ++ more)
      ∧ Forall (fun x => ∀ i, x = Some i →
                  (length (nodes s) ≤ i < length (nodes after))%nat) more
      ∧ (∀ l', l' ≠ input_indexes self → lists after !! l' = lists s !! l')
      ∧ tensor_map s ⊆ tensor_map after).
  { destruct (input_index <? length cur)%nat; [apply Hsame |].
    destruct (generated_input name attr_type v) as [e | [shape data]];
      [apply Hsame |].
    destruct (ConstantNode__init__ _ shape data) as [e | c] eqn:Hc; [apply Hsame |].
    destruct (tensor_map s !! _) as [i |] eqn:Hfresh; [apply Hsame |].
    apply ConstantNode__init__ok in Hc as [Hc _].
    exists [c], (replicate (input_index - length cur) None ++ [Some (length (nodes s))]).
    cbn. split_and!.
    - done.
    - constructor; [| done]. exists name. by subst c.
    - apply list_lookup_insert_eq. by eapply lookup_lt_Some.
    - apply Forall_app. split.
      + apply Forall_forall. intros x Hx%elem_of_replicate. by destruct Hx as [-> _].
      + constructor; [| done]. intros i [= <-]. rewrite length_app. cbn. lia.
    - intros l' Hl'. by rewrite list_lookup_insert_ne.
    - apply insert_subseteq. subst c. exact Hfresh. }
  destruct v; first [apply Hsame | exact Hbody].
Qed.

(** The translator under [promotes]. *)
Lemma promotes_translate_attrs sg op self op_type :
  reader_add_node self = add_node →
  steps (promotes (proto_name (onnx_op self)) (input_indexes self))
    (translate_attrs sg op self op_type).
Proof.
  intros Hadd.
  apply (translation_translate_attrs _
           (fun r => reader_add_node r = add_node
                     ∧ onnx_op r = onnx_op self
                     ∧ input_indexes r = input_indexes self)).
  - intros l x. by apply promotes_same.
  - intros msg. apply promotes_same. intros s. unfold warn_once.
    by case_bool_decide.
  - intros r i name ty (Hr & Hop & Hl). rewrite <- Hop, <- Hl.
    by apply promotes_generate_input_from_attr.
  - done.
Qed.

(** ** The node of an operator *)

Lemma resolve_inputs_returns op_name c inputs s s' :
  for_each inputs (fun input_name =>
    index ← (if negb (String.eqb input_name EmptyString)
             then resolve "input" input_name op_name
             else mret None);
    list_append c index) s = (inr tt, s') →
  Forall (fun name => name ≠ EmptyString → is_Some (tensor_map s !! name)) inputs.
Proof.
  revert s. induction inputs as [| name inputs IH]; intros s H; [done |].
  cbn [for_each] in H. apply bind_returns in H as ([] & s1 & Hbody & Hrest).
  apply bind_returns in Hbody as (index & s0 & Hres & Happ).
  assert (Hs0 : s0 = s ∧ (name ≠ EmptyString → is_Some (tensor_map s !! name))).
  { destruct (String.eqb_spec name EmptyString) as [-> | Hne]; cbn [negb] in Hres.
    - by injection Hres as _ <-.
    - unfold resolve in Hres. rewrite run_bind in Hres. cbn [gets] in Hres.
      destruct (tensor_map s !! name) as [i |]; [| discriminate].
      injection Hres as _ <-. split; [done |]. by eexists. }
  destruct Hs0 as [-> Hname].
  injection Happ as <-. apply IH in Hrest. by constructor.
Qed.

Lemma resolve_outputs_returns op_name outputs acc s r s' :
  for_fold outputs acc (fun acc output_name =>
    index ← resolve "output" output_name op_name;
    mret (acc ++ [index])) s = (inr r, s') →
  Forall (fun name => is_Some (tensor_map s !! name)) outputs.
Proof.
  revert acc s. induction outputs as [| name outputs IH]; intros acc s H; [done |].
  cbn [for_fold] in H. apply bind_returns in H as (acc' & s1 & Hbody & Hrest).
  apply bind_returns in Hbody as (index & s0 & Hres & Hret).
  unfold resolve in Hres. rewrite run_bind in Hres. cbn [gets] in Hres.
  destruct (tensor_map s !! name) as [i |] eqn:Hi; [| discriminate].
  injection Hres as _ <-. injection Hret as _ <-.
  apply IH in Hrest. constructor; [by eexists | done].
Qed.

Lemma op_node_from_onnx_operator_resolved sg op add s node s' :
  op_node_from_onnx_operator sg op add s = (inr node, s') →
  Forall (fun name => name ≠ EmptyString → is_Some (tensor_map s !! name))
    (proto_input op)
  ∧ Forall (fun name => is_Some (tensor_map s !! name)) (proto_output op).
Proof.
  intros H. unfold op_node_from_onnx_operator in H.
  apply bind_returns in H as (indexes & s1 & Hnew & H).
  cbn in Hnew. injection Hnew as <- <-.
  apply bind_returns in H as ([] & s2 & Hin & H).
  apply bind_returns in H as (outs & s3 & Hout & _).
  pose proof (resolve_inputs_returns _ _ _ _ _ Hin) as Fin.
  destruct (resolve_inputs_run _ _ _ _ _ (@nil (option nat)) Hin) as (Htm & _).
  { cbn. by rewrite lookup_app_r, Nat.sub_diag by lia. }
  apply resolve_outputs_returns in Hout. rewrite Htm in Hout.
  split; [exact Fin | exact Hout].
Qed.

(** What a returned operator node says.  The operator's type is an
    attribute of the schema's [OperatorType] class, as [hasattr] sees it,
    and the node carries the operator's name and type.  Every
    input and output name was registered when the translation began: the
    outputs of the node are their indexes, and the input list of the node
    begins with the indexes of the inputs.  Whatever follows in that list
    points at nodes registered by the translation, which are constants
    named after the operator.  Nothing else was registered. *)
Lemma op_node_from_onnx_operator_returns sg op s node s' :
  op_node_from_onnx_operator sg op add_node s = (inr node, s') →
  hasattr (OperatorType sg) (proto_op_type op) = true
  ∧ on_name node = proto_name op
  ∧ on_op_type node = proto_op_type op
  ∧ Forall (fun name => name ≠ EmptyString → is_Some (tensor_map s !! name))
      (proto_input op)
  ∧ Forall (fun name => is_Some (tensor_map s !! name)) (proto_output op)
  ∧ on_outputs node = map (fun name => tensor_map s !! name) (proto_output op)
  ∧ ∃ constants more,
      nodes s' = nodes s ++ map NConstant constants
      ∧ Forall (fun c => ∃ attr, cn_name c = proto_name op +:+ ":wasnn-" +:+ attr)
          constants
      ∧ lists s' !! on_inputs node
        = Some (map (resolved_input (tensor_map s)) (proto_input op) ++ more)
      ∧ Forall (fun x => ∀ i, x = Some i →
                  (length (nodes s) ≤ i < length (nodes s'))%nat) more
      ∧ tensor_map s ⊆ tensor_map s'.
Proof.
  intros Hrun.
  pose proof (op_node_from_onnx_operator_resolved _ _ _ _ _ _ Hrun) as Hnames.
  destruct Hnames as [Fin Fout].
  rewrite (op_node_from_onnx_operator_ready sg op add_node s Fin Fout) in Hrun.
  cbv zeta in Hrun.
  set (inputs := map (resolved_input (tensor_map s)) (proto_input op)) in *.
  set (reader := {| onnx_op := op; reader_add_node := add_node;
                    input_indexes := S (length (lists s));
                    _handled_attrs := length (sets s) |}) in *.
  set (s2 := set_sets (fun h => h ++ [∅])
               (with_lists (lists s ++ [inputs; inputs]) s)) in *.
  apply bind_returns in Hrun as (attrs & s3 & Htr & Hend).
  destruct (promotes_translate_attrs sg op reader (proto_op_type op) eq_refl s2)
    as [Hp _].
  rewrite Htr in Hp. cbn [snd] in Hp.
  destruct (Hp inputs) as (constants & more & Hn & Hc & Hl & Hm & _ & Ht).
  { cbn. rewrite lookup_app_r by lia.
    replace (S (length (lists s)) - length (lists s))%nat with 1%nat by lia. done. }
  set (made := {| on_name := proto_name op; on_op_type := proto_op_type op;
                  on_attrs := attrs; on_inputs := S (length (lists s));
                  on_outputs := map (fun name => tensor_map s !! name)
                                  (proto_output op) |}) in *.
  destruct (op_node_from_onnx_operator_end sg op reader made s3)
    as (El & En & Et & _ & Hnode & _).
  cbv zeta in El, En, Et, Hnode. rewrite Hend in El, En, Et, Hnode.
  cbn [fst snd] in El, En, Et, Hnode.
  rewrite (Hnode node eq_refl).
  assert (Hh : hasattr (OperatorType sg) (proto_op_type op) = true).
  { destruct (hasattr (OperatorType sg) (proto_op_type op)); [done |].
    cbn in Hend. discriminate. }
  split_and!; try done.
  exists constants, more. rewrite El, En, Et. split_and!; done.
Qed.


(** ** The operators of a converted graph *)

(** The entries of an operator node that sits at index [i] of the node
    list [ns].  An input entry is None for an omitted input and otherwise
    the index of an earlier node of that name; an output entry is the
    index of an earlier value node of that name, which has no shape; an
    entry for a promoted attribute is None or the index of an earlier
    constant named after the operator. *)
Definition input_entry (ns : list Node) (i : nat) (name : string)
  (x : option nat) : Prop :=
  if String.eqb name EmptyString then x = None
  else ∃ k n, x = Some k ∧ (k < i)%nat ∧ ns !! k = Some n ∧ node_name n = name.

Definition output_entry (ns : list Node) (i : nat) (name : string)
  (x : option nat) : Prop :=
  ∃ k, x = Some k ∧ (k < i)%nat
       ∧ ns !! k = Some (NValue {| vn_name := name; vn_shape := None |}).

Definition promoted_entry (ns : list Node) (i : nat) (op_name : string)
  (x : option nat) : Prop :=
  ∀ k, x = Some k →
       (k < i)%nat
       ∧ ∃ c attr, ns !! k = Some (NConstant c)
                   ∧ cn_name c = op_name +:+ ":wasnn-" +:+ attr.

(** The operator [op] has its node in [ns], with its input list in
    [store]. *)
Definition translated (sg : Schema) (ns : list Node)
  (store : list (list (option nat))) (op : OperatorProto) : Prop :=
  hasattr (OperatorType sg) (proto_op_type op) = true
  ∧ ∃ i o inputs more,
      ns !! i = Some (NOperator o)
      ∧ on_name o = proto_name op
      ∧ on_op_type o = proto_op_type op
      ∧ Forall2 (output_entry ns i) (proto_output op) (on_outputs o)
      ∧ store !! on_inputs o = Some (inputs ++ more)
      ∧ Forall2 (input_entry ns i) (proto_input op) inputs
      ∧ Forall (promoted_entry ns i (proto_name op)) more.

(** What the rest of a run keeps of the state. *)
Definition kept (s s' : State) : Prop :=
  nodes s `prefix_of` nodes s'
  ∧ (∀ l, (l < length (lists s))%nat → lists s' !! l = lists s !! l)
  ∧ (length (lists s) ≤ length (lists s'))%nat.

#[global] Instance kept_preorder : PreOrder kept.
Proof.
  split.
  - intros s. by split_and!.
  - intros s1 s2 s3 (Hn1 & Hl1 & Hk1) (Hn2 & Hl2 & Hk2). split_and!.
    + by etrans.
    + intros l Hl. rewrite Hl2 by lia. by apply Hl1.
    + lia.
Qed.

Lemma translated_kept sg s s' op :
  kept s s' → translated sg (nodes s) (lists s) op →
  translated sg (nodes s') (lists s') op.
Proof.
  intros (Hn & Hl & _) (Hh & i & o & inputs & more & Hi & Hname & Hty & Hout
                        & Hin & Hins & Hmore).
  split; [done |]. exists i, o, inputs, more. split_and!; try done.
  - by eapply prefix_lookup_Some.
  - eapply Forall2_impl; [exact Hout |]. intros name x (k & -> & Hk & Hv).
    exists k. split_and!; try done. by eapply prefix_lookup_Some.
  - rewrite Hl; [done |]. by eapply lookup_lt_Some.
  - eapply Forall2_impl; [exact Hins |]. intros name x. unfold input_entry.
    destruct (String.eqb name EmptyString); [done |].
    intros (k & n & -> & Hk & Hv & Hn'). exists k, n. split_and!; try done.
    by eapply prefix_lookup_Some.
  - eapply Forall_impl; [exact Hmore |]. intros x Hx k Hk.
    destruct (Hx k Hk) as (Hlt & c & attr & Hc & Hcn). split; [done |].
    exists c, attr. split; [| done]. by eapply prefix_lookup_Some.
Qed.

(** The loop over the outputs of an operator, when it returns. *)
Lemma register_outputs_returns outputs s s' :
  for_each outputs (fun output_name =>
    add_node (NValue {| vn_name := output_name; vn_shape := None |});;
    mret tt) s = (inr tt, s') →
  nodes s' = nodes s
             ++ map (fun name => NValue {| vn_name := name; vn_shape := None |})
                  outputs
  ∧ lists s' = lists s.
Proof.
  revert s. induction outputs as [| o outputs IH]; intros s H.
  { injection H as <-. by rewrite app_nil_r. }
  cbn [for_each] in H. apply bind_returns in H as ([] & s1 & Hbody & Hrest).
  apply bind_returns in Hbody as (i & s0 & Hadd & Hret). injection Hret as <-.
  destruct (add_node_cases (NValue {| vn_name := o; vn_shape := None |}) s)
    as [[_ Ha] | [_ Ha]]; rewrite Ha in Hadd; [discriminate |].
  injection Hadd as _ <-.
  destruct (IH _ Hrest) as [Hn Hl]. rewrite Hn, Hl. cbn.
  by rewrite <- app_assoc.
Qed.

(** One operator of the loop, when nothing fails. *)
Lemma operator_translated sg op s sb node sc :
  indexed s →
  for_each (proto_output op) (fun output_name =>
    add_node (NValue {| vn_name := output_name; vn_shape := None |});;
    mret tt) s = (inr tt, sb) →
  op_node_from_onnx_operator sg op add_node sb = (inr node, sc) →
  tensor_map sc !! on_name node = None →
  let sd := register (NOperator node) sc in
  indexed sd ∧ kept s sd ∧ translated sg (nodes sd) (lists sd) op.
Proof.
  intros Hs Hout Hop Hfresh sd.
  assert (Hsb : indexed sb).
  { assert (St : steps keeps_indexed
              (for_each (proto_output op) (fun output_name =>
                 add_node (NValue {| vn_name := output_name; vn_shape := None |});;
                 mret tt))).
    { apply steps_for_each; try exact _. intros name.
      apply steps_bind; try exact _;
        [by apply (eff_add_node keeps_indexed_effects) |].
      intros. apply spec_ret; [exact _ | done]. }
    destruct (St s) as [H _]. rewrite Hout in H. by apply H. }
  assert (Hsc : indexed sc).
  { pose proof (steps_op_node_from_onnx_operator keeps_indexed _ _
                  keeps_indexed_effects (fun _ => I) sg op add_node
                  (eff_add_node keeps_indexed_effects) sb) as [H _].
    rewrite Hop in H. by apply H. }
  destruct (register_outputs_returns _ _ _ Hout) as [Hnb Hlb].
  destruct (op_node_from_onnx_operator_returns _ _ _ _ _ Hop)
    as (Hh & Hname & Hty & Fin & Fout & Houts & constants & more & Hnc & Hc
        & Hl & Hm & Ht).
  destruct (op_node_from_onnx_operator_lists _ _ _ _ _ _
              (fun n s0 => ltac:(by destruct (add_node_cases n s0)
                                   as [[_ ->] | [_ ->]])) Hop)
    as (Horig & Hloc & Hold).
  split_and!.
  - by apply indexed_register.
  - split_and!.
    + cbn. rewrite Hnc, Hnb, <- !app_assoc. by apply prefix_app_r.
    + intros l Hlt. cbn. rewrite Hold by (rewrite Hlb; lia). by rewrite Hlb.
    + cbn. apply lookup_lt_Some in Hl. rewrite <- Hlb, Hloc in *. lia.
  - split; [done |].
    exists (length (nodes sc)), node,
      (map (resolved_input (tensor_map sb)) (proto_input op)), more.
    assert (Hpre : ∀ k n, nodes sb !! k = Some n →
                          (k < length (nodes sc))%nat
                          ∧ nodes sd !! k = Some n).
    { intros k n Hk. split.
      - apply lookup_lt_Some in Hk. rewrite Hnc, length_app. lia.
      - cbn. rewrite Hnc, <- app_assoc. by apply lookup_app_l_Some. }
    split_and!; try done.
    + cbn. by rewrite lookup_app_r, Nat.sub_diag by lia.
    + rewrite Houts. apply Forall2_fmap_r, Forall_Forall2_diag.
      apply Forall_forall. intros name Hin.
      apply list_elem_of_lookup in Hin as (j & Hj).
      assert (Hv : nodes sb !! (length (nodes s) + j)%nat
                   = Some (NValue {| vn_name := name; vn_shape := None |})).
      { rewrite Hnb, lookup_app_r by lia.
        replace (length (nodes s) + j - length (nodes s))%nat with j by lia.
        by rewrite list_lookup_fmap, Hj. }
      exists (length (nodes s) + j)%nat.
      destruct (Hpre _ _ Hv) as [Hlt Hd]. split_and!; try done.
      apply Hsb. by eexists.
    + apply Forall2_fmap_r, Forall_Forall2_diag.
      eapply Forall_impl; [exact Fin |]. intros name Hres.
      unfold input_entry, resolved_input, compose.
      destruct (String.eqb_spec name EmptyString) as [-> | Hne]; [done |].
      destruct (Hres Hne) as (k & Hk). pose proof Hk as Hk'.
      apply Hsb in Hk' as (n & Hn & Hnn).
      destruct (Hpre _ _ Hn) as [Hlt Hd]. by exists k, n.
    + eapply Forall_impl; [exact Hm |]. intros x Hx k ->.
      destruct (Hx k eq_refl) as [Hge Hlt]. split; [done |].
      rewrite Hnc in Hlt. rewrite length_app, length_map in Hlt.
      destruct (lookup_lt_is_Some_2 constants (k - length (nodes sb))%nat)
        as (c & Hck); [lia |].
      pose proof (proj1 (Forall_lookup _ _) Hc _ _ Hck) as (attr & Hattr).
      exists c, attr. split; [| done]. cbn.
      rewrite Hnc, <- app_assoc, lookup_app_r by lia.
      rewrite lookup_app_l by (rewrite length_map; lia).
      by rewrite list_lookup_fmap, Hck.
Qed.

Lemma convert_operators_count sg operators errors s e s' :
  convert_operators sg operators errors s = (inr e, s') → (errors ≤ e)%nat.
Proof.
  revert errors s. induction operators as [| op operators IH]; intros errors s H.
  { injection H as <- _. lia. }
  unfold convert_operators in H. cbn [for_fold] in H.
  apply bind_returns in H as (e1 & s1 & Hbody & Hrest).
  fold (convert_operators sg operators e1) in Hrest. apply IH in Hrest.
  destruct (String.eqb (proto_op_type op) "Constant").
  { injection Hbody as <- _. lia. }
  apply bind_returns in Hbody as ([] & sb & _ & Htry).
  unfold try_except in Htry.
  destruct ((op_node ← op_node_from_onnx_operator sg op add_node;
             add_node (NOperator op_node);; mret errors) sb)
    as [[ex | e0] s0] eqn:Ebody.
  - rewrite run_bind in Htry. cbn in Htry. injection Htry as <- _. lia.
  - injection Htry as <- _.
    apply bind_returns in Ebody as (o & sc & _ & Hadd).
    apply bind_returns in Hadd as (i & sd & _ & Hret). injection Hret as <- _. lia.
Qed.

(** A pass of the operator loop that counts no error has translated every
    operator other than [Constant]. *)
Lemma convert_operators_clean sg operators errors s s' :
  indexed s →
  convert_operators sg operators errors s = (inr errors, s') →
  kept s s'
  ∧ ∀ op, op ∈ operators → proto_op_type op ≠ "Constant" →
          translated sg (nodes s') (lists s') op.
Proof.
  revert errors s. induction operators as [| op operators IH];
    intros errors s Hs H.
  { injection H as <-. split; [done |]. intros op Hin. by apply elem_of_nil in Hin. }
  unfold convert_operators in H. cbn [for_fold] in H.
  apply bind_returns in H as (e1 & s1 & Hbody & Hrest).
  fold (convert_operators sg operators e1) in Hrest.
  pose proof (convert_operators_count _ _ _ _ _ _ Hrest) as Hle.
  destruct (String.eqb_spec (proto_op_type op) "Constant") as [Hc | Hc].
  { injection Hbody as <- <-. destruct (IH _ _ Hs Hrest) as [Hk Hall].
    split; [done |]. intros o [-> | Hin]%elem_of_cons Hne; [done | by apply Hall]. }
  apply bind_returns in Hbody as ([] & sb & Hout & Htry).
  unfold try_except in Htry.
  destruct ((op_node ← op_node_from_onnx_operator sg op add_node;
             add_node (NOperator op_node);; mret errors) sb)
    as [[ex | e0] s0] eqn:Ebody.
  { rewrite run_bind in Htry. cbn in Htry. injection Htry as <- _. lia. }
  injection Htry as -> ->.
  apply bind_returns in Ebody as (node & sc & Hop & Hadd).
  apply bind_returns in Hadd as (i & sd & Hadd & Hret). injection Hret as -> ->.
  destruct (add_node_cases (NOperator node) sc) as [[_ Ha] | [Hfresh Ha]];
    rewrite Ha in Hadd; [discriminate |].
  injection Hadd as _ <-.
  destruct (operator_translated sg op s sb node sc Hs Hout Hop Hfresh)
    as (Hsd & Hkd & Htd).
  destruct (IH _ _ Hsd Hrest) as [Hk Hall].
  split; [by etrans |].
  intros o [-> | Hin]%elem_of_cons Hne; [| by apply Hall].
  by eapply translated_kept.
Qed.

(** X11.  In a graph the builder returns, every operator of the model other than
    [Constant] has an operator node with its name and its type.  The type
    is an attribute of the schema's [OperatorType] class, as [hasattr] sees
    it: one of its members, or a name every class answers to, such as
    [__doc__].  The outputs of the node are value nodes without shape,
    named after the operator's outputs; the input list of the node begins
    with one entry per input of the operator, None for an omitted input
    and otherwise the index of a node of that name; the entries after
    those are None or constants promoted from the operator's attributes.
    All of these nodes come before the operator node: the operators of a
    model that converts are in an order in which every input is produced
    before it is used. *)
Theorem operators_translated sg g s graph s' :
  graph_from_onnx_graph sg g s = (inr graph, s') →
  ∀ op, op ∈ g_node g → proto_op_type op ≠ "Constant" →
        translated sg (graph_nodes graph) (lists s') op.
Proof.
  intros Hrun op Hin Hne.
  destruct (graph_from_onnx_graph_lookups _ _ _ _ _ Hrun) as (-> & _ & _).
  destruct (graph_from_onnx_graph_phases _ _ _ _ _ Hrun)
    as (s1 & s2 & s3 & E1 & E2 & E3 & E4).
  assert (Hs3 : indexed s3).
  { pose proof (steps_convert_initializers keeps_indexed _ _ keeps_indexed_effects
                  (g_initializer g) 0%nat (reset_graph s)) as [H1 _].
    pose proof (steps_convert_constant_ops keeps_indexed _ _ keeps_indexed_effects
                  (g_node g) 0%nat s1) as [H2 _].
    pose proof (steps_register_inputs keeps_indexed _ _ keeps_indexed_effects
                  (g_input g) s2) as [H3 _].
    rewrite E1 in H1. rewrite E2 in H2. rewrite E3 in H3.
    apply H3, H2, H1, indexed_reset. }
  destruct (convert_operators_clean _ _ _ _ _ Hs3 E4) as [_ Hall].
  by apply Hall.
Qed.

Lemma operators_translated_witness :
  (∃ graph s',
     graph_from_onnx_graph sample_schema clip_model initial_state = (inr graph, s')
     ∧ translated sample_schema (graph_nodes graph) (lists s')
         (clip_min "c" ["x"] "y"))
  ∧ getattr (OperatorType sample_schema) "__doc__" = None
  ∧ ∃ graph s',
      graph_from_onnx_graph sample_schema doc_model initial_state = (inr graph, s')
      ∧ translated sample_schema (graph_nodes graph) (lists s')
          (mk_op "d" "__doc__" ["x"] ["y"] []).
Proof.
  split_and!; [| reflexivity |].
  - destruct (graph_from_onnx_graph sample_schema clip_model initial_state)
      as [[e | graph] s'] eqn:Hrun; [vm_compute in Hrun; discriminate |].
    exists graph, s'. split; [done |].
    apply (operators_translated _ _ _ _ _ Hrun).
    + apply list_elem_of_here.
    + discriminate.
  - destruct (graph_from_onnx_graph sample_schema doc_model initial_state)
      as [[e | graph] s'] eqn:Hrun; [vm_compute in Hrun; discriminate |].
    exists graph, s'. split; [done |].
    apply (operators_translated _ _ _ _ _ Hrun).
    + apply list_elem_of_here.
    + discriminate.
Defined.

(** ** Attributes the translator does not read *)

(** Whatever is in the set of emitted warnings was there before or has
    been printed since. *)
Definition warnings_printed (s s' : State) : Prop :=
  stderr s `prefix_of` stderr s'
  ∧ ∀ msg, msg ∈ EMITTED_WARNINGS s' →
           msg ∈ EMITTED_WARNINGS s ∨ msg ∈ stderr s'.

#[global] Instance warnings_printed_preorder : PreOrder warnings_printed.
Proof.
  split.
  - intros s. split; [done | auto].
  - intros s1 s2 s3 [P1 H1] [P2 H2]. split; [by etrans |].
    intros msg Hm. destruct (H2 msg Hm) as [Hm2 | ?]; [| by right].
    destruct (H1 msg Hm2) as [? | Hp]; [by left | right].
    destruct P2 as [k ->]. apply elem_of_app. by left.
Qed.

Lemma warnings_printed_same {A} (m : M A) :
  (∀ s, stderr (m s).2 = stderr s
        ∧ EMITTED_WARNINGS (m s).2 = EMITTED_WARNINGS s) →
  steps warnings_printed m.
Proof.
  intros H s. destruct (H s) as [H1 H2]. split; [| done].
  unfold warnings_printed. rewrite H1, H2. split; [done | auto].
Qed.

Lemma warnings_printed_effects :
  effects warnings_printed (fun _ => True) (fun _ => True).
Proof.
  split; try done;
    try (intros; apply warnings_printed_same; intros ?;
         unfold set_add, list_append, list_setitem, new_list, new_set,
           modify, add_node, read_list, gets;
         rewrite ?run_bind; cbn; repeat case_match; done).
  - intros msg s. split; [| done]. unfold warn_once.
    case_bool_decide; cbn; [reflexivity |]. split.
    + by apply prefix_app_r.
    + intros m [->%elem_of_singleton | Hm]%elem_of_union; [right | by left].
      apply elem_of_app. right. apply list_elem_of_here.
  - intros operator ex s. split; [| done]. cbn. split.
    + by apply prefix_app_r.
    + intros m Hm. by left.
Qed.

Lemma for_each_warns {A} (xs : list A) (f : A → string) s :
  ∃ s', for_each xs (fun x => warn_once (f x)) s = (inr tt, s')
        ∧ only_warns s s'
        ∧ ∀ x, x ∈ xs → f x ∈ EMITTED_WARNINGS s'.
Proof.
  revert s. induction xs as [| x xs IH]; intros s; cbn [for_each].
  - exists s. split_and!; try done. intros x Hx. by apply elem_of_nil in Hx.
  - destruct (total_warn_once (f x) s) as ([] & s1 & E1).
    rewrite (run_bind_inr _ _ _ _ _ E1).
    destruct (IH s1) as (s2 & E2 & H2 & Hin). exists s2. split; [done |].
    assert (H1 : only_warns s s1 ∧ f x ∈ EMITTED_WARNINGS s1).
    { unfold warn_once in E1. case_bool_decide; injection E1 as <-; [done |].
      unfold only_warns. cbn. split_and!; try done; set_solver. }
    destruct H1 as [(? & ? & ? & ? & ? & ?) Hx].
    destruct H2 as (? & ? & ? & ? & ? & Hsub).
    split.
    + unfold only_warns. split_and!; try congruence. set_solver.
    + intros y [-> | Hy]%elem_of_cons; [by apply Hsub | by apply Hin].
Qed.

(** X12.  No attribute of a translated operator is dropped in silence: each one
    has either been read by the translator, so that its name is in the
    reader's set of handled names, or been warned about, with a warning
    that names the attribute and the operator's type and that is printed
    unless the same warning had been emitted before the translation. *)
Theorem unread_attributes_warned sg op s node s' attr :
  op_node_from_onnx_operator sg op add_node s = (inr node, s') →
  attr ∈ proto_attribute op →
  attr_name attr ∈ default ∅ (sets s' !! length (sets s))
  ∨ (unsupported_attribute_warning attr op ∈ EMITTED_WARNINGS s'
     ∧ (unsupported_attribute_warning attr op ∈ EMITTED_WARNINGS s
        ∨ unsupported_attribute_warning attr op ∈ stderr s')).
Proof.
  intros Hrun Hattr.
  assert (Hprinted : ∀ msg, msg ∈ EMITTED_WARNINGS s' →
                            msg ∈ EMITTED_WARNINGS s ∨ msg ∈ stderr s').
  { pose proof (steps_op_node_from_onnx_operator warnings_printed _ _
                  warnings_printed_effects (fun _ => I) sg op add_node
                  (eff_add_node warnings_printed_effects) s) as [[_ H] _].
    by rewrite Hrun in H. }
  destruct (op_node_from_onnx_operator_resolved _ _ _ _ _ _ Hrun) as [Fin Fout].
  rewrite (op_node_from_onnx_operator_ready sg op add_node s Fin Fout) in Hrun.
  cbv zeta in Hrun.
  set (reader := {| onnx_op := op; reader_add_node := add_node;
                    input_indexes := S (length (lists s));
                    _handled_attrs := length (sets s) |}) in *.
  apply bind_returns in Hrun as (attrs & s3 & _ & Hend).
  apply bind_returns in Hend as ([] & s4 & Hcheck & Hend).
  assert (s4 = s3) as ->.
  { destruct (negb _); [discriminate |]. by injection Hcheck as <-. }
  apply bind_returns in Hend as (unhandled & s5 & Hun & Hend).
  rewrite run_unhandled_attrs in Hun. injection Hun as <- <-.
  apply bind_returns in Hend as ([] & s6 & Hloop & Hret).
  injection Hret as _ <-.
  match type of Hloop with
  | for_each ?xs _ _ = _ =>
      destruct (for_each_warns xs (fun a => unsupported_attribute_warning a op) s3)
        as (s7 & E & (_ & Hsets & _) & Hin)
  end.
  rewrite E in Hloop. injection Hloop as <-.
  rewrite Hsets. cbn [_handled_attrs reader] in Hin.
  destruct (decide (attr_name attr ∈ default ∅ (sets s3 !! length (sets s))))
    as [Hh | Hh]; [by left | right].
  assert (Hw : unsupported_attribute_warning attr op ∈ EMITTED_WARNINGS s7).
  { apply Hin. apply list_elem_of_filter. split; [exact Hh | exact Hattr]. }
  split; [exact Hw | by apply Hprinted].
Qed.

Lemma unread_attributes_warned_witness :
  unsupported_attribute_warning (int_attr "extra" 1)
    (mk_op "r" "Relu" ["x"] ["y"] [int_attr "extra" 1])
  ∈ stderr (op_node_from_onnx_operator sample_schema
              (mk_op "r" "Relu" ["x"] ["y"] [int_attr "extra" 1])
              add_node (state_with_values ["x"; "y"])).2.
Proof.
  destruct (op_node_from_onnx_operator sample_schema
              (mk_op "r" "Relu" ["x"] ["y"] [int_attr "extra" 1])
              add_node (state_with_values ["x"; "y"]))
    as [[e | node] s'] eqn:Hrun; [vm_compute in Hrun; discriminate |].
  destruct (unread_attributes_warned _ _ _ _ _ (int_attr "extra" 1) Hrun)
    as [Hh | [_ [He | Hp]]].
  - apply list_elem_of_here.
  - vm_compute in Hrun. injection Hrun as _ <-. vm_compute in Hh.
    discriminate Hh.
  - vm_compute in He. discriminate He.
  - exact Hp.
Defined.

(** ** The layout of a converted graph *)

(** The constant [c] was made from the [Constant] operator [op]: it is
    named after the first output and has the dimensions of the tensor in
    the [value] attribute. *)
Definition constant_of (op : OperatorProto) (c : ConstantNode) : Prop :=
  head (proto_output op) = Some (cn_name c)
  ∧ ∃ attr, find_attr (proto_attribute op) "value" = Some attr
            ∧ attr_type attr = TENSOR
            ∧ cn_shape c = tensor_dims (attr_t attr).

Lemma lookup_attr_tensor attrs name t :
  lookup_attr attrs name "tensor" TENSOR PyNone = inr (PyTensor t) →
  ∃ attr, find_attr attrs name = Some attr ∧ attr_type attr = TENSOR
          ∧ attr_t attr = t.
Proof.
  intros H.
  destruct (find_attr attrs name) as [attr |] eqn:Hfind.
  - destruct (decide (attr_type attr = TENSOR)) as [Hty | Hty].
    + rewrite (lookup_attr_value _ _ _ _ _ attr) in H by done.
      cbn in H. injection H as <-. by exists attr.
    + by rewrite (lookup_attr_mismatch _ _ _ _ _ attr) in H.
  - by rewrite lookup_attr_absent in H.
Qed.

Lemma constant_node_from_onnx_constant_op_returns op s c s' :
  constant_node_from_onnx_constant_op op s = (inr c, s') →
  constant_of op c ∧ nodes s' = nodes s ∧ tensor_map s' = tensor_map s.
Proof.
  unfold constant_node_from_onnx_constant_op. intros H.
  destruct (proto_output op) as [| output_name rest] eqn:Hout; [discriminate |].
  apply bind_returns in H as (empty & s1 & Hnew & H).
  cbn in Hnew. injection Hnew as <- <-.
  apply bind_returns in H as (reader & s2 & Hinit & H).
  rewrite run_ONNXOperatorReader__init__ in Hinit. injection Hinit as <- <-.
  apply bind_returns in H as (v & s3 & Hreq & H).
  unfold require_attr in Hreq.
  apply bind_returns in Hreq as (v0 & s4 & Hget & Hreq).
  rewrite (run_get_attr _ _ _ _ _ TENSOR) in Hget by reflexivity.
  injection Hget as Hlookup <-. cbn [onnx_op] in Hlookup.
  assert (Hv : v0 = v ∧ nodes s3 = nodes s ∧ tensor_map s3 = tensor_map s).
  { destruct v0; try discriminate Hreq; by injection Hreq as <- <-. }
  destruct Hv as (-> & Hn3 & Htm3).
  destruct v; try discriminate H.
  apply lookup_attr_tensor in Hlookup as (attr & Hfind & Hty & <-).
  apply bind_returns in H as (c0 & s5 & Hnorm & Hret). injection Hret as <- <-.
  pose proof (normalizer_only_warns (attr_t attr) (Some output_name) s3)
    as (_ & _ & Hn & Htm & _).
  rewrite Hnorm in Hn, Htm. cbn [snd] in Hn, Htm.
  pose proof (spec_constant_node_from_onnx_initializer graph_grows _ _
                graph_grows_effects (attr_t attr) (Some output_name) s3) as [_ Hc].
  rewrite Hnorm in Hc. destruct (Hc c0 eq_refl) as (_ & data & Hinit).
  apply ConstantNode__init__ok in Hinit as [-> _].
  rewrite Hn, Htm.
  split_and!; try done.
  split; [by rewrite Hout | by exists attr].
Qed.

(** A pass of the [Constant] operator loop that counts no error has
    appended one constant per [Constant] operator, in their order. *)
Lemma convert_constant_ops_clean operators errors s s' :
  convert_constant_ops operators errors s = (inr errors, s') →
  ∃ constants,
    nodes s' = nodes s ++ map NConstant constants
    ∧ Forall2 constant_of
        (filter (fun op => proto_op_type op = "Constant") operators) constants.
Proof.
  revert errors s. induction operators as [| op operators IH]; intros errors s Hrun.
  { injection Hrun as <-. exists []. by rewrite app_nil_r. }
  unfold convert_constant_ops in Hrun. cbn [for_fold] in Hrun.
  apply bind_returns in Hrun as (e1 & s1 & Hbody & Hrest).
  fold (convert_constant_ops operators e1) in Hrest.
  destruct (convert_constant_ops_total operators e1 s1) as (e2 & s2 & E2 & Hle).
  rewrite E2 in Hrest. injection Hrest as -> ->.
  rewrite filter_cons.
  destruct (String.eqb_spec (proto_op_type op) "Constant") as [Hc | Hc];
    cbn [negb] in Hbody.
  - rewrite decide_True by done.
    unfold try_except in Hbody. rewrite run_bind in Hbody.
    destruct (constant_node_from_onnx_constant_op op s) as [[ex | c] s0] eqn:Ec.
    + destruct (total_warn_once (constant_op_error ex) s0) as ([] & s3 & E3).
      rewrite (run_bind_inr _ _ _ _ _ E3) in Hbody. injection Hbody as <- <-. lia.
    + apply constant_node_from_onnx_constant_op_returns in Ec as (Hof & Hn0 & _).
      rewrite run_bind in Hbody.
      destruct (add_node_cases (NConstant c) s0) as [[_ Ha] | [Hfresh Ha]];
        rewrite Ha in Hbody.
      * destruct (total_warn_once (constant_op_error
                    (DuplicateNodeName (node_name (NConstant c)))) s0)
          as ([] & s3 & E3).
        rewrite (run_bind_inr _ _ _ _ _ E3) in Hbody. injection Hbody as <- <-. lia.
      * injection Hbody as <- <-.
        destruct (IH _ _ E2) as (constants & Hn & Hall).
        exists (c :: constants). split; [| by constructor].
        rewrite Hn. cbn. by rewrite Hn0, <- app_assoc.
  - rewrite decide_False by done. injection Hbody as <- <-.
    by apply IH in E2.
Qed.

(** The input loop appends a value node for each graph input whose name
    is not registered yet. *)
Lemma register_inputs_returns values s s' :
  register_inputs values s = (inr tt, s') →
  ∃ added,
    nodes s' = nodes s ++ map (fun v => NValue (value_node_from_onnx_value v)) added
    ∧ added `sublist_of` values
    ∧ ∀ v, v ∈ values →
           is_Some (tensor_map s !! value_name v)
           ∨ ∃ v', v' ∈ added ∧ value_name v' = value_name v.
Proof.
  revert s. induction values as [| v values IH]; intros s Hrun.
  { injection Hrun as <-. exists []. rewrite app_nil_r. split_and!; try done.
    intros v Hv. by apply elem_of_nil in Hv. }
  unfold register_inputs in Hrun. cbn [for_each] in Hrun.
  apply bind_returns in Hrun as ([] & s1 & Hbody & Hrest).
  fold (register_inputs values) in Hrest.
  destruct (IH _ Hrest) as (added & Hn & Hsub & Hall).
  rewrite run_bind in Hbody. cbn [gets] in Hbody.
  destruct (tensor_map s !! value_name v) as [i |] eqn:Ei.
  - injection Hbody as <-. exists added. split_and!; try done.
    + by apply sublist_cons.
    + intros w [-> | Hw]%elem_of_cons; [left; by eexists | by apply Hall].
  - rewrite run_bind in Hbody. unfold add_node in Hbody.
    change (node_name (NValue (value_node_from_onnx_value v)))
      with (value_name v) in Hbody.
    rewrite Ei in Hbody. injection Hbody as <-.
    exists (v :: added). split_and!.
    + rewrite Hn. cbn. by rewrite <- app_assoc.
    + by apply sublist_skip.
    + intros w [-> | Hw]%elem_of_cons.
      * right. exists v. split; [apply list_elem_of_here | done].
      * destruct (Hall w Hw) as [Hreg | (v' & Hv' & Hname)].
        -- cbn in Hreg. destruct (decide (value_name v = value_name w)) as [E | E].
           ++ right. exists v. split; [apply list_elem_of_here | done].
           ++ left. by rewrite lookup_insert_ne in Hreg.
        -- right. exists v'. split; [by apply list_elem_of_further | done].
Qed.

(** X13.  The node list of a converted graph, from its head: one constant per
    initializer, with its name and dimensions; one constant per [Constant]
    operator, named after the operator's first output; then the value
    nodes of the graph inputs, in order, made by
    [value_node_from_onnx_value]; then what the operators add.  A graph
    input gets no value node when one of the constants, or an earlier
    input, has its name. *)
Theorem graph_layout sg g s graph s' :
  graph_from_onnx_graph sg g s = (inr graph, s') →
  ∃ initializers constants inputs rest,
    graph_nodes graph
    = map NConstant initializers ++ map NConstant constants
      ++ map (fun v => NValue (value_node_from_onnx_value v)) inputs ++ rest
    ∧ Forall2 (fun tensor c => cn_name c = tensor_name tensor
                               ∧ cn_shape c = tensor_dims tensor)
        (g_initializer g) initializers
    ∧ Forall2 constant_of
        (filter (fun op => proto_op_type op = "Constant") (g_node g)) constants
    ∧ inputs `sublist_of` g_input g
    ∧ NoDup (map value_name inputs)
    ∧ ∀ v, v ∈ g_input g →
           (∃ c, c ∈ initializers ++ constants ∧ cn_name c = value_name v)
           ∨ (∃ v', v' ∈ inputs ∧ value_name v' = value_name v).
Proof.
  intros Hrun.
  destruct (graph_from_onnx_graph_lookups _ _ _ _ _ Hrun) as (-> & _ & _).
  destruct (graph_from_onnx_graph_grows _ _ _ _ _ Hrun)
    as (s1 & s2 & s3 & E1 & E2 & E3 & _ & _ & _ & [[rest Hrest] _]).
  destruct (convert_initializers_clean _ _ _ _ E1) as (initializers & Hn1 & Hall1).
  destruct (convert_constant_ops_clean _ _ _ _ E2) as (constants & Hn2 & Hall2).
  destruct (register_inputs_returns _ _ _ E3) as (inputs & Hn3 & Hsub & Hin).
  cbn in Hn1.
  assert (Hs2 : indexed s2).
  { pose proof (steps_convert_initializers keeps_indexed _ _ keeps_indexed_effects
                  (g_initializer g) 0%nat (reset_graph s)) as [H1 _].
    pose proof (steps_convert_constant_ops keeps_indexed _ _ keeps_indexed_effects
                  (g_node g) 0%nat s1) as [H2 _].
    rewrite E1 in H1. rewrite E2 in H2. apply H2, H1, indexed_reset. }
  assert (Hs3 : indexed s3).
  { pose proof (steps_register_inputs keeps_indexed _ _ keeps_indexed_effects
                  (g_input g) s2) as [H3 _].
    rewrite E3 in H3. by apply H3. }
  exists initializers, constants, inputs, rest. split_and!; try done.
  - by rewrite Hrest, Hn3, Hn2, Hn1, <- !app_assoc.
  - apply indexed_NoDup in Hs3. rewrite Hn3, map_app in Hs3.
    apply NoDup_app in Hs3 as (_ & _ & Hs3).
    by rewrite map_map in Hs3.
  - intros v Hv. destruct (Hin v Hv) as [[i Hi] | Hadded]; [left | by right].
    apply Hs2 in Hi as (n & Hn & Hname).
    rewrite Hn2, Hn1, <- map_app in Hn.
    rewrite list_lookup_fmap in Hn.
    destruct ((initializers ++ constants) !! i) as [c |] eqn:Hc; [| done].
    injection Hn as <-. exists c. split; [| done].
    by eapply list_elem_of_lookup_2.
Qed.

Lemma graph_layout_witness :
  ∃ graph s' c rest,
    graph_from_onnx_graph sample_schema small_model initial_state = (inr graph, s')
    ∧ graph_nodes graph = NConstant c :: rest
    ∧ cn_name c = "w".
Proof.
  destruct (graph_from_onnx_graph sample_schema small_model initial_state)
    as [[e | graph] s'] eqn:Hrun; [vm_compute in Hrun; discriminate |].
  destruct (graph_layout _ _ _ _ _ Hrun)
    as (initializers & constants & inputs & rest & Hnodes & H1 & _).
  cbn in H1.
  apply Forall2_cons_inv_l in H1 as (c & cs & [Hname _] & Hcs & ->).
  apply Forall2_nil_inv_l in Hcs as ->.
  exists graph, s', c. eexists. split; [done |]. split; [exact Hnodes | done].
Defined.
